(* ===== verification/_CoqProject ===== *)
-Q . S2P
Prelude.v
GoFloat.v
Bytes.v
Sha256.v
Crypto.v
Pipeline.v
Schema.v
Nodes.v
World.v
Placements.v
Files.v
Net.v
Url.v
Listings.v
Uploads.v
Wire.v
Auth.v
PlacementLifecycle.v
Scheduler.v
Apierr.v
Health.v
Accounts.v
Tickets.v
Receipts.v
Agent.v
Challenges.v
Ledger.v
Accrual.v
Invariants.v
Reports.v
Seed.v
Metadata.v
Contents.v
Evolution.v
Service.v
CA.v
NodeAgent.v
NodeLife.v
LedgerViews.v
Reconciliation.v
Ratelimit.v
Gateway.v
GatewayGuards.v
Demo.v
RepairPlan.v
Workers.v
Auditing.v
Repair.v
Consumers.v
Budget.v
Transfer.v
Command.v
Fleet.v
Rounds.v
System.v
Witnesses.v
WitnessesClient.v
WitnessesSystem.v
WitnessesNode.v
WitnessesFleet.v
