(* ===== verification/Prelude.v ===== *)
(** * A distributed storage platform, verified

    The program is a set of Go services.  Customers cut a file into chunks and
    each chunk into 16 Reed-Solomon shards ("fragments"), any 10 of which give
    the chunk back.  The metadata service plans where the fragments go (through
    the placement scheduler) and hands the client a signed ticket per fragment;
    the nodes of independent providers store the fragments against tickets and
    answer with signed receipts; the metadata service commits the file once
    every chunk has 14 receipts.  A health monitor watches heartbeats and audits
    nodes with storage challenges; a repair worker rebuilds fragments that were
    lost; a reaper deletes the copies of deleted files; a ledger charges
    customers and pays providers by the hour; a set of checks looks for broken
    invariants.  All of them share one Postgres database ([src/internal/store]),
    some of them Redis and a NATS bus.

    ** How the model is built

    A service call is an [M S E A]: a function from a state to a [result E A]
    and the new state.  SQL is the shared state: a table is a list of rows in
    table order ([Schema.DB]), a query is a filter or a join over it, an
    [UPDATE … WHERE] is [update_where], a transaction rolls back on an error
    ([transaction]), and generated ids come from counters in the database.
    Statements run one at a time.  A call that reaches Redis or the bus runs
    over [World.World].  Integers are [Z] with int64 and uint64 wrap-around
    written out where the code computes on them ([add64], [mul64], [wrap_s64],
    …); float32 and float64 are IEEE floats with the Standard Library's
    [SpecFloat] operations ([GoFloat]); a time is [Z] nanoseconds; a uuid is a
    128-bit number; SHA-256 and base64url are executable ([Sha256], [Bytes]).
    What the code takes from outside (the clock, random bytes, failing disks and
    buses, the answers of other hosts, the order in which answers arrive) is an
    argument.

    Code that is not in the repository is an interface with its laws: Ed25519
    ([Tickets.Ed25519]: a signature verifies), AES-GCM ([Crypto.Aead]: opening
    undoes sealing, and accepts nothing else), Argon2id ([Crypto.Argon2]: the
    length of a key), the Reed-Solomon matrix ([Crypto.ReedSolomon]: any ten
    shards give the rest), the JSON text of the encryption metadata
    ([Pipeline.MetaJson]) and of a uuid ([Wire.UuidText]): both parse back;
    X.509, PKCS#8 and PEM ([CA.X509]: what is written parses back, what is
    issued verifies under its authority).  The hash that names a ledger
    transaction and the issuing of a certificate inside the metadata service
    are functions.  HKDF and HMAC are executable ([Crypto]).

    ** The files

    - [Prelude]: results, the monad with its rules, [Frame] instances (what a
      call leaves alone), uuids, machine integers, time, list lemmas.
    - [GoFloat], [Bytes], [Sha256]: Go's floats; bytes, big-endian integers,
      uuid bytes, base64url; SHA-256, checked against the published vectors.
    - [Crypto], [Pipeline]: the ciphers as interfaces, with toy instances;
      [pipeline/pipeline.go] and [pipeline/erasure.go]: key wrapping, the
      segmented encryption stream, chunks and shards.
    - [Schema]: the rows ([deploy/migrations], [store.go]) and store errors.
    - [Nodes]: [store/nodes.go], [store/stats.go]: the node table, admission,
      stale transitions, reputation, hourly statistics.
    - [World]: Redis keys, [events/events.go], errors of the services.
    - [Placements]: [store/repair.go], [store/lifecycle.go] and part of
      [store/challenges.go]: every update of a placement, chunk health,
      under-healthy chunks, cap violations, occupants.
    - [Files], [Listings]: [store/files.go], [store/buckets.go]; the paged
      listings with their cursors.
    - [Net], [Url]: the parts of the standard library the code relies on: host
      and port, IP literals, the scheme of a URL; escapes, queries, numbers.
    - [Uploads]: [store/uploads.go].
    - [PlacementLifecycle]: the store calls as one step relation [store_step],
      and the life of a placement row along any sequence of them.
    - [Scheduler]: [scheduler/scheduler.go], [scheduler/score.go].
    - [Apierr], [Health]: [apierr/apierr.go]; [healthmon/state.go],
      [healthmon/healthmon.go], [healthmon/rollup.go].
    - [Tickets], [Receipts]: the signed byte formats of [tickets/tickets.go] and
      [receipts/receipts.go].
    - [Agent]: the node's fragment store, endpoints and scrubber
      ([agent/store.go], [agent/fragments.go], [agent/scrub.go]).
    - [Challenges]: [healthmon/challenge.go] with its tables.
    - [Ledger], [Accrual]: [ledger/ledger.go], [ledger/accrue.go],
      [store/ledger.go], [store/meters.go] and the balance trigger of the
      migrations.
    - [Invariants]: [invariants/invariants.go], [invariants/zk.go].
    - [Metadata]: [metadata/upload.go]; [Contents]: the rows of a version
      against its manifest, from the plan to the download; [RepairPlan]: [metadata/repair.go],
      [metadata/lifecycle.go], [metadata/challenges.go].
    - [Auth], [Accounts]: [auth/auth.go]; [metadata/nodes.go],
      [store/users.go], [store/apikeys.go], [store/registration_codes.go]: users,
      keys, registration codes, registration and renewal of nodes.
    - [Evolution]: a class of relations every operation keeps the state in,
      with instances for the operations a customer can reach.
    - [Wire], [Service]: what crosses the wire between the services;
      [metadata/service.go] as a record of operations, [metadata/http.go] and
      [metadata/client.go] over it.
    - [CA]: [ca/ca.go], the certificate authority with its files.
    - [NodeAgent]: [agent/config.go], [agent/agent.go], [agent/identity.go] and
      the loops of the agent: configuration, identity files under failing reads
      and writes, registration, heartbeats, renewal, scrub reports, all against
      a control plane that is an interface.
    - [NodeLife]: that control plane implemented by the metadata and health
      monitor routes over the platform state, and the agent running against it
      among any other steps of the platform.
    - [LedgerViews], [Reconciliation]: [ledger/http.go] with the queries behind
      the storage and earnings views; the views against the ledger.
    - [Ratelimit], [Gateway], [GatewayGuards]: [ratelimit/ratelimit.go] with its
      Redis script, [gateway/gateway.go], and who is turned away by it.
    - [Workers]: the metadata service and the nodes as the workers see them
      ([repair/meta.go], the routes of [metadata/repair.go],
      [metadata/lifecycle.go] and [metadata/challenges.go]), and the scheduler as
      the metadata service reaches it ([scheduler/client.go]).
    - [Auditing]: the audits of [healthmon/challenge.go]; [Repair]:
      [repair/worker.go], [lifecycle/reaper.go]; [Consumers]: the usage archive of
      [cmd/ledger/main.go] and the queue of repair jobs; [Budget]: the bandwidth
      budget of the repair worker.
    - [Transfer]: [cmd/dsp/transfer.go]: [dsp put] and [dsp get].
    - [Command]: [cmd/dsp/main.go], [cmd/dsp/client.go]: the other commands, and
      the gateway as the client reaches it.
    - [Fleet]: the nodes behind their HTTP routes and addresses, and the requests
      of the four clients that call them ([cmd/dsp/transfer.go],
      [repair/transfer.go], [lifecycle/reaper.go], [healthmon/challenge.go]);
      [Rounds]: the reaper and the audits over it.
    - [System]: the client, the gateway and the metadata service together.
    - [Reports]: the read-only queries of [store/repair.go] and
      [store/ledger.go]; [Demo]: [metadata/demo.go] with its way through the
      gateway; [Seed]: the fixture of [store/seed.go], which the checks accept.
    - [Witnesses], [WitnessesClient], [WitnessesNode], [WitnessesSystem],
      [WitnessesFleet]: concrete runs for the theorems with hypotheses.

    Interfaces between components: [Metadata.Placer] with [PlacerLaws] is what
    the metadata service asks of the scheduler, discharged by
    [scheduler_placer_laws] and, over the network, by
    [Workers.http_placer_laws]; [Workers.WorkerMeta] is the metadata service as
    the repair worker, the reaper and the challenger call it, over any state,
    [Workers.MetaFor] what one such service may stand for, and [Workers.Agents]
    the nodes as they call them, so that [audit], [onJob] and [reap_once] run in
    process ([StoreMeta]) or over HTTP ([HttpMeta], [http_meta]), against nodes
    that are scripted or those of a whole fleet ([Fleet.WorkerAgents]);
    [Consumers.Stream] with [StreamLaws] is JetStream; [Accrual.LedgerFree] is what accrual asks of its
    meters (posting does not move them), discharged for the production meters by
    [StoreMeters_free]; [Service.Service] is the metadata service as its clients
    see it, which the database implements ([Service.StoreService]) and the HTTP
    client over the HTTP handlers implements again ([Client_speaks_for]);
    [System.Relays] is what such a stand-in may be used for in the middle of a
    system, so that [System.put_then_get] holds for either;
    [NodeAgent.ControlPlane] with [ControlPlaneLaws] is the platform as a node
    sees it, implemented by [NodeLife.plane] with [plane_laws];
    [Evolution.Evolves] is what an operation promises about the state before and
    after, by which the gateway's theorems cover every route.

    ** What is shown

    - Placement rows: unique ids, one row per fragment and node, and no way back
      from expiring or deleted, along every run ([PlacementLifecycle]); losing a
      node loses exactly its copies ([Placements]).
    - Uploads and downloads: commits need 14 stored copies per chunk, plans are
      complete or undone, resuming is idempotent, only signed receipts make a
      copy stored or a download metered, download plans only use good copies
      ([Uploads], [Metadata]).
    - Scheduling: distinctness and the region, network and owner caps hold for
      every random draw and every float score ([Scheduler]).
    - Tickets and receipts: round trips, authenticity of whatever is accepted,
      single use over any later requests ([Tickets], [Receipts], [Agent]).
    - Health: the SQL of the scan against the state machine, the scan, the
      heartbeat and scrub handlers on every branch; audits, and that an honest
      node passes them ([Health], [Challenges]).
    - Repair: offline nodes, verified shards in any arrival order, a job from its
      plan to its commit: every target is sent its own shard, rebuilt from any ten,
      and only the receipts that came back are committed ([Repair],
      [RepairPlan]); a job stays queued until it is done, a usage event is
      archived once ([Consumers]).
    - Over the network: a receipt that arrives means that the node meant holds the
      bytes, whoever answered ([Fleet]); a copy the reaper reports deleted is gone
      from its node; an honest node in reach passes its audits ([Rounds]).
    - The client: what is encrypted, cut and coded comes back, decryption fails
      closed on anything else, any ten shards give a chunk, a put commits only
      what the nodes took ([Pipeline], [Transfer]).
    - End to end: a file that was put through the gateway is the file that is got
      through it, whatever the nodes and networks do, in whatever order answers
      come ([Contents], [System]).
    - Accounts: the registry stays well-formed, codes are used once, nodes are
      registered and renewed on the stated grounds only, passwords parse back
      ([Accounts], [Auth]).
    - The gateway: no handler runs without its password, key and scope, a
      refusal leaves no trace, a revoked key is shut out after any run of
      requests, files of others stay out of reach, attempts are limited; the
      HTTP client speaks for the service it calls ([Gateway], [GatewayGuards],
      [Service], [Ratelimit]); paging through a listing is complete ([Listings]).
    - The life of a node: a restart finds the identity the last run kept; an
      agent that has saved what it registered stays known to the registry, under
      its key, along any run of the platform; its heartbeat is answered, and
      renewed in time, its certificate stays valid; an agent that lost an answer
      to a renewal, or let its certificate expire, is shut out until an operator
      steps in ([NodeAgent], [NodeLife]); what an issued certificate says
      ([CA]).
    - Money: the earnings a provider is shown are the postings of the ledger
      ([Reconciliation]); exact charges within the overflow bound, posting at most once and
      balanced, an hour of accrual against a reference list of transactions,
      catching up ([Ledger], [Accrual]).
    - Checks: what each invariant check decides ([Invariants]).
    - Behaviour that surprises is kept as evaluated examples next to the code it
      concerns: [Files.Wildcard], [Files.StuckBucket], [Auditing.DoublePenalty],
      [Ledger.storage_charge_overflow], [Invariants.Prepaid], [Metadata.Scene],
      [RepairPlan.RepairScene], [Repair.RepairWorkerScene], [Consumers.Archive], [Fleet.two_ports],
      [Budget.debt_forgotten],
      [Wire.ec_data_truncated], [Listings.root_prefix_lists_nothing],
      [GatewayGuards.forged_address_evades_limit], [WitnessesNode.NodeScene].

    ** Fuel and bounds

    [Accrual.catch_up] counts down the code's own limit of 48 hours.  Base64
    decoding and SHA-256 blocks recurse on fuel given by the length of their
    input, which each step shortens ([Bytes], [Sha256]); so do the loops that
    encrypt, decrypt and cut a stream ([Pipeline], [Transfer]), one segment or
    chunk a step, and the theorems about them show that the fuel never runs out.
    An IPv6 literal has at most eight groups ([Net]); the wait for a registration
    code polls at most 242 times, which is the code's own limit of two minutes
    ([NodeAgent]).  All other recursion is structural.

    ** What is not modelled

    Two transactions that interleave: statements run one at a time, so a
    conclusion about two services at work at once is about their steps one after
    the other.  The loops that only call a modelled step on a ticker; the
    semaphore of the repair worker, which one goroutine holds at a time; connecting to NATS, Redis and Postgres, and the declaration
    of streams.  The text of JSON (what it does to a value is written out field by
    field in [Wire] and [Service]), the matching of routes and the handshake of
    TLS (which chain a name trusts is an argument of [Fleet], the check of the
    node's id is [NodeAgent.ClientTLS]).  An endpoint with characters that
    structure a URL, such as a path or a user, reaches no node in [Fleet], where
    the code would send its request to the host within.  The fragment a node
    serves under a [Range] header, which no client of the repository sends.
    Environment variables, flags and prompts but for the configuration of the
    agent; the health pages.
    The test harness and the seeding of fleets drive containers and print
    reports, the mains wire processes, the web assets are static: all are left
    out. *)

From stdpp Require Export base gmap list strings numbers sorting.
From coqutil Require Export Byte.
From Stdlib Require Export ZArith Lia.

#[export] Set Default Goal Selector "!".
Global Open Scope Z_scope.

(** * Results and the error/state monad

    Go's [(T, error)] returns are [result E T]: [Ok x] for a nil error and
    [Err e] for the error value.  A method that also mutates shared state
    (a Postgres database, an agent's index, Redis) is an [M S E A]. *)

Inductive result (E A : Type) : Type :=
  | Ok (a : A)
  | Err (e : E).
Arguments Ok {E A} a.
Arguments Err {E A} e.

Definition is_ok {E A} (r : result E A) : bool :=
  match r with Ok _ => true | Err _ => false end.

#[export] Instance result_eq_dec `{EqDecision E, EqDecision A} :
  EqDecision (result E A).
Proof. solve_decision. Defined.

#[export] Instance result_ret {E} : MRet (result E) := λ A a, Ok a.
#[export] Instance result_bind {E} : MBind (result E) := λ A B k r,
  match r with Ok a => k a | Err e => Err e end.

(** [of_option e o] is Go's [if !ok { return e }]. *)
Definition of_option {E A} (e : E) (o : option A) : result E A :=
  match o with Some a => Ok a | None => Err e end.

Definition M (S E A : Type) : Type := S → result E A * S.

Section monad.
Context {S E : Type}.

#[export] Instance M_ret : MRet (M S E) := λ A a s, (Ok a, s).
#[export] Instance M_bind : MBind (M S E) := λ A B k m s,
  match m s with
  | (Ok a, s') => k a s'
  | (Err e, s') => (Err e, s')
  end.

Definition throw {A} (e : E) : M S E A := λ s, (Err e, s).
Definition lift {A} (r : result E A) : M S E A := λ s, (r, s).
Definition gets {A} (f : S → A) : M S E A := λ s, (Ok (f s), s).
Definition modify (f : S → S) : M S E unit := λ s, (Ok tt, f s).
Definition state {A} (f : S → A * S) : M S E A :=
  λ s, let '(a, s') := f s in (Ok a, s').

(** A single statement given by its effect on the state. *)
Definition action {A} (f : S → result E A * S) : M S E A := f.

(** [if cond { return err }] *)
Definition guard_err (b : bool) (e : E) : M S E unit :=
  if b then throw e else mret tt.

(** A database transaction: [tx.Begin] … [tx.Commit] with a deferred
    [tx.Rollback], so every error exit restores the initial state. *)
Definition transaction {A} (m : M S E A) : M S E A := λ s,
  match m s with
  | (Ok a, s') => (Ok a, s')
  | (Err e, _) => (Err e, s)
  end.

(** [for _, x := range xs { if err := f(x); err != nil { return err } }] *)
Fixpoint for_each {X} (f : X → M S E unit) (xs : list X) : M S E unit :=
  match xs with
  | [] => mret tt
  | x :: xs => f x ≫= λ _, for_each f xs
  end.

(** A loop that also threads local variables, stopping at the first error. *)
Fixpoint for_fold {X L} (f : L → X → M S E L) (l : L) (xs : list X) : M S E L :=
  match xs with
  | [] => mret l
  | x :: xs => f l x ≫= λ l', for_fold f l' xs
  end.

(** [_ = m]: the error is dropped (or only logged) and the effect stays. *)
Definition ignore_err {A} (m : M S E A) : M S E unit :=
  λ s, (Ok tt, (m s).2).

(** An error is looked at instead of returned. *)
Definition attempt {E' A} (m : M S E A) : M S E' (result E A) := λ s,
  let '(r, s') := m s in (Ok r, s').

Lemma bind_ok {A B} (m : M S E A) (k : A → M S E B) s b s' :
  (m ≫= k) s = (Ok b, s') ↔
  ∃ a s1, m s = (Ok a, s1) ∧ k a s1 = (Ok b, s').
Proof.
  unfold mbind, M_bind. destruct (m s) as [[a|e] s1]; split.
  - eauto.
  - intros (?&?&[= <- <-]&?); done.
  - intros [= ].
  - intros (?&?&[= ]&_).
Qed.

Lemma bind_ext {A B} (m : M S E A) (k k' : A → M S E B) s :
  (∀ a s1, k a s1 = k' a s1) → (m ≫= k) s = (m ≫= k') s.
Proof. intros Hk. unfold mbind, M_bind. destruct (m s) as [[a|e] s1]; [apply Hk|done]. Qed.

Lemma bind_assoc {A B C} (m : M S E A) (k : A → M S E B) (k' : B → M S E C) s :
  ((m ≫= k) ≫= k') s = (m ≫= λ a, k a ≫= k') s.
Proof. unfold mbind, M_bind. by destruct (m s) as [[a|e] s1]. Qed.

Lemma ret_bind {A B} (a : A) (k : A → M S E B) s : ((mret a : M S E A) ≫= k) s = k a s.
Proof. done. Qed.

Lemma bind_run' {A B} (m m' : M S E A) (k : A → M S E B) s :
  m s = m' s → (m ≫= k) s = (m' ≫= k) s.
Proof. intros H. unfold mbind, M_bind. by rewrite H. Qed.

Lemma bind_run {A B} (m : M S E A) (k : A → M S E B) s a s1 :
  m s = (Ok a, s1) → (m ≫= k) s = k a s1.
Proof. intros H. unfold mbind, M_bind. by rewrite H. Qed.

Lemma bind_err {A B} (m : M S E A) (k : A → M S E B) s e s1 :
  m s = (Err e, s1) → (m ≫= k) s = (Err e, s1).
Proof. intros H. unfold mbind, M_bind. by rewrite H. Qed.

Lemma gets_ok {A} (f : S → A) s a s' :
  gets f s = (Ok (E:=E) a, s') → a = f s ∧ s' = s.
Proof. intros [=]. by subst. Qed.

Lemma guard_ok b (e : E) s s' : guard_err b e s = (Ok tt, s') → b = false ∧ s' = s.
Proof. unfold guard_err. destruct b; [done|]. by intros [= ->]. Qed.

Lemma transaction_err {A} (m : M S E A) s e s' :
  transaction m s = (Err e, s') → s' = s.
Proof. unfold transaction. by destruct (m s) as [[]]; intros [= <-]. Qed.

Lemma transaction_ok {A} (m : M S E A) s a s' :
  transaction m s = (Ok a, s') ↔ m s = (Ok a, s').
Proof. unfold transaction. destruct (m s) as [[]]; split; congruence. Qed.

Lemma for_each_app {X} (f : X → M S E unit) xs ys s s' :
  for_each f xs s = (Ok tt, s') →
  for_each f (xs ++ ys) s = for_each f ys s'.
Proof.
  revert s. induction xs as [|x xs IH]; intros s; simpl.
  - by intros [= <-].
  - unfold mbind, M_bind. destruct (f x s) as [[[]|] s1]; [apply IH|done].
Qed.

Lemma for_each_one {X} (f : X → M S E unit) x s : for_each f [x] s = f x s.
Proof. cbn [for_each]. unfold mbind, M_bind. by destruct (f x s) as [[[]|e] s1]. Qed.

(** An invariant of the loop body is an invariant of the loop. *)
Lemma for_each_inv {X} (P : S → Prop) (f : X → M S E unit) xs s :
  (∀ x s, x ∈ xs → P s → P (f x s).2) → P s → P (for_each f xs s).2.
Proof.
  revert s. induction xs as [|x xs IH]; intros s Hf Hs; simpl; [done|].
  unfold mbind, M_bind. destruct (f x s) as [[[]|e] s1] eqn:Hx.
  - apply IH; [intros ?? ?; apply Hf; by right|].
    specialize (Hf x s). rewrite Hx in Hf. apply Hf; [left|done].
  - specialize (Hf x s). rewrite Hx in Hf. apply Hf; [left|done].
Qed.

(** A loop body that never fails runs to the end. *)
Lemma for_each_total {X} (f : X → M S E unit) xs s :
  (∀ x s, x ∈ xs → is_ok (f x s).1) → is_ok (for_each f xs s).1.
Proof.
  revert s. induction xs as [|x xs IH]; intros s Hf; simpl; [done|].
  unfold mbind, M_bind. specialize (Hf x s ltac:(left)) as Hx.
  destruct (f x s) as [[[]|e] s1]; [|done].
  apply IH. intros ?? ?. apply Hf. by right.
Qed.

(** Invariants of a fold with local variables. *)
Lemma for_fold_inv {X L} (P : L → S → Prop) (f : L → X → M S E L) xs l s l' s' :
  (∀ l s x l1 s1, x ∈ xs → P l s → f l x s = (Ok l1, s1) → P l1 s1) →
  P l s → for_fold f l xs s = (Ok l', s') → P l' s'.
Proof.
  revert l s. induction xs as [|x xs IH]; intros l s Hf Hs; simpl.
  - by intros [= <- <-].
  - intros (l1&s1&Hx&Hr)%bind_ok. eapply IH; [|by eapply Hf; [left| |]|done].
    intros. eapply Hf; [by right|done..].
Qed.
End monad.

(** *** Two states side by side *)

Definition on_left {S N E A} (m : M S E A) : M (S * N) E A := λ s,
  let '(r, x) := m s.1 in (r, (x, s.2)).
Definition on_right {S N E A} (m : M N E A) : M (S * N) E A := λ s,
  let '(r, y) := m s.2 in (r, (s.1, y)).

Lemma on_left_run {S N E A} (m : M S E A) s r x : m (fst s) = (r, x) → on_left (N:=N) m s = (r, (x, snd s)).
Proof. unfold on_left. by intros ->. Qed.
Lemma on_right_run {S N E A} (m : M N E A) s r y : m (snd s) = (r, y) → on_right (S:=S) m s = (r, (fst s, y)).
Proof. unfold on_right. by intros ->. Qed.

(** ** Framing

    [Frame f m]: running [m] leaves the component [f] of the state alone, on
    every exit.  Instances follow the structure of the program. *)
Class Frame {S E A B} (f : S → B) (m : M S E A) : Prop :=
  frame : ∀ s, f (m s).2 = f s.

Section frame.
Context {S E B : Type} (f : S → B).

#[export] Instance frame_ret {A} (a : A) : Frame f (mret a : M S E A).
Proof. done. Qed.
#[export] Instance frame_throw {A} (e : E) : Frame f (throw e : M S E A).
Proof. done. Qed.
#[export] Instance frame_lift {A} (r : result E A) : Frame f (lift r).
Proof. done. Qed.
#[export] Instance frame_gets {A} (g : S → A) : Frame f (gets g : M S E A).
Proof. done. Qed.
#[export] Instance frame_guard b (e : E) : Frame f (guard_err b e).
Proof. by intros s; destruct b. Qed.
#[export] Instance frame_bind {A C} (m : M S E A) (k : A → M S E C) :
  Frame f m → (∀ a, Frame f (k a)) → Frame f (m ≫= k).
Proof.
  intros Hm Hk s. unfold mbind, M_bind. specialize (Hm s).
  destruct (m s) as [[a|e] s1]; [|done]. rewrite (Hk a s1). done.
Qed.
#[export] Instance frame_transaction {A} (m : M S E A) :
  Frame f m → Frame f (transaction m).
Proof.
  intros Hm s. unfold transaction. specialize (Hm s).
  by destruct (m s) as [[a|e] s1].
Qed.
#[export] Instance frame_if {A} (b : bool) (m1 m2 : M S E A) :
  Frame f m1 → Frame f m2 → Frame f (if b then m1 else m2).
Proof. by destruct b. Qed.
#[export] Instance frame_option {A X} (o : option X) (k : X → M S E A) m :
  (∀ x, Frame f (k x)) → Frame f m →
  Frame f (match o with Some x => k x | None => m end).
Proof. by destruct o. Qed.
#[export] Instance frame_for_each {X} (g : X → M S E unit) xs :
  (∀ x, Frame f (g x)) → Frame f (for_each g xs).
Proof. intros Hg. induction xs as [|x xs IH]; simpl; apply _. Qed.
#[export] Instance frame_ignore {A} (m : M S E A) :
  Frame f m → Frame f (ignore_err m).
Proof. intros Hm s. apply (Hm s). Qed.
End frame.

Arguments for_each : simpl nomatch.
Arguments for_fold : simpl nomatch.

(** Split a hypothesis on a successful monadic run into its steps. *)
Ltac m_ok :=
  repeat match goal with
  | H : (_ ≫= _) _ = (Ok _, _) |- _ =>
      apply bind_ok in H as (?&?&?H&H)
  | H : guard_err ?b _ _ = (Ok _, _) |- _ =>
      let E := fresh "Hg" in
      unfold guard_err in H; destruct b eqn:E; [discriminate H|]
  | H : mret _ _ = (Ok _, _) |- _ => injection H as ??
  | H : throw _ _ = (Ok _, _) |- _ => discriminate H
  | H : gets _ _ = (Ok _, _) |- _ => injection H as ??
  | H : modify _ _ = (Ok _, _) |- _ => injection H as ??
  end; simplify_eq/=.

(** Run the leading steps of a program that return at once. *)
Ltac m_steps := repeat (rewrite ret_bind || rewrite bind_assoc); cbv beta.

(** * Identifiers

    [uuid.UUID] is a 16-byte array; it is kept as the 128-bit number those
    bytes spell in big-endian order, which is also the order Postgres sorts
    them in.  [uuid_nil] is [uuid.Nil]. *)
Record uuid := Uuid { uuid_n : N }.

Definition uuid_nil : uuid := Uuid 0.
Definition uuid_wf (u : uuid) : Prop := (uuid_n u < 2 ^ 128)%N.

#[export] Instance uuid_eq_dec : EqDecision uuid.
Proof. solve_decision. Defined.
#[export] Instance uuid_countable : Countable uuid :=
  inj_countable' uuid_n Uuid ltac:(by intros []).
#[export] Instance uuid_inhabited : Inhabited uuid := populate uuid_nil.

(** * Byte strings ([[]byte]) *)
Abbreviation bytes := (list Byte.byte).

#[export] Instance byte_eq_dec : EqDecision Byte.byte := Byte.byte_eq_dec.
#[export] Instance byte_countable : Countable Byte.byte.
Proof.
  refine (inj_countable Byte.to_N Byte.of_N _). apply Byte.of_to_N.
Defined.
#[export] Instance byte_inhabited : Inhabited Byte.byte := populate Byte.x00.

Definition zero_bytes (n : nat) : bytes := replicate n Byte.x00.

(** * Machine integers

    [int64] and [uint64] values are [Z]s; an operation that can leave the
    range wraps around. *)
Definition wrap_s64 (z : Z) : Z := (z + 2^63) `mod` 2^64 - 2^63.
Definition wrap_u64 (z : Z) : Z := z `mod` 2^64.
Definition int64_range (z : Z) : Prop := - 2^63 ≤ z < 2^63.
Definition uint64_range (z : Z) : Prop := 0 ≤ z < 2^64.

#[export] Instance int64_range_dec z : Decision (int64_range z).
Proof. unfold int64_range. apply _. Defined.

Lemma wrap_s64_id z : int64_range z → wrap_s64 z = z.
Proof. unfold int64_range, wrap_s64. intros. rewrite Z.mod_small; lia. Qed.

Lemma wrap_s64_range z : int64_range (wrap_s64 z).
Proof.
  unfold int64_range, wrap_s64.
  pose proof (Z.mod_pos_bound (z + 2^63) (2^64) ltac:(lia)). lia.
Qed.

Lemma wrap_u64_id z : uint64_range z → wrap_u64 z = z.
Proof. unfold uint64_range, wrap_u64. intros. apply Z.mod_small; lia. Qed.

Lemma wrap_u64_range z : uint64_range (wrap_u64 z).
Proof. apply Z.mod_pos_bound. lia. Qed.

Lemma wrap_s64_u64 z : wrap_s64 (wrap_u64 z) = wrap_s64 z.
Proof.
  unfold wrap_s64, wrap_u64. f_equal.
  by rewrite Z.add_mod_idemp_l by lia.
Qed.

Lemma wrap_u64_s64 z : wrap_u64 (wrap_s64 z) = wrap_u64 z.
Proof.
  unfold wrap_s64, wrap_u64.
  rewrite Zminus_mod_idemp_l. f_equal. lia.
Qed.

(** int64 arithmetic *)
Definition add64 (a b : Z) : Z := wrap_s64 (a + b).
Definition sub64 (a b : Z) : Z := wrap_s64 (a - b).
Definition mul64 (a b : Z) : Z := wrap_s64 (a * b).
(** Go's [/] truncates toward zero; [MinInt64 / -1] wraps. *)
Definition quot64 (a b : Z) : Z := wrap_s64 (Z.quot a b).

(** Sums are computed left to right in int64; in range or not, the running
    wrap is the wrap of the mathematical sum. *)
Definition sum64 (zs : list Z) : Z := foldl add64 0 zs.

Definition sumZ (zs : list Z) : Z := foldr Z.add 0 zs.

Lemma wrap_add_l a b : wrap_s64 (wrap_s64 a + b) = wrap_s64 (a + b).
Proof.
  unfold wrap_s64 at 1 3. f_equal.
  rewrite <- Z.add_assoc, (Z.add_comm b), Z.add_assoc.
  unfold wrap_s64. rewrite Z.sub_add, Z.add_mod_idemp_l by lia. f_equal. lia.
Qed.

Lemma sumZ_app xs ys : sumZ (xs ++ ys) = sumZ xs + sumZ ys.
Proof. induction xs; simpl; lia. Qed.

Lemma sumZ_nonneg xs : Forall (λ x, 0 ≤ x) xs → 0 ≤ sumZ xs.
Proof. induction 1; simpl; lia. Qed.

#[export] Instance sumZ_proper : Proper ((≡ₚ) ==> eq) sumZ.
Proof. induction 1; simpl; lia. Qed.

Lemma sumZ_cons x xs : sumZ (x :: xs) = x + sumZ xs.
Proof. done. Qed.

Lemma sumZ_zero {A} (f : A → Z) xs : (∀ x, x ∈ xs → f x = 0) → sumZ (f <$> xs) = 0.
Proof.
  induction xs as [|x xs IH]; intros Hf; [done|]. rewrite fmap_cons, sumZ_cons, (Hf x) by left.
  rewrite IH; [done|]. intros. apply Hf. by right.
Qed.

Lemma sumZ_fmap_add {A} (f g : A → Z) xs :
  sumZ ((λ x, f x + g x) <$> xs) = sumZ (f <$> xs) + sumZ (g <$> xs).
Proof. induction xs as [|x xs IH]; [done|]. rewrite !fmap_cons, !sumZ_cons. lia. Qed.

(** One term per key, each row under its own key. *)
Lemma sumZ_one_key {K} `{EqDecision K} (k : K) (v : Z) ks :
  NoDup ks → k ∈ ks → sumZ ((λ x, if decide (k = x) then v else 0) <$> ks) = v.
Proof.
  induction 1 as [|x ks Hx Hnd IH]; [by intros ?%not_elem_of_nil|].
  rewrite fmap_cons, sumZ_cons. intros [->|Hk]%elem_of_cons.
  - rewrite decide_True, sumZ_zero by (done || (intros y Hy; apply decide_False; by intros ->)). lia.
  - rewrite decide_False by congruence. by rewrite IH.
Qed.

Lemma sumZ_partition {A K} `{EqDecision K} (key : A → K) (w : A → Z) ks xs :
  NoDup ks → (∀ x, x ∈ xs → key x ∈ ks) →
  sumZ ((λ k, sumZ (w <$> filter (λ x, key x = k) xs)) <$> ks) = sumZ (w <$> xs).
Proof.
  intros Hnd. induction xs as [|x xs IH]; intros Hks; [by apply sumZ_zero|].
  rewrite fmap_cons, sumZ_cons, <- IH by (intros; apply Hks; by right).
  rewrite <- (sumZ_one_key (key x) (w x) ks) at 1 by (done || (apply Hks; left)).
  rewrite <- sumZ_fmap_add. f_equal. apply list_fmap_ext. intros i k _.
  rewrite filter_cons. case_decide; [|lia]. by rewrite fmap_cons, sumZ_cons.
Qed.

Lemma sumZ_filter_le {A} (P : A → Prop) `{!∀ x, Decision (P x)} (w : A → Z) xs :
  (∀ x, x ∈ xs → 0 ≤ w x) → 0 ≤ sumZ (w <$> filter P xs) ≤ sumZ (w <$> xs).
Proof.
  induction xs as [|x xs IH]; intros Hw; [done|].
  assert (0 ≤ w x) by (apply Hw; left). specialize (IH ltac:(intros; apply Hw; by right)).
  rewrite filter_cons. case_decide; rewrite !fmap_cons, ?sumZ_cons; lia.
Qed.

Lemma foldl_add64 xs a : foldl add64 (wrap_s64 a) xs = wrap_s64 (a + sumZ xs).
Proof.
  revert a. induction xs as [|x xs IH]; intros a; simpl.
  - f_equal; lia.
  - unfold add64 at 2. rewrite wrap_add_l, IH. f_equal; lia.
Qed.

Lemma sum64_sumZ xs : sum64 xs = wrap_s64 (sumZ xs).
Proof. unfold sum64. apply (foldl_add64 xs 0). Qed.

(** * Time

    [time.Time] is the number of nanoseconds since the Unix epoch (the
    monotonic clock reading and the location carry no information the modelled
    code uses); [time.Duration] is an int64 number of nanoseconds. *)
Definition second : Z := 1000000000.
Definition minute : Z := 60 * second.
Definition hour : Z := 60 * minute.
Definition day : Z := 24 * hour.

(** [time.Time{}], January 1 of year 1. *)
Definition time_zero : Z := -62135596800 * second.
Definition is_zero (t : Z) : bool := bool_decide (t = time_zero).

(** [t.Sub(u)] saturates at the ends of [time.Duration]. *)
Definition time_sub (t u : Z) : Z := Z.max (- 2^63) (Z.min (2^63 - 1) (t - u)).

(** [t.Unix()] *)
Definition unix (t : Z) : Z := t `div` second.

(** [t.Truncate(time.Hour)]: the zero time is a whole number of hours before
    the epoch, so truncation is relative to either. *)
Definition truncate_hour (t : Z) : Z := t - t `mod` hour.

Lemma truncate_hour_le t : truncate_hour t ≤ t < truncate_hour t + hour.
Proof. unfold truncate_hour, hour, minute, second. Z.div_mod_to_equations. lia. Qed.

Lemma truncate_hour_idemp t : truncate_hour (truncate_hour t) = truncate_hour t.
Proof. unfold truncate_hour, hour, minute, second. Z.div_mod_to_equations. lia. Qed.

(** * Queries

    A table is the list of its rows.  [SELECT … WHERE] is [filter]/[omap];
    [ORDER BY] is a stable merge sort, so rows that tie keep heap order. *)

(** [SELECT … LIMIT 1] / [QueryRow]: the first row, or [pgx.ErrNoRows]. *)
Definition query_row {E A} (no_rows : E) (rows : list A) : result E A :=
  of_option no_rows (head rows).

(** [UPDATE t SET … WHERE p]: rewrite the rows that satisfy [p] in place. *)
Definition update_where {A} (p : A → bool) (f : A → A) (t : list A) : list A :=
  (λ r, if p r then f r else r) <$> t.

Lemma elem_of_update_where {A} (p : A → bool) f (t : list A) r :
  r ∈ update_where p f t ↔
  ∃ r0, r0 ∈ t ∧ r = if p r0 then f r0 else r0.
Proof.
  unfold update_where. rewrite list_elem_of_fmap. split.
  - intros (?&->&?). eauto.
  - intros (?&?&->). eauto.
Qed.

(** A column that the update leaves alone is unchanged, row by row. *)
Lemma update_where_fmap {A B} (p : A → bool) f (g : A → B) (t : list A) :
  (∀ r, p r = true → g (f r) = g r) → g <$> update_where p f t = g <$> t.
Proof.
  intros Hg. unfold update_where. rewrite <- list_fmap_compose.
  apply list_fmap_ext. intros i r _. simpl. destruct (p r) eqn:Hp; auto.
Qed.

Lemma update_where_none {A} (p : A → bool) f (t : list A) :
  (∀ r, r ∈ t → p r = false) → update_where p f t = t.
Proof.
  intros Hp. unfold update_where. rewrite <- (list_fmap_id t) at 2.
  apply Forall_fmap_ext_1, Forall_forall. intros r Hr. by rewrite (Hp r Hr).
Qed.

(** [ORDER BY k1, k2, …]: rows compare by their key lists, first column first. *)
Fixpoint lex_leb (a b : list Z) : bool :=
  match a, b with
  | [], _ => true
  | _ :: _, [] => false
  | x :: a, y :: b => (x <? y) || ((x =? y) && lex_leb a b)
  end.

Definition key_le {A} (key : A → list Z) (a b : A) : Prop :=
  lex_leb (key a) (key b) = true.
#[export] Instance key_le_dec {A} (key : A → list Z) : RelDecision (key_le key).
Proof. intros a b. unfold key_le. apply _. Defined.

Lemma lex_leb_total a b : lex_leb a b = true ∨ lex_leb b a = true.
Proof.
  revert b. induction a as [|x a IH]; intros [|y b]; simpl; auto.
  destruct (Z.lt_trichotomy x y) as [?|[->|?]].
  - left. by rewrite (proj2 (Z.ltb_lt x y)).
  - rewrite Z.eqb_refl, Z.ltb_irrefl. simpl. apply IH.
  - right. by rewrite (proj2 (Z.ltb_lt y x)).
Qed.

#[export] Instance key_le_total {A} (key : A → list Z) : Total (key_le key).
Proof. intros a b. apply lex_leb_total. Qed.

#[export] Instance key_le_trans {A} (key : A → list Z) : Transitive (key_le key).
Proof.
  intros a b c. unfold key_le. generalize (key a) (key b) (key c). clear.
  intros u. induction u as [|x u IH]; intros [|y v] [|z w]; simpl; try done.
  rewrite !orb_true_iff, !andb_true_iff, !Z.ltb_lt, !Z.eqb_eq.
  intros [?|[-> ?]] [?|[-> ?]]; eauto with lia.
Qed.

Definition order_by {A} (key : A → list Z) (rows : list A) : list A :=
  merge_sort (key_le key) rows.

Lemma order_by_perm {A} (key : A → list Z) rows : order_by key rows ≡ₚ rows.
Proof. apply merge_sort_Permutation. Qed.

Lemma elem_of_order_by {A} (key : A → list Z) rows r :
  r ∈ order_by key rows ↔ r ∈ rows.
Proof. by rewrite order_by_perm. Qed.

Lemma order_by_sorted {A} (key : A → list Z) rows :
  StronglySorted (key_le key) (order_by key rows).
Proof. apply StronglySorted_merge_sort; apply _. Qed.

(** The row strictly below all others comes first. *)
Lemma head_order_by {A} (key : A → list Z) rows r :
  r ∈ rows → (∀ x, x ∈ rows → x = r ∨ ¬ key_le key x r) →
  head (order_by key rows) = Some r.
Proof.
  intros Hr Hmin. apply (elem_of_order_by key) in Hr.
  pose proof (order_by_sorted key rows) as Hs.
  destruct (order_by key rows) as [|h l] eqn:Ho; [by apply not_elem_of_nil in Hr|].
  simpl. f_equal.
  assert (h ∈ rows) as Hh by (apply (elem_of_order_by key); rewrite Ho; left).
  apply elem_of_cons in Hr as [->|Hr]; [done|].
  destruct (Hmin h Hh) as [->|Hn]; [done|]. destruct Hn.
  apply StronglySorted_inv in Hs as [_ Hall]. rewrite Forall_forall in Hall. auto.
Qed.

(** The sort key of an id column. *)
Definition uuid_key (u : uuid) : Z := Z.of_N (uuid_n u).

(** [SELECT DISTINCT]: the first occurrence of each row. *)
Fixpoint distinct {A} `{EqDecision A} (l : list A) : list A :=
  match l with
  | [] => []
  | x :: l => x :: filter (λ y, y ≠ x) (distinct l)
  end.

Lemma elem_of_distinct {A} `{EqDecision A} (l : list A) x :
  x ∈ distinct l ↔ x ∈ l.
Proof.
  induction l as [|y l IH]; simpl; [done|].
  rewrite !elem_of_cons, list_elem_of_filter, IH.
  destruct (decide (x = y)) as [->|]; [by split; left|].
  split; [intros [?|[_ ?]]|intros [?|?]]; auto.
Qed.

Lemma NoDup_distinct {A} `{EqDecision A} (l : list A) : NoDup (distinct l).
Proof.
  induction l as [|y l IH]; simpl; [constructor|]. constructor.
  - rewrite list_elem_of_filter. by intros [? _].
  - by apply NoDup_filter.
Qed.

Lemma filter_none {A} (P : A → Prop) `{!∀ x, Decision (P x)} (l : list A) :
  (∀ x, x ∈ l → ¬ P x) → filter P l = [].
Proof.
  induction l as [|x l IH]; intros Hl; [done|].
  rewrite filter_cons_False by (apply Hl; left). apply IH. intros. apply Hl. by right.
Qed.

Lemma filter_all {A} (P : A → Prop) `{!∀ x, Decision (P x)} (l : list A) :
  (∀ x, x ∈ l → P x) → filter P l = l.
Proof.
  induction l as [|x l IH]; intros Hl; [done|].
  rewrite filter_cons_True by (apply Hl; left). f_equal. apply IH. intros. apply Hl. by right.
Qed.

Lemma filter_ext_in {A} (P Q : A → Prop) `{!∀ x, Decision (P x), !∀ x, Decision (Q x)} (l : list A) :
  (∀ x, x ∈ l → P x ↔ Q x) → filter P l = filter Q l.
Proof.
  induction l as [|x l IH]; intros Hl; [done|]. rewrite !filter_cons, IH by (intros; apply Hl; by right).
  assert (P x ↔ Q x) by (apply Hl; left). by repeat case_decide; tauto.
Qed.

Lemma elem_of_rev {A} (l : list A) x : x ∈ rev l ↔ x ∈ l.
Proof. by rewrite !list_elem_of_In, <- in_rev. Qed.

(** Cutting a list. *)

Lemma take_app_n {A} n (a b : list A) : length a = n → take n (a ++ b) = a.
Proof. intros <-. apply take_app_length. Qed.
Lemma drop_app_n {A} n (a b : list A) : length a = n → drop n (a ++ b) = b.
Proof. intros <-. apply drop_app_length. Qed.

(** Blocks of [n]: all full but the last, which is not empty. *)
Fixpoint chunks_of {A} (fuel n : nat) (l : list A) : list (list A) :=
  match fuel with
  | O => []
  | S fuel' => match l with [] => [] | _ => take n l :: chunks_of fuel' n (drop n l) end
  end.

Inductive blocks {A} (n : nat) : list (list A) → Prop :=
  | blocks_nil : blocks n []
  | blocks_last b : (0 < length b ≤ n)%nat → blocks n [b]
  | blocks_cons b b' bs : length b = n → blocks n (b' :: bs) → blocks n (b :: b' :: bs).

Lemma chunks_of_blocks {A} fuel n (l : list A) :
  (0 < n)%nat → (length l ≤ fuel)%nat →
  blocks n (chunks_of fuel n l) ∧ concat (chunks_of fuel n l) = l.
Proof.
  intros Hn. revert l. induction fuel as [|fuel IH]; intros l Hl; cbn [chunks_of].
  { destruct l; [|simpl in Hl; lia]. by split; [constructor|]. }
  destruct l as [|x l]; [by split; [constructor|]|]. set (l' := x :: l) in *.
  assert (0 < length l')%nat by (subst l'; simpl; lia).
  destruct (IH (drop n l')) as [Hb Hc]; [rewrite length_drop; lia|].
  cbn [concat]. rewrite Hc, take_drop. split; [|done].
  destruct (chunks_of fuel n (drop n l')) as [|b bs] eqn:Hch.
  - constructor. rewrite length_take. lia.
  - constructor; [|by rewrite <- Hch in Hb |- *].
    assert (drop n l' ≠ []) as Hd by (intros E; rewrite E in Hch; destruct fuel; done).
    rewrite length_take. apply Nat.min_l. destruct (Nat.le_gt_cases n (length l')); [done|].
    destruct Hd. apply drop_ge. lia.
Qed.

Lemma chunks_of_concat {A} fuel n (bs : list (list A)) :
  (0 < n)%nat → blocks n bs → (length (concat bs) ≤ fuel)%nat → chunks_of fuel n (concat bs) = bs.
Proof.
  intros Hn Hb. revert fuel. induction Hb as [|b Hl|b b' bs Hl Hb IH]; intros fuel Hf.
  - by destruct fuel.
  - cbn [concat] in *. rewrite app_nil_r in *. destruct fuel; [lia|]. cbn [chunks_of].
    destruct b as [|x b]; [simpl in Hl; lia|]. rewrite take_ge, drop_ge by lia. by destruct fuel.
  - change (concat (b :: b' :: bs)) with (b ++ concat (b' :: bs)) in *. rewrite length_app in Hf.
    destruct fuel as [|fuel]; [lia|]. cbn [chunks_of].
    destruct (b ++ concat (b' :: bs)) eqn:E; [apply (f_equal length) in E; rewrite length_app in E; simpl in E; lia|].
    rewrite <- E, take_app_n, drop_app_n by done. f_equal. apply IH. lia.
Qed.

Lemma blocks_count {A} n (bs : list (list A)) :
  blocks n bs → bs ≠ [] → (n * (length bs - 1) < length (concat bs) ≤ n * length bs)%nat.
Proof.
  induction 1 as [|b Hl|b b' bs Hl Hb IH]; intros Hne; [done|..].
  - cbn [concat length]. rewrite app_nil_r. lia.
  - specialize (IH ltac:(done)). change (concat (b :: b' :: bs)) with (b ++ concat (b' :: bs)).
    rewrite length_app. cbn [length] in *. lia.
Qed.

Lemma chunks_of_fuel {A} f f' n (l : list A) :
  (0 < n)%nat → (length l ≤ f)%nat → (length l ≤ f')%nat → chunks_of f n l = chunks_of f' n l.
Proof.
  intros Hn Hf Hf'. destruct (chunks_of_blocks f n l) as [Hb Hc]; [done..|].
  rewrite <- (chunks_of_concat f' n (chunks_of f n l)); [by rewrite Hc|done..|by rewrite Hc].
Qed.

Lemma chunks_of_cons {A} n (l : list A) :
  (0 < n)%nat → l ≠ [] →
  chunks_of (length l) n l = take n l :: chunks_of (length (drop n l)) n (drop n l).
Proof.
  intros Hn Hl. destruct l as [|x l]; [done|]. cbn [length chunks_of]. f_equal.
  apply chunks_of_fuel; [done| |done]. rewrite length_drop. cbn [length]. lia.
Qed.

(** Counting rows. *)
Definition count_where {A} (p : A → bool) (t : list A) : nat :=
  length (filter (λ r, p r = true) t).

Lemma existsb_none {A} (f : A → bool) l : (∀ x, x ∈ l → f x = false) → existsb f l = false.
Proof.
  induction l as [|x l IH]; intros Hf; [done|]. cbn. rewrite Hf by left. apply IH. intros y Hy. apply Hf. by right.
Qed.

Lemma count_where_cons {A} (p : A → bool) r t :
  count_where p (r :: t) = ((if p r then 1 else 0) + count_where p t)%nat.
Proof. unfold count_where. rewrite filter_cons. by destruct (p r). Qed.

Lemma count_where_app {A} (p : A → bool) t1 t2 :
  count_where p (t1 ++ t2) = (count_where p t1 + count_where p t2)%nat.
Proof. unfold count_where. by rewrite filter_app, length_app. Qed.

Lemma count_where_le {A} (p q : A → bool) t :
  (∀ r, r ∈ t → p r = true → q r = true) → (count_where p t ≤ count_where q t)%nat.
Proof.
  induction t as [|r t IH]; intros Hpq; [done|].
  rewrite !count_where_cons.
  specialize (IH (λ x Hx, Hpq x ltac:(by right))).
  specialize (Hpq r ltac:(left)). destruct (p r), (q r); lia.
Qed.

Lemma count_where_zero {A} (p : A → bool) t :
  count_where p t = 0%nat ↔ ∀ r, r ∈ t → p r = false.
Proof.
  induction t as [|r t IH].
  - split; [intros _ ? []%not_elem_of_nil|done].
  - rewrite count_where_cons. split.
    + intros H r' [->|Hr]%elem_of_cons; destruct (p _) eqn:?; try lia.
      apply IH; [destruct (p r); lia|done].
    + intros H. rewrite (H r ltac:(left)). apply IH. intros. apply H. by right.
Qed.

Lemma count_where_pos {A} (p : A → bool) t :
  count_where p t ≠ 0%nat → ∃ r, r ∈ t ∧ p r = true.
Proof.
  induction t as [|r t IH]; [done|]. rewrite count_where_cons.
  destruct (p r) eqn:Hr; [exists r; split; [left|done]|].
  intros (r'&?&?)%IH. exists r'. split; [by right|done].
Qed.

(** * Automation shared by the components *)
Create HintDb dsp.
Create Rewrite HintDb dsp.
#[export] Hint Resolve wrap_s64_id wrap_s64_range wrap_u64_range : dsp.
#[export] Hint Resolve truncate_hour_le : dsp.
#[export] Hint Rewrite @sumZ_app @count_where_app @count_where_cons : dsp.

Ltac case_if :=
  match goal with
  | |- context [if ?b then _ else _] => let E := fresh "Eif" in destruct b eqn:E
  end.
Ltac case_if_in H :=
  match type of H with
  | context [if ?b then _ else _] => let E := fresh "Eif" in destruct b eqn:E
  end.
