(* ===== verification/GoFloat.v ===== *)
(** * Floating point as the program computes it

    Go's [float64] and [float32] are IEEE 754 binary64 and binary32 with
    round-to-nearest-even.  They are the Standard Library's [spec_float], an
    executable specification of those formats, at the two precisions; Postgres
    [REAL] is binary32.  Every operation below is one rounding, as on targets
    whose compiler does not fuse [x*y + z] (amd64).  [int64(f)] truncates toward
    zero and gives the amd64 "indefinite" value for an argument out of range. *)

From S2P Require Import Prelude.
From Stdlib Require Export SpecFloat.

Abbreviation float := spec_float.

#[export] Instance spec_float_eq_dec : EqDecision spec_float.
Proof. solve_decision. Defined.

(** A float read as a signed mantissa and exponent, re-rounded to a format. *)
Definition round_to (prec emax : Z) (f : float) : float :=
  match f with
  | S754_finite s m e => binary_normalize prec emax (cond_Zopp s (Zpos m)) e s
  | _ => f
  end.

Module F64.
Definition of_Z (z : Z) : float := binary_normalize 53 1024 z 0 false.
Definition add : float → float → float := SFadd 53 1024.
Definition sub : float → float → float := SFsub 53 1024.
Definition mul : float → float → float := SFmul 53 1024.
Definition div : float → float → float := SFdiv 53 1024.
(** A decimal constant [n/d]: the nearest float64, since [n] and [d] are
    exact and the division rounds once. *)
Definition const (n d : Z) : float := div (of_Z n) (of_Z d).
Definition of_f32 : float → float := round_to 53 1024.
Definition zero : float := S754_zero false.
Definition one : float := of_Z 1.
(** [int64(f)] *)
Definition to_int64 (f : float) : Z :=
  match f with
  | S754_zero _ => 0
  | S754_finite s m e =>
      let t := if 0 <=? e then Z.shiftl (Zpos m) e else Z.shiftr (Zpos m) (- e) in
      let t := cond_Zopp s t in
      if bool_decide (int64_range t) then t else - 2^63
  | _ => - 2^63
  end.
End F64.

Module F32.
Definition of_Z (z : Z) : float := binary_normalize 24 128 z 0 false.
Definition add : float → float → float := SFadd 24 128.
Definition sub : float → float → float := SFsub 24 128.
Definition mul : float → float → float := SFmul 24 128.
Definition div : float → float → float := SFdiv 24 128.
Definition const (n d : Z) : float := div (of_Z n) (of_Z d).
Definition of_f64 : float → float := round_to 24 128.
Definition zero : float := S754_zero false.
Definition one : float := of_Z 1.
End F32.

(** Comparisons; false as soon as an operand is NaN, as in Go. *)
Definition flt (a b : float) : bool := SFltb a b.
Definition fle (a b : float) : bool := SFleb a b.
Definition fgt (a b : float) : bool := SFltb b a.

Definition is_nan (f : float) : bool :=
  match f with S754_nan => true | _ => false end.

(** [if v < lo { v = lo }; if v > hi { v = hi }] *)
Definition clamp (lo hi v : float) : float :=
  let v := if flt v lo then lo else v in
  if fgt v hi then hi else v.

(** The order of non-NaN floats. *)

Lemma flt_irrefl f : flt f f = false.
Proof.
  unfold flt, SFltb, SFcompare. destruct f as [s|s| |s m e]; [by destruct s..|done|].
  destruct s; by rewrite ?Z.compare_refl, ?Pos.compare_cont_refl.
Qed.

Lemma flt_nan_l f : flt S754_nan f = false.
Proof. by destruct f. Qed.

Lemma SFcompare_swap a b :
  is_nan a = false → is_nan b = false →
  ∃ c, SFcompare a b = Some c ∧ SFcompare b a = Some (CompOpp c).
Proof.
  intros Ha Hb.
  destruct a as [[]|[]| |[] m e], b as [[]|[]| |[] m' e']; try discriminate;
    simpl; try (by eexists; split);
    rewrite (Z.compare_antisym e e'); destruct (e ?= e'); simpl;
    try (by eexists; split).
  all: eexists; split; [done|]; f_equal.
  - exact (f_equal CompOpp (Pos.compare_antisym m m')).
  - exact (Pos.compare_antisym m m').
Qed.

(** Between numbers, not less is at least. *)
Lemma flt_false_fle a b :
  is_nan a = false → is_nan b = false → flt a b = false → fle b a = true.
Proof.
  intros Ha Hb. destruct (SFcompare_swap a b Ha Hb) as (c&H1&H2).
  unfold flt, fle, SFltb, SFleb. rewrite H1, H2. by destruct c.
Qed.

Lemma flt_fle a b : flt a b = true → fle a b = true.
Proof. unfold flt, fle, SFltb, SFleb. by destruct (SFcompare a b) as [[]|]. Qed.

(** The clamped value is never below [lo] nor above [hi], whatever was
    computed before it (NaN included: it compares false with everything). *)
Lemma clamp_bounds lo hi v :
  flt hi lo = false →
  flt (clamp lo hi v) lo = false ∧ fgt (clamp lo hi v) hi = false.
Proof.
  intros Hlh. unfold clamp, fgt. unfold flt in *.
  destruct (SFltb v lo) eqn:H1.
  - destruct (SFltb hi lo) eqn:H2; [done|]. split; [apply flt_irrefl|done].
  - destruct (SFltb hi v) eqn:H2; [|done]. split; [done|apply flt_irrefl].
Qed.
