(* ===== verification/Bytes.v ===== *)
(** * Bytes on the wire

    What the program uses of Go's [encoding/binary] (big endian) and
    [encoding/base64.RawURLEncoding], the byte form of [uuid.UUID], and
    constant-time comparison. *)

From S2P Require Import Prelude.
From Stdlib Require Import Ascii.

Definition byte_of_Z (z : Z) : Byte.byte := byte.of_Z z.
Definition byte_Z (b : Byte.byte) : Z := byte.unsigned b.

Lemma byte_Z_range b : 0 ≤ byte_Z b < 256.
Proof. apply byte.unsigned_range. Qed.
Lemma byte_of_Z_byte_Z b : byte_of_Z (byte_Z b) = b.
Proof. apply byte.of_Z_unsigned. Qed.
Lemma byte_Z_of_Z z : byte_Z (byte_of_Z z) = z `mod` 256.
Proof. apply byte.unsigned_of_Z. Qed.
Lemma byte_Z_inj a b : byte_Z a = byte_Z b → a = b.
Proof. intros H. rewrite <- (byte_of_Z_byte_Z a), H. apply byte_of_Z_byte_Z. Qed.

(** ** Big-endian integers *)

(** The low [n] bytes of [z], most significant first. *)
Fixpoint be_bytes (n : nat) (z : Z) : bytes :=
  match n with
  | O => []
  | S n' => be_bytes n' (z / 256) ++ [byte_of_Z z]
  end.

Definition be_Z (bs : bytes) : Z := foldl (λ acc b, acc * 256 + byte_Z b) 0 bs.

Lemma be_bytes_length n z : length (be_bytes n z) = n.
Proof. revert z. induction n; intros; simpl; rewrite ?length_app; simpl; rewrite ?IHn; lia. Qed.

Lemma be_Z_snoc bs b : be_Z (bs ++ [b]) = be_Z bs * 256 + byte_Z b.
Proof. unfold be_Z. by rewrite foldl_snoc. Qed.

Lemma be_Z_range bs : 0 ≤ be_Z bs < 256 ^ Z.of_nat (length bs).
Proof.
  induction bs as [|b bs IH] using rev_ind; [done|].
  rewrite be_Z_snoc, length_app. simpl length. rewrite Nat2Z.inj_add, Z.pow_add_r by lia.
  pose proof (byte_Z_range b). change (256 ^ Z.of_nat 1) with 256. nia.
Qed.

Lemma be_Z_bytes n z : be_Z (be_bytes n z) = z `mod` 256 ^ Z.of_nat n.
Proof.
  revert z. induction n as [|n IH]; intros z.
  - simpl. by rewrite Z.mod_1_r.
  - simpl be_bytes. rewrite be_Z_snoc, IH, byte_Z_of_Z.
    rewrite Nat2Z.inj_succ, Z.pow_succ_r by lia.
    rewrite (Z.mul_comm 256 (256 ^ _)), (Z.mul_comm _ 256).
    rewrite (Z.mul_comm _ 256), Z.rem_mul_r by lia. lia.
Qed.

Lemma be_bytes_Z bs : be_bytes (length bs) (be_Z bs) = bs.
Proof.
  induction bs as [|b bs IH] using rev_ind; [done|].
  rewrite length_app, Nat.add_comm. simpl. rewrite be_Z_snoc.
  pose proof (byte_Z_range b). rewrite Z.div_add_l by lia.
  rewrite Z.div_small, Z.add_0_r, IH by lia. f_equal.
  f_equal. apply byte_Z_inj. rewrite byte_Z_of_Z.
  rewrite Z.add_comm, Z.mod_add, Z.mod_small by lia. done.
Qed.

(** ** Identifiers *)

Definition uuid_bytes (u : uuid) : bytes := be_bytes 16 (Z.of_N (uuid_n u)).
Definition bytes_uuid (bs : bytes) : uuid := Uuid (Z.to_N (be_Z bs)).

Lemma uuid_bytes_length u : length (uuid_bytes u) = 16%nat.
Proof. apply be_bytes_length. Qed.

Lemma bytes_uuid_bytes u : uuid_wf u → bytes_uuid (uuid_bytes u) = u.
Proof.
  unfold uuid_wf, bytes_uuid, uuid_bytes. intros Hu. rewrite be_Z_bytes.
  rewrite Z.mod_small by (change (256 ^ Z.of_nat 16) with (Z.of_N (2 ^ 128)%N); lia).
  rewrite N2Z.id. by destruct u.
Qed.

Lemma bytes_uuid_wf bs : length bs = 16%nat → uuid_wf (bytes_uuid bs).
Proof.
  intros Hl. pose proof (be_Z_range bs) as Hr. rewrite Hl in Hr.
  change (256 ^ Z.of_nat 16) with (Z.of_N (2 ^ 128)%N) in Hr.
  unfold uuid_wf, bytes_uuid. simpl uuid_n. lia.
Qed.

Lemma uuid_bytes_bytes bs : length bs = 16%nat → uuid_bytes (bytes_uuid bs) = bs.
Proof.
  intros Hl. unfold uuid_bytes, bytes_uuid. cbn [uuid_n].
  rewrite Z2N.id by apply be_Z_range. rewrite <- Hl. apply be_bytes_Z.
Qed.

Lemma be_bytes_congr n a b :
  a `mod` 256 ^ Z.of_nat n = b `mod` 256 ^ Z.of_nat n → be_bytes n a = be_bytes n b.
Proof.
  intros H. rewrite <- (be_bytes_Z (be_bytes n a)), <- (be_bytes_Z (be_bytes n b)).
  by rewrite !be_bytes_length, !be_Z_bytes, H.
Qed.

(** An int64 travels as the uint64 of the same bits. *)
Lemma be_bytes_wrap z : be_bytes 8 (wrap_s64 z) = be_bytes 8 z.
Proof. apply be_bytes_congr. apply (wrap_u64_s64 z). Qed.

(** ** [base64.RawURLEncoding]

    Text is bytes, as in a Go string. *)

Definition b64_digit (i : Z) : Byte.byte :=
  if i <? 26 then byte_of_Z (65 + i)              (* A-Z *)
  else if i <? 52 then byte_of_Z (97 + (i - 26))  (* a-z *)
  else if i <? 62 then byte_of_Z (48 + (i - 52))  (* 0-9 *)
  else if i =? 62 then byte_of_Z 45 else byte_of_Z 95.

Definition b64_value (b : Byte.byte) : option Z :=
  let c := byte_Z b in
  if (65 <=? c) && (c <=? 90) then Some (c - 65)
  else if (97 <=? c) && (c <=? 122) then Some (c - 97 + 26)
  else if (48 <=? c) && (c <=? 57) then Some (c - 48 + 52)
  else if c =? 45 then Some 62
  else if c =? 95 then Some 63
  else None.

Fixpoint b64_encode (bs : bytes) : bytes :=
  match bs with
  | a :: b :: c :: rest =>
      let n := be_Z [a; b; c] in
      b64_digit (n / 2^18) :: b64_digit ((n / 2^12) `mod` 64) ::
      b64_digit ((n / 2^6) `mod` 64) :: b64_digit (n `mod` 64) :: b64_encode rest
  | [a; b] =>
      let n := be_Z [a; b] * 4 in
      [b64_digit (n / 2^12); b64_digit ((n / 2^6) `mod` 64); b64_digit (n `mod` 64)]
  | [a] => let n := byte_Z a * 16 in [b64_digit (n / 2^6); b64_digit (n `mod` 64)]
  | [] => []
  end.

(** Four digits are three bytes; two or three left over are one or two bytes,
    whose spare low bits the decoder ignores; one left over is an error. *)
Fixpoint b64_quanta (vs : list Z) : option bytes :=
  match vs with
  | a :: b :: c :: d :: rest =>
      bs ← b64_quanta rest;
      Some (be_bytes 3 (a * 2^18 + b * 2^12 + c * 2^6 + d) ++ bs)
  | [a; b; c] => Some (be_bytes 2 ((a * 2^12 + b * 2^6 + c) / 4))
  | [a; b] => Some (be_bytes 1 ((a * 2^6 + b) / 16))
  | [_] => None
  | [] => Some []
  end.

(** The decoder skips line breaks. *)
Definition is_newline (b : Byte.byte) : bool := (byte_Z b =? 10) || (byte_Z b =? 13).

Definition b64_decode (text : bytes) : option bytes :=
  vs ← mapM b64_value (filter (λ b, is_newline b = false) text);
  b64_quanta vs.

Lemma b64_digit_spec i :
  0 ≤ i < 64 →
  b64_value (b64_digit i) = Some i ∧ is_newline (b64_digit i) = false ∧ byte_Z (b64_digit i) ≠ 46.
Proof.
  intros Hi.
  assert (forallb (λ i, bool_decide (b64_value (b64_digit i) = Some i) &&
      negb (is_newline (b64_digit i)) && negb (byte_Z (b64_digit i) =? 46)) (seqZ 0 64) = true)
    as Hall by by vm_compute.
  rewrite forallb_forall in Hall.
  specialize (Hall i (proj1 (list_elem_of_In _ _) (proj2 (elem_of_seqZ _ _ _) Hi))).
  rewrite !andb_true_iff, bool_decide_eq_true, !negb_true_iff, Z.eqb_neq in Hall. tauto.
Qed.

(** Text all of whose characters are digits of the given values. *)
Definition spells (vs : list Z) (text : bytes) : Prop :=
  text = b64_digit <$> vs ∧ Forall (λ i, 0 ≤ i < 64) vs.

Lemma spells_decode vs text : spells vs text → b64_decode text = b64_quanta vs.
Proof.
  intros [-> Hv]. unfold b64_decode.
  replace (mapM b64_value _) with (Some vs); [done|]. symmetry.
  induction Hv as [|i vs Hi _ IH]; [done|].
  destruct (b64_digit_spec i Hi) as (Hval&Hnl&_).
  rewrite fmap_cons, filter_cons_True by done. cbn [mapM].
  rewrite Hval. simpl. by rewrite IH.
Qed.

Lemma bytes3_ind (P : bytes → Prop) :
  P [] → (∀ a, P [a]) → (∀ a b, P [a; b]) →
  (∀ a b c l, P l → P (a :: b :: c :: l)) → ∀ l, P l.
Proof.
  intros H0 H1 H2 H3 l. enough (P l ∧ (∀ a, P (a :: l)) ∧ (∀ a b, P (a :: b :: l))) by tauto.
  induction l as [|x l (IH1&IH2&IH3)]; auto.
Qed.

Lemma sextets3 n : n / 2^12 * 2^12 + (n / 2^6) `mod` 64 * 2^6 + n `mod` 64 = n.
Proof.
  change (2^12) with (64 * 64). change (2^6) with 64. rewrite <- Z.div_div by lia.
  pose proof (Z.div_mod n 64 ltac:(lia)). pose proof (Z.div_mod (n / 64) 64 ltac:(lia)). lia.
Qed.

Lemma sextets4 n :
  n / 2^18 * 2^18 + (n / 2^12) `mod` 64 * 2^12 + (n / 2^6) `mod` 64 * 2^6 + n `mod` 64 = n.
Proof.
  rewrite <- (sextets3 n) at 5. do 2 f_equal.
  change (2^18) with (2^12 * 64). rewrite <- Z.div_div by lia.
  pose proof (Z.div_mod (n / 2^12) 64 ltac:(lia)). lia.
Qed.

Lemma b64_encode_spells bs : ∃ vs, spells vs (b64_encode bs) ∧ b64_quanta vs = Some bs.
Proof.
  induction bs as [|a|a b|a b c l (vs&[He Hv]&IH)] using bytes3_ind.
  - by exists [].
  - pose proof (byte_Z_range a). eexists [_; _]. split.
    + split; [reflexivity|]. repeat constructor; Z.div_mod_to_equations; lia.
    + simpl b64_quanta. do 2 f_equal. apply byte_Z_inj. rewrite byte_Z_of_Z.
      Z.div_mod_to_equations; lia.
  - cbn [b64_encode]. set (n := be_Z [a; b] * 4).
    assert (0 ≤ n < 2^18) by (pose proof (be_Z_range [a; b]) as H; simpl length in H; lia).
    exists [n / 2^12; (n / 2^6) `mod` 64; n `mod` 64]. split.
    + split; [reflexivity|]. repeat constructor; Z.div_mod_to_equations; lia.
    + cbn [b64_quanta]. rewrite sextets3. subst n. rewrite Z.div_mul by lia. f_equal. apply (be_bytes_Z [a; b]).
  - pose proof (byte_Z_range a). pose proof (byte_Z_range b). pose proof (byte_Z_range c).
    cbn [b64_encode]. set (n := be_Z [a; b; c]).
    assert (0 ≤ n < 2^24) by apply (be_Z_range [a; b; c]).
    exists (n / 2^18 :: (n / 2^12) `mod` 64 :: (n / 2^6) `mod` 64 :: n `mod` 64 :: vs). split.
    + split; [simpl; by rewrite He|].
      repeat (apply Forall_cons; split; [Z.div_mod_to_equations; lia|]). done.
    + cbn [b64_quanta]. rewrite IH. simpl mbind. f_equal.
      rewrite sextets4. change (be_bytes 3 n ++ l = [a; b; c] ++ l). f_equal.
      apply (be_bytes_Z [a; b; c]).
Qed.

Lemma b64_decode_encode bs : b64_decode (b64_encode bs) = Some bs.
Proof. destruct (b64_encode_spells bs) as (vs&Hs&Hq). by rewrite (spells_decode vs). Qed.

Lemma b64_encode_no_dot bs b : b ∈ b64_encode bs → byte_Z b ≠ 46.
Proof.
  destruct (b64_encode_spells bs) as (vs&[-> Hv]&_).
  intros (i&->&Hi)%list_elem_of_fmap. rewrite Forall_forall in Hv.
  by apply b64_digit_spec, Hv.
Qed.

Lemma b64_encode_nil bs : b64_encode bs = [] → bs = [].
Proof. by destruct bs as [|a [|b [|c l]]]. Qed.
