(* ===== verification/Sha256.v ===== *)
(** * SHA-256

    [crypto/sha256] as FIPS 180-4 specifies it, executable; the examples are
    the standard's test vectors.  Fragments are addressed, checked and
    challenged by it. *)

From S2P Require Import Prelude Bytes.

Definition w32 (z : Z) : Z := z `mod` 2^32.
Definition rotr (n x : Z) : Z := Z.lor (Z.shiftr x n) (w32 (Z.shiftl x (32 - n))).
Definition not32 (x : Z) : Z := 2^32 - 1 - x.

Definition Ch (x y z : Z) : Z := Z.lxor (Z.land x y) (Z.land (not32 x) z).
Definition Maj (x y z : Z) : Z := Z.lxor (Z.lxor (Z.land x y) (Z.land x z)) (Z.land y z).
Definition bsig0 (x : Z) : Z := Z.lxor (Z.lxor (rotr 2 x) (rotr 13 x)) (rotr 22 x).
Definition bsig1 (x : Z) : Z := Z.lxor (Z.lxor (rotr 6 x) (rotr 11 x)) (rotr 25 x).
Definition ssig0 (x : Z) : Z := Z.lxor (Z.lxor (rotr 7 x) (rotr 18 x)) (Z.shiftr x 3).
Definition ssig1 (x : Z) : Z := Z.lxor (Z.lxor (rotr 17 x) (rotr 19 x)) (Z.shiftr x 10).

(** The constants: the first 32 bits of the fractional parts of the cube roots
    of the first 64 primes (and of the square roots of the first eight). *)
Definition first_primes : list Z :=
  filter (λ p, forallb (λ q, negb (p `mod` q =? 0)) (seqZ 2 (p - 2)) = true) (seqZ 2 310).

(** The integer cube root of [n], one bit at a time. *)
Definition cube_root (n : Z) : Z :=
  foldr (λ i r, let r' := r + 2 ^ i in if r' ^ 3 <=? n then r' else r) 0 (seqZ 0 40).

Definition sha_K : list Z :=
  Eval vm_compute in (λ p, w32 (cube_root (p * 2 ^ 96))) <$> first_primes.

Record sha_state := MkSha { ha : Z; hb : Z; hc : Z; hd : Z; he : Z; hf : Z; hg : Z; hh : Z }.
Definition sha_H0 : sha_state :=
  Eval vm_compute in
    match (λ p, w32 (Z.sqrt (p * 2 ^ 64))) <$> first_primes with
    | a :: b :: c :: d :: e :: f :: g :: h :: _ => MkSha a b c d e f g h
    | _ => MkSha 0 0 0 0 0 0 0 0
    end.

Definition sha_round (s : sha_state) (k w : Z) : sha_state :=
  let t1 := w32 (hh s + bsig1 (he s) + Ch (he s) (hf s) (hg s) + k + w) in
  let t2 := w32 (bsig0 (ha s) + Maj (ha s) (hb s) (hc s)) in
  MkSha (w32 (t1 + t2)) (ha s) (hb s) (hc s) (w32 (hd s + t1)) (he s) (hf s) (hg s).

(** The rounds, with the last sixteen words of the message schedule. *)
Fixpoint sha_rounds (s : sha_state) (ks w : list Z) : sha_state :=
  match ks, w with
  | k :: ks', w0 :: w' =>
      let next := w32 (ssig1 (nth 13 w' 0) + nth 8 w' 0 + ssig0 (nth 0 w' 0) + w0) in
      sha_rounds (sha_round s k w0) ks' (w' ++ [next])
  | _, _ => s
  end.

Definition sha_add (s t : sha_state) : sha_state :=
  MkSha (w32 (ha s + ha t)) (w32 (hb s + hb t)) (w32 (hc s + hc t)) (w32 (hd s + hd t))
    (w32 (he s + he t)) (w32 (hf s + hf t)) (w32 (hg s + hg t)) (w32 (hh s + hh t)).

Definition sha_block (s : sha_state) (block : bytes) : sha_state :=
  sha_add s (sha_rounds s sha_K (be_Z <$> chunks_of 16 4 block)).

(** A one bit, zeros, and the length in bits, up to a multiple of 64 bytes. *)
Definition sha_pad (m : bytes) : bytes :=
  let l := Z.of_nat (length m) in
  m ++ Byte.x80 :: zero_bytes (Z.to_nat ((55 - l) `mod` 64)) ++ be_bytes 8 (8 * l).

Definition sha_output (s : sha_state) : bytes :=
  be_bytes 4 (ha s) ++ be_bytes 4 (hb s) ++ be_bytes 4 (hc s) ++ be_bytes 4 (hd s) ++
  be_bytes 4 (he s) ++ be_bytes 4 (hf s) ++ be_bytes 4 (hg s) ++ be_bytes 4 (hh s).

Definition sha256 (m : bytes) : bytes :=
  let p := sha_pad m in
  sha_output (foldl sha_block sha_H0 (chunks_of (length p) 64 p)).

Lemma sha256_length m : length (sha256 m) = 32%nat.
Proof. unfold sha256, sha_output. by rewrite !length_app, !be_bytes_length. Qed.

Example sha256_empty :
  be_Z (sha256 []) = 0xe3b0c44298fc1c149afbf4c8996fb92427ae41e4649b934ca495991b7852b855.
Proof. by vm_compute. Qed.

Example sha256_abc :
  be_Z (sha256 [Byte.x61; Byte.x62; Byte.x63]) =
    0xba7816bf8f01cfea414140de5dae2223b00361a396177a9cb410ff61f20015ad.
Proof. by vm_compute. Qed.

(** A message of two blocks (FIPS 180-4, 448 bits). *)
Example sha256_two_blocks :
  be_Z (sha256 (be_bytes 56
    0x6162636462636465636465666465666765666768666768696768696a68696a6b696a6b6c6a6b6c6d6b6c6d6e6c6d6e6f6d6e6f706e6f7071)) =
    0x248d6a61d20638b8e5c026930c3e6039a33ce45964ff2167f6ecedd419db06c1.
Proof. by vm_compute. Qed.

#[global] Opaque sha256.
