(* ===== verification/Crypto.v ===== *)
(** * Packages outside the repository

    What the code asks of AES-256-GCM ([crypto/cipher]), Argon2id
    ([golang.org/x/crypto/argon2]) and Reed-Solomon 10+6
    ([klauspost/reedsolomon]), each as a class of operations with the documented
    laws the theorems use, and a toy instance of each for concrete runs.
    Ed25519 is in [Tickets]. *)

From S2P Require Import Prelude Bytes Sha256.

(** ** Authenticated encryption

    [open] gives back what [seal] sealed under the same key, nonce and
    additional data, and whatever it accepts is the sealing of what it returns
    (GCM is deterministic in these three). *)
Class Aead := {
  seal : bytes → bytes → bytes → bytes → bytes;          (* key, nonce, plaintext, aad *)
  open : bytes → bytes → bytes → bytes → option bytes }. (* key, nonce, sealed, aad *)

Class AeadLaws `{Aead} : Prop := {
  open_seal k n p a : open k n (seal k n p a) a = Some p;
  open_sound k n c a p : open k n c a = Some p → c = seal k n p a;
  seal_length k n p a : length (seal k n p a) = (length p + 16)%nat }.

(** ** Key derivation *)
Class Argon2 := argon2_IDKey : bytes → bytes → Z → Z → Z → nat → bytes.
(* password, salt, time, memory, threads, key length *)

Class Argon2Laws `{Argon2} : Prop :=
  argon2_length p s t m th n : length (argon2_IDKey p s t m th n) = n.

(** ** Reed-Solomon, 10 data and 6 parity shards *)
Definition ECData : nat := 10.
Definition ECParity : nat := 6.
Definition ECTotal : nat := ECData + ECParity.

(** How many slots are filled. *)
Definition present (shards : list (option bytes)) : nat :=
  count_where (λ s, bool_decide (s ≠ None)) shards.

Class ReedSolomon := {
  rs_split : bytes → option (list bytes);
  rs_encode : list bytes → option (list bytes);
  rs_reconstruct : list (option bytes) → option (list (option bytes));
  rs_join : list (option bytes) → nat → option bytes }.

(** [shards] is the encoding of [data]. *)
Definition coded `{ReedSolomon} (data : bytes) (shards : list bytes) : Prop :=
  ∃ parts, rs_split data = Some parts ∧ rs_encode parts = Some shards.

Class ReedSolomonLaws `{ReedSolomon} : Prop := {
  rs_codes data : data ≠ [] → ∃ shards, coded data shards;
  rs_coded data shards : coded data shards → length shards = ECTotal ∧ Forall (λ s, s ≠ []) shards;
  rs_rebuilds data shards work : coded data shards → length work = ECTotal →
    (∀ i b, work !! i = Some (Some b) → shards !! i = Some b) → (ECData ≤ present work)%nat →
    rs_reconstruct work = Some (Some <$> shards);
  rs_joins data shards : coded data shards → rs_join (Some <$> shards) (length data) = Some data }.

(** ** Toy instances *)
Module Toy.

(** The tag is a hash. *)
Definition tag (k n p a : bytes) : bytes := take 16 (sha256 (k ++ n ++ a ++ p)).
#[export] Instance aead : Aead := {|
  seal k n p a := p ++ tag k n p a;
  open k n c a :=
    let p := take (length c - 16) c in
    if bool_decide (c = p ++ tag k n p a) then Some p else None |}.

Lemma tag_length k n p a : length (tag k n p a) = 16%nat.
Proof. unfold tag. rewrite length_take, sha256_length. lia. Qed.

#[export] Instance aead_laws : AeadLaws.
Proof.
  split; intros k n; simpl.
  - intros p a. rewrite length_app, tag_length, take_app_n by lia. by rewrite bool_decide_eq_true_2.
  - intros c a p. case_bool_decide as Hc; [|done]. by intros [= <-].
  - intros p a. by rewrite length_app, tag_length.
Qed.

#[export] Instance argon2 : Argon2 := λ p s _ _ _ n, take n (sha256 (s ++ p) ++ zero_bytes n).

#[export] Instance argon2_laws : Argon2Laws.
Proof.
  intros p s t m th n. unfold argon2_IDKey, argon2, zero_bytes.
  rewrite length_take, length_app, length_replicate. lia.
Qed.

(** Every shard is a copy of the data. *)
#[export] Instance reed_solomon : ReedSolomon := {|
  rs_split data := if bool_decide (data = []) then None else Some (replicate ECTotal data);
  rs_encode parts := Some parts;
  rs_reconstruct work := s ← head (omap id work); Some (replicate ECTotal (Some s));
  rs_join shards n := s ← head (omap id shards); Some (take n s) |}.

#[export] Instance reed_solomon_laws : ReedSolomonLaws.
Proof.
  assert (∀ data shards, coded data shards ↔ data ≠ [] ∧ shards = replicate ECTotal data) as Hc.
  { intros data shards. unfold coded. simpl. split.
    - intros (parts&Hp&[= <-]). case_bool_decide; by simplify_eq.
    - intros [? ->]. exists (replicate ECTotal data). by rewrite bool_decide_eq_false_2. }
  split.
  - intros data Hd. exists (replicate ECTotal data). by apply Hc.
  - intros data shards [? ->]%Hc. rewrite length_replicate. split; [done|]. by apply Forall_replicate.
  - intros data shards work [? ->]%Hc Hl Hw Hp. simpl.
    destruct (count_where_pos (λ s, bool_decide (s ≠ None)) work) as (s&Hs&Hn%bool_decide_eq_true);
      [unfold present, ECData in Hp; lia|].
    assert (∀ b, Some b ∈ work → b = data) as Hall.
    { intros b [i Hi]%list_elem_of_lookup. apply Hw, lookup_replicate in Hi as [-> _]. done. }
    destruct s as [b|]; [|done]. rewrite (Hall b Hs) in Hs.
    assert (data ∈ omap id work) as Hin by (apply list_elem_of_omap; by exists (Some data)).
    destruct (omap id work) as [|c l] eqn:Ho; [by apply not_elem_of_nil in Hin|].
    assert (c ∈ omap id work) as (o&Ho'&Heq)%list_elem_of_omap by (rewrite Ho; left).
    unfold id in Heq. subst o.
    cbn [head mbind option_bind]. by rewrite (Hall c Ho').
  - intros data shards [? ->]%Hc. simpl. by rewrite take_ge by lia.
Qed.
End Toy.
