(* ===== verification/Pipeline.v ===== *)
(** * The client's pipeline: [src/internal/pipeline/pipeline.go] and
      [src/internal/pipeline/erasure.go]

    A file is encrypted in segments of 64 KiB, the ciphertext is cut into
    chunks, and each chunk is coded into 16 shards.  A reader is the bytes it
    delivers and whether it ends with an error instead of EOF; a writer is what
    was written so far and, if it can fill up, the room that is left.  Random
    bytes are an argument, [None] when the reader of random bytes fails.

    The loops run on fuel, one unit per [io.ReadFull]; the fuel given is more
    than the reads the data allows ([EDiverges] is never returned). *)

From S2P Require Import Prelude Bytes Sha256 Crypto.

Definition FileKeySize : nat := 32.
Definition MasterKeySize : nat := 32.
Definition SegmentSize : nat := Z.to_nat (64 * 1024).
Definition GCMTagSize : nat := 16.
Definition NoncePrefixLen : nat := 4.
Definition WrapNonceLen : nat := 12.
Definition DefaultChunk : Z := 16 * 1024 * 1024.
Definition DefaultMemory : Z := 64 * 1024.
Definition DefaultTime : Z := 3.
Definition DefaultThreads : Z := 4.
Definition SaltLen : nat := 16.

Inductive pipe_error :=
  ErrAuth | ErrPassphrase | ErrMeta | ErrKey | ErrTruncated | ErrShards | EIO | EDiverges.
#[export] Instance pipe_error_eq_dec : EqDecision pipe_error.
Proof. solve_decision. Defined.

(** ** Readers and writers *)

Record Reader := MkReader { rd_data : bytes; rd_fails : bool }.

(** How [io.ReadFull] ends: nil, [io.EOF], [io.ErrUnexpectedEOF], another error. *)
Inductive read_end := RNil | REOF | RUnexpected | RFail.

Definition read_full (n : nat) (r : Reader) : bytes * read_end * Reader :=
  let got := take n (rd_data r) in
  (got,
   if (length got =? n)%nat then RNil
   else if rd_fails r then RFail
   else if (length got =? 0)%nat then REOF else RUnexpected,
   MkReader (drop n (rd_data r)) (rd_fails r)).

Record Writer := MkWriter { wr_out : bytes; wr_room : option nat }.
Abbreviation pipe A := (M Writer pipe_error A).

(** A writer that never fills up. *)
Definition unlimited (out : bytes) : Writer := MkWriter out None.

(** [w.Write(b)]: a full writer takes what fits and fails. *)
Definition write (b : bytes) : pipe unit := λ w,
  match wr_room w with
  | None => (Ok tt, MkWriter (wr_out w ++ b) None)
  | Some room =>
      if (length b <=? room)%nat then (Ok tt, MkWriter (wr_out w ++ b) (Some (room - length b)%nat))
      else (Err EIO, MkWriter (wr_out w ++ take room b) (Some 0%nat))
  end.

(** [rand.Read] into a buffer of [n] bytes. *)
Definition rand_read (n : nat) (entropy : option bytes) : result pipe_error bytes :=
  match entropy with Some b => Ok (take n (b ++ zero_bytes n)) | None => Err EIO end.

(** ** Keys *)

Record KDFParams := MkKDF {
  kp_Name : bytes; kp_Memory : Z; kp_Time : Z; kp_Threads : Z; kp_Salt : bytes }.
Record EncryptionMeta := MkMeta {
  em_Algo : bytes; em_Wrap : bytes; em_WrappedFK : bytes; em_WrapNonce : bytes;
  em_KDF : KDFParams; em_NoncePrefix : bytes }.

Definition ascii_bytes (s : string) : bytes := String.list_byte_of_string s.
Definition AlgoGCM : bytes := ascii_bytes "aes-256-gcm".
Definition WrapGCM : bytes := ascii_bytes "aes-256-gcm".
Definition KDFName : bytes := ascii_bytes "argon2id".

Definition DefaultKDF : KDFParams := MkKDF KDFName DefaultMemory DefaultTime DefaultThreads [].

(** [encoding/json] on the struct: what is marshalled unmarshals to itself. *)
Class MetaJson := { marshal : EncryptionMeta → bytes; unmarshal : bytes → option EncryptionMeta }.
Class MetaJsonLaws `{MetaJson} : Prop := unmarshal_marshal m : unmarshal (marshal m) = Some m.

Definition or_default (z d : Z) : Z := if z =? 0 then d else z.

Section pipeline.
Context `{Aead, Argon2, MetaJson, ReedSolomon}.

Definition DeriveMasterKey (passphrase : bytes) (p : KDFParams) (entropy : option bytes) :
    result pipe_error (bytes * KDFParams) :=
  let name := if bool_decide (kp_Name p = []) then KDFName else kp_Name p in
  if negb (bool_decide (name = KDFName)) then Err ErrMeta
  else
    let memory := or_default (kp_Memory p) DefaultMemory in
    let time := or_default (kp_Time p) DefaultTime in
    let threads := or_default (kp_Threads p) DefaultThreads in
    salt ← (if bool_decide (kp_Salt p = []) then rand_read SaltLen entropy else Ok (kp_Salt p));
    Ok (argon2_IDKey passphrase salt time memory threads MasterKeySize,
        MkKDF name memory time threads salt).

Definition GenerateFileKey (entropy : option bytes) : result pipe_error bytes :=
  rand_read FileKeySize entropy.

Definition WrapFileKey (mk fk : bytes) (entropy : option bytes) : result pipe_error (bytes * bytes) :=
  if negb (length mk =? MasterKeySize)%nat || negb (length fk =? FileKeySize)%nat then Err ErrKey
  else
    nonce ← rand_read WrapNonceLen entropy;
    Ok (seal mk nonce fk (ascii_bytes "fk"), nonce).

Definition UnwrapFileKey (mk wrapped nonce : bytes) : result pipe_error bytes :=
  if negb (length mk =? MasterKeySize)%nat then Err ErrKey
  else of_option ErrPassphrase (open mk nonce wrapped (ascii_bytes "fk")).

Definition NewMeta (p : KDFParams) (wrapped wrapNonce noncePrefix : bytes) : EncryptionMeta :=
  MkMeta AlgoGCM WrapGCM wrapped wrapNonce p noncePrefix.

Definition MarshalMeta (m : EncryptionMeta) : bytes := marshal m.

Definition UnmarshalMeta (raw : bytes) : result pipe_error EncryptionMeta :=
  m ← of_option ErrMeta (unmarshal raw);
  if negb (bool_decide (em_Algo m = AlgoGCM)) || negb (bool_decide (em_Wrap m = WrapGCM)) ||
     negb (length (em_NoncePrefix m) =? NoncePrefixLen)%nat then Err ErrMeta
  else Ok m.

Definition UnlockFK (passphrase : bytes) (m : EncryptionMeta) (entropy : option bytes) :
    result pipe_error bytes :=
  '(mk, _) ← DeriveMasterKey passphrase (em_KDF m) entropy;
  UnwrapFileKey mk (em_WrappedFK m) (em_WrapNonce m).

(** ** Segments *)

Definition segmentNonce (prefix : bytes) (seq : Z) : bytes :=
  take 4 (prefix ++ zero_bytes 4) ++ be_bytes 8 seq.

Definition aad (seq : Z) (more : bool) : bytes :=
  be_bytes 8 seq ++ [if more then Byte.x01 else Byte.x00].

(** The locals of the loop; [es_Hash] is what the hash has absorbed. *)
Record EncState := MkEnc {
  es_Seq : Z; es_Pending : option bytes; es_Plain : Z; es_Cipher : Z; es_Hash : bytes }.

Definition writeSeg (fk prefix : bytes) (seq : Z) (plain : bytes) (more : bool) (st : EncState) :
    pipe EncState :=
  let sealed := seal fk (segmentNonce prefix seq) plain (aad seq more) in
  write sealed ≫= λ _,
  mret (MkEnc (es_Seq st) (es_Pending st) (es_Plain st)
          (add64 (es_Cipher st) (Z.of_nat (length sealed))) (es_Hash st ++ sealed)).

Definition set_pending (got : bytes) (st : EncState) : EncState :=
  MkEnc (es_Seq st) (Some got) (add64 (es_Plain st) (Z.of_nat (length got)))
    (es_Cipher st) (es_Hash st).
Definition next_seq (st : EncState) : EncState :=
  MkEnc (wrap_u64 (es_Seq st + 1)) (es_Pending st) (es_Plain st) (es_Cipher st) (es_Hash st).

Fixpoint encrypt_loop (fuel : nat) (fk prefix : bytes) (src : Reader) (st : EncState) : pipe EncState :=
  match fuel with
  | O => throw EDiverges
  | S fuel =>
      let '(got, e, src) := read_full SegmentSize src in
      st ← (if bool_decide (got = []) then mret st
            else
              st ← match es_Pending st with
                   | Some plain => st ← writeSeg fk prefix (es_Seq st) plain true st; mret (next_seq st)
                   | None => mret st
                   end;
              mret (set_pending got st));
      match e with
      | REOF | RUnexpected =>
          match es_Pending st with
          | None => writeSeg fk prefix 0 [] false st
          | Some plain => writeSeg fk prefix (es_Seq st) plain false st
          end
      | RNil => encrypt_loop fuel fk prefix src st
      | RFail => throw EIO
      end
  end.

(** The nonce prefix, the two sizes and the hash of the ciphertext. *)
Definition Encrypt (src : Reader) (fk : bytes) (entropy : option bytes) :
    pipe (bytes * Z * Z * bytes) :=
  guard_err (negb (length fk =? FileKeySize)%nat) ErrKey ≫= λ _,
  prefix ← lift (rand_read NoncePrefixLen entropy);
  write prefix ≫= λ _,
  st ← encrypt_loop (S (S (length (rd_data src)))) fk prefix src
         (MkEnc 0 None 0 (Z.of_nat NoncePrefixLen) prefix);
  mret (prefix, es_Plain st, es_Cipher st, sha256 (es_Hash st)).

Definition openSegment (fk prefix : bytes) (seq : Z) (sealed : bytes) (more : bool) : pipe unit :=
  guard_err (length sealed <? GCMTagSize)%nat ErrTruncated ≫= λ _,
  plain ← lift (of_option ErrAuth (open fk (segmentNonce prefix seq) sealed (aad seq more)));
  write plain.

(** Open the segment that is held back, if any. *)
Definition flush (fk prefix : bytes) (seq : Z) (pending : option bytes) : pipe Z :=
  match pending with
  | Some p => openSegment fk prefix seq p true ≫= λ _, mret (wrap_u64 (seq + 1))
  | None => mret seq
  end.

Fixpoint decrypt_loop (fuel : nat) (fk prefix : bytes) (src : Reader) (seq : Z)
    (pending : option bytes) : pipe unit :=
  match fuel with
  | O => throw EDiverges
  | S fuel =>
      let '(chunk, e, src) := read_full (SegmentSize + GCMTagSize) src in
      if negb (bool_decide (chunk = [])) then
        match e with
        | RNil =>
            seq ← flush fk prefix seq pending;
            decrypt_loop fuel fk prefix src seq (Some chunk)
        | RUnexpected | REOF =>
            seq ← flush fk prefix seq pending;
            openSegment fk prefix seq chunk false
        | RFail => throw EIO
        end
      else
        match e with
        | REOF =>
            match pending with
            | Some p => openSegment fk prefix seq p false
            | None => throw ErrTruncated
            end
        | RNil => decrypt_loop fuel fk prefix src seq pending
        | RUnexpected | RFail => throw EIO
        end
  end.

Definition Decrypt (src : Reader) (fk noncePrefix : bytes) : pipe unit :=
  guard_err (negb (length fk =? FileKeySize)%nat || negb (length noncePrefix =? NoncePrefixLen)%nat)
    ErrKey ≫= λ _,
  let '(got, e, src) := read_full NoncePrefixLen src in
  match e with
  | RNil =>
      guard_err (negb (bool_decide (got = noncePrefix))) ErrAuth ≫= λ _,
      decrypt_loop (S (length (rd_data src))) fk noncePrefix src 0 None
  | _ => throw ErrTruncated
  end.

(** ** Chunks and shards *)

Record ChunkInfo := MkChunkInfo { ci_Seq : Z; ci_SizeBytes : Z; ci_SHA256 : bytes }.

Definition chunk_info (seq : Z) (b : bytes) : ChunkInfo :=
  MkChunkInfo seq (Z.of_nat (length b)) (sha256 b).

(** [emit] runs over a state of its own. *)
Fixpoint split_loop {St} (fuel size : nat) (r : Reader) (seq : Z)
    (emit : ChunkInfo → bytes → M St pipe_error unit) : M St pipe_error unit :=
  match fuel with
  | O => throw EDiverges
  | S fuel =>
      let '(got, e, r) := read_full size r in
      seq ← (if bool_decide (got = []) then mret seq
             else emit (chunk_info seq got) got ≫= λ _, mret (seq + 1));
      match e with
      | REOF | RUnexpected => if seq =? 0 then emit (chunk_info 0 []) [] else mret tt
      | RFail => throw EIO
      | RNil => split_loop fuel size r seq emit
      end
  end.

Definition SplitChunks {St} (r : Reader) (chunkSize : Z)
    (emit : ChunkInfo → bytes → M St pipe_error unit) : M St pipe_error unit :=
  let chunkSize := if chunkSize <=? 0 then DefaultChunk else chunkSize in
  split_loop (S (length (rd_data r))) (Z.to_nat chunkSize) r 0 emit.

Definition EncodeChunk (chunk : bytes) : result pipe_error (list bytes) :=
  let data := if bool_decide (chunk = []) then [Byte.x00] else chunk in
  parts ← of_option EIO (rs_split data);
  of_option EIO (rs_encode parts).

(** A copied empty slice is nil, that is, missing. *)
Definition copy_shard (s : option bytes) : option bytes :=
  match s with Some [] => None | _ => s end.

Definition ReconstructChunk (shards : list (option bytes)) (chunkSize : Z) :
    result pipe_error bytes :=
  if negb (length shards =? ECTotal)%nat then Err ErrShards
  else if chunkSize <? 0 then Err ErrShards
  else if chunkSize =? 0 then Ok []
  else if (present shards <? ECData)%nat then Err ErrShards
  else
    work ← of_option EIO (rs_reconstruct (copy_shard <$> shards));
    of_option EIO (rs_join work (Z.to_nat chunkSize)).

Definition ReconstructShards (shards : list (option bytes)) :
    result pipe_error (list (option bytes)) :=
  if negb (length shards =? ECTotal)%nat then Err ErrShards
  else if (present shards <? ECData)%nat then Err ErrShards
  else of_option EIO (rs_reconstruct shards).
End pipeline.

(** ** What a ciphertext is *)

Lemma SegmentSize_Z : Z.of_nat SegmentSize = 65536.
Proof. unfold SegmentSize. lia. Qed.
#[local] Opaque SegmentSize.

Lemma SegmentSize_pos : (0 < SegmentSize)%nat.
Proof. pose proof SegmentSize_Z. lia. Qed.

(** The segments of a plaintext: full ones, and a last one. *)
Definition segments (p : bytes) : list bytes :=
  if bool_decide (p = []) then [[]] else chunks_of (length p) SegmentSize p.

Inductive segmented : list bytes → Prop :=
  | segmented_last b : (length b ≤ SegmentSize)%nat → segmented [b]
  | segmented_cons b bs : length b = SegmentSize → segmented bs → segmented (b :: bs).

Section cipher.
Context `{Aead} (fk prefix : bytes).

Definition sealed (seq : Z) (p : bytes) (more : bool) : bytes :=
  seal fk (segmentNonce prefix seq) p (aad seq more).

(** Under this key the tag tells additional data of one cipher block apart (in
    GCM they are the coefficients of a polynomial in the hash key). *)
Definition binds_aad : Prop := ∀ n p a a',
  length a = length a' → (length a ≤ 16)%nat → a ≠ a' → open fk n (seal fk n p a) a' = None.

(** Every segment but the last is sealed as having more to come. *)
Fixpoint seal_all (seq : Z) (segs : list bytes) : bytes :=
  match segs with
  | [] => []
  | [s] => sealed seq s false
  | s :: segs => sealed seq s true ++ seal_all (wrap_u64 (seq + 1)) segs
  end.

Fixpoint seal_more (seq : Z) (segs : list bytes) : bytes :=
  match segs with
  | [] => []
  | s :: segs => sealed seq s true ++ seal_more (wrap_u64 (seq + 1)) segs
  end.

Definition ciphertext (p : bytes) : bytes := prefix ++ seal_all 0 (segments p).

Lemma seal_all_cons seq s segs :
  segs ≠ [] → seal_all seq (s :: segs) = sealed seq s true ++ seal_all (wrap_u64 (seq + 1)) segs.
Proof. by destruct segs. Qed.
End cipher.

Lemma segmented_nonempty segs : segmented segs → segs ≠ [].
Proof. by intros []. Qed.

Lemma blocks_segmented segs : blocks SegmentSize segs → segs ≠ [] → segmented segs.
Proof.
  induction 1 as [|b Hb|b b' bs Hl Hb IH]; intros Hne; [done|..].
  - constructor. lia.
  - constructor; [done|by apply IH].
Qed.

Lemma segments_spec p : segmented (segments p) ∧ concat (segments p) = p.
Proof.
  unfold segments. case_bool_decide as Hp.
  { subst. split; [constructor; simpl; lia|done]. }
  destruct (chunks_of_blocks (length p) SegmentSize p) as [Hb Hc]; [apply SegmentSize_pos|lia|].
  split; [|done]. apply blocks_segmented; [done|]. intros E. by rewrite E in Hc.
Qed.

(** ** Writing *)

Lemma write_app a b w : (write a ≫= λ _, write b) w = write (a ++ b) w.
Proof.
  unfold mbind, M_bind, write. destruct w as [out [room|]]; cbn [wr_room wr_out].
  2: by rewrite (assoc_L (++)).
  rewrite length_app. destruct (Nat.leb_spec (length a) room) as [Ha|Ha].
  - cbn [wr_room wr_out]. destruct (Nat.leb_spec (length b) (room - length a)); rewrite <- (assoc_L (++)).
    + rewrite (proj2 (Nat.leb_le _ _)) by lia. by rewrite Nat.sub_add_distr.
    + rewrite (proj2 (Nat.leb_gt _ _)) by lia. by rewrite take_app_ge by lia.
  - rewrite (proj2 (Nat.leb_gt _ _)) by lia. by rewrite take_app_le by lia.
Qed.

Lemma write_nil w : write [] w = (Ok tt, w).
Proof.
  destruct w as [out [room|]]; unfold write; simpl; rewrite app_nil_r; [|done]. by rewrite Nat.sub_0_r.
Qed.

Lemma read_full_cases n data fails :
  (0 < n)%nat →
  (n ≤ length data)%nat ∧ take n data ≠ [] ∧
    read_full n (MkReader data fails) = (take n data, RNil, MkReader (drop n data) fails) ∨
  (length data < n)%nat ∧
    read_full n (MkReader data fails) =
      (data, if fails then RFail else if bool_decide (data = []) then REOF else RUnexpected,
       MkReader [] fails).
Proof.
  intros Hn. unfold read_full. cbn [rd_data rd_fails]. rewrite length_take.
  destruct (Nat.le_gt_cases n (length data)) as [Hle|Hlt].
  - left. split_and!; [done| |].
    + intros E. apply (f_equal length) in E. rewrite length_take in E. simpl in E. lia.
    + by rewrite Nat.min_l, Nat.eqb_refl by done.
  - right. split; [done|]. rewrite Nat.min_r by lia. rewrite (proj2 (Nat.eqb_neq _ _)) by lia.
    rewrite take_ge, drop_ge by lia. f_equal. f_equal. destruct fails; [done|].
    destruct data; [done|]. by rewrite bool_decide_eq_false_2.
Qed.

Lemma add64_wrap a b : add64 (wrap_s64 a) b = wrap_s64 (a + b).
Proof. apply wrap_add_l. Qed.

Section encrypt.
Context `{Aead} (fk prefix : bytes).

Lemma writeSeg_run seq plain more q o P C h w :
  writeSeg fk prefix seq plain more (MkEnc q o P (wrap_s64 C) h) w =
  (write (sealed fk prefix seq plain more) ≫= λ _,
   mret (MkEnc q o P (wrap_s64 (C + Z.of_nat (length (sealed fk prefix seq plain more))))
           (h ++ sealed fk prefix seq plain more))) w.
Proof. unfold writeSeg. cbn [es_Seq es_Pending es_Plain es_Cipher es_Hash]. by rewrite add64_wrap. Qed.

(** The segments still to come, from the one held back on. *)
Definition to_come (pending : option bytes) (data : bytes) : list bytes :=
  match pending with
  | None => segments data
  | Some p => p :: chunks_of (length data) SegmentSize data
  end.

Lemma to_come_full data :
  (SegmentSize ≤ length data)%nat →
  segments data = to_come (Some (take SegmentSize data)) (drop SegmentSize data).
Proof.
  pose proof SegmentSize_pos. intros Hd. unfold segments, to_come.
  rewrite bool_decide_eq_false_2 by (intros ->; simpl in Hd; lia).
  apply chunks_of_cons; [done|]. intros ->. simpl in Hd. lia.
Qed.

Lemma segments_short data : (length data < SegmentSize)%nat → segments data = [data].
Proof.
  intros Hd. unfold segments. case_bool_decide as Hn; [by subst|].
  rewrite chunks_of_cons, take_ge, drop_ge by (done || lia || apply SegmentSize_pos). done.
Qed.

Lemma to_come_chunks p data : data ≠ [] → to_come (Some p) data = p :: segments data.
Proof. intros Hd. unfold to_come, segments. by rewrite bool_decide_eq_false_2. Qed.

Lemma segments_nonempty data : segments data ≠ [].
Proof. apply segmented_nonempty, segments_spec. Qed.

(** What the loop writes, and how it ends. *)
Definition emitted (fails : bool) (seq : Z) (segs : list bytes) : bytes :=
  if fails then seal_more fk prefix seq (removelast segs) else seal_all fk prefix seq segs.

Lemma emitted_cons fails seq s segs :
  segs ≠ [] →
  emitted fails seq (s :: segs) =
    sealed fk prefix seq s true ++ emitted fails (wrap_u64 (seq + 1)) segs.
Proof. intros Hs. unfold emitted. by destruct fails, segs. Qed.

(** The answer of [Encrypt] from the loop's last state. *)
Definition finish (st : EncState) : pipe (bytes * Z * Z * bytes) :=
  mret (prefix, es_Plain st, es_Cipher st, sha256 (es_Hash st)).

Definition answer (fails : bool) (P C : Z) (h out : bytes) : pipe (bytes * Z * Z * bytes) :=
  write out ≫= λ _,
  if fails then throw EIO
  else mret (prefix, wrap_s64 P, wrap_s64 (C + Z.of_nat (length out)), sha256 (h ++ out)).

Lemma answer_app fails P C h a b w :
  (write a ≫= λ _, answer fails P (C + Z.of_nat (length a)) (h ++ a) b) w =
  answer fails P C h (a ++ b) w.
Proof.
  unfold answer. rewrite <- bind_assoc. rewrite (bind_run' _ _ _ _ (write_app a b w)).
  rewrite length_app, Nat2Z.inj_add, Z.add_assoc, (assoc_L (++)). done.
Qed.

Lemma last_segment seq plain q o P C h w :
  (writeSeg fk prefix seq plain false (MkEnc q o (wrap_s64 P) (wrap_s64 C) h) ≫= finish) w =
  answer false P C h (emitted false seq [plain]) w.
Proof.
  unfold answer, emitted. cbn [seal_all]. unfold mbind at 1, M_bind at 1.
  rewrite writeSeg_run. unfold mbind, M_bind. by destruct (write _ w) as [[[]|e] w1].
Qed.

Lemma no_more P C h w : answer true P C h [] w = (Err EIO, w).
Proof. unfold answer. by rewrite (bind_run _ _ _ _ _ (write_nil w)). Qed.

(** The end of the input, after the read of a short segment. *)
Lemma encrypt_last (fails : bool) seq last q P C h w :
  (match (if fails then RFail else RUnexpected) with
   | REOF | RUnexpected => writeSeg fk prefix seq last false (MkEnc seq q (wrap_s64 P) (wrap_s64 C) h)
   | RNil | RFail => (throw EIO : pipe EncState)
   end ≫= finish) w = answer fails P C h (emitted fails seq [last]) w.
Proof. destruct fails; [by rewrite no_more|apply last_segment]. Qed.

Lemma encrypt_loop_ok fuel data fails seq pending P C h w :
  (length data < fuel)%nat → match pending with Some _ => True | None => seq = 0 end →
  (encrypt_loop fuel fk prefix (MkReader data fails)
     (MkEnc seq pending (wrap_s64 P) (wrap_s64 C) h) ≫= finish) w =
  answer fails (P + Z.of_nat (length data)) C h (emitted fails seq (to_come pending data)) w.
Proof.
  revert data seq pending P C h w. induction fuel as [|fuel IH];
    intros data seq pending P C h w Hf Hst; [lia|].
  cbn [encrypt_loop].
  destruct (read_full_cases SegmentSize data fails SegmentSize_pos) as [(Hd&Hne&->)|[Hd ->]].
  - rewrite (bool_decide_eq_false_2 _ Hne).
    assert (length (drop SegmentSize data) < fuel)%nat
      by (pose proof SegmentSize_pos; rewrite length_drop; lia).
    set (got := take SegmentSize data) in *. set (rest := drop SegmentSize data) in *.
    assert (Z.of_nat (length data) = Z.of_nat (length got) + Z.of_nat (length rest)) as ->
      by (rewrite <- Nat2Z.inj_add, <- length_app; unfold got, rest; by rewrite take_drop).
    rewrite Z.add_assoc. destruct pending as [p|].
    + rewrite to_come_chunks by (intros ->; done). rewrite to_come_full by done.
      fold got rest. rewrite emitted_cons, <- answer_app by done.
      cbn [es_Pending es_Seq]. rewrite !bind_assoc.
      rewrite (bind_run' _ _ _ _ (writeSeg_run _ _ _ _ _ _ _ _ _)), bind_assoc.
      apply bind_ext. intros _ w1. m_steps.
      unfold next_seq, set_pending. cbn [es_Seq es_Pending es_Plain es_Cipher es_Hash].
      rewrite add64_wrap. by apply (IH rest _ (Some got)).
    + rewrite to_come_full by done. fold got rest. cbn [es_Pending]. m_steps.
      unfold set_pending. cbn [es_Seq es_Pending es_Plain es_Cipher es_Hash].
      rewrite add64_wrap. by apply (IH rest _ (Some got)).
  - case_bool_decide as Hn.
    + subst data. rewrite Z.add_0_r. m_steps. cbn [es_Pending es_Seq].
      destruct pending as [p|], fails; try (symmetry; apply no_more).
      * apply last_segment.
      * subst seq. apply last_segment.
    + destruct pending as [p|].
      * rewrite to_come_chunks, segments_short, emitted_cons, <- answer_app by done.
        cbn [es_Pending es_Seq]. rewrite !bind_assoc.
        rewrite (bind_run' _ _ _ _ (writeSeg_run _ _ _ _ _ _ _ _ _)), bind_assoc.
        apply bind_ext. intros _ w1. m_steps.
        unfold next_seq, set_pending. cbn [es_Seq es_Pending es_Plain es_Cipher es_Hash].
        rewrite add64_wrap, <- (encrypt_last _ _ _ (Some data)). by destruct fails.
      * cbn [to_come es_Pending]. rewrite segments_short by done. m_steps.
        unfold set_pending. cbn [es_Seq es_Pending es_Plain es_Cipher es_Hash].
        rewrite add64_wrap, <- (encrypt_last _ _ _ (Some data)). by destruct fails.
Qed.

Lemma write_ok b w w' :
  write b w = (Ok tt, w') →
  wr_out w' = wr_out w ++ b ∧ ∀ room, wr_room w = Some room → (length b ≤ room)%nat.
Proof.
  unfold write. destruct (wr_room w) as [room|]; [|by intros [= <-]].
  destruct (Nat.leb_spec (length b) room); [|done]. intros [= <-]. split; [done|]. by intros ? [= <-].
Qed.

Lemma write_err b w e w' :
  write b w = (Err e, w') → e = EIO ∧ ∃ room, wr_room w = Some room ∧ (room < length b)%nat.
Proof.
  unfold write. destruct (wr_room w) as [room|]; [|done].
  destruct (Nat.leb_spec (length b) room); [done|]. intros [= <- _]. eauto.
Qed.

Lemma answer_ok P C h out w r w' fails :
  answer fails P C h out w = (Ok r, w') →
  fails = false ∧ wr_out w' = wr_out w ++ out ∧
  r = (prefix, wrap_s64 P, wrap_s64 (C + Z.of_nat (length out)), sha256 (h ++ out)).
Proof.
  unfold answer. intros ([]&w1&Hw%write_ok&Hr)%bind_ok. destruct fails; [done|].
  injection Hr as <- <-. by destruct Hw.
Qed.

Lemma answer_err P C h out w e w' fails :
  answer fails P C h out w = (Err e, w') →
  e = EIO ∧ (fails = true ∨ ∃ room, wr_room w = Some room ∧ (room < length out)%nat).
Proof.
  unfold answer, mbind, M_bind. destruct (write out w) as [[[]|e1] w1] eqn:Hw.
  - destruct fails; [|done]. intros [= <- _]. auto.
  - intros [= <- _]. apply write_err in Hw as [-> ?]. auto.
Qed.
End encrypt.

(** ** Sizes *)

Section sizes.
Context `{AeadLaws}.

Lemma seal_all_length fk prefix seq segs :
  length (seal_all fk prefix seq segs) = (length (concat segs) + 16 * length segs)%nat.
Proof.
  revert seq. induction segs as [|s segs IH]; intros seq; [done|].
  destruct segs as [|s' segs].
  - cbn [seal_all concat]. rewrite app_nil_r. unfold sealed. rewrite seal_length. simpl. lia.
  - rewrite seal_all_cons by done. rewrite length_app, IH. unfold sealed. rewrite seal_length.
    change (concat (s :: s' :: segs)) with (s ++ concat (s' :: segs)). rewrite length_app. simpl. lia.
Qed.

(** A ciphertext is four bytes and 16 per segment longer than its plaintext. *)
Lemma ciphertext_length fk prefix p :
  length prefix = 4%nat →
  length (ciphertext fk prefix p) = (4 + length p + 16 * length (segments p))%nat.
Proof.
  intros Hp. unfold ciphertext. rewrite length_app, seal_all_length, Hp.
  destruct (segments_spec p) as [_ ->]. lia.
Qed.
End sizes.

Lemma segments_count p :
  Z.of_nat (length (segments p)) = Z.max 1 ((Z.of_nat (length p) + 65535) / 65536).
Proof.
  unfold segments. case_bool_decide as Hp; [by subst|].
  destruct (chunks_of_blocks (length p) SegmentSize p) as [Hb Hc]; [apply SegmentSize_pos|lia|].
  apply blocks_count in Hb; [|intros E; by rewrite E in Hc].
  rewrite Hc in Hb. pose proof SegmentSize_Z as Hz.
  set (n := length (chunks_of _ _ _)) in *.
  assert (65536 * (Z.of_nat n - 1) < Z.of_nat (length p) ≤ 65536 * Z.of_nat n) by nia.
  assert (0 < n)%nat by nia. Z.div_mod_to_equations. lia.
Qed.

Lemma rand_read_length n e b : rand_read n e = Ok b → length b = n.
Proof.
  destruct e as [r|]; [|done]. intros [= <-]. unfold zero_bytes.
  rewrite length_take, length_app, length_replicate. lia.
Qed.

Lemma Encrypt_run `{Aead} data fails fk r w :
  length fk = 32%nat →
  let prefix := take 4 (r ++ zero_bytes 4) in
  Encrypt (MkReader data fails) fk (Some r) w =
  answer prefix fails (Z.of_nat (length data)) 0 []
    (prefix ++ emitted fk prefix fails 0 (segments data)) w.
Proof.
  intros Hk prefix. assert (length prefix = 4%nat) as Hl by (by apply (rand_read_length 4 (Some r))).
  unfold Encrypt, guard_err. rewrite Hk. cbn [negb Nat.eqb FileKeySize]. rewrite ret_bind.
  rewrite (bind_run (lift (rand_read _ _)) _ w prefix w) by done. cbn [rd_data].
  rewrite <- answer_app. apply bind_ext. intros _ w1. cbn [app]. rewrite Hl.
  by apply (encrypt_loop_ok fk prefix (S (S (length data))) data fails 0 None 0 4 prefix w1); [lia|].
Qed.

Lemma Encrypt_unlimited `{Aead} data fk r out :
  length fk = 32%nat →
  let prefix := take 4 (r ++ zero_bytes 4) in
  let c := ciphertext fk prefix data in
  Encrypt (MkReader data false) fk (Some r) (unlimited out) =
    (Ok (prefix, wrap_s64 (Z.of_nat (length data)), wrap_s64 (Z.of_nat (length c)), sha256 c),
     unlimited (out ++ c)).
Proof. intros Hk prefix c. by rewrite Encrypt_run. Qed.

(** A run that ends well wrote the ciphertext. *)
Lemma Encrypt_ok `{Aead} src fk entropy w prefix ps cs sum w' :
  Encrypt src fk entropy w = (Ok (prefix, ps, cs, sum), w') →
  length fk = 32%nat ∧ length prefix = 4%nat ∧ rd_fails src = false ∧
  wr_out w' = wr_out w ++ ciphertext fk prefix (rd_data src) ∧
  sum = sha256 (ciphertext fk prefix (rd_data src)) ∧
  ps = wrap_s64 (Z.of_nat (length (rd_data src))) ∧
  cs = wrap_s64 (Z.of_nat (length (ciphertext fk prefix (rd_data src)))).
Proof.
  destruct (decide (length fk = 32%nat)) as [Hk|Hk].
  2: { unfold Encrypt, guard_err. by rewrite (proj2 (Nat.eqb_neq _ _)) by done. }
  destruct entropy as [r|]; [|by unfold Encrypt, guard_err; rewrite Hk].
  destruct src as [data fails]. cbn [rd_data rd_fails]. rewrite Encrypt_run by done.
  intros (->&Hw&[= -> -> -> ->])%answer_ok. split_and!; try done.
  by apply (rand_read_length 4 (Some r)).
Qed.

(** Encrypting either writes the ciphertext of the whole input, segment by
    segment, each bound to its place and to whether more follows, and answers
    its prefix, both sizes and its hash; or it fails, and then because the key
    has the wrong length (and nothing is written), because the random bytes, the
    reader or the writer failed.  The loop always ends. *)
Theorem Encrypt_spec `{AeadLaws} src fk entropy w :
  let size := Z.of_nat (length (rd_data src)) in
  let total := 4 + size + 16 * Z.max 1 ((size + 65535) / 65536) in
  match Encrypt src fk entropy w with
  | (Ok (prefix, plainSize, cipherSize, sum), w') =>
      length fk = 32%nat ∧ length prefix = 4%nat ∧ rd_fails src = false ∧
      wr_out w' = wr_out w ++ ciphertext fk prefix (rd_data src) ∧
      sum = sha256 (ciphertext fk prefix (rd_data src)) ∧
      plainSize = wrap_s64 size ∧ cipherSize = wrap_s64 total
  | (Err e, w') =>
      e = ErrKey ∧ length fk ≠ 32%nat ∧ w' = w ∨
      e = EIO ∧ (entropy = None ∨ rd_fails src = true ∨
                 ∃ room, wr_room w = Some room ∧ Z.of_nat room < total)
  end.
Proof.
  intros size total. destruct (Encrypt _ _ _ _) as [[[[[prefix ps] cs] sum]|e] w'] eqn:Ha.
  - apply Encrypt_ok in Ha as (?&Hl&?&?&?&?&->). split_and!; try done.
    rewrite ciphertext_length by done. f_equal. unfold total, size. rewrite <- segments_count. lia.
  - destruct (decide (length fk = 32%nat)) as [Hk|Hk].
    2: { unfold Encrypt, guard_err in Ha. rewrite (proj2 (Nat.eqb_neq _ _)) in Ha by done.
         injection Ha as <- <-. left. by split_and!. }
    destruct entropy as [r|].
    2: { unfold Encrypt, guard_err in Ha. rewrite Hk in Ha. injection Ha as <- _. right. split; [done|by left]. }
    destruct src as [data fails]. cbn [rd_data rd_fails] in *. rewrite Encrypt_run in Ha by done.
    set (prefix := take 4 (r ++ zero_bytes 4)) in *.
    assert (length prefix = 4%nat) as Hl by (by apply (rand_read_length 4 (Some r))).
    apply answer_err in Ha as [-> Ha]. right. split; [done|]. right.
    destruct fails; [by left|]. right. destruct Ha as [?|(room&Hroom&Hlt)]; [done|].
    exists room. split; [done|]. change (prefix ++ _) with (ciphertext fk prefix data) in Hlt.
    rewrite ciphertext_length in Hlt by done. unfold total, size. rewrite <- segments_count. lia.
Qed.

(** ** Decrypting *)

Section decrypt.
Context `{AeadLaws} (fk prefix : bytes).

Definition sealed_size : nat := SegmentSize + GCMTagSize.

Lemma openSegment_run seq c more out :
  match openSegment fk prefix seq c more (unlimited out) with
  | (Ok _, w') => ∃ p, c = sealed fk prefix seq p more ∧ w' = unlimited (out ++ p) ∧
                       length c = (length p + 16)%nat
  | (Err e, w') => (e = ErrTruncated ∨ e = ErrAuth) ∧ w' = unlimited out
  end.
Proof.
  unfold openSegment, guard_err. destruct (length c <? GCMTagSize)%nat; [by split; [left|]|].
  rewrite ret_bind. unfold lift, mbind, M_bind.
  destruct (open fk _ c _) as [p|] eqn:Ho; cbn [of_option]; [|by split; [right|]].
  apply open_sound in Ho as ->. exists p. split_and!; [done..|]. apply seal_length.
Qed.

Lemma openSegment_sealed seq p more out :
  openSegment fk prefix seq (sealed fk prefix seq p more) more (unlimited out) =
    (Ok tt, unlimited (out ++ p)).
Proof.
  unfold openSegment, guard_err, sealed. rewrite seal_length.
  rewrite (proj2 (Nat.ltb_ge _ _)) by (unfold GCMTagSize; lia).
  rewrite ret_bind. unfold lift, mbind, M_bind. by rewrite open_seal.
Qed.

(** The sealed bytes the loop has not opened yet. *)
Definition ahead (pending : option bytes) (data : bytes) : bytes :=
  default [] pending ++ data.
Lemma ahead_none data : ahead None data = data.
Proof. done. Qed.
Lemma ahead_some c data : ahead (Some c) data = c ++ data.
Proof. done. Qed.
Definition held (pending : option bytes) : Prop :=
  ∀ p, pending = Some p → length p = sealed_size.

(** What a run can do to the output [out]: write the plaintexts of all the
    segments ahead, or of the leading ones that opened. *)
Definition opened (seq : Z) (body out : bytes) (run : result pipe_error unit * Writer) : Prop :=
  match run with
  | (Ok _, w') => ∃ segs, segmented segs ∧ body = seal_all fk prefix seq segs ∧
                          w' = unlimited (out ++ concat segs)
  | (Err e, w') => (e = ErrTruncated ∨ e = ErrAuth) ∧
      ∃ segs rest, Forall (λ s, length s = SegmentSize) segs ∧
        body = seal_more fk prefix seq segs ++ rest ∧ w' = unlimited (out ++ concat segs)
  end.

Lemma opened_none seq body out e :
  e = ErrTruncated ∨ e = ErrAuth → opened seq body out (Err e, unlimited out).
Proof. intros He. split; [done|]. exists [], body. by rewrite app_nil_r. Qed.

Lemma opened_cons seq p body out run :
  length p = SegmentSize →
  opened (wrap_u64 (seq + 1)) body (out ++ p) run →
  opened seq (sealed fk prefix seq p true ++ body) out run.
Proof.
  intros Hp. destruct run as [[[]|e] w']; cbn [opened].
  - intros (segs&Hs&->&->). exists (p :: segs). split_and!; [by constructor| |].
    + by rewrite seal_all_cons by (by apply segmented_nonempty).
    + by rewrite concat_cons, (assoc_L (++)).
  - intros (He&segs&rest&Hs&->&->). split; [done|]. exists (p :: segs), rest. split_and!.
    + by constructor.
    + cbn [seal_more]. by rewrite (assoc_L (++)).
    + by rewrite concat_cons, (assoc_L (++)).
Qed.

Lemma opened_last seq c out :
  (length c ≤ sealed_size)%nat →
  opened seq c out (openSegment fk prefix seq c false (unlimited out)).
Proof.
  intros Hc. pose proof (openSegment_run seq c false out) as Ho.
  destruct (openSegment _ _ _ _ _ _) as [[[]|e] w'].
  - destruct Ho as (p&->&->&Hl). exists [p]. split_and!; [|done|].
    + constructor. unfold sealed_size, GCMTagSize in Hc. lia.
    + cbn [concat]. by rewrite app_nil_r.
  - destruct Ho as [He ->]. by apply opened_none.
Qed.

(** Flushing the held-back segment, then going on. *)
Lemma opened_flush seq pending body out (k : Z → pipe unit) :
  held pending →
  (∀ seq1 out1, opened seq1 body out1 (k seq1 (unlimited out1))) →
  opened seq (ahead pending body) out ((flush fk prefix seq pending ≫= k) (unlimited out)).
Proof.
  intros Hh Hk. destruct pending as [c|]; unfold ahead; cbn [default flush].
  2: { rewrite ret_bind. apply Hk. }
  rewrite bind_assoc. pose proof (openSegment_run seq c true out) as Ho. unfold mbind at 1, M_bind at 1.
  destruct (openSegment _ _ _ _ _ _) as [[[]|e] w1].
  - destruct Ho as (p&->&->&Hl). rewrite ret_bind. apply opened_cons; [|apply Hk].
    specialize (Hh _ eq_refl). unfold sealed_size, GCMTagSize in Hh. lia.
  - destruct Ho as [He ->]. by apply opened_none.
Qed.

Lemma decrypt_loop_run fuel data seq pending out :
  (length data < fuel)%nat → held pending →
  opened seq (ahead pending data) out
    (decrypt_loop fuel fk prefix (MkReader data false) seq pending (unlimited out)).
Proof.
  revert data seq pending out. induction fuel as [|fuel IH]; intros data seq pending out Hf Hh; [lia|].
  cbn [decrypt_loop]. change (SegmentSize + GCMTagSize)%nat with sealed_size.
  assert (0 < sealed_size)%nat by (unfold sealed_size, GCMTagSize; lia).
  destruct (read_full_cases sealed_size data false) as [(Hd&Hne&->)|[Hd ->]]; [done|..].
  - rewrite (bool_decide_eq_false_2 _ Hne). cbn [negb]. rewrite <- (take_drop sealed_size data) at 1.
    apply opened_flush; [done|]. intros seq1 out1. apply (IH _ seq1 (Some (take sealed_size data))).
    + rewrite length_drop. lia.
    + intros p [= <-]. rewrite length_take. lia.
  - case_bool_decide as Hn; cbn [negb].
    + subst data. unfold ahead. rewrite app_nil_r. destruct pending as [p|]; cbn [default].
      * apply opened_last. by rewrite (Hh p eq_refl).
      * apply opened_none. by left.
    + apply opened_flush; [done|]. intros seq1 out1. apply opened_last. lia.
Qed.

Lemma sealed_length seq p more : length (sealed fk prefix seq p more) = (length p + 16)%nat.
Proof. apply seal_length. Qed.

Lemma seal_all_one segs seq :
  segmented segs → (length (seal_all fk prefix seq segs) ≤ sealed_size)%nat → ∃ s, segs = [s].
Proof.
  intros Hs Hl. destruct Hs as [s|s segs Hs Hseg]; [by exists s|].
  apply segmented_nonempty in Hseg as Hne. rewrite seal_all_length in Hl. cbn [concat length] in Hl.
  rewrite length_app in Hl. unfold sealed_size, GCMTagSize in Hl. destruct segs; [done|]. simpl in Hl. lia.
Qed.

Lemma seal_all_uncons segs seq c body :
  segmented segs → length c = sealed_size → body ≠ [] → c ++ body = seal_all fk prefix seq segs →
  ∃ s segs', segs = s :: segs' ∧ segmented segs' ∧ c = sealed fk prefix seq s true ∧
    body = seal_all fk prefix (wrap_u64 (seq + 1)) segs'.
Proof.
  intros Hs Hc Hb Heq. destruct Hs as [s Hs|s segs Hs Hseg].
  - apply (f_equal length) in Heq. rewrite length_app in Heq. cbn [seal_all] in Heq.
    rewrite sealed_length in Heq. unfold sealed_size, GCMTagSize in Hc. destruct body; [done|]. simpl in Heq. lia.
  - rewrite seal_all_cons in Heq by (by apply segmented_nonempty).
    apply app_inj_1 in Heq as [-> ->].
    + exists s, segs. by split_and!.
    + rewrite sealed_length, Hc, Hs. done.
Qed.

Lemma aad_length seq more : length (aad seq more) = 9%nat.
Proof. unfold aad. rewrite length_app, be_bytes_length. done. Qed.

(** Segments that promise more are not a ciphertext, if the cipher tells the
    promise from its absence. *)
Lemma seal_more_not_all segs segs' seq :
  binds_aad fk → segs ≠ [] → Forall (λ s, length s = SegmentSize) segs → segmented segs' →
  seal_more fk prefix seq segs ≠ seal_all fk prefix seq segs'.
Proof.
  intros Hb Hne Hs. revert segs' seq. induction Hs as [|s segs Hl Hs IH]; [done|].
  intros segs' seq Hs' Heq. cbn [seal_more] in Heq. destruct segs as [|t segs].
  - cbn [seal_more] in Heq. rewrite app_nil_r in Heq.
    destruct (seal_all_one segs' seq Hs') as [s' ->].
    { rewrite <- Heq, sealed_length, Hl. done. }
    cbn [seal_all] in Heq. unfold sealed in Heq.
    pose proof (open_seal fk (segmentNonce prefix seq) s' (aad seq false)) as Hopen.
    rewrite <- Heq, Hb in Hopen; [done|by rewrite !aad_length|by rewrite aad_length; lia|].
    intros [=]%app_inv_head.
  - apply seal_all_uncons in Heq as (s'&segs1&->&Hs1&_&Heq); [|done| |].
    + by apply (IH ltac:(done) segs1 (wrap_u64 (seq + 1))).
    + rewrite sealed_length, Hl. done.
    + cbn [seal_more]. intros E. apply (f_equal length) in E. rewrite length_app, sealed_length in E. simpl in E. lia.
Qed.

Lemma decrypt_loop_sealed fuel data seq pending segs out :
  (length data < fuel)%nat → held pending → segmented segs →
  ahead pending data = seal_all fk prefix seq segs →
  decrypt_loop fuel fk prefix (MkReader data false) seq pending (unlimited out) =
    (Ok tt, unlimited (out ++ concat segs)).
Proof.
  revert data seq pending segs out. induction fuel as [|fuel IH];
    intros data seq pending segs out Hf Hh Hs Heq; [lia|].
  cbn [decrypt_loop]. change (SegmentSize + GCMTagSize)%nat with sealed_size.
  assert (0 < sealed_size)%nat by (unfold sealed_size, GCMTagSize; lia).
  assert (Hlast : ∀ seq1 segs1 out1, segmented segs1 → (length data ≤ sealed_size)%nat →
    data = seal_all fk prefix seq1 segs1 →
    openSegment fk prefix seq1 data false (unlimited out1) = (Ok tt, unlimited (out1 ++ concat segs1))).
  { intros seq1 segs1 out1 Hs1 Hl ->. destruct (seal_all_one _ _ Hs1 Hl) as [s ->].
    cbn [seal_all concat]. rewrite app_nil_r. apply openSegment_sealed. }
  destruct (read_full_cases sealed_size data false) as [(Hd&Hne&->)|[Hd ->]]; [done|..].
  - rewrite (bool_decide_eq_false_2 _ Hne). cbn [negb].
    assert (Hgot : held (Some (take sealed_size data))) by (intros p [= <-]; rewrite length_take; lia).
    assert (length (drop sealed_size data) < fuel)%nat by (rewrite length_drop; lia).
    rewrite <- (take_drop sealed_size data) in Heq. destruct pending as [c|].
    + rewrite ahead_some in Heq.
      apply seal_all_uncons in Heq as (s&segs'&->&Hs'&->&Heq);
        [|done|by apply Hh|by intros [? ?]%app_nil]. cbn [flush].
      rewrite bind_assoc, (bind_run _ _ _ _ _ (openSegment_sealed seq s true out)), ret_bind.
      rewrite (IH _ _ _ segs') by done. by rewrite concat_cons, (assoc_L (++)).
    + rewrite ahead_none, <- ahead_some in Heq.
      cbn [flush]. rewrite ret_bind. apply (IH _ seq (Some (take sealed_size data)) segs); assumption.
  - case_bool_decide as Hn; cbn [negb].
    + subst data. destruct pending as [c|].
      * rewrite ahead_some, app_nil_r in Heq. specialize (Hh c eq_refl).
        destruct (seal_all_one segs seq) as [s ->]; [done|by rewrite <- Heq, Hh|].
        cbn [seal_all concat] in *. subst c. rewrite app_nil_r. apply openSegment_sealed.
      * rewrite ahead_none in Heq. apply segmented_nonempty in Hs. apply (f_equal length) in Heq.
        rewrite seal_all_length in Heq. destruct segs; [done|]. simpl in Heq. lia.
    + destruct pending as [c|].
      * rewrite ahead_some in Heq.
        apply seal_all_uncons in Heq as (s&segs'&->&Hs'&->&Heq); [|done|by apply Hh|done].
        cbn [flush]. rewrite bind_assoc, (bind_run _ _ _ _ _ (openSegment_sealed seq s true out)), ret_bind.
        rewrite (Hlast _ segs') by (done || lia). by rewrite concat_cons, (assoc_L (++)).
      * cbn [flush]. rewrite ret_bind. apply Hlast; [done|lia|done].
Qed.
End decrypt.

Lemma Decrypt_run `{Aead} c fk prefix w :
  length fk = 32%nat → length prefix = 4%nat →
  Decrypt (MkReader c false) fk prefix w =
    if decide (4 ≤ length c ∧ take 4 c = prefix)%nat
    then decrypt_loop (S (length (drop 4 c))) fk prefix (MkReader (drop 4 c) false) 0 None w
    else (Err (if (length c <? 4)%nat then ErrTruncated else ErrAuth), w).
Proof.
  intros Hk Hp. unfold Decrypt, guard_err. rewrite Hk, Hp.
  cbn [negb orb Nat.eqb FileKeySize NoncePrefixLen]. rewrite ret_bind.
  change NoncePrefixLen with 4%nat.
  destruct (read_full_cases 4 c false) as [(Hd&_&->)|[Hd ->]]; [lia|..].
  - rewrite (proj2 (Nat.ltb_ge _ _)) by lia.
    destruct (bool_decide_reflect (take 4 c = prefix)) as [Hpre|Hpre]; cbn [negb].
    + by rewrite ret_bind, decide_True by auto.
    + rewrite decide_False by tauto. done.
  - rewrite (proj2 (Nat.ltb_lt _ _)) by lia. rewrite decide_False by lia. by case_bool_decide.
Qed.

Lemma Decrypt_ok `{AeadLaws} c fk prefix out p :
  length fk = 32%nat → length prefix = 4%nat →
  Decrypt (MkReader c false) fk prefix (unlimited out) = (Ok tt, unlimited (out ++ p)) ↔
    ∃ segs, segmented segs ∧ concat segs = p ∧ c = prefix ++ seal_all fk prefix 0 segs.
Proof.
  intros Hk Hp. split.
  - rewrite Decrypt_run by done. destruct (decide _) as [[Hl Hpre]|]; [|done]. intros Hd.
    pose proof (decrypt_loop_run fk prefix (S (length (drop 4 c))) (drop 4 c) 0 None out) as Hrun.
    rewrite Hd in Hrun. destruct Hrun as (segs&Hs&Hbody&[= Hout]); [lia|done|].
    apply app_inv_head in Hout. rewrite ahead_none in Hbody.
    exists segs. split_and!; [done..|]. by rewrite <- Hbody, <- Hpre, take_drop.
  - intros (segs&Hs&<-&->). rewrite Decrypt_run by done.
    rewrite take_app_n, drop_app_n, length_app, Hp by done.
    rewrite decide_True by (split; [lia|done]).
    apply decrypt_loop_sealed; [lia| |done|apply ahead_none]. intros q [=].
Qed.

Lemma Decrypt_outcome `{AeadLaws} c fk prefix out :
  length fk = 32%nat → length prefix = 4%nat →
  match Decrypt (MkReader c false) fk prefix (unlimited out) with
  | (Ok _, w') => ∃ p, w' = unlimited (out ++ p)
  | (Err e, w') => (e = ErrTruncated ∨ e = ErrAuth) ∧
      ∃ segs rest, Forall (λ s, length s = SegmentSize) segs ∧ w' = unlimited (out ++ concat segs) ∧
        (segs = [] ∨ c = prefix ++ seal_more fk prefix 0 segs ++ rest)
  end.
Proof.
  intros Hk Hp.
  rewrite Decrypt_run by done. destruct (decide _) as [[Hl Hpre]|Hn].
  - pose proof (decrypt_loop_run fk prefix (S (length (drop 4 c))) (drop 4 c) 0 None out) as Hrun.
    destruct (decrypt_loop _ _ _ _ _ _ _) as [[[]|e] w']; cbn [opened] in Hrun.
    + destruct Hrun as (segs&_&_&->); [lia|done|]. by eexists.
    + destruct Hrun as (He&segs&rest&Hs&Hbody&->); [lia|done|]. split; [done|].
      exists segs, rest. split_and!; [done..|]. right. rewrite ahead_none in Hbody.
      by rewrite <- Hbody, <- Hpre, take_drop.
  - case_if; (split; [by auto|]); exists [], []; cbn [concat]; rewrite app_nil_r; auto.
Qed.


Lemma Decrypt_ciphertext `{AeadLaws} p fk prefix out :
  length fk = 32%nat → length prefix = 4%nat →
  Decrypt (MkReader (ciphertext fk prefix p) false) fk prefix (unlimited out) =
    (Ok tt, unlimited (out ++ p)).
Proof.
  intros Hk Hp. rewrite Decrypt_run by done. unfold ciphertext.
  rewrite take_app_n, drop_app_n, length_app, Hp by done. rewrite decide_True by (split; [lia|done]).
  destruct (segments_spec p) as [Hs Hc].
  replace (unlimited (out ++ p)) with (unlimited (out ++ concat (segments p))) by (by rewrite Hc).
  apply decrypt_loop_sealed; [lia| |done|apply ahead_none]. intros q [=].
Qed.

(** ** Keys *)

Section keys.
Context `{AeadLaws, Argon2Laws}.

Lemma DeriveMasterKey_kept pass p e mk p' e' :
  DeriveMasterKey pass p e = Ok (mk, p') → DeriveMasterKey pass p' e' = Ok (mk, p').
Proof.
  unfold DeriveMasterKey. set (name := if bool_decide (kp_Name p = []) then _ else _).
  destruct (bool_decide_reflect (name = KDFName)) as [Hn|]; cbn [negb]; [|done].
  set (salted := if bool_decide (kp_Salt p = []) then _ else _).
  destruct salted as [salt|] eqn:Hs; cbn [mbind result_bind]; [|done]. intros [= <- <-].
  cbn [kp_Name kp_Memory kp_Time kp_Threads kp_Salt].
  rewrite Hn. rewrite (bool_decide_eq_false_2 (KDFName = [])) by (intros [=]).
  rewrite (bool_decide_eq_true_2 (KDFName = KDFName)) by done. cbn [negb].
  assert (salt ≠ []) as Hne.
  { unfold salted in Hs. destruct (bool_decide_reflect (kp_Salt p = [])); [|by injection Hs as <-].
    apply rand_read_length in Hs. by intros ->. }
  rewrite bool_decide_eq_false_2 by done. unfold or_default.
  assert (∀ z d, d ≠ 0 → (if (if z =? 0 then d else z) =? 0 then d else if z =? 0 then d else z) =
                          if z =? 0 then d else z) as Hd.
  { intros z d Hd. destruct (Z.eqb_spec z 0); [by destruct (d =? 0)|]. by rewrite (proj2 (Z.eqb_neq z 0)). }
  rewrite !Hd by done. done.
Qed.

Lemma DeriveMasterKey_length pass p e mk p' : DeriveMasterKey pass p e = Ok (mk, p') → length mk = 32%nat.
Proof.
  unfold DeriveMasterKey. destruct (negb _); [done|].
  destruct (if bool_decide (kp_Salt p = []) then _ else _); cbn [mbind result_bind]; [|done].
  intros [= <- _]. apply argon2_length.
Qed.

Lemma WrapFileKey_inv mk fk e wrapped nonce :
  WrapFileKey mk fk e = Ok (wrapped, nonce) →
  length mk = 32%nat ∧ length fk = 32%nat ∧ wrapped = seal mk nonce fk (ascii_bytes "fk").
Proof.
  unfold WrapFileKey. destruct (Nat.eqb_spec (length mk) MasterKeySize); [|done].
  destruct (Nat.eqb_spec (length fk) FileKeySize); [|done]. cbn [negb orb].
  destruct (rand_read WrapNonceLen e); cbn [mbind result_bind]; [|done]. by intros [= <- <-].
Qed.

Lemma UnlockFK_wrapped pass p e fk e' wrapped nonce prefix mk p' e2 :
  DeriveMasterKey pass p e = Ok (mk, p') → WrapFileKey mk fk e' = Ok (wrapped, nonce) →
  UnlockFK pass (NewMeta p' wrapped nonce prefix) e2 = Ok fk.
Proof.
  intros Hmk (Hl&_&->)%WrapFileKey_inv. unfold UnlockFK. cbn [NewMeta em_KDF em_WrappedFK em_WrapNonce].
  rewrite (DeriveMasterKey_kept _ _ _ _ _ e2 Hmk). cbn [mbind result_bind]. unfold UnwrapFileKey.
  rewrite Hl. cbn [negb Nat.eqb MasterKeySize]. by rewrite open_seal.
Qed.

(** A file key wrapped under a passphrase is unlocked by the passphrase
    from the stored metadata alone; whatever another passphrase unlocks was
    wrapped under the key derived from it, and a metadata record that does not
    unlock reports the wrong passphrase (or parameters it does not know). *)
Theorem UnlockFK_spec pass p e fk e' wrapped nonce prefix mk p' :
  DeriveMasterKey pass p e = Ok (mk, p') → WrapFileKey mk fk e' = Ok (wrapped, nonce) →
  let m := NewMeta p' wrapped nonce prefix in
  (∀ e2, UnlockFK pass m e2 = Ok fk) ∧
  ∀ pass2 e2, match UnlockFK pass2 m e2 with
  | Ok fk2 => ∃ mk2, DeriveMasterKey pass2 p' e2 = Ok (mk2, p') ∧
                wrapped = seal mk2 nonce fk2 (ascii_bytes "fk")
  | Err err => err = ErrPassphrase
  end.
Proof.
  intros Hmk Hw m. split; [intros e2; by eapply UnlockFK_wrapped|].
  - intros pass2 e2. unfold UnlockFK, m. cbn [NewMeta em_KDF em_WrappedFK em_WrapNonce].
    assert (∃ mk2, DeriveMasterKey pass2 p' e2 = Ok (mk2, p')) as [mk2 Hmk2].
    { pose proof (DeriveMasterKey_kept _ _ _ _ _ e2 Hmk) as Hk. revert Hk. unfold DeriveMasterKey.
      destruct (negb _); [done|]. destruct (if bool_decide (kp_Salt p' = []) then _ else _);
        cbn [mbind result_bind]; [|done]. intros [= _ Hp]. rewrite Hp. by eexists. }
    rewrite Hmk2. cbn [mbind result_bind]. unfold UnwrapFileKey.
    rewrite (DeriveMasterKey_length _ _ _ _ _ Hmk2). cbn [negb Nat.eqb MasterKeySize].
    destruct (open mk2 nonce _ _) as [fk2|] eqn:Ho; cbn [of_option]; [|done].
    apply open_sound in Ho. by exists mk2.
Qed.
End keys.

(** ** Chunks *)

(** The chunks of a ciphertext, numbered from [seq]; at least one. *)
Definition numbered (seq : Z) (chunks : list bytes) : list (ChunkInfo * bytes) :=
  imap (λ i b, (chunk_info (seq + Z.of_nat i) b, b)) chunks.

Definition chunk_list (size : nat) (data : bytes) : list bytes :=
  if bool_decide (data = []) then [[]] else chunks_of (length data) size data.

Lemma numbered_cons seq b bs :
  numbered seq (b :: bs) = (chunk_info seq b, b) :: numbered (seq + 1) bs.
Proof.
  unfold numbered. cbn [imap]. rewrite Z.add_0_r. f_equal. apply imap_ext. intros i x _. simpl.
  do 2 f_equal. lia.
Qed.

Lemma split_loop_run {St} fuel size data seq (emit : ChunkInfo → bytes → M St pipe_error unit) s :
  (0 < size)%nat → (length data < fuel)%nat → 0 ≤ seq →
  split_loop fuel size (MkReader data false) seq emit s =
    for_each (λ x, emit x.1 x.2)
      (numbered seq (if seq =? 0 then chunk_list size data else chunks_of (length data) size data)) s.
Proof.
  intros Hn. revert data seq s. induction fuel as [|fuel IH]; intros data seq s Hf Hseq; [lia|].
  cbn [split_loop]. destruct (read_full_cases size data false Hn) as [(Hd&Hne&->)|[Hd ->]].
  - rewrite (bool_decide_eq_false_2 _ Hne). m_steps.
    assert ((if seq =? 0 then chunk_list size data else chunks_of (length data) size data) =
      take size data :: chunks_of (length (drop size data)) size (drop size data)) as ->.
    { assert (data ≠ []) by (intros ->; simpl in Hd; lia).
      unfold chunk_list. rewrite bool_decide_eq_false_2, chunks_of_cons by done. by destruct (seq =? 0). }
    rewrite numbered_cons. cbn [for_each fst snd]. apply bind_ext. intros _ s1. m_steps.
    rewrite IH by (rewrite ?length_drop; lia). by rewrite (proj2 (Z.eqb_neq _ _)) by lia.
  - case_bool_decide as Hdn.
    + subst data. m_steps. destruct (Z.eqb_spec seq 0) as [->|]; [|done].
      change (chunk_list size []) with [@nil Byte.byte]. symmetry. apply (for_each_one (λ x, emit x.1 x.2) (chunk_info 0 [], [])).
    + m_steps. assert ((if seq =? 0 then chunk_list size data else chunks_of (length data) size data) = [data]) as ->.
      { unfold chunk_list. rewrite bool_decide_eq_false_2, chunks_of_cons, take_ge, drop_ge by (done || lia).
        by destruct (seq =? 0). }
      cbn [numbered imap for_each fst snd]. rewrite Z.add_0_r. apply bind_ext. intros _ s1. m_steps.
      by rewrite (proj2 (Z.eqb_neq _ _)) by lia.
Qed.

Lemma blocks_sizes {A} n (bs : list (list A)) :
  blocks n bs → ∀ i b, bs !! i = Some b →
  (0 < length b ≤ n)%nat ∧ ((S i < length bs)%nat → length b = n).
Proof.
  induction 1 as [|b Hl|b b' bs Hl Hb IH]; intros i c Hi; [done|..].
  - destruct i; [|done]. injection Hi as <-. simpl. lia.
  - destruct i as [|i]; [injection Hi as <-|].
    + destruct (IH 0%nat b' eq_refl). lia.
    + destruct (IH i c Hi) as [? Hf]. split; [done|]. intros Hlt. apply Hf. simpl in *. lia.
Qed.

Lemma SplitChunks_run {St} data chunkSize (emit : ChunkInfo → bytes → M St pipe_error unit) s :
  0 < chunkSize →
  SplitChunks (MkReader data false) chunkSize emit s =
    for_each (λ x, emit x.1 x.2) (numbered 0 (chunk_list (Z.to_nat chunkSize) data)) s.
Proof.
  intros Hc. unfold SplitChunks. rewrite (proj2 (Z.leb_gt _ _)) by lia.
  by rewrite split_loop_run by (done || simpl; lia).
Qed.

Lemma chunk_list_concat size data :
  (0 < size)%nat → concat (chunk_list size data) = data ∧ chunk_list size data ≠ [].
Proof.
  intros Hn. unfold chunk_list. case_bool_decide as Hd; [by subst|].
  split; [by apply chunks_of_blocks|by rewrite chunks_of_cons].
Qed.

(** Splitting hands every chunk to the callback exactly once and in order,
    numbered from 0, with its size and hash, and stops at the first error; the
    chunks concatenate to the ciphertext, all but the last have the chunk size,
    and an empty ciphertext still has one (empty) chunk. *)
Theorem SplitChunks_spec {St} data chunkSize (emit : ChunkInfo → bytes → M St pipe_error unit) s :
  let size := Z.to_nat (if chunkSize <=? 0 then DefaultChunk else chunkSize) in
  let chunks := chunk_list size data in
  SplitChunks (MkReader data false) chunkSize emit s =
    for_each (λ x, emit x.1 x.2) (imap (λ i b, (chunk_info (Z.of_nat i) b, b)) chunks) s ∧
  concat chunks = data ∧ chunks ≠ [] ∧
  ∀ i c, chunks !! i = Some c →
    (length c ≤ size)%nat ∧ ((S i < length chunks)%nat → length c = size).
Proof.
  intros size chunks.
  assert (0 < size)%nat as Hn by (unfold size, DefaultChunk; destruct (Z.leb_spec chunkSize 0); lia).
  split; [|split_and!].
  - unfold SplitChunks. by rewrite split_loop_run by (done || simpl; lia).
  - by apply chunk_list_concat.
  - by apply chunk_list_concat.
  - unfold chunks, chunk_list. case_bool_decide as Hd.
    + intros [|i] c; [|done]. intros [= <-]. simpl. lia.
    + destruct (chunks_of_blocks (length data) size data) as [Hb _]; [done|lia|].
      intros i c Hi. destruct (blocks_sizes _ _ Hb i c Hi). by split; [lia|].
Qed.

(** ** Shards *)

Section erasure.
Context `{ReedSolomonLaws}.

(** [work] holds some of the shards, each in its slot. *)
Definition slots_of (shards : list bytes) (work : list (option bytes)) : Prop :=
  length work = ECTotal ∧ ∀ i b, work !! i = Some (Some b) → shards !! i = Some b.

Lemma EncodeChunk_coded chunk shards :
  EncodeChunk chunk = Ok shards ↔ coded (if bool_decide (chunk = []) then [Byte.x00] else chunk) shards.
Proof.
  unfold EncodeChunk, coded. generalize (if bool_decide (chunk = []) then [Byte.x00] else chunk).
  intros data.
  destruct (rs_split data) as [parts|]; cbn [of_option mbind result_bind].
  - destruct (rs_encode parts) as [sh|] eqn:He; cbn [of_option]; split.
    + intros [= <-]. by exists parts.
    + intros (p&[= <-]&Hp). congruence.
    + done.
    + intros (p&[= <-]&Hp). congruence.
  - split; [done|]. by intros (p&?&_).
Qed.

Lemma copy_shards shards work :
  Forall (λ s, s ≠ []) shards → slots_of shards work → copy_shard <$> work = work.
Proof.
  intros Hne [_ Hw]. rewrite <- (list_fmap_id work) at 2. apply list_fmap_ext. intros i s Hs.
  destruct s as [[|x s]|]; [|done..]. apply Hw in Hs. rewrite Forall_lookup in Hne.
  by destruct (Hne _ _ Hs).
Qed.

Lemma ReconstructShards_rebuilds chunk shards work :
  EncodeChunk chunk = Ok shards → slots_of shards work → (ECData ≤ present work)%nat →
  ReconstructShards work = Ok (Some <$> shards).
Proof.
  intros He%EncodeChunk_coded [Hl Hw] Hp. unfold ReconstructShards.
  rewrite Hl, Nat.eqb_refl, (proj2 (Nat.ltb_ge _ _) Hp). cbn [negb].
  by rewrite (rs_rebuilds _ _ _ He Hl Hw Hp).
Qed.

Lemma EncodeChunk_shards chunk shards :
  EncodeChunk chunk = Ok shards → length shards = ECTotal ∧ Forall (λ s, s ≠ []) shards.
Proof. intros Hc%EncodeChunk_coded. by eapply rs_coded. Qed.

Lemma ReconstructChunk_rebuilds chunk shards work :
  EncodeChunk chunk = Ok shards → slots_of shards work → (ECData ≤ present work)%nat →
  ReconstructChunk work (Z.of_nat (length chunk)) = Ok chunk.
Proof.
  intros He Hs Hp. apply EncodeChunk_shards in He as Hsh. destruct Hsh as [Hls Hne].
  apply EncodeChunk_coded in He as Hc. unfold ReconstructChunk.
  rewrite (copy_shards shards) by done. destruct Hs as [Hl Hw].
  rewrite Hl, Nat.eqb_refl, (proj2 (Nat.ltb_ge _ _) Hp). cbn [negb].
  rewrite (proj2 (Z.ltb_ge _ _)) by lia. destruct (Z.eqb_spec (Z.of_nat (length chunk)) 0) as [Hz|Hz].
  - by destruct chunk.
  - rewrite bool_decide_eq_false_2 in Hc by (intros ->; done).
    rewrite (rs_rebuilds _ _ _ Hc Hl Hw Hp). cbn [of_option mbind result_bind].
    by rewrite Nat2Z.id, (rs_joins _ _ Hc).
Qed.

(** C10: Every chunk can be coded into 16 shards, and any ten of them, each in
    its slot, give the chunk and all the shards back; with fewer, or with a
    wrong number of slots, reconstruction of a non-empty chunk is refused. *)
Theorem Reconstruct_EncodeChunk chunk :
  ∃ shards, EncodeChunk chunk = Ok shards ∧ length shards = ECTotal ∧
    (∀ work, slots_of shards work → (ECData ≤ present work)%nat →
       ReconstructChunk work (Z.of_nat (length chunk)) = Ok chunk ∧
       ReconstructShards work = Ok (Some <$> shards)) ∧
    ∀ work, length work ≠ ECTotal ∨ (present work < ECData)%nat → chunk ≠ [] →
      ReconstructChunk work (Z.of_nat (length chunk)) = Err ErrShards ∧
      ReconstructShards work = Err ErrShards.
Proof.
  destruct (rs_codes (if bool_decide (chunk = []) then [Byte.x00] else chunk)) as [shards Hc];
    [by case_bool_decide|].
  apply EncodeChunk_coded in Hc as He. apply EncodeChunk_shards in He as Hsh.
  exists shards. split_and!; [done|by destruct Hsh|..].
  - intros work Hs Hp. split; [by eapply ReconstructChunk_rebuilds|by eapply ReconstructShards_rebuilds].
  - intros work Hbad Hcn. unfold ReconstructChunk, ReconstructShards.
    rewrite (proj2 (Z.ltb_ge _ _)) by lia.
    rewrite (proj2 (Z.eqb_neq _ _)) by (destruct chunk; simpl; [done|lia]).
    destruct (Nat.eqb_spec (length work) ECTotal); cbn [negb]; [|done].
    destruct Hbad as [?|Hbad]; [done|]. by rewrite (proj2 (Nat.ltb_lt _ _) Hbad).
Qed.
End erasure.
