(* ===== verification/Schema.v ===== *)
(** * The data model

    The Go structs of [src/internal/store] and the Postgres tables behind them
    ([src/deploy/migrations]).  A table is the list of its rows in heap order;
    [DB] is the whole database.  The status columns, strings in the schema, are
    the enumerations of the values the code writes.  Functional updates
    [upd_field f r] rewrite one field.  Timestamps are [Z] nanoseconds, nullable
    columns are options. *)

From S2P Require Import Prelude GoFloat.

(** ** Status columns *)
Inductive node_status :=
  | NPending | NOnline | NSuspect | NOffline | NDraining | NQuarantined | NRetired.
Inductive placement_status := PPending | PStored | PLost | PExpiring | PDeleted.
Inductive version_status := VPending | VCommitted | VAborted | VExpired.
Inductive file_status := FUploading | FActive | FDeleted.

#[export] Instance node_status_eq_dec : EqDecision node_status.
Proof. solve_decision. Defined.
#[export] Instance placement_status_eq_dec : EqDecision placement_status.
Proof. solve_decision. Defined.
#[export] Instance version_status_eq_dec : EqDecision version_status.
Proof. solve_decision. Defined.
#[export] Instance file_status_eq_dec : EqDecision file_status.
Proof. solve_decision. Defined.

(** ** Rows *)

(** [store.Node]; the last five fields are not columns, the scheduler fills them. *)
Record Node := MkNode {
  n_ID : uuid;
  n_OwnerID : uuid;
  n_CertFingerprint : bytes;
  n_PublicKey : bytes;
  n_CertPEM : string;
  n_CertExpiresAt : option Z;
  n_HostnameLabel : string;
  n_OS : string;
  n_AgentVersion : string;
  n_Country : string;
  n_Region : string;
  n_ASN : option Z;
  n_Endpoint : string;
  n_CapacityBytes : Z;
  n_UsedBytes : Z;
  n_Status : node_status;
  n_Reputation : float;
  n_RegisteredAt : Z;
  n_LastSeenAt : option Z;
  n_ProbationUntil : option Z;
  n_ReputationUpdatedAt : option Z;
  n_RevokedAt : option Z;
  n_UptimeRatio : float;
  n_LatencyMS : float;
  n_CPULoad : float;
  n_MemUsedRatio : float;
  n_LivePlacements : Z;
}.
#[export] Instance Node_eq_dec : EqDecision Node.
Proof. solve_decision. Defined.
Definition upd_n_CertFingerprint (f : bytes → bytes) (r : Node) : Node :=
  MkNode (n_ID r) (n_OwnerID r) (f (n_CertFingerprint r)) (n_PublicKey r)
    (n_CertPEM r) (n_CertExpiresAt r) (n_HostnameLabel r) (n_OS r)
    (n_AgentVersion r) (n_Country r) (n_Region r) (n_ASN r) (n_Endpoint r)
    (n_CapacityBytes r) (n_UsedBytes r) (n_Status r) (n_Reputation r)
    (n_RegisteredAt r) (n_LastSeenAt r) (n_ProbationUntil r)
    (n_ReputationUpdatedAt r) (n_RevokedAt r) (n_UptimeRatio r) (n_LatencyMS
    r) (n_CPULoad r) (n_MemUsedRatio r) (n_LivePlacements r).
Definition upd_n_CertPEM (f : string → string) (r : Node) : Node :=
  MkNode (n_ID r) (n_OwnerID r) (n_CertFingerprint r) (n_PublicKey r) (f
    (n_CertPEM r)) (n_CertExpiresAt r) (n_HostnameLabel r) (n_OS r)
    (n_AgentVersion r) (n_Country r) (n_Region r) (n_ASN r) (n_Endpoint r)
    (n_CapacityBytes r) (n_UsedBytes r) (n_Status r) (n_Reputation r)
    (n_RegisteredAt r) (n_LastSeenAt r) (n_ProbationUntil r)
    (n_ReputationUpdatedAt r) (n_RevokedAt r) (n_UptimeRatio r) (n_LatencyMS
    r) (n_CPULoad r) (n_MemUsedRatio r) (n_LivePlacements r).
Definition upd_n_CertExpiresAt (f : (option Z) → option Z) (r : Node) : Node :=
  MkNode (n_ID r) (n_OwnerID r) (n_CertFingerprint r) (n_PublicKey r)
    (n_CertPEM r) (f (n_CertExpiresAt r)) (n_HostnameLabel r) (n_OS r)
    (n_AgentVersion r) (n_Country r) (n_Region r) (n_ASN r) (n_Endpoint r)
    (n_CapacityBytes r) (n_UsedBytes r) (n_Status r) (n_Reputation r)
    (n_RegisteredAt r) (n_LastSeenAt r) (n_ProbationUntil r)
    (n_ReputationUpdatedAt r) (n_RevokedAt r) (n_UptimeRatio r) (n_LatencyMS
    r) (n_CPULoad r) (n_MemUsedRatio r) (n_LivePlacements r).
Definition upd_n_CapacityBytes (f : Z → Z) (r : Node) : Node :=
  MkNode (n_ID r) (n_OwnerID r) (n_CertFingerprint r) (n_PublicKey r)
    (n_CertPEM r) (n_CertExpiresAt r) (n_HostnameLabel r) (n_OS r)
    (n_AgentVersion r) (n_Country r) (n_Region r) (n_ASN r) (n_Endpoint r) (f
    (n_CapacityBytes r)) (n_UsedBytes r) (n_Status r) (n_Reputation r)
    (n_RegisteredAt r) (n_LastSeenAt r) (n_ProbationUntil r)
    (n_ReputationUpdatedAt r) (n_RevokedAt r) (n_UptimeRatio r) (n_LatencyMS
    r) (n_CPULoad r) (n_MemUsedRatio r) (n_LivePlacements r).
Definition upd_n_UsedBytes (f : Z → Z) (r : Node) : Node :=
  MkNode (n_ID r) (n_OwnerID r) (n_CertFingerprint r) (n_PublicKey r)
    (n_CertPEM r) (n_CertExpiresAt r) (n_HostnameLabel r) (n_OS r)
    (n_AgentVersion r) (n_Country r) (n_Region r) (n_ASN r) (n_Endpoint r)
    (n_CapacityBytes r) (f (n_UsedBytes r)) (n_Status r) (n_Reputation r)
    (n_RegisteredAt r) (n_LastSeenAt r) (n_ProbationUntil r)
    (n_ReputationUpdatedAt r) (n_RevokedAt r) (n_UptimeRatio r) (n_LatencyMS
    r) (n_CPULoad r) (n_MemUsedRatio r) (n_LivePlacements r).
Definition upd_n_Status (f : node_status → node_status) (r : Node) : Node :=
  MkNode (n_ID r) (n_OwnerID r) (n_CertFingerprint r) (n_PublicKey r)
    (n_CertPEM r) (n_CertExpiresAt r) (n_HostnameLabel r) (n_OS r)
    (n_AgentVersion r) (n_Country r) (n_Region r) (n_ASN r) (n_Endpoint r)
    (n_CapacityBytes r) (n_UsedBytes r) (f (n_Status r)) (n_Reputation r)
    (n_RegisteredAt r) (n_LastSeenAt r) (n_ProbationUntil r)
    (n_ReputationUpdatedAt r) (n_RevokedAt r) (n_UptimeRatio r) (n_LatencyMS
    r) (n_CPULoad r) (n_MemUsedRatio r) (n_LivePlacements r).
Definition upd_n_Reputation (f : float → float) (r : Node) : Node :=
  MkNode (n_ID r) (n_OwnerID r) (n_CertFingerprint r) (n_PublicKey r)
    (n_CertPEM r) (n_CertExpiresAt r) (n_HostnameLabel r) (n_OS r)
    (n_AgentVersion r) (n_Country r) (n_Region r) (n_ASN r) (n_Endpoint r)
    (n_CapacityBytes r) (n_UsedBytes r) (n_Status r) (f (n_Reputation r))
    (n_RegisteredAt r) (n_LastSeenAt r) (n_ProbationUntil r)
    (n_ReputationUpdatedAt r) (n_RevokedAt r) (n_UptimeRatio r) (n_LatencyMS
    r) (n_CPULoad r) (n_MemUsedRatio r) (n_LivePlacements r).
Definition upd_n_LastSeenAt (f : (option Z) → option Z) (r : Node) : Node :=
  MkNode (n_ID r) (n_OwnerID r) (n_CertFingerprint r) (n_PublicKey r)
    (n_CertPEM r) (n_CertExpiresAt r) (n_HostnameLabel r) (n_OS r)
    (n_AgentVersion r) (n_Country r) (n_Region r) (n_ASN r) (n_Endpoint r)
    (n_CapacityBytes r) (n_UsedBytes r) (n_Status r) (n_Reputation r)
    (n_RegisteredAt r) (f (n_LastSeenAt r)) (n_ProbationUntil r)
    (n_ReputationUpdatedAt r) (n_RevokedAt r) (n_UptimeRatio r) (n_LatencyMS
    r) (n_CPULoad r) (n_MemUsedRatio r) (n_LivePlacements r).
Definition upd_n_ReputationUpdatedAt (f : (option Z) → option Z) (r : Node) : Node :=
  MkNode (n_ID r) (n_OwnerID r) (n_CertFingerprint r) (n_PublicKey r)
    (n_CertPEM r) (n_CertExpiresAt r) (n_HostnameLabel r) (n_OS r)
    (n_AgentVersion r) (n_Country r) (n_Region r) (n_ASN r) (n_Endpoint r)
    (n_CapacityBytes r) (n_UsedBytes r) (n_Status r) (n_Reputation r)
    (n_RegisteredAt r) (n_LastSeenAt r) (n_ProbationUntil r) (f
    (n_ReputationUpdatedAt r)) (n_RevokedAt r) (n_UptimeRatio r) (n_LatencyMS
    r) (n_CPULoad r) (n_MemUsedRatio r) (n_LivePlacements r).
Definition upd_n_RevokedAt (f : (option Z) → option Z) (r : Node) : Node :=
  MkNode (n_ID r) (n_OwnerID r) (n_CertFingerprint r) (n_PublicKey r)
    (n_CertPEM r) (n_CertExpiresAt r) (n_HostnameLabel r) (n_OS r)
    (n_AgentVersion r) (n_Country r) (n_Region r) (n_ASN r) (n_Endpoint r)
    (n_CapacityBytes r) (n_UsedBytes r) (n_Status r) (n_Reputation r)
    (n_RegisteredAt r) (n_LastSeenAt r) (n_ProbationUntil r)
    (n_ReputationUpdatedAt r) (f (n_RevokedAt r)) (n_UptimeRatio r)
    (n_LatencyMS r) (n_CPULoad r) (n_MemUsedRatio r) (n_LivePlacements r).
Definition upd_n_UptimeRatio (f : float → float) (r : Node) : Node :=
  MkNode (n_ID r) (n_OwnerID r) (n_CertFingerprint r) (n_PublicKey r)
    (n_CertPEM r) (n_CertExpiresAt r) (n_HostnameLabel r) (n_OS r)
    (n_AgentVersion r) (n_Country r) (n_Region r) (n_ASN r) (n_Endpoint r)
    (n_CapacityBytes r) (n_UsedBytes r) (n_Status r) (n_Reputation r)
    (n_RegisteredAt r) (n_LastSeenAt r) (n_ProbationUntil r)
    (n_ReputationUpdatedAt r) (n_RevokedAt r) (f (n_UptimeRatio r))
    (n_LatencyMS r) (n_CPULoad r) (n_MemUsedRatio r) (n_LivePlacements r).
Definition upd_n_LatencyMS (f : float → float) (r : Node) : Node :=
  MkNode (n_ID r) (n_OwnerID r) (n_CertFingerprint r) (n_PublicKey r)
    (n_CertPEM r) (n_CertExpiresAt r) (n_HostnameLabel r) (n_OS r)
    (n_AgentVersion r) (n_Country r) (n_Region r) (n_ASN r) (n_Endpoint r)
    (n_CapacityBytes r) (n_UsedBytes r) (n_Status r) (n_Reputation r)
    (n_RegisteredAt r) (n_LastSeenAt r) (n_ProbationUntil r)
    (n_ReputationUpdatedAt r) (n_RevokedAt r) (n_UptimeRatio r) (f
    (n_LatencyMS r)) (n_CPULoad r) (n_MemUsedRatio r) (n_LivePlacements r).
Definition upd_n_CPULoad (f : float → float) (r : Node) : Node :=
  MkNode (n_ID r) (n_OwnerID r) (n_CertFingerprint r) (n_PublicKey r)
    (n_CertPEM r) (n_CertExpiresAt r) (n_HostnameLabel r) (n_OS r)
    (n_AgentVersion r) (n_Country r) (n_Region r) (n_ASN r) (n_Endpoint r)
    (n_CapacityBytes r) (n_UsedBytes r) (n_Status r) (n_Reputation r)
    (n_RegisteredAt r) (n_LastSeenAt r) (n_ProbationUntil r)
    (n_ReputationUpdatedAt r) (n_RevokedAt r) (n_UptimeRatio r) (n_LatencyMS
    r) (f (n_CPULoad r)) (n_MemUsedRatio r) (n_LivePlacements r).
Definition upd_n_MemUsedRatio (f : float → float) (r : Node) : Node :=
  MkNode (n_ID r) (n_OwnerID r) (n_CertFingerprint r) (n_PublicKey r)
    (n_CertPEM r) (n_CertExpiresAt r) (n_HostnameLabel r) (n_OS r)
    (n_AgentVersion r) (n_Country r) (n_Region r) (n_ASN r) (n_Endpoint r)
    (n_CapacityBytes r) (n_UsedBytes r) (n_Status r) (n_Reputation r)
    (n_RegisteredAt r) (n_LastSeenAt r) (n_ProbationUntil r)
    (n_ReputationUpdatedAt r) (n_RevokedAt r) (n_UptimeRatio r) (n_LatencyMS
    r) (n_CPULoad r) (f (n_MemUsedRatio r)) (n_LivePlacements r).
Definition upd_n_LivePlacements (f : Z → Z) (r : Node) : Node :=
  MkNode (n_ID r) (n_OwnerID r) (n_CertFingerprint r) (n_PublicKey r)
    (n_CertPEM r) (n_CertExpiresAt r) (n_HostnameLabel r) (n_OS r)
    (n_AgentVersion r) (n_Country r) (n_Region r) (n_ASN r) (n_Endpoint r)
    (n_CapacityBytes r) (n_UsedBytes r) (n_Status r) (n_Reputation r)
    (n_RegisteredAt r) (n_LastSeenAt r) (n_ProbationUntil r)
    (n_ReputationUpdatedAt r) (n_RevokedAt r) (n_UptimeRatio r) (n_LatencyMS
    r) (n_CPULoad r) (n_MemUsedRatio r) (f (n_LivePlacements r)).

(** [store.Bucket] *)
Record Bucket := MkBucket {
  b_ID : uuid;
  b_OwnerID : uuid;
  b_Name : string;
}.
#[export] Instance Bucket_eq_dec : EqDecision Bucket.
Proof. solve_decision. Defined.

(** [store.File] *)
Record File := MkFile {
  f_ID : uuid;
  f_BucketID : uuid;
  f_Path : string;
  f_IsFolder : bool;
  f_CurrentVersion : option uuid;
  f_Status : file_status;
  f_CreatedAt : Z;
  f_UpdatedAt : Z;
  f_DeletedAt : option Z;
}.
#[export] Instance File_eq_dec : EqDecision File.
Proof. solve_decision. Defined.
Definition upd_f_CurrentVersion (f : (option uuid) → option uuid) (r : File) : File :=
  MkFile (f_ID r) (f_BucketID r) (f_Path r) (f_IsFolder r) (f
    (f_CurrentVersion r)) (f_Status r) (f_CreatedAt r) (f_UpdatedAt r)
    (f_DeletedAt r).
Definition upd_f_Status (f : file_status → file_status) (r : File) : File :=
  MkFile (f_ID r) (f_BucketID r) (f_Path r) (f_IsFolder r) (f_CurrentVersion
    r) (f (f_Status r)) (f_CreatedAt r) (f_UpdatedAt r) (f_DeletedAt r).
Definition upd_f_UpdatedAt (f : Z → Z) (r : File) : File :=
  MkFile (f_ID r) (f_BucketID r) (f_Path r) (f_IsFolder r) (f_CurrentVersion
    r) (f_Status r) (f_CreatedAt r) (f (f_UpdatedAt r)) (f_DeletedAt r).
Definition upd_f_DeletedAt (f : (option Z) → option Z) (r : File) : File :=
  MkFile (f_ID r) (f_BucketID r) (f_Path r) (f_IsFolder r) (f_CurrentVersion
    r) (f_Status r) (f_CreatedAt r) (f_UpdatedAt r) (f (f_DeletedAt r)).

(** [store.FileVersion] *)
Record FileVersion := MkFileVersion {
  v_ID : uuid;
  v_FileID : uuid;
  v_VersionNo : Z;
  v_SizeBytes : Z;
  v_ContentSHA256 : bytes;
  v_EncryptionMeta : bytes;
  v_ChunkSize : Z;
  v_ECDataShards : Z;
  v_ECParityShards : Z;
  v_Status : version_status;
  v_CreatedAt : Z;
  v_CommittedAt : option Z;
}.
#[export] Instance FileVersion_eq_dec : EqDecision FileVersion.
Proof. solve_decision. Defined.
Definition upd_v_Status (f : version_status → version_status) (r : FileVersion) : FileVersion :=
  MkFileVersion (v_ID r) (v_FileID r) (v_VersionNo r) (v_SizeBytes r)
    (v_ContentSHA256 r) (v_EncryptionMeta r) (v_ChunkSize r) (v_ECDataShards
    r) (v_ECParityShards r) (f (v_Status r)) (v_CreatedAt r) (v_CommittedAt
    r).
Definition upd_v_CommittedAt (f : (option Z) → option Z) (r : FileVersion) : FileVersion :=
  MkFileVersion (v_ID r) (v_FileID r) (v_VersionNo r) (v_SizeBytes r)
    (v_ContentSHA256 r) (v_EncryptionMeta r) (v_ChunkSize r) (v_ECDataShards
    r) (v_ECParityShards r) (v_Status r) (v_CreatedAt r) (f (v_CommittedAt
    r)).

(** [store.Chunk] *)
Record Chunk := MkChunk {
  c_ID : uuid;
  c_VersionID : uuid;
  c_Seq : Z;
  c_SizeBytes : Z;
  c_SHA256 : bytes;
}.
#[export] Instance Chunk_eq_dec : EqDecision Chunk.
Proof. solve_decision. Defined.

(** [store.Fragment] *)
Record Fragment := MkFragment {
  fr_ID : uuid;
  fr_ChunkID : uuid;
  fr_ShardIndex : Z;
  fr_SizeBytes : Z;
  fr_SHA256 : bytes;
}.
#[export] Instance Fragment_eq_dec : EqDecision Fragment.
Proof. solve_decision. Defined.

(** [fragment_placements]: the fields of [store.Placement] and the two columns
    only queries read ([last_audit_at], [lost_at]). *)
Record Placement := MkPlacement {
  pl_ID : Z;
  pl_FragmentID : uuid;
  pl_NodeID : uuid;
  pl_Status : placement_status;
  pl_StoredAt : option Z;
  pl_LastAuditAt : option Z;
  pl_LostAt : option Z;
}.
#[export] Instance Placement_eq_dec : EqDecision Placement.
Proof. solve_decision. Defined.
Definition upd_pl_Status (f : placement_status → placement_status) (r : Placement) : Placement :=
  MkPlacement (pl_ID r) (pl_FragmentID r) (pl_NodeID r) (f (pl_Status r))
    (pl_StoredAt r) (pl_LastAuditAt r) (pl_LostAt r).
Definition upd_pl_StoredAt (f : (option Z) → option Z) (r : Placement) : Placement :=
  MkPlacement (pl_ID r) (pl_FragmentID r) (pl_NodeID r) (pl_Status r) (f
    (pl_StoredAt r)) (pl_LastAuditAt r) (pl_LostAt r).
Definition upd_pl_LastAuditAt (f : (option Z) → option Z) (r : Placement) : Placement :=
  MkPlacement (pl_ID r) (pl_FragmentID r) (pl_NodeID r) (pl_Status r)
    (pl_StoredAt r) (f (pl_LastAuditAt r)) (pl_LostAt r).
Definition upd_pl_LostAt (f : (option Z) → option Z) (r : Placement) : Placement :=
  MkPlacement (pl_ID r) (pl_FragmentID r) (pl_NodeID r) (pl_Status r)
    (pl_StoredAt r) (pl_LastAuditAt r) (f (pl_LostAt r)).

(** [node_stats] ([store.NodeStats] reads the nullable columns with
    [COALESCE(…, 0)]). *)
Record NodeStats := MkNodeStats {
  ns_NodeID : uuid;
  ns_WindowStart : Z;
  ns_UptimeRatio : float;
  ns_AvgLatencyMS : option float;
  ns_FreeBytes : option Z;
  ns_CPULoad : option float;
  ns_MemUsedRatio : option float;
  ns_AuditsPassed : Z;
  ns_AuditsFailed : Z;
  ns_BytesServed : Z;
  ns_BytesIngested : Z;
}.
#[export] Instance NodeStats_eq_dec : EqDecision NodeStats.
Proof. solve_decision. Defined.

(** [fragment_challenges]: [store.Challenge] and [spent_at]. *)
Record Challenge := MkChallenge {
  ch_FragmentID : uuid;
  ch_NodeID : uuid;
  ch_Seq : Z;
  ch_Offset : Z;
  ch_Length : Z;
  ch_Nonce : bytes;
  ch_Expected : bytes;
  ch_SpentAt : option Z;
}.
#[export] Instance Challenge_eq_dec : EqDecision Challenge.
Proof. solve_decision. Defined.
Definition upd_ch_SpentAt (f : (option Z) → option Z) (r : Challenge) : Challenge :=
  MkChallenge (ch_FragmentID r) (ch_NodeID r) (ch_Seq r) (ch_Offset r)
    (ch_Length r) (ch_Nonce r) (ch_Expected r) (f (ch_SpentAt r)).

(** [download_tickets] *)
Record DownloadTicket := MkDownloadTicket {
  dt_Nonce : bytes;
  dt_FileID : uuid;
  dt_FragmentID : uuid;
  dt_NodeID : uuid;
  dt_SizeBytes : Z;
  dt_ExpiresAt : Z;
}.
#[export] Instance DownloadTicket_eq_dec : EqDecision DownloadTicket.
Proof. solve_decision. Defined.

(** [download_receipts] *)
Record DownloadReceipt := MkDownloadReceipt {
  dr_Nonce : bytes;
  dr_FileID : uuid;
  dr_FragmentID : uuid;
  dr_NodeID : uuid;
  dr_Bytes : Z;
  dr_CreatedAt : Z;
}.
#[export] Instance DownloadReceipt_eq_dec : EqDecision DownloadReceipt.
Proof. solve_decision. Defined.

(** [store.LedgerAccount] *)
Record LedgerAccount := MkLedgerAccount {
  la_ID : uuid;
  la_OwnerType : string;
  la_OwnerID : option uuid;
  la_Kind : string;
  la_Currency : string;
}.
#[export] Instance LedgerAccount_eq_dec : EqDecision LedgerAccount.
Proof. solve_decision. Defined.

(** The JSON of [ledger_entries.reference], by the keys the program writes. *)
Record Reference := MkReference {
  rf_Window : option Z;
  rf_NodeID : option uuid;
  rf_OwnerID : option uuid;
  rf_Bytes : option Z;
  rf_RBP : option Z;
  rf_Reason : option string;
}.
#[export] Instance Reference_eq_dec : EqDecision Reference.
Proof. solve_decision. Defined.

(** [ledger_entries] *)
Record LedgerEntry := MkLedgerEntry {
  le_TxnID : uuid;
  le_AccountID : uuid;
  le_Amount : Z;
  le_EntryType : string;
  le_Reference : Reference;
  le_CreatedAt : Z;
}.
#[export] Instance LedgerEntry_eq_dec : EqDecision LedgerEntry.
Proof. solve_decision. Defined.

(** [ledger_txns] *)
Record LedgerTxn := MkLedgerTxn {
  lt_TxnID : uuid;
  lt_Kind : string;
  lt_Window : option Z;
}.
#[export] Instance LedgerTxn_eq_dec : EqDecision LedgerTxn.
Proof. solve_decision. Defined.

(** [store.Statement] *)
Record Statement := MkStatement {
  st_AccountID : uuid;
  st_CycleStart : Z;
  st_CycleEnd : Z;
  st_OpeningUCRD : Z;
  st_ClosingUCRD : Z;
  st_ChargesUCRD : Z;
  st_EarningsUCRD : Z;
}.
#[export] Instance Statement_eq_dec : EqDecision Statement.
Proof. solve_decision. Defined.

(** [audit_logs]; the JSON [detail] column is not modelled. *)
Record AuditRow := MkAuditRow {
  au_ActorType : string;
  au_ActorID : option uuid;
  au_Action : string;
  au_SubjectType : string;
  au_SubjectID : option uuid;
  au_CreatedAt : Z;
}.
#[export] Instance AuditRow_eq_dec : EqDecision AuditRow.
Proof. solve_decision. Defined.

(** ** The database *)

(** Every table the modelled code touches, the [BIGSERIAL] sequence of
    [fragment_placements] and the supply of [gen_random_uuid()], which hands
    out ids never used before. *)
Record DB := MkDB {
  db_buckets : list Bucket;
  db_files : list File;
  db_versions : list FileVersion;
  db_chunks : list Chunk;
  db_fragments : list Fragment;
  db_nodes : list Node;
  db_placements : list Placement;
  db_node_stats : list NodeStats;
  db_challenges : list Challenge;
  db_download_tickets : list DownloadTicket;
  db_download_receipts : list DownloadReceipt;
  db_accounts : list LedgerAccount;
  db_entries : list LedgerEntry;
  db_txns : list LedgerTxn;
  db_watermarks : list (string * Z);
  db_statements : list Statement;
  db_audit : list AuditRow;
  db_next_placement : Z;
  db_next_uuid : N;
}.
Definition upd_db_buckets (f : (list Bucket) → list Bucket) (r : DB) : DB :=
  MkDB (f (db_buckets r)) (db_files r) (db_versions r) (db_chunks r)
    (db_fragments r) (db_nodes r) (db_placements r) (db_node_stats r)
    (db_challenges r) (db_download_tickets r) (db_download_receipts r)
    (db_accounts r) (db_entries r) (db_txns r) (db_watermarks r)
    (db_statements r) (db_audit r) (db_next_placement r) (db_next_uuid r).
Definition upd_db_files (f : (list File) → list File) (r : DB) : DB :=
  MkDB (db_buckets r) (f (db_files r)) (db_versions r) (db_chunks r)
    (db_fragments r) (db_nodes r) (db_placements r) (db_node_stats r)
    (db_challenges r) (db_download_tickets r) (db_download_receipts r)
    (db_accounts r) (db_entries r) (db_txns r) (db_watermarks r)
    (db_statements r) (db_audit r) (db_next_placement r) (db_next_uuid r).
Definition upd_db_versions (f : (list FileVersion) → list FileVersion) (r : DB) : DB :=
  MkDB (db_buckets r) (db_files r) (f (db_versions r)) (db_chunks r)
    (db_fragments r) (db_nodes r) (db_placements r) (db_node_stats r)
    (db_challenges r) (db_download_tickets r) (db_download_receipts r)
    (db_accounts r) (db_entries r) (db_txns r) (db_watermarks r)
    (db_statements r) (db_audit r) (db_next_placement r) (db_next_uuid r).
Definition upd_db_chunks (f : (list Chunk) → list Chunk) (r : DB) : DB :=
  MkDB (db_buckets r) (db_files r) (db_versions r) (f (db_chunks r))
    (db_fragments r) (db_nodes r) (db_placements r) (db_node_stats r)
    (db_challenges r) (db_download_tickets r) (db_download_receipts r)
    (db_accounts r) (db_entries r) (db_txns r) (db_watermarks r)
    (db_statements r) (db_audit r) (db_next_placement r) (db_next_uuid r).
Definition upd_db_fragments (f : (list Fragment) → list Fragment) (r : DB) : DB :=
  MkDB (db_buckets r) (db_files r) (db_versions r) (db_chunks r) (f
    (db_fragments r)) (db_nodes r) (db_placements r) (db_node_stats r)
    (db_challenges r) (db_download_tickets r) (db_download_receipts r)
    (db_accounts r) (db_entries r) (db_txns r) (db_watermarks r)
    (db_statements r) (db_audit r) (db_next_placement r) (db_next_uuid r).
Definition upd_db_nodes (f : (list Node) → list Node) (r : DB) : DB :=
  MkDB (db_buckets r) (db_files r) (db_versions r) (db_chunks r) (db_fragments
    r) (f (db_nodes r)) (db_placements r) (db_node_stats r) (db_challenges r)
    (db_download_tickets r) (db_download_receipts r) (db_accounts r)
    (db_entries r) (db_txns r) (db_watermarks r) (db_statements r) (db_audit
    r) (db_next_placement r) (db_next_uuid r).
Definition upd_db_placements (f : (list Placement) → list Placement) (r : DB) : DB :=
  MkDB (db_buckets r) (db_files r) (db_versions r) (db_chunks r) (db_fragments
    r) (db_nodes r) (f (db_placements r)) (db_node_stats r) (db_challenges r)
    (db_download_tickets r) (db_download_receipts r) (db_accounts r)
    (db_entries r) (db_txns r) (db_watermarks r) (db_statements r) (db_audit
    r) (db_next_placement r) (db_next_uuid r).
Definition upd_db_node_stats (f : (list NodeStats) → list NodeStats) (r : DB) : DB :=
  MkDB (db_buckets r) (db_files r) (db_versions r) (db_chunks r) (db_fragments
    r) (db_nodes r) (db_placements r) (f (db_node_stats r)) (db_challenges r)
    (db_download_tickets r) (db_download_receipts r) (db_accounts r)
    (db_entries r) (db_txns r) (db_watermarks r) (db_statements r) (db_audit
    r) (db_next_placement r) (db_next_uuid r).
Definition upd_db_challenges (f : (list Challenge) → list Challenge) (r : DB) : DB :=
  MkDB (db_buckets r) (db_files r) (db_versions r) (db_chunks r) (db_fragments
    r) (db_nodes r) (db_placements r) (db_node_stats r) (f (db_challenges r))
    (db_download_tickets r) (db_download_receipts r) (db_accounts r)
    (db_entries r) (db_txns r) (db_watermarks r) (db_statements r) (db_audit
    r) (db_next_placement r) (db_next_uuid r).
Definition upd_db_download_tickets (f : (list DownloadTicket) → list DownloadTicket) (r : DB) : DB :=
  MkDB (db_buckets r) (db_files r) (db_versions r) (db_chunks r) (db_fragments
    r) (db_nodes r) (db_placements r) (db_node_stats r) (db_challenges r) (f
    (db_download_tickets r)) (db_download_receipts r) (db_accounts r)
    (db_entries r) (db_txns r) (db_watermarks r) (db_statements r) (db_audit
    r) (db_next_placement r) (db_next_uuid r).
Definition upd_db_download_receipts (f : (list DownloadReceipt) → list DownloadReceipt) (r : DB) : DB :=
  MkDB (db_buckets r) (db_files r) (db_versions r) (db_chunks r) (db_fragments
    r) (db_nodes r) (db_placements r) (db_node_stats r) (db_challenges r)
    (db_download_tickets r) (f (db_download_receipts r)) (db_accounts r)
    (db_entries r) (db_txns r) (db_watermarks r) (db_statements r) (db_audit
    r) (db_next_placement r) (db_next_uuid r).
Definition upd_db_accounts (f : (list LedgerAccount) → list LedgerAccount) (r : DB) : DB :=
  MkDB (db_buckets r) (db_files r) (db_versions r) (db_chunks r) (db_fragments
    r) (db_nodes r) (db_placements r) (db_node_stats r) (db_challenges r)
    (db_download_tickets r) (db_download_receipts r) (f (db_accounts r))
    (db_entries r) (db_txns r) (db_watermarks r) (db_statements r) (db_audit
    r) (db_next_placement r) (db_next_uuid r).
Definition upd_db_entries (f : (list LedgerEntry) → list LedgerEntry) (r : DB) : DB :=
  MkDB (db_buckets r) (db_files r) (db_versions r) (db_chunks r) (db_fragments
    r) (db_nodes r) (db_placements r) (db_node_stats r) (db_challenges r)
    (db_download_tickets r) (db_download_receipts r) (db_accounts r) (f
    (db_entries r)) (db_txns r) (db_watermarks r) (db_statements r) (db_audit
    r) (db_next_placement r) (db_next_uuid r).
Definition upd_db_txns (f : (list LedgerTxn) → list LedgerTxn) (r : DB) : DB :=
  MkDB (db_buckets r) (db_files r) (db_versions r) (db_chunks r) (db_fragments
    r) (db_nodes r) (db_placements r) (db_node_stats r) (db_challenges r)
    (db_download_tickets r) (db_download_receipts r) (db_accounts r)
    (db_entries r) (f (db_txns r)) (db_watermarks r) (db_statements r)
    (db_audit r) (db_next_placement r) (db_next_uuid r).
Definition upd_db_watermarks (f : (list (string * Z)) → list (string * Z)) (r : DB) : DB :=
  MkDB (db_buckets r) (db_files r) (db_versions r) (db_chunks r) (db_fragments
    r) (db_nodes r) (db_placements r) (db_node_stats r) (db_challenges r)
    (db_download_tickets r) (db_download_receipts r) (db_accounts r)
    (db_entries r) (db_txns r) (f (db_watermarks r)) (db_statements r)
    (db_audit r) (db_next_placement r) (db_next_uuid r).
Definition upd_db_statements (f : (list Statement) → list Statement) (r : DB) : DB :=
  MkDB (db_buckets r) (db_files r) (db_versions r) (db_chunks r) (db_fragments
    r) (db_nodes r) (db_placements r) (db_node_stats r) (db_challenges r)
    (db_download_tickets r) (db_download_receipts r) (db_accounts r)
    (db_entries r) (db_txns r) (db_watermarks r) (f (db_statements r))
    (db_audit r) (db_next_placement r) (db_next_uuid r).
Definition upd_db_audit (f : (list AuditRow) → list AuditRow) (r : DB) : DB :=
  MkDB (db_buckets r) (db_files r) (db_versions r) (db_chunks r) (db_fragments
    r) (db_nodes r) (db_placements r) (db_node_stats r) (db_challenges r)
    (db_download_tickets r) (db_download_receipts r) (db_accounts r)
    (db_entries r) (db_txns r) (db_watermarks r) (db_statements r) (f
    (db_audit r)) (db_next_placement r) (db_next_uuid r).
Definition upd_db_next_placement (f : Z → Z) (r : DB) : DB :=
  MkDB (db_buckets r) (db_files r) (db_versions r) (db_chunks r) (db_fragments
    r) (db_nodes r) (db_placements r) (db_node_stats r) (db_challenges r)
    (db_download_tickets r) (db_download_receipts r) (db_accounts r)
    (db_entries r) (db_txns r) (db_watermarks r) (db_statements r) (db_audit
    r) (f (db_next_placement r)) (db_next_uuid r).
Definition upd_db_next_uuid (f : N → N) (r : DB) : DB :=
  MkDB (db_buckets r) (db_files r) (db_versions r) (db_chunks r) (db_fragments
    r) (db_nodes r) (db_placements r) (db_node_stats r) (db_challenges r)
    (db_download_tickets r) (db_download_receipts r) (db_accounts r)
    (db_entries r) (db_txns r) (db_watermarks r) (db_statements r) (db_audit
    r) (db_next_placement r) (f (db_next_uuid r)).


Definition db_empty : DB :=
  MkDB [] [] [] [] [] [] [] [] [] [] [] [] [] [] [] [] [] 1 1.

(** [gen_random_uuid()] *)
Definition gen_uuid (d : DB) : uuid * DB :=
  (Uuid (db_next_uuid d), upd_db_next_uuid N.succ d).

(** ** Store errors ([src/internal/store/store.go])

    [EQuery] is [mapQueryErr]'s fallback, a wrapped driver error: a foreign-key
    violation, the ledger's balance trigger, or a sum that leaves int64.
    [EUnbalanced] and [EQuota] are the ledger's own errors. *)
Inductive store_error :=
  | ENotFound | EConflict | ENotEmpty | EInvalid | EIncomplete | EUnavailable
  | ENodeDenied | ENoLedger | EUnbalanced | EQuota | EQuery.
#[export] Instance store_error_eq_dec : EqDecision store_error.
Proof. solve_decision. Defined.

(** What [mapQueryErr] distinguishes in a driver error. *)
Inductive pg_error := PgNoRows | PgUniqueViolation | PgOther.
Definition mapQueryErr (e : pg_error) : store_error :=
  match e with
  | PgNoRows => ENotFound
  | PgUniqueViolation => EConflict
  | PgOther => EQuery
  end.

(** [CommitThreshold] *)
Definition CommitThreshold : nat := 14.

Abbreviation store A := (M DB store_error A).

(** ** Joins

    The schema's foreign keys are looked up by primary key. *)
Definition find_by {A} (p : A → bool) (t : list A) : option A :=
  head (filter (λ r, p r = true) t).

Definition node_by (d : DB) (id : uuid) : option Node :=
  find_by (λ n, bool_decide (n_ID n = id)) (db_nodes d).
Definition fragment_by (d : DB) (id : uuid) : option Fragment :=
  find_by (λ f, bool_decide (fr_ID f = id)) (db_fragments d).
Definition chunk_by (d : DB) (id : uuid) : option Chunk :=
  find_by (λ c, bool_decide (c_ID c = id)) (db_chunks d).
Definition version_by (d : DB) (id : uuid) : option FileVersion :=
  find_by (λ v, bool_decide (v_ID v = id)) (db_versions d).
Definition file_by (d : DB) (id : uuid) : option File :=
  find_by (λ f, bool_decide (f_ID f = id)) (db_files d).
Definition bucket_by (d : DB) (id : uuid) : option Bucket :=
  find_by (λ b, bool_decide (b_ID b = id)) (db_buckets d).

Lemma find_by_spec {A} (p : A → bool) t r :
  find_by p t = Some r → r ∈ t ∧ p r = true.
Proof.
  unfold find_by. intros Hr.
  assert (r ∈ filter (λ r, p r = true) t) as [??]%list_elem_of_filter; [|done].
  destruct (filter _ t); simplify_eq/=. left.
Qed.

Lemma find_by_none {A} (p : A → bool) t :
  find_by p t = None ↔ ∀ r, r ∈ t → p r = false.
Proof.
  unfold find_by. destruct (filter _ t) as [|r l] eqn:Hf; simpl; split.
  - intros _ r Hr. destruct (p r) eqn:E; [|done].
    assert (r ∈ filter (λ r, p r = true) t) as Hin by by apply list_elem_of_filter.
    rewrite Hf in Hin. by apply not_elem_of_nil in Hin.
  - done.
  - done.
  - intros H. assert (r ∈ filter (λ r, p r = true) t) as [Hp ?]%list_elem_of_filter.
    { rewrite Hf. left. }
    rewrite (H r) in Hp; done.
Qed.

(** Keys that are unique make the lookup return the row itself. *)
Lemma find_by_key {A B} `{EqDecision B} (key : A → B) t r :
  NoDup (key <$> t) → r ∈ t →
  find_by (λ x, bool_decide (key x = key r)) t = Some r.
Proof.
  intros Hnd Hr. destruct (find_by _ t) as [r'|] eqn:Hf.
  - apply find_by_spec in Hf as [Hr' Hk]. apply bool_decide_eq_true in Hk.
    f_equal. revert Hr Hr' Hnd. clear - Hk. induction t as [|x t IH]; [by intros ?%not_elem_of_nil|].
    intros [->|Hr]%elem_of_cons [->|Hr']%elem_of_cons; simpl; rewrite NoDup_cons; intros [Hx Hnd].
    + done.
    + destruct Hx. rewrite <- Hk. by apply list_elem_of_fmap_2.
    + destruct Hx. rewrite Hk. by apply list_elem_of_fmap_2.
    + by apply IH.
  - pose proof (proj1 (find_by_none _ _) Hf r Hr) as Hc.
    cbv beta in Hc. by rewrite bool_decide_eq_true_2 in Hc.
Qed.
