(* ===== verification/Nodes.v ===== *)
(** * Nodes: [src/internal/store/nodes.go] and [stats.go]

    The node table: registration, heartbeats, the stale-node scan, reputation,
    certificate admission, and the hourly counters of [node_stats].  SQL
    [now()] is the argument [now]; an [UPDATE] is [update_where]. *)

From S2P Require Import Prelude GoFloat Schema.

(** ** Loading nodes *)

Definition NodeByID (id : uuid) : store Node := λ d,
  (query_row (mapQueryErr PgNoRows)
     (filter (λ n, n_ID n = id) (db_nodes d)), d).

Definition NodeByFingerprint (fp : bytes) : store Node := λ d,
  (query_row (mapQueryErr PgNoRows)
     (filter (λ n, n_CertFingerprint n = fp) (db_nodes d)), d).

Definition ListNodesByOwner (owner : uuid) (d : DB) : list Node :=
  order_by (λ n, [n_RegisteredAt n])
    (filter (λ n, n_OwnerID n = owner) (db_nodes d)).

Definition NodesByRegion (region : string) (d : DB) : list Node :=
  order_by (λ n, [uuid_key (n_ID n)]) (filter (λ n, n_Region n = region) (db_nodes d)).

(** A text column as a sort key in the C collation, [NULLS LAST]; the empty
    label is stored as NULL. *)
Definition text_key (s : string) : list Z :=
  match s with
  | EmptyString => [257]
  | _ => ((λ c, 1 + Z.of_nat (Ascii.nat_of_ascii c)) <$> String.list_ascii_of_string s) ++ [0]
  end.

Definition ListAllNodes (d : DB) : list Node :=
  order_by (λ n, text_key (n_HostnameLabel n) ++ [n_RegisteredAt n]) (db_nodes d).

(** [WHERE status = 'online' AND revoked_at IS NULL AND (cert_expires_at IS
    NULL OR cert_expires_at > now())] *)
Definition selectable (now : Z) (n : Node) : bool :=
  bool_decide (n_Status n = NOnline) && bool_decide (n_RevokedAt n = None) &&
  match n_CertExpiresAt n with None => true | Some e => now <? e end.

Definition ListOnlineNodes (now : Z) (d : DB) : list Node :=
  order_by (λ n, [uuid_key (n_ID n)]) (filter (λ n, selectable now n = true) (db_nodes d)).

(** ** Registration and certificates *)

Record CreateNodeParams := MkCreateNodeParams {
  p_ID : uuid; p_OwnerID : uuid; p_CertFingerprint : bytes;
  p_PublicKey : bytes; p_CertPEM : string; p_CertExpiresAt : Z;
  p_HostnameLabel : string; p_OS : string; p_AgentVersion : string;
  p_Country : string; p_Region : string; p_ASN : option Z;
  p_Endpoint : string; p_CapacityBytes : Z }.

(** Column defaults: [used_bytes 0], [reputation 0.5], [registered_at now()]. *)
Definition CreateNode (now : Z) (p : CreateNodeParams) : store Node := λ d,
  let '(id, d) := if decide (p_ID p = uuid_nil) then gen_uuid d else (p_ID p, d) in
  let n := MkNode id (p_OwnerID p) (p_CertFingerprint p) (p_PublicKey p)
    (p_CertPEM p) (Some (p_CertExpiresAt p)) (p_HostnameLabel p) (p_OS p)
    (p_AgentVersion p) (p_Country p) (p_Region p) (p_ASN p) (p_Endpoint p)
    (p_CapacityBytes p) 0 NPending (F32.const 1 2) now None
    (Some (now + 14 * day)) None None
    F32.zero F32.zero F32.zero F32.zero 0 in
  if existsb (λ m, bool_decide (n_ID m = id) ||
                   bool_decide (n_CertFingerprint m = p_CertFingerprint p))
       (db_nodes d)
  then (Err (mapQueryErr PgUniqueViolation), d)
  else (Ok n, upd_db_nodes (λ t, t ++ [n]) d).

(** [RevokedAt != nil], [Status == "quarantined"], [!CertExpiresAt.After(now)] *)
Definition AdmitNode (n : Node) (now : Z) : result store_error unit :=
  if bool_decide (n_RevokedAt n ≠ None) then Err ENodeDenied
  else if bool_decide (n_Status n = NQuarantined) then Err ENodeDenied
  else match n_CertExpiresAt n with
       | Some e => if negb (now <? e) then Err ENodeDenied else Ok tt
       | None => Ok tt
       end.

Definition AdmitNodeRenew (n : Node) : result store_error unit :=
  if bool_decide (n_RevokedAt n ≠ None) || bool_decide (n_Status n = NQuarantined)
  then Err ENodeDenied else Ok tt.

(** [UPDATE nodes SET … WHERE p]; [RowsAffected() == 0] is [ErrNotFound]. *)
Definition update_nodes (p : Node → bool) (f : Node → Node) : store unit := λ d,
  if existsb p (db_nodes d)
  then (Ok tt, upd_db_nodes (update_where p f) d)
  else (Err ENotFound, d).

Definition live_with_id (id : uuid) (n : Node) : bool :=
  bool_decide (n_ID n = id) && bool_decide (n_RevokedAt n = None).

Definition RotateNodeCert (id : uuid) (fp : bytes) (pem : string) (expires : Z) :
    store unit := λ d,
  if existsb (live_with_id id) (db_nodes d) &&
     existsb (λ n, bool_decide (n_ID n ≠ id) && bool_decide (n_CertFingerprint n = fp))
       (db_nodes d)
  then (Err (mapQueryErr PgUniqueViolation), d)
  else update_nodes (live_with_id id)
         (λ n, upd_n_CertFingerprint (λ _, fp)
                 (upd_n_CertPEM (λ _, pem) (upd_n_CertExpiresAt (λ _, Some expires) n))) d.

Definition RevokeNode (now : Z) (id : uuid) : store unit :=
  update_nodes (live_with_id id) (upd_n_RevokedAt (λ _, Some now)).

(** ** Liveness *)

(** [CASE WHEN status IN ('pending','suspect','offline') THEN 'online' …] *)
Definition touch_status (s : node_status) : node_status :=
  match s with
  | NPending | NSuspect | NOffline => NOnline
  | _ => s
  end.

Definition touch_row (now used cap : Z) (n : Node) : Node :=
  upd_n_LastSeenAt (λ _, Some now)
    (upd_n_UsedBytes (λ _, used)
       (upd_n_CapacityBytes (λ c, if 0 <? cap then cap else c)
          (upd_n_Status touch_status n))).

(** The statement's [RETURNING (SELECT status FROM old), status]. *)
Definition TouchNodeStatus (now : Z) (id : uuid) (usedBytes capacityBytes : Z) :
    store (node_status * node_status) := λ d,
  match find_by (λ n, bool_decide (n_ID n = id)) (db_nodes d) with
  | None => (Err (mapQueryErr PgNoRows), d)
  | Some n =>
      (Ok (n_Status n, touch_status (n_Status n)),
       upd_db_nodes (update_where (λ n, bool_decide (n_ID n = id))
                       (touch_row now usedBytes capacityBytes)) d)
  end.

(** [int(d.Seconds())]; the float conversion is exact for any duration below
    a month, the range of the configured thresholds. *)
Definition whole_seconds (dur : Z) : Z := Z.quot dur second.

Record NodeTransition := MkTransition { tr_ID : uuid; tr_From : node_status; tr_To : node_status }.
#[export] Instance NodeTransition_eq_dec : EqDecision NodeTransition.
Proof. solve_decision. Defined.

(** [last_seen_at < now() - secs * interval '1 second'] *)
Definition silent_past (now secs : Z) (n : Node) : bool :=
  match n_LastSeenAt n with
  | None => false
  | Some t => t <? now - secs * second
  end.

Definition stale (now suspectSecs offlineSecs : Z) (n : Node) : bool :=
  (bool_decide (n_Status n = NOnline) || bool_decide (n_Status n = NSuspect)) &&
  (silent_past now offlineSecs n ||
   (bool_decide (n_Status n = NOnline) && silent_past now suspectSecs n)).

Definition stale_status (now suspectSecs offlineSecs : Z) (n : Node) : node_status :=
  if silent_past now offlineSecs n then NOffline
  else if bool_decide (n_Status n = NOnline) && silent_past now suspectSecs n
  then NSuspect else n_Status n.

Definition TransitionStaleNodes (now suspectAfter offlineAfter : Z) (d : DB) :
    list NodeTransition * DB :=
  let ss := whole_seconds suspectAfter in
  let os := whole_seconds offlineAfter in
  let hit := filter (λ n, stale now ss os n = true) (db_nodes d) in
  (filter (λ t, tr_From t ≠ tr_To t)
     ((λ n, MkTransition (n_ID n) (n_Status n) (stale_status now ss os n)) <$> hit),
   upd_db_nodes
     (update_where (stale now ss os) (λ n, upd_n_Status (λ _, stale_status now ss os n) n)) d).

(** ** Reputation *)

Definition SignalChallengePassed : float := F32.const 85 100.
Definition SignalChallengeFailed : float := F32.zero.
Definition SignalUnplannedOffline : float := F32.const 25 100.
Definition SignalHonestSelfReport : float := F32.const 45 100.

(** [(1-repAlpha)*current + repAlpha*signal] in float32, then the two guards. *)
Definition NextReputation (current signal : float) : float :=
  let v := F32.add (F32.mul (F32.const 85 100) current)
                   (F32.mul (F32.const 15 100) signal) in
  if flt v F32.zero then F32.zero
  else if fgt v F32.one then F32.one
  else v.

(** Postgres orders NaN above every other [real]. *)
Definition pg_lt (a b : float) : bool :=
  if is_nan a then false else if is_nan b then true else flt a b.
Definition pg_least (a b : float) : float := if pg_lt b a then b else a.
Definition pg_greatest (a b : float) : float := if pg_lt a b then b else a.

(** [GREATEST(0, LEAST(1, (1 - α) * reputation + α * signal))] over [real]. *)
Definition reputation_sql (current signal : float) : float :=
  let alpha := F32.const 15 100 in
  pg_greatest F32.zero
    (pg_least F32.one
       (F32.add (F32.mul (F32.sub F32.one alpha) current) (F32.mul alpha signal))).

Definition ApplyReputationEvent (now : Z) (id : uuid) (signal : float) :
    store (float * float) := λ d,
  match find_by (λ n, bool_decide (n_ID n = id)) (db_nodes d) with
  | None => (Err (mapQueryErr PgNoRows), d)
  | Some n =>
      (Ok (n_Reputation n, reputation_sql (n_Reputation n) signal),
       upd_db_nodes (update_where (λ n, bool_decide (n_ID n = id))
         (λ n, upd_n_Reputation (λ r, reputation_sql r signal)
                 (upd_n_ReputationUpdatedAt (λ _, Some now) n))) d)
  end.

(** ** Hourly counters ([src/internal/store/stats.go]) *)

Definition stats_at (id : uuid) (w : Z) (r : NodeStats) : bool :=
  bool_decide (ns_NodeID r = id) && bool_decide (ns_WindowStart r = w).

(** [INSERT … ON CONFLICT (node_id, window_start) DO UPDATE]; the foreign key
    rejects an unknown node. *)
Definition upsert_stats (fresh : NodeStats) (f : NodeStats → NodeStats) : store unit := λ d,
  if existsb (stats_at (ns_NodeID fresh) (ns_WindowStart fresh)) (db_node_stats d)
  then (Ok tt, upd_db_node_stats
          (update_where (stats_at (ns_NodeID fresh) (ns_WindowStart fresh)) f) d)
  else if decide (node_by d (ns_NodeID fresh) = None)
  then (Err (mapQueryErr PgOther), d)
  else (Ok tt, upd_db_node_stats (λ t, t ++ [fresh]) d).

Definition UpsertNodeStats (row : NodeStats) : store unit :=
  upsert_stats
    (MkNodeStats (ns_NodeID row) (ns_WindowStart row) (ns_UptimeRatio row)
       (ns_AvgLatencyMS row) (ns_FreeBytes row) (ns_CPULoad row)
       (ns_MemUsedRatio row) 0 0 0 0)
    (λ r, MkNodeStats (ns_NodeID r) (ns_WindowStart r) (ns_UptimeRatio row)
       (ns_AvgLatencyMS row) (ns_FreeBytes row) (ns_CPULoad row)
       (ns_MemUsedRatio row) (ns_AuditsPassed r) (ns_AuditsFailed r)
       (ns_BytesServed r) (ns_BytesIngested r)).

Definition BumpNodeBytes (now : Z) (id : uuid) (ingested served : Z) : store unit :=
  if (ingested =? 0) && (served =? 0) then mret tt
  else upsert_stats
    (MkNodeStats id (truncate_hour now) F32.zero None None None None 0 0 served ingested)
    (λ r, MkNodeStats (ns_NodeID r) (ns_WindowStart r) (ns_UptimeRatio r)
       (ns_AvgLatencyMS r) (ns_FreeBytes r) (ns_CPULoad r) (ns_MemUsedRatio r)
       (ns_AuditsPassed r) (ns_AuditsFailed r)
       (ns_BytesServed r + served) (ns_BytesIngested r + ingested)).

Definition BumpNodeAudit (now : Z) (id : uuid) (passed : bool) : store unit :=
  let p := if passed then 1 else 0 in
  let f := if passed then 0 else 1 in
  upsert_stats
    (MkNodeStats id (truncate_hour now) F32.one None None None None p f 0 0)
    (λ r, MkNodeStats (ns_NodeID r) (ns_WindowStart r) (ns_UptimeRatio r)
       (ns_AvgLatencyMS r) (ns_FreeBytes r) (ns_CPULoad r) (ns_MemUsedRatio r)
       (ns_AuditsPassed r + p) (ns_AuditsFailed r + f)
       (ns_BytesServed r) (ns_BytesIngested r)).

(** [SELECT DISTINCT ON (node_id) … ORDER BY node_id, window_start DESC]: the
    newest window of each node. *)
Definition LatestNodeStats (d : DB) (id : uuid) : option NodeStats :=
  head (order_by (λ r, [- ns_WindowStart r])
          (filter (λ r, ns_NodeID r = id) (db_node_stats d))).

Definition live_placement (p : Placement) : bool :=
  bool_decide (pl_Status p = PPending) || bool_decide (pl_Status p = PStored).

Definition CountLivePlacements (id : uuid) (d : DB) : Z :=
  Z.of_nat (count_where (λ p, bool_decide (pl_NodeID p = id) && live_placement p)
              (db_placements d)).

(** [GROUP BY node_id]: a node without live placements is absent, and a Go map
    lookup of an absent key is 0. *)
Definition CountLivePlacementsAll (d : DB) (id : uuid) : Z := CountLivePlacements id d.

(** ** Reputation stays in [0, 1] *)

Lemma pg_least_le hi v : is_nan hi = false → fle hi hi = true →
  fle (pg_least hi v) hi = true ∧ is_nan (pg_least hi v) = false.
Proof.
  intros Hhi Hr. unfold pg_least, pg_lt.
  destruct (is_nan v) eqn:Hv; [done|]. rewrite Hhi.
  destruct (flt v hi) eqn:H; [|done]. by rewrite flt_fle.
Qed.

Lemma pg_greatest_ge lo v : is_nan lo = false → is_nan v = false →
  fle lo (pg_greatest lo v) = fle lo lo || flt lo v.
Proof.
  intros Hlo Hv. unfold pg_greatest, pg_lt. rewrite Hlo, Hv.
  destruct (flt lo v) eqn:H; [by rewrite flt_fle, orb_true_r|by rewrite orb_false_r].
Qed.

Lemma pg_clamp_bounds v :
  let r := pg_greatest F32.zero (pg_least F32.one v) in
  fle F32.zero r = true ∧ fle r F32.one = true.
Proof.
  destruct (pg_least_le F32.one v) as [H1 H2]; [by vm_compute..|].
  split; [rewrite pg_greatest_ge; [by vm_compute|done|done]|].
  unfold pg_greatest, pg_lt. rewrite H2. simpl is_nan. cbv iota.
  by destruct (flt F32.zero (pg_least F32.one v)).
Qed.

Lemma reputation_sql_bounds current signal :
  fle F32.zero (reputation_sql current signal) = true ∧
  fle (reputation_sql current signal) F32.one = true.
Proof. apply pg_clamp_bounds. Qed.

(** ** What each update leaves alone *)

Lemma ApplyReputationEvent_nodes {B} (g : Node → B) now id signal d :
  (∀ n f h, g (upd_n_Reputation f (upd_n_ReputationUpdatedAt h n)) = g n) →
  g <$> db_nodes (ApplyReputationEvent now id signal d).2 = g <$> db_nodes d.
Proof.
  intros Hg. unfold ApplyReputationEvent.
  destruct (find_by _ _); simpl; [|done]. apply update_where_fmap. auto.
Qed.

Lemma TouchNodeStatus_placements now id u c d :
  db_placements (TouchNodeStatus now id u c d).2 = db_placements d.
Proof. unfold TouchNodeStatus. by destruct (find_by _ _). Qed.

Lemma ApplyReputationEvent_placements now id s d :
  db_placements (ApplyReputationEvent now id s d).2 = db_placements d.
Proof. unfold ApplyReputationEvent. by destruct (find_by _ _). Qed.

Lemma upsert_stats_nodes r f d : db_nodes (upsert_stats r f d).2 = db_nodes d.
Proof. unfold upsert_stats. by repeat case_match. Qed.

Lemma upsert_stats_placements r f d :
  db_placements (upsert_stats r f d).2 = db_placements d.
Proof. unfold upsert_stats. by repeat case_match. Qed.

#[export] Hint Rewrite @TouchNodeStatus_placements @ApplyReputationEvent_placements
  @upsert_stats_nodes @upsert_stats_placements : dsp.
