(* ===== verification/World.v ===== *)
(** * Shared services: Redis, the event bus, and the whole state

    [Redis] holds the keys the services write, each with its expiry time.
    [Bus] is the JetStream connection of [src/internal/events/events.go]: the
    messages accepted so far and whether a publish succeeds at the moment.
    [World] is what the control-plane services share.  A Go [error] at this
    level says which collaborator failed. *)

From S2P Require Import Prelude GoFloat Schema Nodes.

(** ** Redis *)

(** The hash [node:metrics:<id>] of the last heartbeat. *)
Record Metrics := MkMetrics {
  m_FreeBytes : Z; m_UsedBytes : Z; m_CPULoad : float; m_MemUsedRatio : float;
  m_DiskReadLatencyMS : float; m_FragmentCount : Z }.

Record Redis := MkRedis {
  rd_live : gmap uuid Z;                    (* node:live:<id> -> expiry *)
  rd_hb : gmap (uuid * Z) (Z * option Z);   (* node:hb:<id>:<hour> -> count, expiry *)
  rd_metrics : gmap uuid (Metrics * option Z); (* node:metrics:<id> -> hash, expiry *)
  rd_reserve : gmap (uuid * uuid) (Z * Z)   (* reserve:<node>:<fragment> -> bytes, expiry *)
}.
Definition upd_rd_live f r := MkRedis (f (rd_live r)) (rd_hb r) (rd_metrics r) (rd_reserve r).
Definition upd_rd_hb f r := MkRedis (rd_live r) (f (rd_hb r)) (rd_metrics r) (rd_reserve r).
Definition upd_rd_metrics f r := MkRedis (rd_live r) (rd_hb r) (f (rd_metrics r)) (rd_reserve r).
Definition upd_rd_reserve f r := MkRedis (rd_live r) (rd_hb r) (rd_metrics r) (f (rd_reserve r)).

Definition redis_empty : Redis := MkRedis ∅ ∅ ∅ ∅.

(** A key without an expiry never goes away. *)
Definition unexpired (now : Z) (e : option Z) : bool :=
  match e with None => true | Some t => now <? t end.

(** The value of a key, if it is there and has not expired. *)
Definition redis_get {K V} `{Countable K} (now : Z) (m : gmap K (V * option Z)) (k : K) :
    option V :=
  match m !! k with
  | Some (v, e) => if unexpired now e then Some v else None
  | None => None
  end.

(** The expiry a key keeps when its value is rewritten. *)
Definition redis_ttl {K V} `{Countable K} (now : Z) (m : gmap K (V * option Z)) (k : K) :
    option Z :=
  match m !! k with
  | Some (_, e) => if unexpired now e then e else None
  | None => None
  end.

(** [EXPIRE k]: nothing happens to an absent key. *)
Definition redis_expire {K V} `{Countable K} (now ttl : Z) (k : K)
    (m : gmap K (V * option Z)) : gmap K (V * option Z) :=
  match redis_get now m k with
  | Some v => <[k := (v, Some (now + ttl))]> m
  | None => m
  end.

(** [EXISTS node:live:<id>] *)
Definition is_live (now : Z) (r : Redis) (id : uuid) : bool :=
  match rd_live r !! id with Some e => now <? e | None => false end.

Definition metrics_of (now : Z) (r : Redis) (id : uuid) : option Metrics :=
  redis_get now (rd_metrics r) id.

(** ** Events *)

Record NodeEvent := MkNodeEvent { ev_NodeID : uuid; ev_From : node_status; ev_To : node_status; ev_At : Z }.
Record RepairJob := MkRepairJob { rj_ChunkID : uuid; rj_Healthy : Z }.
Inductive usage_kind := UsageStorage | UsageEgress | UsageUptime.
Record UsageEvent := MkUsageEvent {
  ue_Kind : usage_kind; ue_SubjectID : uuid; ue_Window : Z; ue_Dedup : bytes; ue_Bytes : Z }.

Inductive subject :=
  | SubjNodeOnline | SubjNodeSuspect | SubjNodeOffline
  | SubjRepairCritical | SubjRepairHigh | SubjRepairNormal
  | SubjUsage (k : usage_kind).

(** The JetStream message ids, by their [fmt.Sprintf] arguments. *)
Inductive msg_id :=
  | IdNode (node : uuid) (to : node_status) (unix_at : Z)
  | IdRepair (chunk : uuid) (healthy : Z)
  | IdUsage (k : usage_kind) (subject : uuid) (window_unix : Z) (dedup : bytes).

Inductive payload := PNode (e : NodeEvent) | PRepair (j : RepairJob) | PUsage (u : UsageEvent).

#[export] Instance usage_kind_eq_dec : EqDecision usage_kind.
Proof. solve_decision. Defined.
#[export] Instance NodeEvent_eq_dec : EqDecision NodeEvent.
Proof. solve_decision. Defined.
#[export] Instance RepairJob_eq_dec : EqDecision RepairJob.
Proof. solve_decision. Defined.
#[export] Instance UsageEvent_eq_dec : EqDecision UsageEvent.
Proof. solve_decision. Defined.
#[export] Instance subject_eq_dec : EqDecision subject.
Proof. solve_decision. Defined.
#[export] Instance msg_id_eq_dec : EqDecision msg_id.
Proof. solve_decision. Defined.
#[export] Instance payload_eq_dec : EqDecision payload.
Proof. solve_decision. Defined.

Record message := MkMessage { msg_subject : subject; msg_ID : msg_id; msg_payload : payload }.
#[export] Instance message_eq_dec : EqDecision message.
Proof. solve_decision. Defined.

Record Bus := MkBus { bus_up : bool; bus_out : list message }.

Definition nodeSubject (s : node_status) : option subject :=
  match s with
  | NOnline => Some SubjNodeOnline
  | NSuspect => Some SubjNodeSuspect
  | NOffline => Some SubjNodeOffline
  | _ => None
  end.

(** 16 and more: no job; at most 10: critical; 11: high; 12 to 15: normal. *)
Definition PrioritySubject (healthy : Z) : option subject :=
  if 16 <=? healthy then None
  else if healthy <=? 10 then Some SubjRepairCritical
  else if healthy =? 11 then Some SubjRepairHigh
  else Some SubjRepairNormal.

Definition UsageMsgIDWithDedup (k : usage_kind) (subject : uuid) (window : Z) (dedup : bytes) : msg_id :=
  IdUsage k subject (unix (truncate_hour window)) dedup.

(** ** The state of the services *)

Record World := MkWorld { w_db : DB; w_redis : Redis; w_bus : Bus }.
Definition upd_w_db f w := MkWorld (f (w_db w)) (w_redis w) (w_bus w).
Definition upd_w_redis f w := MkWorld (w_db w) (f (w_redis w)) (w_bus w).
Definition upd_w_bus f w := MkWorld (w_db w) (w_redis w) (f (w_bus w)).

Inductive error :=
  | StoreErr (e : store_error)   (* a store or metadata sentinel *)
  | PublishErr                   (* JetStream refused the message *)
  | TicketErr                    (* signing failed *)
  | InvalidErr                   (* metadata: invalid request *)
  | QuotaErr                     (* metadata: quota exceeded *)
  | NodeErr                      (* a node did not answer as expected *)
  | CallErr                      (* a call to another service failed *)
  | ShardsErr.                   (* reconstruction failed *)
#[export] Instance error_eq_dec : EqDecision error.
Proof. solve_decision. Defined.

Abbreviation service A := (M World error A).

(** Run a store method from a service. *)
Definition with_store {A} (m : store A) : service A := λ w,
  match m (w_db w) with
  | (Ok a, d) => (Ok a, upd_w_db (λ _, d) w)
  | (Err e, d) => (Err (StoreErr e), upd_w_db (λ _, d) w)
  end.

(** A store method without an error result. *)
Definition with_db {A} (f : DB → A * DB) : service A := λ w,
  let '(a, d) := f (w_db w) in (Ok a, upd_w_db (λ _, d) w).

Definition publish (m : message) : service unit := λ w,
  if bus_up (w_bus w)
  then (Ok tt, upd_w_bus (λ b, MkBus (bus_up b) (bus_out b ++ [m])) w)
  else (Err PublishErr, w).

(** [PublishNode]; an unknown status is an error before anything is sent. *)
Definition PublishNode (now : Z) (ev : NodeEvent) : service unit :=
  match nodeSubject (ev_To ev) with
  | None => throw PublishErr
  | Some s =>
      let ev := if is_zero (ev_At ev)
                then MkNodeEvent (ev_NodeID ev) (ev_From ev) (ev_To ev) now else ev in
      publish (MkMessage s (IdNode (ev_NodeID ev) (ev_To ev) (unix (ev_At ev))) (PNode ev))
  end.

Definition PublishUsage (now : Z) (ev : UsageEvent) : service unit :=
  let w := truncate_hour (if is_zero (ue_Window ev) then now else ue_Window ev) in
  let ev := MkUsageEvent (ue_Kind ev) (ue_SubjectID ev) w (ue_Dedup ev) (ue_Bytes ev) in
  publish (MkMessage (SubjUsage (ue_Kind ev))
             (UsageMsgIDWithDedup (ue_Kind ev) (ue_SubjectID ev) (ue_Window ev) (ue_Dedup ev))
             (PUsage ev)).

Definition PublishRepair (job : RepairJob) : service unit :=
  match PrioritySubject (rj_Healthy job) with
  | None => mret tt
  | Some s => publish (MkMessage s (IdRepair (rj_ChunkID job) (rj_Healthy job)) (PRepair job))
  end.

Lemma publish_db m w : w_db (publish m w).2 = w_db w.
Proof. unfold publish. by destruct (bus_up _). Qed.
Lemma PublishRepair_db j w : w_db (PublishRepair j w).2 = w_db w.
Proof. unfold PublishRepair. destruct (PrioritySubject _); [apply publish_db|done]. Qed.
Lemma PublishNode_db now e w : w_db (PublishNode now e w).2 = w_db w.
Proof. unfold PublishNode. destruct (nodeSubject _); [apply publish_db|done]. Qed.
Lemma with_store_db {A} (m : store A) w : w_db (with_store m w).2 = (m (w_db w)).2.
Proof. unfold with_store. by destruct (m _) as [[]]. Qed.
#[export] Hint Rewrite @publish_db @PublishRepair_db @PublishNode_db @with_store_db : dsp.

(** A job is published exactly below full health, and the most damaged chunks
    get the most urgent subject. *)
Lemma PrioritySubject_none h : PrioritySubject h = None ↔ 16 ≤ h.
Proof. unfold PrioritySubject. repeat case_if; split; intros; (done || lia). Qed.
