(* ===== verification/Placements.v ===== *)
(** * Fragment placements: [src/internal/store/repair.go], [lifecycle.go] and
    [challenges.go]

    Where every fragment lives, and the status each copy has: pending → stored
    → lost → (stored | expiring) → deleted.  Joins go through the primary keys
    of [Schema]; a query that groups is a fold over the joined rows. *)

From S2P Require Import Prelude GoFloat Schema Nodes.

Record LostPlacement := MkLost {
  lp_PlacementID : Z; lp_FragmentID : uuid; lp_ChunkID : uuid; lp_ShardIndex : Z;
  lp_SizeBytes : Z; lp_SHA256 : bytes; lp_NodeID : uuid; lp_Endpoint : string;
  lp_PublicKey : bytes; lp_ReconstructedElsewhere : bool }.
#[export] Instance LostPlacement_eq_dec : EqDecision LostPlacement.
Proof. solve_decision. Defined.

(** [SET status = 'lost', lost_at = now()] *)
Definition lose (now : Z) (p : Placement) : Placement :=
  upd_pl_Status (λ _, PLost) (upd_pl_LostAt (λ _, Some now) p).

(** [FROM fragments fr WHERE p.fragment_id = fr.id AND …] *)
Definition joins_fragment (d : DB) (p : Placement) : bool :=
  bool_decide (fragment_by d (pl_FragmentID p) ≠ None).

Definition lost_row (d : DB) (p : Placement) : option LostPlacement :=
  fr ← fragment_by d (pl_FragmentID p);
  Some (MkLost (pl_ID p) (pl_FragmentID p) (fr_ChunkID fr) (fr_ShardIndex fr)
          (fr_SizeBytes fr) (fr_SHA256 fr) (pl_NodeID p) EmptyString [] false).

Definition on_node_live (d : DB) (node : uuid) (p : Placement) : bool :=
  joins_fragment d p && bool_decide (pl_NodeID p = node) && live_placement p.

Definition MarkPlacementsLostByNode (now : Z) (node : uuid) (d : DB) :
    list LostPlacement * DB :=
  (omap (lost_row d) (filter (λ p, on_node_live d node p = true) (db_placements d)),
   upd_db_placements (update_where (on_node_live d node) (lose now)) d).

Definition this_copy_live (d : DB) (frag node : uuid) (p : Placement) : bool :=
  joins_fragment d p && bool_decide (pl_FragmentID p = frag) &&
  bool_decide (pl_NodeID p = node) && live_placement p.

Definition MarkPlacementLost (now : Z) (frag node : uuid) : store LostPlacement := λ d,
  match omap (lost_row d)
          (filter (λ p, this_copy_live d frag node p = true) (db_placements d)) with
  | [] => (Err (mapQueryErr PgNoRows), d)
  | lp :: _ =>
      (Ok lp, upd_db_placements (update_where (this_copy_live d frag node) (lose now)) d)
  end.

(** ** Chunk health *)

Definition chunk_of (d : DB) (p : Placement) : option uuid :=
  fr_ChunkID <$> fragment_by d (pl_FragmentID p).

Definition stored_in (d : DB) (chunk : uuid) (p : Placement) : bool :=
  bool_decide (chunk_of d p = Some chunk) && bool_decide (pl_Status p = PStored).

(** [count( * ) … WHERE fr.chunk_id = $1 AND p.status = 'stored'] *)
Definition ChunkHealth (chunk : uuid) (d : DB) : Z :=
  Z.of_nat (count_where (stored_in d chunk) (db_placements d)).

Definition node_up (n : Node) : bool :=
  negb (bool_decide (n_Status n = NOffline) || bool_decide (n_Status n = NQuarantined)).

Definition chunk_committed (d : DB) (chunk : uuid) : bool :=
  match chunk_by d chunk with
  | Some c => match version_by d (c_VersionID c) with
              | Some v => bool_decide (v_Status v = VCommitted)
              | None => false
              end
  | None => false
  end.

(** One row per healthy stored copy of a committed chunk: the joins of
    [UnderHealthyChunks] before grouping. *)
Definition healthy_row (d : DB) (p : Placement) : option uuid :=
  if bool_decide (pl_Status p = PStored) then
    c ← chunk_of d p;
    if chunk_committed d c then
      n ← node_by d (pl_NodeID p);
      if node_up n then Some c else None
    else None
  else None.

Definition count_id (x : uuid) (l : list uuid) : nat :=
  count_where (λ y, bool_decide (y = x)) l.

(** [GROUP BY c.id HAVING count( * ) < $1]: only chunks with at least one joined
    row form a group. *)
Definition UnderHealthyChunks (min : Z) (d : DB) : list uuid :=
  let rows := omap (healthy_row d) (db_placements d) in
  filter (λ c, Z.of_nat (count_id c rows) < min) (distinct rows).

(** [CommittedChunkHealth]: left joins, so every committed chunk with a
    fragment has a row, zero included. *)
Definition CommittedChunkHealth (d : DB) : list (uuid * Z) :=
  let rows := omap (healthy_row d) (db_placements d) in
  (λ c, (c, Z.of_nat (count_id c rows))) <$>
    filter (λ c, chunk_committed d c = true) (distinct (fr_ChunkID <$> db_fragments d)).

(** Stored copies of committed chunks with their node: the [live] relation of
    [ChunkCapViolations]. *)
Definition cap_row (d : DB) (p : Placement) : option (uuid * Node) :=
  if bool_decide (pl_Status p = PStored) then
    c ← chunk_of d p;
    if chunk_committed d c then n ← node_by d (pl_NodeID p); Some (c, n) else None
  else None.

(** Some group of [key] among the rows of a chunk is larger than [cap]; rows
    whose key is NULL are left out. *)
Definition over_cap {K} `{EqDecision K} (key : Node → option K) (cap : Z) (ns : list Node) : bool :=
  existsb (λ n, match key n with
                | None => false
                | Some k => cap <? Z.of_nat (count_where (λ m, bool_decide (key m = Some k)) ns)
                end) ns.

Definition region_key (n : Node) : option string :=
  if bool_decide (n_Region n = EmptyString) then None else Some (n_Region n).

Definition nodes_of_chunk (rows : list (uuid * Node)) (c : uuid) : list Node :=
  snd <$> filter (λ r, r.1 = c) rows.

Definition caps_violated (regionCap asnCap ownerCap : Z) (ns : list Node) : bool :=
  over_cap (λ n, Some (n_ID n)) 1 ns || over_cap region_key regionCap ns ||
  over_cap n_ASN asnCap ns || over_cap (λ n, Some (n_OwnerID n)) ownerCap ns.

Definition wide (ns : list Node) : bool :=
  (10 <=? length (distinct (n_ID <$> ns)))%nat.

Definition ChunkCapViolations (regionCap asnCap ownerCap : Z) (d : DB) : list uuid :=
  let rows := omap (cap_row d) (db_placements d) in
  filter (λ c, wide (nodes_of_chunk rows c) &&
               caps_violated regionCap asnCap ownerCap (nodes_of_chunk rows c) = true)
    (distinct (rows.*1)).

(** ** Occupants and repair *)

Record Occupant := MkOccupant { o_ChunkID : uuid; o_Node : Node }.
#[export] Instance Occupant_eq_dec : EqDecision Occupant.
Proof. solve_decision. Defined.

Definition occupant_row (d : DB) (chunks : list uuid) (p : Placement) : option Occupant :=
  if live_placement p then
    c ← chunk_of d p;
    if bool_decide (c ∈ chunks) then n ← node_by d (pl_NodeID p); Some (MkOccupant c n)
    else None
  else None.

Definition ListOccupants (chunks : list uuid) (d : DB) : list Occupant :=
  distinct (omap (occupant_row d chunks) (db_placements d)).

Record RepairFragment := MkRepairFragment {
  rf_Fragment : Fragment; rf_Placement : option Placement; rf_Node : option Node }.

Definition status_rank (s : placement_status) : Z :=
  match s with PStored => 0 | PPending => 1 | _ => 2 end.

(** [DISTINCT ON (fr.id) … LEFT JOIN … ORDER BY fr.id, rank, p.id]: the best
    live placement of each fragment, if it has one. *)
Definition best_live_placement (d : DB) (frag : uuid) : option Placement :=
  head (order_by (λ p, [status_rank (pl_Status p); pl_ID p])
          (filter (λ p, pl_FragmentID p = frag ∧ live_placement p = true) (db_placements d))).

Definition LoadRepairChunk (chunk : uuid) : store (Chunk * list RepairFragment) := λ d,
  match chunk_by d chunk with
  | Some c =>
      if chunk_committed d chunk then
        (Ok (c, (λ fr, let pl := best_live_placement d (fr_ID fr) in
                       MkRepairFragment fr pl (pl ≫= λ p, node_by d (pl_NodeID p))) <$>
                order_by (λ fr, [uuid_key (fr_ID fr)])
                  (filter (λ fr, fr_ChunkID fr = chunk) (db_fragments d))), d)
      else (Err (mapQueryErr PgNoRows), d)
  | None => (Err (mapQueryErr PgNoRows), d)
  end.

Record PlacementTarget := MkTarget {
  t_Placement : Placement; t_Fragment : Fragment; t_Node : Node }.

Definition target_row (d : DB) (p : Placement) : option PlacementTarget :=
  fr ← fragment_by d (pl_FragmentID p);
  n ← node_by d (pl_NodeID p);
  Some (MkTarget p fr n).

Definition PendingTargetsForChunk (chunk : uuid) (d : DB) : list PlacementTarget :=
  filter (λ t, fr_ChunkID (t_Fragment t) = chunk)
    (omap (target_row d) (filter (λ p, pl_Status p = PPending) (db_placements d))).

(** [SET status = 'stored', stored_at = now() WHERE fragment_id = $1 AND
    status = 'pending'] *)
Definition store_pending (now : Z) (frag : uuid) (d : DB) : DB :=
  upd_db_placements
    (update_where (λ p, bool_decide (pl_FragmentID p = frag) && bool_decide (pl_Status p = PPending))
       (λ p, upd_pl_Status (λ _, PStored) (upd_pl_StoredAt (λ _, Some now) p))) d.

Definition CommitRepairPlacements (now : Z) (frags : list uuid) (d : DB) : DB :=
  foldl (λ d fid, store_pending now fid d) d frags.

Definition lost_on_node_row (d : DB) (p : Placement) : option LostPlacement :=
  fr ← fragment_by d (pl_FragmentID p);
  n ← node_by d (pl_NodeID p);
  Some (MkLost (pl_ID p) (pl_FragmentID p) (fr_ChunkID fr) (fr_ShardIndex fr)
          (fr_SizeBytes fr) (fr_SHA256 fr) (pl_NodeID p) (n_Endpoint n) (n_PublicKey n)
          (existsb (λ p2, bool_decide (pl_FragmentID p2 = pl_FragmentID p) &&
                          bool_decide (pl_Status p2 = PStored) &&
                          bool_decide (pl_NodeID p2 ≠ pl_NodeID p)) (db_placements d))).

Definition ListLostOnNode (node : uuid) (d : DB) : list LostPlacement :=
  omap (lost_on_node_row d)
    (filter (λ p, pl_NodeID p = node ∧ pl_Status p = PLost) (db_placements d)).

Definition lost_among (ids : list Z) (p : Placement) : bool :=
  bool_decide (pl_ID p ∈ ids) && bool_decide (pl_Status p = PLost).

Definition RestorePlacements (now : Z) (ids : list Z) (d : DB) : DB :=
  upd_db_placements
    (update_where (lost_among ids)
       (λ p, upd_pl_Status (λ _, PStored)
               (upd_pl_StoredAt (λ _, Some now) (upd_pl_LostAt (λ _, None) p)))) d.

Definition ExpirePlacements (ids : list Z) (d : DB) : DB :=
  upd_db_placements (update_where (lost_among ids) (upd_pl_Status (λ _, PExpiring))) d.

(** ** Lifecycle *)

Record ExpiringPlacement := MkExpiring {
  xp_ID : Z; xp_FragmentID : uuid; xp_NodeID : uuid; xp_Endpoint : string;
  xp_SHA256 : bytes; xp_SizeBytes : Z }.

Definition expiring_row (d : DB) (p : Placement) : option ExpiringPlacement :=
  if bool_decide (pl_Status p = PExpiring) then
    fr ← fragment_by d (pl_FragmentID p);
    n ← node_by d (pl_NodeID p);
    Some (MkExpiring (pl_ID p) (pl_FragmentID p) (pl_NodeID p) (n_Endpoint n)
            (fr_SHA256 fr) (fr_SizeBytes fr))
  else None.

Definition ListExpiringPlacements (limit : Z) (d : DB) : list ExpiringPlacement :=
  let limit := if limit <=? 0 then 64 else limit in
  take (Z.to_nat limit)
    (order_by (λ x, [xp_ID x]) (omap (expiring_row d) (db_placements d))).

Definition ExpiringPlacementByID (id : Z) : store ExpiringPlacement := λ d,
  (query_row (mapQueryErr PgNoRows)
     (filter (λ x, xp_ID x = id) (omap (expiring_row d) (db_placements d))), d).

Definition MarkPlacementDeleted (id : Z) (d : DB) : DB :=
  upd_db_placements
    (update_where (λ p, bool_decide (pl_ID p = id) && bool_decide (pl_Status p = PExpiring))
       (upd_pl_Status (λ _, PDeleted))) d.

(** ** Counting copies *)

Definition healthy_copies (d : DB) (chunk : uuid) : Z :=
  Z.of_nat (count_where (λ p, bool_decide (healthy_row d p = Some chunk)) (db_placements d)).

Lemma healthy_row_spec d p c :
  healthy_row d p = Some c ↔
  pl_Status p = PStored ∧ chunk_of d p = Some c ∧ chunk_committed d c = true ∧
  ∃ n, node_by d (pl_NodeID p) = Some n ∧ node_up n = true.
Proof.
  unfold healthy_row. case_bool_decide as Hs; [|by split; [|intros (?&_)]].
  destruct (chunk_of d p) as [c'|]; simpl; [|by split; [|intros (_&?&_)]].
  destruct (chunk_committed d c') eqn:Hc; [|split; [done|intros (_&[= ->]&?&_); congruence]].
  destruct (node_by d (pl_NodeID p)) as [n|]; simpl; [|by split; [|intros (_&_&_&?&?&_)]].
  destruct (node_up n) eqn:Hn.
  - split; [intros [= ->]; eauto 10|by intros (_&?&_)].
  - split; [done|intros (_&_&_&?&[= <-]&?); congruence].
Qed.

Lemma count_id_omap {A} (f : A → option uuid) c t :
  count_id c (omap f t) = count_where (λ p, bool_decide (f p = Some c)) t.
Proof.
  unfold count_id. induction t as [|p t IH]; simpl; [done|].
  rewrite count_where_cons, <- IH. destruct (f p) as [c'|]; [|done].
  rewrite count_where_cons. f_equal. erewrite bool_decide_ext; [done|]. split; congruence.
Qed.

Lemma count_id_pos c l : (0 < count_id c l)%nat ↔ c ∈ l.
Proof.
  unfold count_id. split.
  - intros H. destruct (count_where_pos (λ y, bool_decide (y = c)) l) as (y&Hy&Heq); [lia|].
    apply bool_decide_eq_true in Heq. by subst.
  - intros H. destruct (count_where _ l) eqn:E; [|lia].
    pose proof (proj1 (count_where_zero _ _) E c H) as Hc. simpl in Hc.
    by rewrite bool_decide_eq_true_2 in Hc.
Qed.

Lemma elem_of_UnderHealthyChunks min d c :
  c ∈ UnderHealthyChunks min d ↔ 0 < healthy_copies d c < min.
Proof.
  unfold UnderHealthyChunks, healthy_copies.
  rewrite list_elem_of_filter, elem_of_distinct, <- count_id_pos, count_id_omap. lia.
Qed.

(** The left joins of [CommittedChunkHealth] keep the chunks without copies. *)
Lemma elem_of_CommittedChunkHealth d c h :
  (c, h) ∈ CommittedChunkHealth d ↔
  chunk_committed d c = true ∧ c ∈ fr_ChunkID <$> db_fragments d ∧ h = healthy_copies d c.
Proof.
  unfold CommittedChunkHealth, healthy_copies. rewrite list_elem_of_fmap. split.
  - intros (c'&[= -> ->]&[? ?]%list_elem_of_filter).
    by rewrite count_id_omap, <- elem_of_distinct.
  - intros (?&?&->). exists c. rewrite count_id_omap, list_elem_of_filter, elem_of_distinct. auto.
Qed.

Lemma CommittedChunkHealth_NoDup d : NoDup (CommittedChunkHealth d).*1.
Proof.
  unfold CommittedChunkHealth. rewrite <- list_fmap_compose.
  rewrite (list_fmap_ext _ id) by done. rewrite list_fmap_id.
  apply NoDup_filter, NoDup_distinct.
Qed.

(** ** What a loss does *)

Lemma count_where_update {A} (q sel : A → bool) f t :
  count_where q (update_where sel f t) =
  count_where (λ r, if sel r then q (f r) else q r) t.
Proof.
  induction t as [|r t IH]; [done|].
  change (update_where sel f (r :: t))
    with ((if sel r then f r else r) :: update_where sel f t).
  rewrite !count_where_cons, IH. by destruct (sel r).
Qed.

Lemma count_where_split {A} (q sel : A → bool) t :
  count_where q t =
  (count_where (λ r, sel r && q r) t + count_where (λ r, negb (sel r) && q r) t)%nat.
Proof.
  induction t as [|r t IH]; [done|]. rewrite !count_where_cons, IH.
  destruct (sel r), (q r); simpl; lia.
Qed.

Lemma count_where_ext {A} (p q : A → bool) t :
  (∀ r, r ∈ t → p r = q r) → count_where p t = count_where q t.
Proof.
  induction t as [|r t IH]; intros H; [done|]. rewrite !count_where_cons.
  rewrite (H r) by left. rewrite IH; [done|]. intros. apply H. by right.
Qed.

(** Losing the rows [sel] selects takes exactly their stored copies off a
    chunk's health. *)
Lemma ChunkHealth_lose sel now d c :
  ChunkHealth c (upd_db_placements (update_where sel (lose now)) d) =
  ChunkHealth c d -
  Z.of_nat (count_where (λ p, sel p && stored_in d c p) (db_placements d)).
Proof.
  unfold ChunkHealth. cbn [db_placements upd_db_placements].
  rewrite count_where_update, (count_where_split (stored_in d c) sel), Nat2Z.inj_add.
  erewrite (count_where_ext _ (λ r, negb (sel r) && stored_in d c r)); [lia|].
  intros p _. change (stored_in (upd_db_placements _ d) c) with (stored_in d c).
  destruct (sel p); simpl; [|done]. unfold stored_in, lose. simpl.
  by rewrite andb_false_r.
Qed.

Lemma lost_row_some d p lp :
  lost_row d p = Some lp →
  lp_PlacementID lp = pl_ID p ∧ lp_FragmentID lp = pl_FragmentID p ∧
  lp_NodeID lp = pl_NodeID p ∧ chunk_of d p = Some (lp_ChunkID lp).
Proof.
  unfold lost_row, chunk_of. destruct (fragment_by _ _); simpl; [|done].
  by intros [= <-].
Qed.

Lemma lost_row_joins d p : joins_fragment d p = true → is_Some (lost_row d p).
Proof.
  unfold joins_fragment, lost_row. rewrite bool_decide_eq_true.
  destruct (fragment_by _ _); simpl; eauto; done.
Qed.

Lemma omap_total {A B C} (f : A → option B) (g : A → C) (h : B → C) (t : list A) :
  (∀ a, a ∈ t → ∃ b, f a = Some b ∧ h b = g a) → h <$> omap f t = g <$> t.
Proof.
  induction t as [|a t IH]; intros Hf; simpl; [done|].
  destruct (Hf a) as (b&->&<-); [left|]. simpl. f_equal. apply IH.
  intros. apply Hf. by right.
Qed.

(** When a node goes away, exactly its pending and stored copies are
    returned, in table order, and become lost; it keeps no live copy, every
    other row is left alone, and the health of each chunk drops by exactly the
    stored copies the node held of it. *)
Theorem MarkPlacementsLostByNode_spec now node d out d' :
  MarkPlacementsLostByNode now node d = (out, d') →
  lp_PlacementID <$> out =
    (pl_ID <$> filter (λ p, on_node_live d node p = true) (db_placements d)) ∧
  (∀ lp, lp ∈ out → lp_NodeID lp = node ∧
     ∃ p, p ∈ db_placements d ∧ pl_ID p = lp_PlacementID lp ∧
          pl_FragmentID p = lp_FragmentID lp ∧ chunk_of d p = Some (lp_ChunkID lp)) ∧
  (∀ p, p ∈ db_placements d' → on_node_live d' node p = false) ∧
  (∀ p, p ∈ db_placements d → on_node_live d node p = false → p ∈ db_placements d') ∧
  ∀ c, ChunkHealth c d' = ChunkHealth c d -
         Z.of_nat (count_where (λ p, bool_decide (pl_NodeID p = node) && stored_in d c p)
                     (db_placements d)).
Proof.
  intros [= <- <-]. split_and!.
  - apply omap_total. intros p [Hp _]%list_elem_of_filter.
    unfold on_node_live in Hp. apply andb_true_iff in Hp as [[Hj _]%andb_true_iff _].
    destruct (lost_row_joins d p Hj) as [lp Hlp]. exists lp.
    by apply lost_row_some in Hlp as Hs; destruct Hs as (?&_).
  - intros lp (p&[Hp Hin]%list_elem_of_filter&Hlp)%list_elem_of_omap.
    apply lost_row_some in Hlp as (?&?&?&?). unfold on_node_live in Hp.
    apply andb_true_iff in Hp as [[_ Hn]%andb_true_iff _]. apply bool_decide_eq_true in Hn.
    split; [congruence|]. by exists p.
  - intros p (p0&_&->)%elem_of_update_where.
    destruct (on_node_live d node p0) eqn:Hp; [|exact Hp].
    unfold on_node_live, lose, live_placement. simpl. by rewrite andb_false_r.
  - intros p Hp Hn. apply elem_of_update_where. exists p. by rewrite Hn.
  - intros c. rewrite ChunkHealth_lose. do 2 f_equal. apply count_where_ext. intros p _.
    unfold on_node_live, stored_in, live_placement, joins_fragment, chunk_of.
    destruct (fragment_by d (pl_FragmentID p)) as [fr|]; simpl; [|by rewrite andb_false_r].
    destruct (bool_decide (pl_NodeID p = node)); [|done]. simpl.
    destruct (decide (pl_Status p = PStored)) as [->|?]; [done|].
    rewrite (bool_decide_eq_false_2 (pl_Status p = PStored)) by done.
    by rewrite !andb_false_r.
Qed.

(** Scrub reports and failed audits lose one copy: afterwards the node has
    no live copy of the fragment, no other copy changes, and the fragment's
    chunk is reported; with nothing to lose the call fails and changes nothing. *)
Lemma MarkPlacementLost_spec now frag node d :
  match MarkPlacementLost now frag node d with
  | (Ok lp, d') =>
      (∃ p, p ∈ db_placements d ∧ this_copy_live d frag node p = true ∧
         pl_ID p = lp_PlacementID lp ∧ chunk_of d p = Some (lp_ChunkID lp)) ∧
      lp_FragmentID lp = frag ∧ lp_NodeID lp = node ∧
      (∀ p, p ∈ db_placements d' → this_copy_live d' frag node p = false) ∧
      (∀ p, p ∈ db_placements d → this_copy_live d frag node p = false → p ∈ db_placements d')
  | (Err e, d') =>
      e = ENotFound ∧ d' = d ∧
      ∀ p, p ∈ db_placements d → this_copy_live d frag node p = false
  end.
Proof.
  unfold MarkPlacementLost. set (rows := filter _ _).
  assert (∀ p, p ∈ rows ↔ this_copy_live d frag node p = true ∧ p ∈ db_placements d) as Hrows
    by (intros p; unfold rows; by rewrite list_elem_of_filter).
  destruct (omap (lost_row d) rows) as [|lp lps] eqn:Ho.
  - split_and!; [done..|]. intros p Hp. destruct (this_copy_live d frag node p) eqn:Hl; [|done].
    assert (joins_fragment d p = true) as Hj.
    { unfold this_copy_live in Hl. by do 3 (apply andb_true_iff in Hl as [Hl _]). }
    destruct (lost_row_joins d p Hj) as [lp Hlp].
    assert (lp ∈ omap (lost_row d) rows) as Hin.
    { apply list_elem_of_omap. exists p. by rewrite Hrows. }
    rewrite Ho in Hin. by apply not_elem_of_nil in Hin.
  - assert (lp ∈ omap (lost_row d) rows) as Hin by (rewrite Ho; left).
    apply list_elem_of_omap in Hin as (p&[Hl Hp]%Hrows&Hlp).
    apply lost_row_some in Hlp as (?&?&?&?).
    pose proof Hl as Hl'. unfold this_copy_live in Hl'.
    repeat apply andb_true_iff in Hl' as [Hl' ?]. repeat (rewrite bool_decide_eq_true in * ).
    split_and!; [by exists p|congruence..| |].
    + intros q (q0&_&->)%elem_of_update_where.
      destruct (this_copy_live d frag node q0) eqn:Hq; [|exact Hq].
      unfold this_copy_live, lose, live_placement. simpl. by rewrite andb_false_r.
    + intros q Hq Hn. apply elem_of_update_where. exists q. by rewrite Hn.
Qed.
