(* ===== verification/Files.v ===== *)
(** * Buckets and files: [src/internal/store/buckets.go] and [files.go]

    Path normalisation, the folder tree kept as path prefixes, rename and soft
    delete.  Paths are byte strings; [chars] is the list of their characters.
    Postgres' [LIKE] is [like]: ['%'] and ['_'] in a stored path are wildcards
    when that path is used as a pattern. *)

From S2P Require Import Prelude GoFloat Schema Nodes.
From Stdlib Require Import Ascii.

Definition chars (s : string) : list ascii := String.list_ascii_of_string s.
Definition unchars (l : list ascii) : string := String.string_of_list_ascii l.

Lemma unchars_chars s : unchars (chars s) = s.
Proof. apply String.string_of_list_ascii_of_string. Qed.
Lemma chars_unchars l : chars (unchars l) = l.
Proof. apply String.list_ascii_of_string_of_list_ascii. Qed.

(** ** [NormalizePath] *)

Definition slash : ascii := "/"%char.
Definition dot : ascii := "."%char.

(** [strings.TrimSpace] on ASCII text *)
Definition is_space (c : ascii) : bool :=
  let n := Ascii.nat_of_ascii c in ((9 <=? n)%nat && (n <=? 13)%nat) || (n =? 32)%nat.

Fixpoint trim_left (p : ascii → bool) (l : list ascii) : list ascii :=
  match l with
  | c :: l' => if p c then trim_left p l' else l
  | [] => []
  end.
Definition trim_right (p : ascii → bool) (l : list ascii) : list ascii :=
  rev (trim_left p (rev l)).

(** The components between slashes. *)
Fixpoint split_slash (l : list ascii) : list (list ascii) :=
  match l with
  | [] => [[]]
  | c :: l' =>
      if bool_decide (c = slash) then [] :: split_slash l'
      else match split_slash l' with
           | w :: ws => (c :: w) :: ws
           | [] => [[c]]
           end
  end.

(** [path.Clean] of a rooted path: empty and "." components vanish, ".."
    removes the component before it and is dropped at the root. *)
Definition clean_step (acc : list (list ascii)) (w : list ascii) : list (list ascii) :=
  if bool_decide (w = []) || bool_decide (w = [dot]) then acc
  else if bool_decide (w = [dot; dot]) then removelast acc
  else acc ++ [w].

Definition clean (l : list ascii) : list ascii :=
  match foldl clean_step [] (split_slash l) with
  | [] => [slash]
  | ws => List.concat ((λ w, slash :: w) <$> ws)
  end.

Definition NormalizePath (p : string) : result store_error string :=
  let l := trim_right is_space (trim_left is_space (chars p)) in
  match l with
  | c :: _ =>
      if negb (bool_decide (c = slash)) then Err EInvalid
      else if existsb (λ c, bool_decide (c = "000"%char)) l then Err EInvalid
      else
        let trimmed := trim_right (λ c, bool_decide (c = slash)) l in
        if bool_decide (trimmed = []) then Err EInvalid
        else if negb (bool_decide (clean trimmed = trimmed)) then Err EInvalid
        else Ok (unchars trimmed)
  | [] => Err EInvalid
  end.

(** ** LIKE *)

Definition is_char (c d : ascii) : bool := bool_decide (c = d).

(** Postgres' [LIKE] with the default escape; a pattern that ends in the escape
    character is an error there, here it matches nothing. *)
Fixpoint like (p : list ascii) : list ascii → bool :=
  match p with
  | [] => λ s, bool_decide (s = [])
  | c :: p1 =>
      if is_char c "%" then
        fix any (s : list ascii) : bool :=
          like p1 s || match s with [] => false | _ :: s' => any s' end
      else if is_char c "_" then
        λ s, match s with [] => false | _ :: s' => like p1 s' end
      else if is_char c "\" then
        match p1 with
        | [] => λ _, false
        | d :: p2 => λ s, match s with [] => false | x :: s' => is_char x d && like p2 s' end
        end
      else λ s, match s with [] => false | x :: s' => is_char x c && like p1 s' end
  end.

(** [path = $2 OR path LIKE $2 || '/%'] *)
Definition in_subtree (base path : string) : bool :=
  bool_decide (path = base) || like (chars base ++ [slash; "%"%char]) (chars path).

(** ** Buckets *)

Definition CreateBucket (owner : uuid) (name : string) : store Bucket := λ d,
  let '(id, d) := gen_uuid d in
  let b := MkBucket id owner name in
  if existsb (λ x, bool_decide (b_OwnerID x = owner) && bool_decide (b_Name x = name))
       (db_buckets d)
  then (Err (mapQueryErr PgUniqueViolation), d)
  else (Ok b, upd_db_buckets (λ t, t ++ [b]) d).

Definition BucketByID (owner id : uuid) : store Bucket := λ d,
  (query_row (mapQueryErr PgNoRows)
     (filter (λ b, b_ID b = id ∧ b_OwnerID b = owner) (db_buckets d)), d).

(** A soft-deleted file row can go only if no version row references it. *)
Definition dead_file_in (bucket : uuid) (f : File) : bool :=
  bool_decide (f_BucketID f = bucket) && negb (bool_decide (f_DeletedAt f = None)).

Definition delete_dead_files (bucket : uuid) : store unit := λ d,
  if existsb (λ f, dead_file_in bucket f &&
                   existsb (λ v, bool_decide (v_FileID v = f_ID f)) (db_versions d))
       (db_files d)
  then (Err (mapQueryErr PgOther), d)
  else (Ok tt, upd_db_files (filter (λ f, dead_file_in bucket f = false)) d).

Definition DeleteBucket (owner id : uuid) : store unit :=
  transaction (
    BucketByID owner id ≫= λ _,
    n ← gets (λ d, count_where (λ f, bool_decide (f_BucketID f = id) &&
                                     bool_decide (f_DeletedAt f = None)) (db_files d));
    guard_err (0 <? n)%nat ENotEmpty ≫= λ _,
    delete_dead_files id ≫= λ _,
    modify (upd_db_buckets (filter (λ b, ¬ (b_ID b = id ∧ b_OwnerID b = owner))))).

(** ** Files *)

Definition owned_file (d : DB) (owner id : uuid) : option File :=
  f ← file_by d id;
  b ← bucket_by d (f_BucketID f);
  if bool_decide (b_OwnerID b = owner) && bool_decide (f_DeletedAt f = None)
  then Some f else None.

Definition FileByID (owner id : uuid) : store File := λ d,
  (of_option (mapQueryErr PgNoRows) (owned_file d owner id), d).

(** The partial unique index [files_bucket_path_live]. *)
Definition path_taken (bucket : uuid) (path : string) (d : DB) : bool :=
  existsb (λ f, bool_decide (f_BucketID f = bucket) && bool_decide (f_Path f = path) &&
                bool_decide (f_DeletedAt f = None)) (db_files d).

Definition CreateFolder (now : Z) (owner bucket : uuid) (rawPath : string) : store File :=
  p ← lift (NormalizePath rawPath);
  BucketByID owner bucket ≫= λ _,
  action (λ d,
        let '(id, d) := gen_uuid d in
        let f := MkFile id bucket p true None FActive now now None in
        if path_taken bucket p d then (Err (mapQueryErr PgUniqueViolation), d)
        else (Ok f, upd_db_files (λ t, t ++ [f]) d)).

Definition live_in_subtree (bucket : uuid) (base : string) (f : File) : bool :=
  bool_decide (f_BucketID f = bucket) && bool_decide (f_DeletedAt f = None) &&
  in_subtree base (f_Path f).

Definition upd_f_Path (p : string) (f : File) : File :=
  MkFile (f_ID f) (f_BucketID f) p (f_IsFolder f) (f_CurrentVersion f) (f_Status f)
    (f_CreatedAt f) (f_UpdatedAt f) (f_DeletedAt f).

(** One row of an [UPDATE files SET path = …]; the unique index is checked at
    once, against the rows as they are by then. *)
Definition set_path (now : Z) (bucket id : uuid) (path : string) : store unit := λ d,
  if existsb (λ f, bool_decide (f_ID f ≠ id) && bool_decide (f_BucketID f = bucket) &&
                   bool_decide (f_Path f = path) && bool_decide (f_DeletedAt f = None))
       (db_files d)
  then (Err (mapQueryErr PgUniqueViolation), d)
  else (Ok tt, upd_db_files (update_where (λ f, bool_decide (f_ID f = id))
                 (λ f, upd_f_UpdatedAt (λ _, now) (upd_f_Path path f))) d).

(** [$1 || substr(path, length($2) + 1)] *)
Definition rebase (old new path : string) : string :=
  unchars (chars new ++ drop (length (chars old)) (chars path)).

Definition RenameFile (now : Z) (owner id : uuid) (newPath : string) : store File :=
  p ← lift (NormalizePath newPath);
  transaction (
    f ← FileByID owner id;
    if bool_decide (f_Path f = p) then mret f
    else
      let old := f_Path f in
      (if f_IsFolder f then
         collision ← gets (λ d, count_where (λ x, live_in_subtree (f_BucketID f) p x &&
                                                  negb (in_subtree old (f_Path x))) (db_files d));
         guard_err (0 <? collision)%nat EConflict ≫= λ _,
         rows ← gets (λ d, filter (λ x, live_in_subtree (f_BucketID f) old x = true) (db_files d));
         for_each (λ x, set_path now (f_BucketID f) (f_ID x) (rebase old p (f_Path x))) rows
       else set_path now (f_BucketID f) (f_ID f) p) ≫= λ _,
      action (λ d, (of_option (mapQueryErr PgNoRows) (file_by d (f_ID f)), d))).

(** ** Soft delete *)

Definition kill_file (now : Z) (f : File) : File :=
  upd_f_Status (λ _, FDeleted)
    (upd_f_DeletedAt (λ _, Some now) (upd_f_UpdatedAt (λ _, now) f)).

(** The files a delete of [f] covers: the row itself, or the whole subtree of a
    folder.  The first statement also asks for [deleted_at IS NULL]; the other
    two do not. *)
Definition delete_covers (f x : File) : bool :=
  if f_IsFolder f
  then bool_decide (f_BucketID x = f_BucketID f) && in_subtree (f_Path f) (f_Path x)
  else bool_decide (f_ID x = f_ID f).

Definition file_of_placement (d : DB) (p : Placement) : option File :=
  fr ← fragment_by d (pl_FragmentID p);
  c ← chunk_by d (fr_ChunkID fr);
  v ← version_by d (c_VersionID c);
  file_by d (v_FileID v).

Definition expire_versions (f : File) (d : DB) : DB :=
  upd_db_versions
    (update_where (λ v, match file_by d (v_FileID v) with
                        | Some x => delete_covers f x
                        | None => false
                        end &&
                        (bool_decide (v_Status v = VPending) || bool_decide (v_Status v = VCommitted)))
       (upd_v_Status (λ _, VExpired))) d.

Definition expire_placements_of (f : File) (d : DB) : DB :=
  upd_db_placements
    (update_where (λ p, match file_of_placement d p with
                        | Some x => delete_covers f x
                        | None => false
                        end &&
                        (live_placement p || bool_decide (pl_Status p = PLost)))
       (upd_pl_Status (λ _, PExpiring))) d.

Definition SoftDeleteFile (now : Z) (owner id : uuid) : store unit :=
  f ← FileByID owner id;
  modify (upd_db_files (update_where
            (λ x, delete_covers f x &&
                  (negb (f_IsFolder f) || bool_decide (f_DeletedAt x = None)))
            (kill_file now))) ≫= λ _,
  modify (expire_versions f) ≫= λ _,
  modify (expire_placements_of f).

(** ** What the patterns match *)

Definition wild (c : ascii) : bool := is_char c "%" || is_char c "_" || is_char c "\".
(** A path without wildcard characters. *)
Definition literal (p : string) : bool := forallb (λ c, negb (wild c)) (chars p).

(** The subtree a folder means: itself and everything below it. *)
Definition below (base path : string) : Prop :=
  ∃ rest, chars path = chars base ++ slash :: rest.

Lemma like_percent s : like ["%"%char] s = true.
Proof.
  induction s as [|c s IH]; [done|].
  change (like ["%"%char] (c :: s)) with (like [] (c :: s) || like ["%"%char] s).
  by rewrite IH, orb_true_r.
Qed.

Lemma like_char c p s :
  wild c = false →
  like (c :: p) s = match s with [] => false | x :: s' => is_char x c && like p s' end.
Proof.
  unfold wild. intros [[H1 H2]%orb_false_iff H3]%orb_false_iff. cbn [like].
  by rewrite H1, H2, H3.
Qed.

Lemma like_literal p s :
  forallb (λ c, negb (wild c)) p = true →
  like (p ++ [slash; "%"%char]) s = true ↔ ∃ rest, s = p ++ slash :: rest.
Proof.
  revert s. induction p as [|c p IH]; intros s Hp.
  - cbn [app]. rewrite like_char by done. destruct s as [|x s]; [by split; [|intros [? ?]]|].
    rewrite like_percent, andb_true_r. unfold is_char. rewrite bool_decide_eq_true. split.
    + intros ->. by exists s.
    + by intros (?&[= -> _]).
  - apply andb_true_iff in Hp as [Hc%negb_true_iff Hp]. cbn [app].
    rewrite like_char by done. destruct s as [|x s]; [by split; [|intros [? ?]]|].
    unfold is_char. rewrite andb_true_iff, bool_decide_eq_true, IH by done. split.
    + intros [-> [rest ->]]. by exists rest.
    + intros (rest&[= -> ->]). eauto.
Qed.

Lemma chars_inj a b : chars a = chars b → a = b.
Proof. intros H. rewrite <- (unchars_chars a), H. apply unchars_chars. Qed.

Lemma in_subtree_literal base path :
  literal base = true → in_subtree base path = true ↔ path = base ∨ below base path.
Proof.
  intros Hl. unfold in_subtree, below. rewrite orb_true_iff, bool_decide_eq_true.
  by rewrite like_literal.
Qed.

(** ** Soft delete *)

Lemma FileByID_ok owner id d f d' :
  FileByID owner id d = (Ok f, d') →
  d' = d ∧ f ∈ db_files d ∧ f_ID f = id ∧ f_DeletedAt f = None ∧
  ∃ b, bucket_by d (f_BucketID f) = Some b ∧ b_OwnerID b = owner.
Proof.
  unfold FileByID, owned_file. destruct (file_by d id) as [g|] eqn:Hg; [|done]. cbn [mbind option_bind].
  apply find_by_spec in Hg as [Hin Hid%bool_decide_eq_true].
  destruct (bucket_by d (f_BucketID g)) as [b|] eqn:Hb; [|done]. cbn [mbind option_bind].
  destruct (_ && _) eqn:Hc; [|done]. apply andb_true_iff in Hc as [Ho%bool_decide_eq_true Hd%bool_decide_eq_true].
  intros [= <- <-]. eauto 10.
Qed.

(** The rows a delete of [f] is meant to cover, without patterns. *)
Definition covers (f x : File) : bool :=
  if f_IsFolder f then
    bool_decide (f_BucketID x = f_BucketID f) &&
    (bool_decide (f_Path x = f_Path f) ||
     bool_decide (take (S (length (chars (f_Path f)))) (chars (f_Path x)) = chars (f_Path f) ++ [slash]))
  else bool_decide (f_ID x = f_ID f).

Lemma below_take base path :
  below base path ↔ take (S (length (chars base))) (chars path) = chars base ++ [slash].
Proof.
  unfold below. split.
  - intros [rest ->]. rewrite (cons_middle slash), app_assoc. apply take_app_n.
    rewrite length_app. simpl. lia.
  - intros H. exists (drop (S (length (chars base))) (chars path)).
    by rewrite (cons_middle slash), app_assoc, <- H, take_drop.
Qed.

Lemma delete_covers_literal f x :
  (f_IsFolder f = true → literal (f_Path f) = true) → delete_covers f x = covers f x.
Proof.
  intros Hl. unfold delete_covers, covers. destruct (f_IsFolder f); [|done]. f_equal.
  apply eq_bool_prop_intro. rewrite !Is_true_true, orb_true_iff, !bool_decide_eq_true, <- below_take.
  by apply in_subtree_literal, Hl.
Qed.

Lemma find_by_update {A} (q sel : A → bool) g t :
  (∀ r, q (g r) = q r) →
  find_by q (update_where sel g t) = (λ r, if sel r then g r else r) <$> find_by q t.
Proof.
  intros Hq. unfold find_by. induction t as [|r t IH]; [done|].
  change (update_where sel g (r :: t)) with ((if sel r then g r else r) :: update_where sel g t).
  rewrite !filter_cons.
  assert (q (if sel r then g r else r) = q r) as -> by (destruct (sel r); auto).
  by destruct (decide (q r = true)).
Qed.

(** C40: Deleting a file deletes that row; deleting a folder whose path holds no
    wildcard character deletes exactly the folder and the paths below it in its
    bucket.  Exactly the pending and committed versions of the covered files
    expire, and exactly their pending, stored and lost copies are handed to the
    reaper; every other row is unchanged. *)
Theorem SoftDeleteFile_spec now owner id d d' :
  SoftDeleteFile now owner id d = (Ok tt, d') →
  ∃ f, f ∈ db_files d ∧ f_ID f = id ∧ f_DeletedAt f = None ∧
    ((f_IsFolder f = true → literal (f_Path f) = true) →
     let of_file o := match o with Some x => covers f x | None => false end in
     db_files d' = update_where (λ x, covers f x && (negb (f_IsFolder f) || bool_decide (f_DeletedAt x = None)))
                     (kill_file now) (db_files d) ∧
     db_versions d' = update_where (λ v, of_file (file_by d (v_FileID v)) &&
                        (bool_decide (v_Status v = VPending) || bool_decide (v_Status v = VCommitted)))
                        (upd_v_Status (λ _, VExpired)) (db_versions d) ∧
     db_placements d' = update_where (λ p, of_file (file_of_placement d p) &&
                          (live_placement p || bool_decide (pl_Status p = PLost)))
                          (upd_pl_Status (λ _, PExpiring)) (db_placements d) ∧
     db_chunks d' = db_chunks d ∧ db_fragments d' = db_fragments d ∧ db_buckets d' = db_buckets d).
Proof.
  unfold SoftDeleteFile, mbind at 1, M_bind at 1.
  destruct (FileByID owner id d) as [[f|e] d0] eqn:Hf; [|done].
  apply FileByID_ok in Hf as (->&Hin&Hid&Hdel&_).
  unfold mbind, M_bind, modify. intros [= <-]. exists f. split_and!; try done.
  intros Hl. set (d1 := upd_db_files _ d).
  assert (∀ fid, match file_by d1 fid with Some x => delete_covers f x | None => false end =
                 match file_by d fid with Some x => covers f x | None => false end) as Hfile.
  { intros fid. unfold file_by, d1. cbn [db_files upd_db_files].
    rewrite find_by_update by done. destruct (find_by _ (db_files d)) as [x|]; [|done]. simpl.
    case_if; rewrite delete_covers_literal by done; done. }
  assert (∀ (A : Type) (p q : A → bool) g (t : list A), (∀ r, p r = q r) →
    update_where p g t = update_where q g t) as Hext.
  { intros A p q g t Hpq. unfold update_where. apply list_fmap_ext. intros. by rewrite Hpq. }
  split_and!; try done.
  - cbn. apply Hext. intros x. by rewrite delete_covers_literal.
  - cbn. apply Hext. intros v. f_equal. apply Hfile.
  - cbn. apply Hext. intros p. f_equal. unfold file_of_placement. cbn.
    change (fragment_by (expire_versions f d1)) with (fragment_by d).
    change (chunk_by (expire_versions f d1)) with (chunk_by d).
    destruct (fragment_by d (pl_FragmentID p)) as [fr|]; [|done]. simpl.
    destruct (chunk_by d (fr_ChunkID fr)) as [c|]; [|done]. simpl.
    unfold version_by, expire_versions. cbn [db_versions upd_db_versions].
    rewrite find_by_update by done. change (db_versions d1) with (db_versions d).
    destruct (find_by _ (db_versions d)) as [v|]; [|done]. cbn [fmap option_fmap option_map mbind option_bind].
    assert (∀ b, v_FileID (if b : bool then upd_v_Status (λ _, VExpired) v else v) = v_FileID v) as ->
      by by intros [].
    apply Hfile.
Qed.

(** ** Rename *)

(** The row an update of the path leaves. *)
Definition moved_to (now : Z) (path : string) (x : File) : File :=
  upd_f_UpdatedAt (λ _, now) (upd_f_Path path x).

Lemma set_path_ok now bucket id path d d' :
  set_path now bucket id path d = (Ok tt, d') →
  d' = upd_db_files (update_where (λ f, bool_decide (f_ID f = id)) (moved_to now path)) d.
Proof. unfold set_path. by case_if; intros [= <-]. Qed.

Lemma set_paths_ok now bucket (target : File → string) xs d d' :
  for_each (λ x, set_path now bucket (f_ID x) (target x)) xs d = (Ok tt, d') →
  NoDup (f_ID <$> xs) →
  d' = upd_db_files (λ t,
    (λ y, match find_by (λ x, bool_decide (f_ID x = f_ID y)) xs with
          | Some x => moved_to now (target x) y
          | None => y
          end) <$> t) d.
Proof.
  revert d. induction xs as [|x xs IH]; intros d; simpl.
  { intros [= <-] _. destruct d. unfold upd_db_files. simpl. by rewrite list_fmap_id. }
  intros ([]&d1&Hx&Hr)%bind_ok [Hnx Hnd]%NoDup_cons.
  apply set_path_ok in Hx as ->. rewrite (IH _ Hr Hnd). unfold upd_db_files, update_where. simpl.
  f_equal. rewrite <- list_fmap_compose. apply list_fmap_ext. intros _ y _. simpl.
  unfold find_by at 2. rewrite filter_cons.
  destruct (bool_decide_reflect (f_ID y = f_ID x)) as [Heq|Hne].
  - rewrite decide_True by (by apply bool_decide_eq_true). simpl.
    destruct (find_by _ xs) as [x'|] eqn:Hf; [|done]. destruct Hnx. rewrite <- Heq.
    apply find_by_spec in Hf as [Hin Hid%bool_decide_eq_true]. simpl in Hid. rewrite <- Hid.
    by apply list_elem_of_fmap_2.
  - rewrite decide_False by (rewrite bool_decide_eq_true; congruence). done.
Qed.

Lemma find_by_filter (P : File → bool) t y :
  NoDup (f_ID <$> t) → y ∈ t →
  find_by (λ x, bool_decide (f_ID x = f_ID y)) (filter (λ x, P x = true) t) =
    if P y then Some y else None.
Proof.
  intros Hnd Hy. destruct (P y) eqn:Hp.
  - apply find_by_key; [|by apply list_elem_of_filter].
    eapply sublist_NoDup; [exact Hnd|]. apply fmap_sublist, sublist_filter.
  - apply find_by_none. intros x [Hx Hin]%list_elem_of_filter.
    apply bool_decide_eq_false. intros Heq.
    pose proof (find_by_key f_ID t y Hnd Hy) as H1. pose proof (find_by_key f_ID t x Hnd Hin) as H2.
    rewrite Heq in H2. congruence.
Qed.

Lemma rebase_self old new : rebase old new old = new.
Proof. unfold rebase. by rewrite drop_all, app_nil_r, unchars_chars. Qed.

(** The rows a rename moves. *)
Definition renames (f x : File) : bool :=
  if f_IsFolder f then live_in_subtree (f_BucketID f) (f_Path f) x
  else bool_decide (f_ID x = f_ID f).

(** A successful rename gives the file its new path, and for a folder
    replaces the old path by the new one at the front of every live path of its
    subtree, keeping the rest of each path; no other row changes.  A rename that
    fails, for instance because a path is taken, changes nothing. *)
Theorem RenameFile_spec now owner id newPath d :
  NoDup (f_ID <$> db_files d) →
  match RenameFile now owner id newPath d with
  | (Err _, d') => d' = d
  | (Ok g, d') =>
      ∃ f p, NormalizePath newPath = Ok p ∧ f ∈ db_files d ∧ f_ID f = id ∧ f_DeletedAt f = None ∧
        if bool_decide (f_Path f = p) then g = f ∧ d' = d
        else
          d' = upd_db_files (update_where (renames f)
                 (λ x, moved_to now (rebase (f_Path f) p (f_Path x)) x)) d ∧
          file_by d' id = Some g
  end.
Proof.
  intros Hnd. unfold RenameFile. destruct (NormalizePath newPath) as [p|e]; [|done].
  unfold mbind at 1, M_bind at 1. cbn [lift].
  destruct (transaction _ d) as [[g|e] d'] eqn:Ht; [|by apply transaction_err in Ht].
  rewrite transaction_ok in Ht. apply bind_ok in Ht as (f&d1&Hf&Ht).
  apply FileByID_ok in Hf as (->&Hin&Hid&Hdel&_). exists f, p. split_and!; try done.
  destruct (bool_decide (f_Path f = p)); [by injection Ht as <- <-|].
  apply bind_ok in Ht as ([]&d2&Hmove&Hget).
  injection Hget as Hg <-. rewrite Hid in Hg.
  assert (d2 = upd_db_files (update_where (renames f)
                 (λ x, moved_to now (rebase (f_Path f) p (f_Path x)) x)) d) as Hd2.
  { unfold renames. destruct (f_IsFolder f).
    - apply bind_ok in Hmove as (n&d3&[= <- <-]&Hmove).
      apply bind_ok in Hmove as ([]&d4&Hgd&Hmove).
      assert (d4 = d) as -> by (revert Hgd; unfold guard_err; case_if; by intros [= ?]).
      apply bind_ok in Hmove as (rows&d5&[= <- <-]&Hmove).
      apply (set_paths_ok now (f_BucketID f) (λ x, rebase (f_Path f) p (f_Path x))) in Hmove.
      + rewrite Hmove. unfold upd_db_files, update_where. f_equal. apply list_fmap_ext.
        intros i y Hy%list_elem_of_lookup_2. rewrite find_by_filter by done. by case_if.
      + eapply sublist_NoDup; [exact Hnd|]. apply fmap_sublist, sublist_filter.
    - apply set_path_ok in Hmove as ->. unfold upd_db_files, update_where. f_equal.
      apply list_fmap_ext. intros i y Hy%list_elem_of_lookup_2.
      destruct (bool_decide_reflect (f_ID y = f_ID f)) as [Heq|]; [|done].
      assert (y = f) as ->; [|by rewrite rebase_self].
      pose proof (find_by_key f_ID _ _ Hnd Hy) as H1. pose proof (find_by_key f_ID _ _ Hnd Hin) as H2.
      rewrite Heq in H1. congruence. }
  split; [done|]. destruct (file_by d2 id); [by injection Hg as ->|done].
Qed.

(** ** Deleting buckets *)

(** A bucket goes only if it is the owner's and has no live file, and then
    only it and its soft-deleted file rows go.  If any of those rows still has a
    version, that is, if anything was ever uploaded to the bucket and deleted
    since, the foreign key refuses and the bucket cannot be deleted. *)
Lemma DeleteBucket_spec owner id d :
  DeleteBucket owner id d =
    if existsb (λ b, bool_decide (b_ID b = id) && bool_decide (b_OwnerID b = owner)) (db_buckets d) then
      if existsb (λ f, bool_decide (f_BucketID f = id) && bool_decide (f_DeletedAt f = None)) (db_files d)
      then (Err ENotEmpty, d)
      else if existsb (λ f, dead_file_in id f && existsb (λ v, bool_decide (v_FileID v = f_ID f)) (db_versions d))
                (db_files d)
      then (Err EQuery, d)
      else (Ok tt, upd_db_buckets (filter (λ b, ¬ (b_ID b = id ∧ b_OwnerID b = owner)))
                     (upd_db_files (filter (λ f, dead_file_in id f = false)) d))
    else (Err ENotFound, d).
Proof.
  unfold DeleteBucket, transaction, mbind, M_bind.
  assert (∀ (A : Type) (p : A → bool) t, existsb p t = (0 <? count_where p t)%nat) as Hex.
  { intros A q t. induction t as [|x t IH]; [done|]. simpl. rewrite count_where_cons, IH. by destruct (q x). }
  unfold BucketByID, query_row.
  replace (existsb _ (db_buckets d)) with
    (is_ok (of_option ENotFound (head (filter (λ b, b_ID b = id ∧ b_OwnerID b = owner) (db_buckets d))))).
  2:{ induction (db_buckets d) as [|b t IH]; [done|]. simpl. rewrite <- IH, filter_cons.
      destruct (decide (b_ID b = id ∧ b_OwnerID b = owner)) as [[-> ->]|Hn]; simpl.
      - rewrite !bool_decide_eq_true_2 by done. done.
      - destruct (bool_decide_reflect (b_ID b = id)); [|done].
        destruct (bool_decide_reflect (b_OwnerID b = owner)); [by destruct Hn|done]. }
  destruct (of_option _ _) as [b|e] eqn:Hb; cbn [is_ok].
  - unfold gets, guard_err. rewrite (Hex _ _ (db_files d)). case_if; [done|].
    cbn [mret M_ret]. unfold delete_dead_files, modify. by case_if.
  - destruct (head _); [done|]. by injection Hb as <-.
Qed.

(** ** Normal paths *)

Definition good_component (w : list ascii) : Prop :=
  w ≠ [] ∧ w ≠ [dot] ∧ w ≠ [dot; dot] ∧ slash ∉ w.

Lemma split_slash_no_slash l : Forall (λ w, slash ∉ w) (split_slash l).
Proof.
  induction l as [|c l IH]; simpl; [repeat constructor; by intros ?%not_elem_of_nil|].
  destruct (bool_decide_reflect (c = slash)) as [|Hc].
  - constructor; [by intros ?%not_elem_of_nil|done].
  - destruct (split_slash l) as [|w ws]; apply Forall_cons.
    + split; [|done]. intros [?|?%not_elem_of_nil]%elem_of_cons; congruence.
    + apply Forall_cons in IH as [Hw Hws]. split; [|done].
      intros [?|?]%elem_of_cons; congruence.
Qed.

Lemma Forall_removelast {A} (P : A → Prop) l : Forall P l → Forall P (removelast l).
Proof. induction 1 as [|x l Hx Hl IH]; [done|]. simpl. destruct l; [done|]. by constructor. Qed.

Lemma clean_components l :
  Forall good_component (foldl clean_step [] (split_slash l)).
Proof.
  pose proof (split_slash_no_slash l) as Hs. revert Hs. generalize (split_slash l).
  enough (∀ ws acc, Forall (λ w, slash ∉ w) ws → Forall good_component acc →
    Forall good_component (foldl clean_step acc ws)) as H by (intros; by apply H).
  induction ws as [|w ws IH]; intros acc Hws Hacc; [done|].
  apply Forall_cons in Hws as [Hw Hws]. simpl. apply IH; [done|]. unfold clean_step.
  destruct (bool_decide_reflect (w = [])); [done|].
  destruct (bool_decide_reflect (w = [dot])); [done|]. simpl.
  destruct (bool_decide_reflect (w = [dot; dot])); [by apply Forall_removelast|].
  apply Forall_app. split; [done|]. by repeat constructor.
Qed.

Lemma trim_left_head p l c l' : trim_left p l = c :: l' → p c = false.
Proof.
  induction l as [|x l IH]; simpl; [done|]. destruct (p x) eqn:Hx; [done|]. congruence.
Qed.

Lemma trim_left_incl p l c : c ∈ trim_left p l → c ∈ l.
Proof.
  induction l as [|x l IH]; simpl; [done|]. destruct (p x); [|done].
  intros. apply elem_of_cons. auto.
Qed.

Lemma trim_right_incl p l c : c ∈ trim_right p l → c ∈ l.
Proof. unfold trim_right. rewrite elem_of_rev. intros Hc%trim_left_incl. by apply elem_of_rev. Qed.

(** A path the store accepts is in canonical form: one or more non-empty
    components, each after a slash, none of them "." or "..", without a trailing
    slash and without NUL; so no two spellings of one path reach the database,
    and no path escapes its bucket. *)
Theorem NormalizePath_canonical raw p :
  NormalizePath raw = Ok p →
  ∃ ws, ws ≠ [] ∧ chars p = List.concat ((λ w, slash :: w) <$> ws) ∧
    Forall (λ w, good_component w ∧ "000"%char ∉ w) ws.
Proof.
  unfold NormalizePath. set (l := trim_right is_space _).
  destruct l as [|c l0] eqn:Hl; [done|]. rewrite <- Hl in *. clear Hl l0.
  destruct (bool_decide_reflect (c = slash)); [|done]. cbn [negb].
  destruct (existsb _ l) eqn:Hnul; [done|].
  set (t := trim_right (λ c, bool_decide (c = slash)) l).
  destruct (bool_decide_reflect (t = [])) as [|Hne]; [done|].
  destruct (bool_decide_reflect (clean t = t)) as [Hc|]; [|done].
  intros [= <-]. rewrite chars_unchars. pose proof (clean_components t) as Hgood.
  unfold clean in Hc. destruct (foldl clean_step [] (split_slash t)) as [|w ws] eqn:Hf.
  - exfalso. assert (trim_left (λ c, bool_decide (c = slash)) (rev l) = [slash]) as Ht.
    { rewrite <- (rev_involutive (trim_left _ _)). change (rev (rev (trim_left _ (rev l)))) with (rev t).
      by rewrite <- Hc. }
    apply trim_left_head in Ht. by vm_compute in Ht.
  - exists (w :: ws). split_and!; [done|by symmetry|]. rewrite Forall_forall in Hgood |- *.
    intros x Hx. split; [by apply Hgood|]. intros H0.
    assert ("000"%char ∈ l) as Hin.
    { apply (trim_right_incl (λ c, bool_decide (c = slash))). fold t. rewrite <- Hc.
      apply list_elem_of_In, in_concat. exists (slash :: x).
      split; [|apply list_elem_of_In; by right]. apply list_elem_of_In.
      apply (list_elem_of_fmap_2 (λ w, slash :: w)). done. }
    apply not_true_iff_false in Hnul. apply Hnul, existsb_exists. exists "000"%char.
    split; [by apply list_elem_of_In|]. by apply bool_decide_eq_true_2.
Qed.

(** ** Wildcards in stored paths

    A folder whose path holds an underscore covers every path the pattern
    matches: deleting [/a_b] deletes [/axb/secret] too. *)
Module Wildcard.
Definition owner := Uuid 7.
Definition bucket := Uuid 8.
Definition file (id : N) (path : string) (folder : bool) : File :=
  MkFile (Uuid id) bucket path folder None FActive 0 0 None.
Definition d0 : DB :=
  upd_db_buckets (λ _, [MkBucket bucket owner "b"])
    (upd_db_files (λ _, [file 1 "/a_b" true; file 2 "/a_b/x" false; file 3 "/axb/secret" false])
       db_empty).

Example neighbour_deleted :
  let '(r, d') := SoftDeleteFile 5 owner (Uuid 1) d0 in
  r = Ok tt ∧ f_DeletedAt <$> db_files d' = [Some 5; Some 5; Some 5].
Proof. by vm_compute. Qed.

Example neighbour_moved :
  let '(r, d') := RenameFile 5 owner (Uuid 1) "/c" d0 in
  is_ok r = true ∧ f_Path <$> db_files d' = ["/c"; "/c/x"; "/c/secret"]%string.
Proof. by vm_compute. Qed.
End Wildcard.

(** ** A bucket that cannot be deleted *)
Module StuckBucket.
Definition owner := Uuid 7.
Definition bucket := Uuid 8.
Definition d0 : DB :=
  upd_db_buckets (λ _, [MkBucket bucket owner "b"])
    (upd_db_files (λ _, [MkFile (Uuid 1) bucket "/f" false None FDeleted 0 0 (Some 3)])
       (upd_db_versions (λ _, [MkFileVersion (Uuid 2) (Uuid 1) 1 10 [] [] 1 10 6 VExpired 0 None])
          db_empty)).
Example refused : (DeleteBucket owner bucket d0).1 = Err EQuery.
Proof. by vm_compute. Qed.
End StuckBucket.
