(* ===== verification/Net.v ===== *)
(** * The parts of Go's [net] and [net/url] packages the program relies on

    [SplitHostPort] (the gateway's client addresses, the host of an endpoint),
    [ParseIP] (which endpoints are addresses) and the scheme of [url.Parse], as
    the standard library has them.  An address is its sixteen octets. *)

From S2P Require Import Prelude Files.
From Stdlib Require Import Ascii.

Fixpoint index_byte (c : ascii) (l : list ascii) : option nat :=
  match l with
  | [] => None
  | x :: l => if bool_decide (x = c) then Some O else S <$> index_byte c l
  end.

Definition last_index_byte (c : ascii) (l : list ascii) : option nat :=
  i ← index_byte c (rev l); Some (length l - 1 - i)%nat.

Definition has_byte (c : ascii) (l : list ascii) : bool := bool_decide (index_byte c l ≠ None).

(** The host of [net.SplitHostPort]; [None] for its errors. *)
Definition SplitHostPort (hostport : list ascii) : option (list ascii) :=
  i ← last_index_byte ":" hostport;
  if bool_decide (head hostport = Some "["%char) then
    e ← index_byte "]" hostport;
    if negb (S e =? i)%nat then None
    else if has_byte "[" (drop 1 hostport) || has_byte "]" (drop (S e) hostport) then None
    else Some (take (e - 1) (drop 1 hostport))
  else
    let host := take i hostport in
    if has_byte ":" host then None
    else if has_byte "[" hostport || has_byte "]" hostport then None
    else Some host.

(** ** [ParseIP] *)

Definition ascii_Z (c : ascii) : Z := Z.of_nat (nat_of_ascii c).

Definition digit (c : ascii) : option Z :=
  let z := ascii_Z c in if (48 <=? z) && (z <=? 57) then Some (z - 48) else None.

Definition hex (c : ascii) : option Z :=
  let z := ascii_Z c in
  if (48 <=? z) && (z <=? 57) then Some (z - 48)
  else if (97 <=? z) && (z <=? 102) then Some (z - 87)
  else if (65 <=? z) && (z <=? 70) then Some (z - 55) else None.

Fixpoint fields (sep : ascii) (l : list ascii) : list (list ascii) :=
  match l with
  | [] => [[]]
  | c :: l =>
      match fields sep l with
      | f :: fs => if bool_decide (c = sep) then [] :: f :: fs else (c :: f) :: fs
      | [] => []
      end
  end.

(** A decimal field of at most 255, without a leading zero. *)
Definition octet (f : list ascii) : option Z :=
  match f with
  | [] => None
  | c :: rest =>
      if bool_decide (c = "0"%char) && negb (bool_decide (rest = [])) then None
      else
        ds ← mapM digit f;
        let v := foldl (λ a d, a * 10 + d) 0 ds in
        if v <=? 255 then Some v else None
  end.

Definition parse_v4 (s : list ascii) : option (list Z) :=
  match fields "." s with
  | [a; b; c; d] => a ← octet a; b ← octet b; c ← octet c; d ← octet d; Some [a; b; c; d]
  | _ => None
  end.

(** The leading hexadecimal digits and the rest. *)
Fixpoint hex_run (s : list ascii) : list Z * list ascii :=
  match s with
  | [] => ([], [])
  | c :: s' => match hex c with
               | Some d => let '(ds, rest) := hex_run s' in (d :: ds, rest)
               | None => ([], s)
               end
  end.

(** The loop of [netip.parseIPv6]: the octets so far, where "::" stood, and the
    text left when it stops.  Two octets a turn, so eight turns are enough. *)
Fixpoint v6_groups (fuel : nat) (ip : list Z) (ellipsis : option nat) (s : list ascii) :
    option (list Z * option nat * list ascii) :=
  match fuel with
  | O => Some (ip, ellipsis, s)
  | S fuel =>
      let '(ds, rest) := hex_run s in
      if bool_decide (ds = []) || (4 <? length ds)%nat then None
      else match rest with
           | "."%char :: _ =>
               if bool_decide (ellipsis = None) && negb (length ip =? 12)%nat then None
               else if (16 <? length ip + 4)%nat then None
               else v4 ← parse_v4 s; Some (ip ++ v4, ellipsis, [])
           | _ =>
               let acc := foldl (λ a d, a * 16 + d) 0 ds in
               let ip := ip ++ [acc / 256; acc `mod` 256] in
               match rest with
               | [] => Some (ip, ellipsis, [])
               | ":"%char :: [] => None
               | ":"%char :: ":"%char :: rest =>
                   if bool_decide (ellipsis ≠ None) then None
                   else match rest with
                        | [] => Some (ip, Some (length ip), [])
                        | _ => v6_groups fuel ip (Some (length ip)) rest
                        end
               | ":"%char :: rest => v6_groups fuel ip ellipsis rest
               | _ => None
               end
           end
  end.

(** The zeros the ellipsis stands for, at least one group of them. *)
Definition v6_expand (r : list Z * option nat * list ascii) : option (list Z) :=
  let '(ip, ellipsis, rest) := r in
  if negb (bool_decide (rest = [])) then None
  else match ellipsis with
       | None => if (length ip <? 16)%nat then None else Some ip
       | Some e => if (length ip <? 16)%nat
                   then Some (take e ip ++ replicate (16 - length ip) 0 ++ drop e ip) else None
       end.

Definition parse_v6 (s : list ascii) : option (list Z) :=
  match s with
  | ":"%char :: ":"%char :: [] => Some (replicate 16 0)
  | ":"%char :: ":"%char :: s => v6_groups 8 [] (Some O) s ≫= v6_expand
  | _ => v6_groups 8 [] None s ≫= v6_expand
  end.

(** The first "." or ":" tells the families apart; a zone is refused. *)
Fixpoint family (s : list ascii) : option ascii :=
  match s with
  | [] => None
  | c :: s => if bool_decide (c ∈ ["."; ":"; "%"]%char) then Some c else family s
  end.

Definition ParseIP (s : list ascii) : option (list Z) :=
  match family s with
  | Some "."%char => v4 ← parse_v4 s; Some (replicate 10 0 ++ [255; 255] ++ v4)
  | Some ":"%char => if has_byte "%" s then None else parse_v6 s
  | _ => None
  end.

Example parse_ips :
  ParseIP (chars "127.0.0.1") = Some (replicate 10 0 ++ [255; 255; 127; 0; 0; 1]) ∧
  ParseIP (chars "127.0.0.01") = None ∧ ParseIP (chars "1.2.3") = None ∧ ParseIP (chars "256.0.0.1") = None ∧
  ParseIP (chars "::1") = Some (replicate 15 0 ++ [1]) ∧ ParseIP (chars "::") = Some (replicate 16 0) ∧
  ParseIP (chars "2001:db8::7") = Some [32; 1; 13; 184; 0; 0; 0; 0; 0; 0; 0; 0; 0; 0; 0; 7] ∧
  ParseIP (chars "::ffff:10.0.0.1") = Some (replicate 10 0 ++ [255; 255; 10; 0; 0; 1]) ∧
  ParseIP (chars "1:2:3:4:5:6:7:8") = Some [0; 1; 0; 2; 0; 3; 0; 4; 0; 5; 0; 6; 0; 7; 0; 8] ∧
  ParseIP (chars "1::2::3") = None ∧ ParseIP (chars "1:2:3:4:5:6:7:8:9") = None ∧
  ParseIP (chars "fe80::1%eth0") = None ∧ ParseIP (chars "12345::") = None ∧ ParseIP (chars "node-1") = None.
Proof. by vm_compute. Qed.

(** ** The scheme of a URL *)

Definition is_letter (c : ascii) : bool :=
  let z := ascii_Z c in ((97 <=? z) && (z <=? 122)) || ((65 <=? z) && (z <=? 90)).

Definition lower (c : ascii) : ascii :=
  let z := ascii_Z c in if (65 <=? z) && (z <=? 90) then ascii_of_nat (Z.to_nat (z + 32)) else c.

(** [getScheme]: what stands before the first colon, none when another character
    comes first; a colon at the start is an error. *)
Fixpoint get_scheme (seen l : list ascii) : option (list ascii) :=
  match l with
  | [] => Some []
  | c :: l =>
      if is_letter c then get_scheme (seen ++ [c]) l
      else if bool_decide (is_Some (digit c)) || bool_decide (c ∈ ["+"; "-"; "."]%char) then
        if bool_decide (seen = []) then Some [] else get_scheme (seen ++ [c]) l
      else if bool_decide (c = ":"%char) then if bool_decide (seen = []) then None else Some (lower <$> seen)
      else Some []
  end.

Definition url_Scheme (u : string) : option (list ascii) :=
  let u := default [] (head (fields "#" (chars u))) in
  if existsb (λ c, (ascii_Z c <? 32) || (ascii_Z c =? 127)) u then None else get_scheme [] u.

Example schemes :
  url_Scheme "https://metadata:8443" = Some (chars "https") ∧ url_Scheme "HTTPS://x" = Some (chars "https") ∧
  url_Scheme "http://x" = Some (chars "http") ∧ url_Scheme "metadata:8443" = Some (chars "metadata") ∧
  url_Scheme "10.0.0.1:8443" = Some [] ∧ url_Scheme "://x" = None ∧ url_Scheme "" = Some [].
Proof. by vm_compute. Qed.
