(* ===== verification/Url.v ===== *)
(** * Query strings and path elements: what the clients and servers rely on of
      Go's [net/url] and [strconv]

    [QueryEscape], [PathEscape] and [QueryUnescape], the parsing of a query into
    pairs, the raw query of a URL that was put together by hand, and
    [strconv.Itoa] and [strconv.ParseInt] as they carry numbers in a query. *)

From S2P Require Import Prelude Files Net.
From Stdlib Require Import Ascii.

Abbreviation chrs := (list ascii).

(** ** Escaping *)

Definition unreserved (c : ascii) : bool :=
  is_letter c || bool_decide (is_Some (digit c)) || bool_decide (c ∈ ["-"; "_"; "."; "~"]%char).

Definition upper_hex (i : Z) : ascii := ascii_of_nat (Z.to_nat (if i <? 10 then 48 + i else 55 + i)).
Definition escape_byte (c : ascii) : chrs := ["%"%char; upper_hex (ascii_Z c / 16); upper_hex (ascii_Z c `mod` 16)].

Definition query_char (c : ascii) : chrs :=
  if unreserved c then [c] else if bool_decide (c = " "%char) then ["+"%char] else escape_byte c.
Definition QueryEscape (s : chrs) : chrs := s ≫= query_char.

(** In a path element, ["$&+:=@"] stay. *)
Definition path_char (c : ascii) : chrs :=
  if unreserved c || bool_decide (c ∈ ["$"; "&"; "+"; ":"; "="; "@"]%char) then [c] else escape_byte c.
Definition PathEscape (s : chrs) : chrs := s ≫= path_char.

(** [plus] is whether a plus sign stands for a space, as it does in a query. *)
Fixpoint unescape (plus : bool) (s : chrs) : option chrs :=
  match s with
  | [] => Some []
  | c :: s =>
      if bool_decide (c = "%"%char) then
        match s with
        | a :: b :: s =>
            x ← hex a; y ← hex b; rest ← unescape plus s;
            Some (ascii_of_nat (Z.to_nat (x * 16 + y)) :: rest)
        | _ => None
        end
      else
        rest ← unescape plus s;
        Some ((if plus && bool_decide (c = "+"%char) then " "%char else c) :: rest)
  end.
Definition QueryUnescape : chrs → option chrs := unescape true.
Definition PathUnescape : chrs → option chrs := unescape false.

(** ** Queries *)

(** [strings.Cut]: before and after the first [sep]. *)
Fixpoint cut_at (sep : ascii) (s : chrs) : chrs * option chrs :=
  match s with
  | [] => ([], None)
  | c :: s =>
      if bool_decide (c = sep) then ([], Some s)
      else let '(a, b) := cut_at sep s in (c :: a, b)
  end.

(** One pair of [parseQuery]: a semicolon or a bad escape drops it. *)
Definition query_pair (s : chrs) : option (chrs * chrs) :=
  if has_byte ";" s || bool_decide (s = []) then None
  else let '(k, v) := cut_at "=" s in
       k ← QueryUnescape k; v ← QueryUnescape (default [] v); Some (k, v).

Definition ParseQuery (q : chrs) : list (chrs * chrs) := omap query_pair (fields "&" q).

(** [Values.Get]: the first value of a key, empty when there is none. *)
Definition query_get (k : chrs) (q : list (chrs * chrs)) : chrs :=
  default [] (snd <$> List.find (λ p, bool_decide (p.1 = k)) q).

(** [Values.Encode] of pairs in the order of their keys. *)
Fixpoint join (sep : ascii) (l : list chrs) : chrs :=
  match l with
  | [] => []
  | [x] => x
  | x :: l => x ++ sep :: join sep l
  end.
Definition Encode (q : list (chrs * chrs)) : chrs :=
  join "&" ((λ p, QueryEscape p.1 ++ "="%char :: QueryEscape p.2) <$> q).

(** What arrives of a query pasted into a URL unescaped: [http.NewRequest]
    refuses control characters and cuts at a number sign, and a server cannot
    read a request line with a space in it. *)
Definition raw_query (q : chrs) : option chrs :=
  if existsb (λ c, (ascii_Z c <? 32) || (ascii_Z c =? 127)) q then None
  else let q := (cut_at "#" q).1 in if has_byte " " q then None else Some q.

(** ** Numbers *)

Definition digit_char (d : Z) : ascii := ascii_of_nat (Z.to_nat (48 + d)).

(** The digits of a natural number below [10 ^ fuel]. *)
Fixpoint digits (fuel : nat) (n : Z) (acc : chrs) : chrs :=
  match fuel with
  | O => acc
  | S fuel => if n <? 10 then digit_char n :: acc else digits fuel (n / 10) (digit_char (n `mod` 10) :: acc)
  end.

(** [strconv.Itoa] of an int64, which has at most 19 digits. *)
Definition Itoa (n : Z) : chrs := if n <? 0 then "-"%char :: digits 19 (- n) [] else digits 19 n [].

(** [strconv.ParseInt(s, 10, 64)]; [None] is an error. *)
Definition natural (s : chrs) : option Z :=
  match s with
  | [] => None
  | _ => foldl (λ a d, a * 10 + d) 0 <$> mapM digit s
  end.
Definition signed (s : chrs) : bool * chrs :=
  match s with
  | c :: s' => if bool_decide (c = "+"%char) then (false, s')
               else if bool_decide (c = "-"%char) then (true, s') else (false, s)
  | [] => (false, [])
  end.
Definition parse_int (s : chrs) : option Z :=
  let '(neg, ds) := signed s in
  n ← natural ds;
  let n := if neg : bool then - n else n in
  if (- 2^63 <=? n) && (n <? 2^63) then Some n else None.

(** ** Round trips *)

Lemma ascii_Z_range c : 0 ≤ ascii_Z c < 256.
Proof. unfold ascii_Z. pose proof (nat_ascii_bounded c). lia. Qed.

Lemma ascii_of_Z c : ascii_of_nat (Z.to_nat (ascii_Z c)) = c.
Proof. unfold ascii_Z. by rewrite Nat2Z.id, ascii_nat_embedding. Qed.

Lemma hex_upper i : 0 ≤ i < 16 → hex (upper_hex i) = Some i.
Proof.
  intros Hi.
  assert (forallb (λ i, bool_decide (hex (upper_hex i) = Some i)) (seqZ 0 16) = true) as Hall by by vm_compute.
  rewrite forallb_forall in Hall.
  specialize (Hall i (proj1 (list_elem_of_In _ _) (proj2 (elem_of_seqZ _ _ _) Hi))).
  by apply bool_decide_eq_true in Hall.
Qed.

Lemma unescape_escape plus c s : unescape plus (escape_byte c ++ s) = (c ::.) <$> unescape plus s.
Proof.
  unfold escape_byte. cbn [app unescape]. rewrite bool_decide_eq_true_2 by done. pose proof (ascii_Z_range c).
  rewrite !hex_upper by (try apply Z.mod_pos_bound; Z.div_mod_to_equations; lia). cbn [mbind option_bind].
  replace (ascii_Z c / 16 * 16 + ascii_Z c `mod` 16) with (ascii_Z c) by (Z.div_mod_to_equations; lia).
  rewrite ascii_of_Z. by destruct (unescape plus s).
Qed.

Lemma unescape_plain plus c s :
  c ≠ "%"%char → (plus = true → c ≠ "+"%char) → unescape plus (c :: s) = (c ::.) <$> unescape plus s.
Proof.
  intros Hp Hc. cbn [unescape]. rewrite bool_decide_eq_false_2 by done.
  assert (plus && bool_decide (c = "+"%char) = false) as ->.
  { destruct plus; [|done]. rewrite bool_decide_eq_false_2; [done|auto]. }
  by destruct (unescape plus s).
Qed.

Lemma unreserved_plain c : unreserved c = true → c ≠ "%"%char ∧ c ≠ "+"%char.
Proof. intros H. split; intros ->; by vm_compute in H. Qed.

(** What is escaped for a query reads back. *)
Lemma QueryUnescape_QueryEscape s : QueryUnescape (QueryEscape s) = Some s.
Proof.
  unfold QueryUnescape. induction s as [|c s IH]; [done|].
  change (QueryEscape (c :: s)) with (query_char c ++ QueryEscape s). unfold query_char.
  destruct (unreserved c) eqn:Hu.
  { apply unreserved_plain in Hu as [??]. cbn [app]. by rewrite unescape_plain, IH. }
  case_bool_decide as Hc; [|by rewrite unescape_escape, IH].
  subst. cbn [app unescape]. by rewrite IH.
Qed.

(** What is escaped for a path reads back. *)
Lemma PathUnescape_PathEscape s : PathUnescape (PathEscape s) = Some s.
Proof.
  unfold PathUnescape. induction s as [|c s IH]; [done|].
  change (PathEscape (c :: s)) with (path_char c ++ PathEscape s). unfold path_char.
  destruct (unreserved c || _) eqn:Hu; [|by rewrite unescape_escape, IH].
  cbn [app]. rewrite unescape_plain, IH; [done| |done]. intros ->. by vm_compute in Hu.
Qed.

Lemma hex_char_plain i : 0 ≤ i < 16 → upper_hex i ∉ ["&"; "="; ";"; "#"; " "]%char.
Proof.
  intros Hi.
  assert (forallb (λ i, bool_decide (upper_hex i ∉ ["&"; "="; ";"; "#"; " "]%char)) (seqZ 0 16) = true)
    as Hall by by vm_compute.
  rewrite forallb_forall in Hall.
  specialize (Hall i (proj1 (list_elem_of_In _ _) (proj2 (elem_of_seqZ _ _ _) Hi))).
  by apply bool_decide_eq_true in Hall.
Qed.

(** An escaped text has none of the characters that structure a query. *)
Lemma QueryEscape_plain s c : c ∈ QueryEscape s → c ∉ ["&"; "="; ";"; "#"; " "]%char.
Proof.
  unfold QueryEscape. intros (x&Hc&_)%list_elem_of_bind. revert Hc. unfold query_char.
  destruct (unreserved x) eqn:Hu.
  { intros ->%list_elem_of_singleton Hin. repeat (apply elem_of_cons in Hin as [->|Hin]; [by vm_compute in Hu|]).
    by apply not_elem_of_nil in Hin. }
  case_bool_decide; [intros ->%list_elem_of_singleton; by apply (bool_decide_unpack _)|].
  unfold escape_byte. pose proof (ascii_Z_range x).
  intros [->|[->|[->|[]%elem_of_nil]%elem_of_cons]%elem_of_cons]%elem_of_cons;
    [by apply (bool_decide_unpack _)| |]; apply hex_char_plain; (try apply Z.mod_pos_bound); Z.div_mod_to_equations; lia.
Qed.

Lemma index_byte_none c l : c ∉ l → index_byte c l = None.
Proof.
  induction l as [|x l IH]; [done|]. intros [Hne Hl]%not_elem_of_cons. cbn.
  rewrite bool_decide_eq_false_2 by congruence. by rewrite IH.
Qed.
Lemma has_byte_false c l : c ∉ l → has_byte c l = false.
Proof. intros H. unfold has_byte. rewrite index_byte_none by done. by apply bool_decide_eq_false_2; intros []. Qed.

Lemma cut_at_app sep a b : sep ∉ a → cut_at sep (a ++ sep :: b) = (a, Some b).
Proof.
  induction a as [|x a IH]; cbn.
  - by rewrite bool_decide_eq_true_2.
  - intros [Hne Ha]%not_elem_of_cons. rewrite bool_decide_eq_false_2 by congruence. by rewrite IH.
Qed.
Lemma cut_at_none sep a : sep ∉ a → cut_at sep a = (a, None).
Proof.
  induction a as [|x a IH]; [done|]. cbn. intros [Hne Ha]%not_elem_of_cons.
  rewrite bool_decide_eq_false_2 by congruence. by rewrite IH.
Qed.

Lemma fields_plain sep a : sep ∉ a → fields sep a = [a].
Proof.
  induction a as [|x a IH]; [done|]. cbn. intros [Hne Ha]%not_elem_of_cons. rewrite IH by done.
  by rewrite bool_decide_eq_false_2 by congruence.
Qed.
Lemma fields_app sep a b : sep ∉ a → fields sep (a ++ sep :: b) = a :: fields sep b.
Proof.
  assert (∀ l, fields sep l ≠ []) as Hne.
  { induction l as [|c l IHl]; [done|]. cbn. destruct (fields sep l); [done|]. by case_bool_decide. }
  induction a as [|x a IH]; cbn; intros Ha.
  - specialize (Hne b). destruct (fields sep b); [done|]. by rewrite bool_decide_eq_true_2.
  - apply not_elem_of_cons in Ha as [Hx Ha]. rewrite IH by done. by rewrite bool_decide_eq_false_2 by congruence.
Qed.
Lemma fields_join sep l : l ≠ [] → (∀ x, x ∈ l → sep ∉ x) → fields sep (join sep l) = l.
Proof.
  induction l as [|x l IH]; [done|]. intros _ Hl. destruct l as [|y l].
  - cbn. apply fields_plain, Hl. by left.
  - change (join sep (x :: y :: l)) with (x ++ sep :: join sep (y :: l)).
    rewrite fields_app by (apply Hl; by left). rewrite IH; [done..|]. intros z Hz. apply Hl. by right.
Qed.

(** A server finds in a query what a client encoded into it. *)
Lemma ParseQuery_Encode q : ParseQuery (Encode q) = q.
Proof.
  destruct (decide (q = [])) as [->|Hne]; [done|].
  assert (∀ k v c, c ∈ QueryEscape k ++ "="%char :: QueryEscape v → c ∉ ["&"; ";"]%char) as Hplain.
  { intros k v c [Hc|[->|Hc]%elem_of_cons]%elem_of_app; [|by apply (bool_decide_unpack _)|]; apply QueryEscape_plain in Hc;
      rewrite !not_elem_of_cons in *; naive_solver. }
  unfold ParseQuery, Encode. rewrite fields_join.
  - clear Hne. induction q as [|[k v] q IH]; [done|]. cbn [fmap list_fmap omap list_omap fst snd].
    assert (query_pair (QueryEscape k ++ "="%char :: QueryEscape v) = Some (k, v)) as Hpair.
    { unfold query_pair. rewrite has_byte_false by (intros Hc; apply Hplain in Hc; rewrite !not_elem_of_cons in Hc; naive_solver).
      rewrite bool_decide_eq_false_2 by (by destruct (QueryEscape k)). cbn [orb].
      rewrite cut_at_app by (intros Hc; apply QueryEscape_plain in Hc; rewrite !not_elem_of_cons in Hc; naive_solver). cbn [from_option id].
      by rewrite !QueryUnescape_QueryEscape. }
    rewrite Hpair. by f_equal.
  - by destruct q.
  - intros x ([k v]&->&_)%list_elem_of_fmap Hx. apply Hplain in Hx. rewrite !not_elem_of_cons in Hx. naive_solver.
Qed.

Lemma digit_digit_char d : 0 ≤ d < 10 → digit (digit_char d) = Some d.
Proof.
  intros Hd.
  assert (forallb (λ d, bool_decide (digit (digit_char d) = Some d)) (seqZ 0 10) = true) as Hall by by vm_compute.
  rewrite forallb_forall in Hall.
  specialize (Hall d (proj1 (list_elem_of_In _ _) (proj2 (elem_of_seqZ _ _ _) Hd))).
  by apply bool_decide_eq_true in Hall.
Qed.

Lemma digits_value fuel n acc : 0 ≤ n < 10 ^ Z.of_nat fuel → (0 < fuel)%nat →
  ∃ ds, digits fuel n acc = (digit_char <$> ds) ++ acc ∧ ds ≠ [] ∧ Forall (λ d, 0 ≤ d < 10) ds ∧
        foldl (λ a d, a * 10 + d) 0 ds = n.
Proof.
  revert n acc. induction fuel as [|fuel IH]; intros n acc Hn Hf; [lia|]. cbn [digits].
  destruct (Z.ltb_spec n 10) as [Hlt|Hge].
  { exists [n]. split_and!; [done..| |cbn; lia]. constructor; [lia|done]. }
  rewrite Nat2Z.inj_succ, Z.pow_succ_r in Hn by lia.
  destruct fuel as [|fuel]; [cbn in Hn; lia|].
  destruct (IH (n / 10) (digit_char (n `mod` 10) :: acc)) as (ds&->&Hne&Hds&Hval); [|lia|].
  { split; [apply Z.div_pos; lia|]. apply Z.div_lt_upper_bound; lia. }
  pose proof (Z.mod_pos_bound n 10). exists (ds ++ [n `mod` 10]). split_and!.
  - by rewrite fmap_app, <- app_assoc.
  - by destruct ds.
  - apply Forall_app. split; [done|]. constructor; [lia|done].
  - rewrite foldl_app, Hval. cbn. Z.div_mod_to_equations; lia.
Qed.

(** What [Itoa] writes, [ParseInt] reads. *)
Lemma parse_int_Itoa n : - 2^63 ≤ n < 2^63 → parse_int (Itoa n) = Some n.
Proof.
  intros Hn. destruct (digits_value 19 (Z.abs n) []) as (ds&Hd&Hne&Hds&Hval); [cbn; lia|lia|].
  rewrite app_nil_r in Hd.
  assert (natural (digit_char <$> ds) = Some (Z.abs n)) as Hnat.
  { unfold natural. rewrite (proj2 (mapM_Some _ _ ds)).
    - cbn. rewrite Hval. by destruct ds.
    - apply Forall2_fmap_l, Forall_Forall2_diag. eapply Forall_impl; [exact Hds|]. apply digit_digit_char. }
  assert ((- 2^63 <=? n) && (n <? 2^63) = true) as Hr
    by (apply andb_true_iff; split; [apply Z.leb_le|apply Z.ltb_lt]; lia).
  unfold parse_int, Itoa. destruct (Z.ltb_spec n 0).
  - replace (- n) with (Z.abs n) by lia. rewrite Hd. cbn [signed]. rewrite bool_decide_eq_false_2, bool_decide_eq_true_2, Hnat by done. cbn [mbind option_bind].
    replace (- Z.abs n) with n by lia. by rewrite Hr.
  - replace n with (Z.abs n) at 1 by lia. rewrite Hd.
    destruct ds as [|d ds]; [done|]. inversion Hds as [|?? Hd0]; subst.
    assert (digit_char d ≠ "+"%char ∧ digit_char d ≠ "-"%char) as [Hplus Hminus].
    { split; intros Heq; pose proof (digit_digit_char d Hd0) as Hdd; rewrite Heq in Hdd; by vm_compute in Hdd. }
    cbn [fmap list_fmap signed] in *. rewrite !bool_decide_eq_false_2 by done.
    rewrite Hnat. cbn [mbind option_bind]. replace (Z.abs n) with n by lia. by rewrite Hr.
Qed.

(** A path pasted into a query: some characters end it, some change it. *)
Example pasted :
  let arrives p := query_get (chars "prefix") <$> (ParseQuery <$> raw_query (chars "bucket_id=b&prefix=" ++ chars p)) in
  arrives "/a/b.txt" = Some (chars "/a/b.txt") ∧ arrives "/a+b" = Some (chars "/a b") ∧
  arrives "/R&D" = Some (chars "/R") ∧ arrives "/a#1" = Some (chars "/a") ∧ arrives "/100%" = Some [] ∧
  arrives "/a%2Fb" = Some (chars "/a/b") ∧ arrives "/a b" = None.
Proof. by vm_compute. Qed.

(** Unreserved characters need no escape. *)
Lemma unescape_unreserved plus s : Forall (λ c, unreserved c = true) s → unescape plus s = Some s.
Proof.
  induction 1 as [|c s Hc _ IH]; [done|]. apply unreserved_plain in Hc as [??]. by rewrite unescape_plain, IH.
Qed.

Lemma unreserved_not c s : unreserved c = false → Forall (λ c, unreserved c = true) s → c ∉ s.
Proof. intros Hc Hs Hin. rewrite Forall_forall in Hs. apply Hs in Hin. congruence. Qed.

Lemma cut_at_keep sep a b : sep ∉ a → (cut_at sep (a ++ b)).1 = a ++ (cut_at sep b).1.
Proof.
  induction a as [|x a IH]; [done|]. cbn. intros [Hne Ha]%not_elem_of_cons.
  rewrite bool_decide_eq_false_2 by congruence. specialize (IH Ha). by destruct (cut_at sep (a ++ b)); cbn in *; f_equal.
Qed.

(** The first pair of a pasted query survives, whatever is pasted after it. *)
Lemma raw_query_first k v more q :
  Forall (λ c, unreserved c = true) k → Forall (λ c, unreserved c = true) v →
  raw_query (k ++ "="%char :: v ++ "&"%char :: more) = Some q → query_get k (ParseQuery q) = v.
Proof.
  intros Hk Hv Hq. unfold raw_query in Hq. case_if_in Hq; [done|]. case_if_in Hq; [done|].
  assert (∃ rest, q = (k ++ "="%char :: v) ++ "&"%char :: rest) as [rest ->].
  { injection Hq as <-. change ("="%char :: v ++ "&"%char :: more) with (["="%char] ++ v ++ ["&"%char] ++ more).
    rewrite !app_assoc, cut_at_keep.
    - exists (cut_at "#" more).1. by rewrite <- !app_assoc.
    - rewrite !not_elem_of_app, !not_elem_of_cons.
      pose proof (unreserved_not "#" k eq_refl Hk). pose proof (unreserved_not "#" v eq_refl Hv).
      repeat split; try done; apply not_elem_of_nil. }
  clear Hq. pose proof (unreserved_not "&" k eq_refl Hk). pose proof (unreserved_not "&" v eq_refl Hv).
  pose proof (unreserved_not ";" k eq_refl Hk). pose proof (unreserved_not ";" v eq_refl Hv).
  unfold ParseQuery. rewrite fields_app by (by rewrite not_elem_of_app, not_elem_of_cons).
  cbn [omap list_omap]. assert (query_pair (k ++ "="%char :: v) = Some (k, v)) as ->.
  { unfold query_pair. rewrite has_byte_false by (by rewrite not_elem_of_app, not_elem_of_cons).
    rewrite bool_decide_eq_false_2 by (by destruct k). cbn [orb].
    rewrite cut_at_app by (by apply (unreserved_not "=" k eq_refl)). cbn [from_option id].
    unfold QueryUnescape. by rewrite !unescape_unreserved. }
  unfold query_get. cbn [List.find]. by rewrite bool_decide_eq_true_2.
Qed.
