(* ===== verification/Listings.v ===== *)
(** * Listings: [ListFiles], [ListBuckets] and [ListNodeStats] of
      [src/internal/store/files.go], [buckets.go] and [stats.go]

    Text columns compare byte by byte (the C collation).  A file listing is
    cut into pages by the path of the last row. *)

From S2P Require Import Prelude GoFloat Schema Files.
From Stdlib Require Import Ascii.

Definition path_key (s : string) : list Z := (λ c, Z.of_nat (nat_of_ascii c)) <$> chars s.

(** [a > b] *)
Definition path_above (a b : string) : bool := negb (lex_leb (path_key a) (path_key b)).

(** [$3 = '' OR f.path = $4 OR f.path LIKE $5] *)
Definition under_prefix (prefix path : string) : bool :=
  bool_decide (prefix = ""%string) || in_subtree prefix path.

Definition listed (bucket : uuid) (prefix : string) (f : File) : bool :=
  bool_decide (f_BucketID f = bucket) && bool_decide (f_DeletedAt f = None) && under_prefix prefix (f_Path f).

Definition clamp_limit (limit : Z) : nat :=
  Z.to_nat (if limit <=? 0 then 100 else if 1000 <? limit then 1000 else limit).

(** The page and the cursor of the next one, empty when there is none. *)
Definition ListFiles (owner bucket : uuid) (prefix cursor : string) (limit : Z) :
    store (list File * string) :=
  BucketByID owner bucket ≫= λ _,
  gets (λ d,
    let limit := clamp_limit limit in
    let rows := take (S limit) (order_by (λ f, path_key (f_Path f))
      (filter (λ f, listed bucket prefix f && path_above (f_Path f) cursor = true) (db_files d))) in
    if (limit <? length rows)%nat then
      let out := take limit rows in (out, default ""%string (f_Path <$> last out))
    else (rows, ""%string)).

(** A client that follows the cursors; [fuel] pages at most. *)
Fixpoint list_all (fuel : nat) (owner bucket : uuid) (prefix cursor : string) (limit : Z) :
    store (list File) :=
  match fuel with
  | O => mret []
  | S fuel =>
      '(page, next) ← ListFiles owner bucket prefix cursor limit;
      if bool_decide (next = ""%string) then mret page
      else rest ← list_all fuel owner bucket prefix next limit; mret (page ++ rest)
  end.

Definition ListBuckets (owner : uuid) (d : DB) : list Bucket :=
  order_by (λ b, path_key (b_Name b)) (filter (λ b, b_OwnerID b = owner) (db_buckets d)).

(** [COALESCE(column, 0)] of the nullable columns is what the reader shows. *)
Definition coalesced (r : NodeStats) : NodeStats :=
  MkNodeStats (ns_NodeID r) (ns_WindowStart r) (ns_UptimeRatio r)
    (Some (default F32.zero (ns_AvgLatencyMS r))) (Some (default 0 (ns_FreeBytes r)))
    (Some (default F32.zero (ns_CPULoad r))) (Some (default F32.zero (ns_MemUsedRatio r)))
    (ns_AuditsPassed r) (ns_AuditsFailed r) (ns_BytesServed r) (ns_BytesIngested r).

Definition ListNodeStats (node : uuid) (from to : Z) (d : DB) : list NodeStats :=
  coalesced <$> order_by (λ r, [ns_WindowStart r])
    (filter (λ r, ns_NodeID r = node ∧ from ≤ ns_WindowStart r ∧ ns_WindowStart r < to) (db_node_stats d)).

(** ** Sorted rows *)

Lemma lex_leb_antisym a b : lex_leb a b = true → lex_leb b a = true → a = b.
Proof.
  revert b. induction a as [|x a IH]; intros [|y b]; simpl; try done.
  rewrite !orb_true_iff, !andb_true_iff, !Z.ltb_lt, !Z.eqb_eq.
  intros [?|[-> H1]] [?|[? H2]]; try lia. f_equal. by apply IH.
Qed.

Lemma path_key_inj a b : path_key a = path_key b → a = b.
Proof.
  unfold path_key, chars. intros H.
  rewrite <- (String.string_of_list_ascii_of_string a), <- (String.string_of_list_ascii_of_string b).
  f_equal. revert H. generalize (String.list_ascii_of_string a) (String.list_ascii_of_string b).
  induction l as [|x l IH]; intros [|y l']; try done. cbn. intros [= Hx Hl].
  f_equal; [|by apply IH]. apply Nat2Z.inj in Hx.
  by rewrite <- (ascii_nat_embedding x), <- (ascii_nat_embedding y), Hx.
Qed.

(** Rows with different keys have one sorted order. *)
Lemma order_by_unique {A} (key : A → list Z) (l l' : list A) :
  l ≡ₚ l' → (∀ x y, x ∈ l → y ∈ l → key x = key y → x = y) → StronglySorted (key_le key) l' →
  order_by key l = l'.
Proof.
  intros Hp Hinj Hs. apply (StronglySorted_unique_strong (key_le key)).
  - intros x y Hx Hy H1 H2. apply Hinj; [by apply elem_of_order_by in Hx|by rewrite Hp|].
    by apply lex_leb_antisym.
  - apply order_by_sorted.
  - done.
  - by rewrite order_by_perm.
Qed.

Lemma StronglySorted_filter {A} (R : A → A → Prop) (P : A → Prop) `{∀ x, Decision (P x)} l :
  StronglySorted R l → StronglySorted R (filter P l).
Proof.
  induction 1 as [|x l Hs IH Hall]; [constructor|]. rewrite filter_cons. destruct (decide _); [|done].
  constructor; [done|]. rewrite Forall_forall in *. intros y [_ Hy]%list_elem_of_filter. auto.
Qed.

Section paging.
Context (owner bucket : uuid) (prefix : string) (limit : Z) (d : DB).

(** All the files a listing is about, in order. *)
Definition scan_files : list File :=
  order_by (λ f, path_key (f_Path f)) (filter (λ f, listed bucket prefix f = true) (db_files d)).

(** The live paths of a bucket are unique ([files_bucket_path_live]) and not empty. *)
Definition live_paths_ok : Prop :=
  NoDup (f_Path <$> filter (λ f, f_BucketID f = bucket ∧ f_DeletedAt f = None) (db_files d)) ∧
  ∀ f, f ∈ db_files d → f_Path f ≠ ""%string.

Context (Hok : live_paths_ok).

Lemma listed_live :
  filter (λ f, listed bucket prefix f = true) (db_files d) =
  filter (λ f, under_prefix prefix (f_Path f) = true)
    (filter (λ f, f_BucketID f = bucket ∧ f_DeletedAt f = None) (db_files d)).
Proof.
  rewrite list_filter_filter. apply list_filter_iff. intros f. unfold listed.
  rewrite !andb_true_iff, !bool_decide_eq_true. tauto.
Qed.

Lemma scan_paths : NoDup (f_Path <$> scan_files).
Proof.
  unfold scan_files. rewrite order_by_perm, listed_live. destruct Hok as [Hnd _].
  eapply sublist_NoDup; [exact Hnd|]. apply fmap_sublist, sublist_filter.
Qed.

Lemma scan_unique f g : f ∈ scan_files → g ∈ scan_files → f_Path f = f_Path g → f = g.
Proof.
  intros [i Hi]%list_elem_of_lookup [j Hj]%list_elem_of_lookup Heq.
  assert (i = j) as ->; [|congruence].
  apply (NoDup_lookup (f_Path <$> scan_files) i j (f_Path f) scan_paths);
    rewrite list_lookup_fmap, ?Hi, ?Hj; cbn; congruence.
Qed.

Lemma rows_above cursor :
  order_by (λ f, path_key (f_Path f))
    (filter (λ f, listed bucket prefix f && path_above (f_Path f) cursor = true) (db_files d)) =
  filter (λ f, path_above (f_Path f) cursor = true) scan_files.
Proof.
  assert (∀ f, f ∈ db_files d → listed bucket prefix f = true → f ∈ scan_files) as Hin.
  { intros f Hf Hl. unfold scan_files. by rewrite elem_of_order_by, list_elem_of_filter. }
  apply order_by_unique.
  - unfold scan_files. rewrite order_by_perm, list_filter_filter.
    erewrite list_filter_iff; [reflexivity|]. intros f. cbv beta. rewrite andb_true_iff. tauto.
  - intros x y [[Hx _]%andb_true_iff Hxd]%list_elem_of_filter [[Hy _]%andb_true_iff Hyd]%list_elem_of_filter Hk.
    apply scan_unique; auto. by apply path_key_inj.
  - apply StronglySorted_filter, order_by_sorted.
Qed.

(** The rows above a row of the listing are those after it. *)
Lemma above_row pre f post :
  scan_files = pre ++ f :: post → filter (λ g, path_above (f_Path g) (f_Path f) = true) scan_files = post.
Proof.
  intros Heq. pose proof (order_by_sorted (λ f, path_key (f_Path f))
    (filter (λ f, listed bucket prefix f = true) (db_files d))) as Hs.
  change (order_by _ _) with scan_files in Hs. pose proof scan_paths as Hnd. rewrite Heq in Hs, Hnd |- *.
  rewrite filter_app, filter_cons.
  assert (∀ g, g ∈ pre → path_above (f_Path g) (f_Path f) = false) as Hpre.
  { intros g Hg. unfold path_above. apply negb_false_iff.
    apply (StronglySorted_app_1_elem_of _ _ _ g f Hs Hg). left. }
  rewrite decide_False.
  2: { unfold path_above. destruct (lex_leb_total (path_key (f_Path f)) (path_key (f_Path f))) as [->| ->]; done. }
  rewrite (filter_none _ pre) by (intros g Hg; by rewrite Hpre).
  cbn [app]. apply filter_all. intros g Hg. unfold path_above. apply negb_true_iff.
  destruct (lex_leb (path_key (f_Path g)) (path_key (f_Path f))) eqn:Hle; [|done]. exfalso.
  rewrite fmap_app, fmap_cons in Hnd. apply NoDup_app in Hnd as (_&_&Hnd). apply NoDup_cons in Hnd as [Hni _].
  apply Hni. apply list_elem_of_fmap. exists g. split; [|done]. apply path_key_inj, lex_leb_antisym; [|done].
  apply StronglySorted_app_1_r in Hs. apply StronglySorted_inv in Hs as [_ Hall].
  rewrite Forall_forall in Hall. by apply Hall.
Qed.
Lemma clamp_limit_pos : (0 < clamp_limit limit)%nat.
Proof. unfold clamp_limit. destruct (Z.leb_spec limit 0); [lia|]. destruct (Z.ltb_spec 1000 limit); lia. Qed.

Lemma page cursor b rest :
  BucketByID owner bucket d = (Ok b, d) →
  filter (λ f, path_above (f_Path f) cursor = true) scan_files = rest →
  let n := clamp_limit limit in
  ListFiles owner bucket prefix cursor limit d =
    (Ok (take n rest, if (n <? length rest)%nat then default ""%string (f_Path <$> last (take n rest))
                      else ""%string), d).
Proof.
  intros Hb Hrest n. unfold ListFiles. rewrite (bind_run _ _ _ _ _ Hb). unfold gets.
  rewrite rows_above, Hrest. fold n. rewrite length_take, take_take.
  destruct (Nat.ltb_spec n (length rest)) as [Hlt|Hge].
  - rewrite (proj2 (Nat.ltb_lt _ _)) by lia. by rewrite Nat.min_l by lia.
  - rewrite (proj2 (Nat.ltb_ge _ _)) by lia. by rewrite !take_ge by lia.
Qed.

Lemma list_from fuel cursor b pre rest :
  BucketByID owner bucket d = (Ok b, d) → scan_files = pre ++ rest →
  filter (λ f, path_above (f_Path f) cursor = true) scan_files = rest → (length rest < fuel)%nat →
  list_all fuel owner bucket prefix cursor limit d = (Ok rest, d).
Proof.
  intros Hb. revert cursor pre rest. induction fuel as [|fuel IH]; intros cursor pre rest Hscan Hrest Hf; [lia|].
  cbn [list_all]. rewrite (bind_run _ _ _ _ _ (page cursor b rest Hb Hrest)).
  pose proof clamp_limit_pos as Hn. set (n := clamp_limit limit) in *.
  destruct (Nat.ltb_spec n (length rest)) as [Hlt|Hge].
  2: { rewrite bool_decide_eq_true_2 by done. by rewrite take_ge by lia. }
  destruct (lookup_lt_is_Some_2 rest (pred n)) as [f Hfl]; [lia|].
  assert (last (take n rest) = Some f) as ->.
  { rewrite last_lookup, length_take, Nat.min_l by lia. rewrite lookup_take_lt by lia. done. }
  assert (f ∈ db_files d) as Hin.
  { assert (f ∈ scan_files) as Hs by (rewrite Hscan, elem_of_app; right; by eapply list_elem_of_lookup_2).
    unfold scan_files in Hs. by apply elem_of_order_by, list_elem_of_filter in Hs as [_ ?]. }
  cbn [fmap option_fmap option_map default from_option id].
  rewrite bool_decide_eq_false_2 by (by apply (proj2 Hok)).
  assert (rest = take (pred n) rest ++ f :: drop n rest) as Hsplit.
  { replace n with (S (pred n)) at 2 by lia. symmetry. by apply take_drop_middle. }
  rewrite (bind_run _ _ d (drop n rest) d); [by cbn; rewrite take_drop|].
  apply (IH (f_Path f) (pre ++ take n rest) (drop n rest)).
  - by rewrite <- app_assoc, take_drop.
  - apply (above_row (pre ++ take (pred n) rest)). rewrite <- app_assoc. by rewrite <- Hsplit.
  - rewrite length_drop. lia.
Qed.
End paging.


(** A listing under the root prefix is empty: it looks for paths that start
    with two slashes. *)
Example root_prefix_lists_nothing :
  let f := MkFile (Uuid 9) (Uuid 8) "/a" false None FActive 0 0 None in
  let d := upd_db_files (λ _, [f]) (upd_db_buckets (λ _, [MkBucket (Uuid 8) (Uuid 7) "b"]) db_empty) in
  (ListFiles (Uuid 7) (Uuid 8) "/" "" 0 d).1 = Ok ([], ""%string) ∧
  (ListFiles (Uuid 7) (Uuid 8) "" "" 0 d).1 = Ok ([f], ""%string).
Proof. by vm_compute. Qed.
