(* ===== verification/Uploads.v ===== *)
(** * Uploads and downloads: [src/internal/store/uploads.go]

    Planning, resuming, aborting and committing a file version, and the map a
    download reads.  [tx.Begin] … [tx.Commit] is [transaction]. *)

From S2P Require Import Prelude GoFloat Schema Nodes Placements Files.

Record ManifestFragment := MkManifestFragment {
  mf_ShardIndex : Z; mf_SizeBytes : Z; mf_SHA256 : bytes }.
Record ManifestChunk := MkManifestChunk {
  mc_Seq : Z; mc_SizeBytes : Z; mc_SHA256 : bytes; mc_Fragments : list ManifestFragment }.
Record UploadManifest := MkManifest {
  m_BucketID : uuid; m_Path : string; m_SizeBytes : Z; m_ContentSHA256 : bytes;
  m_EncryptionMeta : bytes; m_ChunkSize : Z; m_ECData : Z; m_ECParity : Z;
  m_Chunks : list ManifestChunk }.

Record PlannedFragment := MkPlanned {
  pf_ChunkSeq : Z; pf_ShardIndex : Z; pf_Fragment : Fragment; pf_Chunk : Chunk;
  pf_Placement : option Placement }.
Record PlannedUpload := MkPlannedUpload {
  pu_File : File; pu_Version : FileVersion; pu_Resume : bool;
  pu_Pending : list PlannedFragment; pu_Stored : list PlannedFragment }.

(** ** Planning *)

(** [FROM chunks c JOIN fragments fr … LEFT JOIN fragment_placements p …
    WHERE c.version_id = $1 ORDER BY c.seq, fr.shard_index] *)
Definition planned_rows (d : DB) (version : uuid) : list PlannedFragment :=
  order_by (λ r, [pf_ChunkSeq r; pf_ShardIndex r])
    (c ← filter (λ c, c_VersionID c = version) (db_chunks d);
     fr ← filter (λ fr, fr_ChunkID fr = c_ID c) (db_fragments d);
     match filter (λ p, pl_FragmentID p = fr_ID fr ∧ live_placement p = true)
             (db_placements d) with
     | [] => [MkPlanned (c_Seq c) (fr_ShardIndex fr) fr c None]
     | ps => (λ p, MkPlanned (c_Seq c) (fr_ShardIndex fr) fr c (Some p)) <$> ps
     end).

Definition row_stored (r : PlannedFragment) : bool :=
  match pf_Placement r with Some p => bool_decide (pl_Status p = PStored) | None => false end.

Definition loadPlanned (f : File) (v : FileVersion) (resume : bool) (d : DB) : PlannedUpload :=
  let rows := planned_rows d (v_ID v) in
  MkPlannedUpload f v resume
    (filter (λ r, row_stored r = false) rows) (filter (λ r, row_stored r = true) rows).

Definition live_file_at (bucket : uuid) (path : string) (f : File) : bool :=
  bool_decide (f_BucketID f = bucket) && bool_decide (f_Path f = path) &&
  bool_decide (f_DeletedAt f = None).

Definition newest_pending (file : uuid) (d : DB) : option FileVersion :=
  head (order_by (λ v, [- v_VersionNo v])
          (filter (λ v, v_FileID v = file ∧ v_Status v = VPending) (db_versions d))).

Definition insert_file (now : Z) (bucket : uuid) (path : string) : store File := λ d,
  let '(id, d) := gen_uuid d in
  let f := MkFile id bucket path false None FUploading now now None in
  if existsb (live_file_at bucket path) (db_files d)
  then (Err (mapQueryErr PgUniqueViolation), d)
  else (Ok f, upd_db_files (λ t, t ++ [f]) d).

(** [COALESCE(MAX(version_no), 0) + 1] *)
Definition next_version_no (file : uuid) (d : DB) : Z :=
  1 + foldr Z.max 0 (v_VersionNo <$> filter (λ v, v_FileID v = file) (db_versions d)).

Definition insert_version (now : Z) (m : UploadManifest) (ecData : Z) (file : uuid) :
    store FileVersion := λ d,
  let '(id, d) := gen_uuid d in
  let v := MkFileVersion id file (next_version_no file d) (m_SizeBytes m)
             (m_ContentSHA256 m) (m_EncryptionMeta m) (m_ChunkSize m) ecData
             (m_ECParity m) VPending now None in
  (Ok v, upd_db_versions (λ t, t ++ [v]) d).

Definition insert_chunk (version : uuid) (ch : ManifestChunk) : store Chunk := λ d,
  let '(id, d) := gen_uuid d in
  let c := MkChunk id version (mc_Seq ch) (mc_SizeBytes ch) (mc_SHA256 ch) in
  if existsb (λ c, bool_decide (c_VersionID c = version) && bool_decide (c_Seq c = mc_Seq ch))
       (db_chunks d)
  then (Err (mapQueryErr PgUniqueViolation), d)
  else (Ok c, upd_db_chunks (λ t, t ++ [c]) d).

Definition insert_fragment (chunk : uuid) (fr : ManifestFragment) : store unit := λ d,
  let '(id, d) := gen_uuid d in
  let r := MkFragment id chunk (mf_ShardIndex fr) (mf_SizeBytes fr) (mf_SHA256 fr) in
  if existsb (λ x, bool_decide (fr_ChunkID x = chunk) &&
                   bool_decide (fr_ShardIndex x = mf_ShardIndex fr)) (db_fragments d)
  then (Err (mapQueryErr PgUniqueViolation), d)
  else (Ok tt, upd_db_fragments (λ t, t ++ [r]) d).

Definition insert_manifest_chunk (version : uuid) (ch : ManifestChunk) : store unit :=
  c ← insert_chunk version ch;
  guard_err (bool_decide (mc_Fragments ch = [])) EInvalid ≫= λ _,
  for_each (insert_fragment (c_ID c)) (mc_Fragments ch).

(** A new pending version of [f] with all its chunk and fragment rows. *)
Definition insert_plan (now : Z) (m : UploadManifest) (ecData : Z) (f : File) :
    store PlannedUpload :=
  v ← insert_version now m ecData (f_ID f);
  for_each (insert_manifest_chunk (v_ID v)) (m_Chunks m) ≫= λ _,
  gets (loadPlanned f v false).

Definition BeginUpload (now : Z) (owner : uuid) (m : UploadManifest) : store PlannedUpload :=
  path ← lift (NormalizePath (m_Path m));
  BucketByID owner (m_BucketID m) ≫= λ _,
  guard_err ((m_ChunkSize m <=? 0) || bool_decide (m_Chunks m = []) ||
             negb (length (m_ContentSHA256 m) =? 32)%nat) EInvalid ≫= λ _,
  let ecData := if m_ECData m <=? 0 then 1 else m_ECData m in
  transaction (
    found ← gets (λ d, find_by (live_file_at (m_BucketID m) path) (db_files d));
    match found with
    | Some f =>
        if bool_decide (f_Status f = FActive) || f_IsFolder f then throw EConflict
        else
          pending ← gets (λ d, if bool_decide (f_Status f = FUploading)
                               then newest_pending (f_ID f) d else None);
          match pending with
          | Some v =>
              if bool_decide (v_ContentSHA256 v = m_ContentSHA256 m)
              then gets (loadPlanned f v true)
              else throw EConflict
          | None => insert_plan now m ecData f
          end
    | None =>
        f ← insert_file now (m_BucketID m) path;
        insert_plan now m ecData f
    end).

(** ** Placement rows *)

(** [INSERT … ON CONFLICT (fragment_id, node_id) DO NOTHING]: the sequence
    advances even when the row is dropped; the foreign keys are checked only
    for a row that is inserted. *)
Definition insert_placement (frag node : uuid) : store unit := λ d,
  let id := db_next_placement d in
  let d' := upd_db_next_placement (λ n, n + 1) d in
  if existsb (λ p, bool_decide (pl_FragmentID p = frag) && bool_decide (pl_NodeID p = node))
       (db_placements d)
  then (Ok tt, d')
  else if bool_decide (fragment_by d frag = None) || bool_decide (node_by d node = None)
  then (Err (mapQueryErr PgOther), d')
  else (Ok tt, upd_db_placements
                 (λ t, t ++ [MkPlacement id frag node PPending None None None]) d').

Definition InsertPlacements (pairs : list (uuid * uuid)) : store unit :=
  for_each (λ '(frag, node), insert_placement frag node) pairs.

(** ** Aborting *)

Definition version_of (d : DB) (p : Placement) : option uuid :=
  c ← chunk_of d p; c_VersionID <$> chunk_by d c.

Definition AbortUpload (version : uuid) (d : DB) : DB :=
  let d1 := upd_db_placements
              (filter (λ p, ¬ (pl_Status p = PPending ∧ version_of d p = Some version))) d in
  let stored := count_where (λ p, bool_decide (version_of d1 p = Some version) &&
                                  bool_decide (pl_Status p = PStored)) (db_placements d1) in
  if (0 <? stored)%nat then d1
  else upd_db_versions
         (update_where (λ v, bool_decide (v_ID v = version) && bool_decide (v_Status v = VPending))
            (upd_v_Status (λ _, VAborted))) d1.

(** ** Committing *)

(** [scanVersionTx]/[VersionByID]: the version if its live file is [owner]'s. *)
Definition VersionByID (owner version : uuid) : store (File * FileVersion) := λ d,
  (of_option (mapQueryErr PgNoRows)
     (v ← version_by d version;
      f ← file_by d (v_FileID v);
      b ← bucket_by d (f_BucketID f);
      if bool_decide (b_OwnerID b = owner) && bool_decide (f_DeletedAt f = None)
      then Some (f, v) else None), d).

Definition PendingTargetsForVersion (version : uuid) (d : DB) : list PlacementTarget :=
  omap (target_row d)
    (filter (λ p, live_placement p = true ∧ version_of d p = Some version) (db_placements d)).

Definition stored_copies (d : DB) (chunk : uuid) : nat :=
  count_where (stored_in d chunk) (db_placements d).

(** [GROUP BY c.id HAVING count(p.id) < $2]: chunks of the version that have a
    fragment and too few stored copies. *)
Definition short_chunks (version : uuid) (d : DB) : list Chunk :=
  filter (λ c, (c_VersionID c = version ∧
                existsb (λ fr, bool_decide (fr_ChunkID fr = c_ID c)) (db_fragments d) = true) ∧
               (stored_copies d (c_ID c) < CommitThreshold)%nat)
    (db_chunks d).

Definition mark_committed (now : Z) (version file : uuid) (d : DB) : DB :=
  upd_db_files
    (update_where (λ f, bool_decide (f_ID f = file))
       (λ f, upd_f_Status (λ _, FActive)
               (upd_f_CurrentVersion (λ _, Some version) (upd_f_UpdatedAt (λ _, now) f))))
    (upd_db_versions
       (update_where (λ v, bool_decide (v_ID v = version))
          (λ v, upd_v_Status (λ _, VCommitted) (upd_v_CommittedAt (λ _, Some now) v))) d).

Definition CommitUpload (now : Z) (owner version : uuid) (stored : list uuid) :
    store (File * FileVersion) :=
  transaction (
    '(f, v) ← VersionByID owner version;
    match v_Status v with
    | VCommitted => mret (f, v)
    | VPending =>
        modify (λ d, foldl (λ d fid, store_pending now fid d) d stored) ≫= λ _,
        short ← gets (short_chunks version);
        guard_err (negb (bool_decide (short = []))) EIncomplete ≫= λ _,
        modify (mark_committed now version (f_ID f)) ≫= λ _,
        mret (upd_f_Status (λ _, FActive) (upd_f_CurrentVersion (λ _, Some (v_ID v)) f),
              upd_v_Status (λ _, VCommitted) (upd_v_CommittedAt (λ _, Some now) v))
    | _ => throw EConflict
    end).

(** ** Downloading *)

Record DownloadPlacement := MkDP { dp_Fragment : Fragment; dp_Node : Node }.
Record DownloadChunk := MkDC { dc_Chunk : Chunk; dc_Placements : list DownloadPlacement }.

Definition stored_placements_of (d : DB) (fr : Fragment) : list DownloadPlacement :=
  omap (λ p, MkDP fr <$> node_by d (pl_NodeID p))
    (filter (λ p, pl_FragmentID p = fr_ID fr ∧ pl_Status p = PStored) (db_placements d)).

(** The rows of one chunk, by shard index; chunk sequence numbers are unique
    in a version, so grouping by [seq] is grouping by chunk. *)
Definition download_chunk (d : DB) (c : Chunk) : DownloadChunk :=
  MkDC c (fr ← order_by (λ fr, [fr_ShardIndex fr])
                 (filter (λ fr, fr_ChunkID fr = c_ID c) (db_fragments d));
          stored_placements_of d fr).

Definition LoadDownload (owner file : uuid) : store (File * FileVersion * list DownloadChunk) :=
  f ← FileByID owner file;
  match f_CurrentVersion f with
  | None => throw ENotFound
  | Some cur =>
      v ← action (λ d, (query_row (mapQueryErr PgNoRows)
                   (filter (λ v, v_ID v = cur ∧ v_Status v = VCommitted) (db_versions d)), d));
      chunks ← gets (λ d,
        filter (λ dc, dc_Placements dc ≠ [])
          (download_chunk d <$> order_by (λ c, [c_Seq c])
             (filter (λ c, c_VersionID c = v_ID v) (db_chunks d))));
      mret (f, v, chunks)
  end.

(** ** Facts about the queries *)

Lemma stored_copies_ext d d' c :
  db_fragments d' = db_fragments d → db_placements d' = db_placements d →
  stored_copies d' c = stored_copies d c.
Proof.
  intros Hf Hp. unfold stored_copies, stored_in, chunk_of, fragment_by.
  by rewrite Hf, Hp.
Qed.

Lemma find_by_app_r {A} (p : A → bool) t r :
  existsb p t = false → p r = true → find_by p (t ++ [r]) = Some r.
Proof.
  intros Ht Hr. unfold find_by. rewrite filter_app.
  replace (filter (λ x, p x = true) t) with (@nil A).
  - by rewrite app_nil_l, filter_cons_True, filter_nil by done.
  - symmetry. induction t as [|x t IH]; [done|]. simpl in Ht.
    apply orb_false_iff in Ht as [Hx Ht]. rewrite filter_cons_False by congruence. auto.
Qed.

Lemma foldr_max_le (xs : list Z) x : x ∈ xs → x ≤ foldr Z.max 0 xs.
Proof.
  induction xs as [|y xs IH]; simpl; [by intros ?%not_elem_of_nil|].
  intros [->|Hx]%elem_of_cons; [lia|]. specialize (IH Hx). lia.
Qed.

Lemma next_version_no_fresh d v :
  v ∈ db_versions d → v_VersionNo v < next_version_no (v_FileID v) d.
Proof.
  intros Hv. unfold next_version_no.
  enough (v_VersionNo v ≤ foldr Z.max 0
    (v_VersionNo <$> filter (λ w, v_FileID w = v_FileID v) (db_versions d))) by lia.
  apply foldr_max_le, list_elem_of_fmap. exists v. split; [done|].
  by apply list_elem_of_filter.
Qed.

(** ** Committing *)

Lemma short_chunks_nil version d c fr :
  short_chunks version d = [] →
  c ∈ db_chunks d → c_VersionID c = version →
  fr ∈ db_fragments d → fr_ChunkID fr = c_ID c →
  (CommitThreshold ≤ stored_copies d (c_ID c))%nat.
Proof.
  intros Hs Hc Hv Hfr Hch.
  destruct (decide (CommitThreshold ≤ stored_copies d (c_ID c))%nat) as [|Hlt]; [done|].
  exfalso. apply (not_elem_of_nil c). rewrite <- Hs.
  apply list_elem_of_filter. split_and!; try done; [|lia].
  apply existsb_exists. exists fr. split; [by apply list_elem_of_In|].
  by apply bool_decide_eq_true_2.
Qed.

(** Marking a list of fragments stored is one update: a row that was just
    stored is not pending for the next fragment of the list. *)
Lemma store_all_update now frags d :
  db_placements (foldl (λ d fid, store_pending now fid d) d frags) =
  update_where (λ p, bool_decide (pl_FragmentID p ∈ frags) &&
                     bool_decide (pl_Status p = PPending))
    (λ p, upd_pl_Status (λ _, PStored) (upd_pl_StoredAt (λ _, Some now) p))
    (db_placements d).
Proof.
  revert d. induction frags as [|fid frags IH]; intros d; cbn [foldl].
  - rewrite update_where_none; [done|]. intros p _.
    by rewrite bool_decide_eq_false_2 by apply not_elem_of_nil.
  - rewrite IH. unfold store_pending, update_where. cbn [db_placements upd_db_placements].
    rewrite <- list_fmap_compose. apply list_fmap_ext. intros i p _. cbn [compose].
    destruct (decide (pl_Status p = PPending)) as [Hp|Hp].
    + rewrite (bool_decide_eq_true_2 (pl_Status p = PPending)) by done.
      rewrite !andb_true_r. destruct (decide (pl_FragmentID p = fid)) as [->|Hf].
      * rewrite (bool_decide_eq_true_2 (fid = fid)) by done.
        rewrite (bool_decide_eq_true_2 (fid ∈ fid :: frags)) by (by left).
        rewrite (bool_decide_eq_false_2 (pl_Status _ = PPending)) by done.
        by rewrite andb_false_r.
      * rewrite (bool_decide_eq_false_2 (_ = fid)) by done.
        rewrite (bool_decide_eq_true_2 (pl_Status p = PPending)) by done.
        rewrite andb_true_r. erewrite bool_decide_ext; [done|].
        rewrite elem_of_cons. tauto.
    + rewrite (bool_decide_eq_false_2 (pl_Status p = PPending)) by done.
      rewrite !andb_false_r. rewrite (bool_decide_eq_false_2 (pl_Status p = PPending)) by done.
      by rewrite andb_false_r.
Qed.

Lemma VersionByID_ok owner version d f v d' :
  VersionByID owner version d = (Ok (f, v), d') →
  d' = d ∧ version_by d version = Some v ∧ file_by d (v_FileID v) = Some f ∧
  f_DeletedAt f = None ∧
  ∃ b, bucket_by d (f_BucketID f) = Some b ∧ b_OwnerID b = owner.
Proof.
  unfold VersionByID. intros H. injection H as H <-.
  destruct (version_by d version) as [v'|]; [|done]. simpl in H.
  destruct (file_by d (v_FileID v')) as [f'|] eqn:Hf; [|done]. simpl in H.
  destruct (bucket_by d (f_BucketID f')) as [b|] eqn:Hb; [|done]. simpl in H.
  case_if_in H; [|done]. simpl in H. injection H as <- <-.
  apply andb_true_iff in Eif as [H1%bool_decide_eq_true H2%bool_decide_eq_true].
  split_and!; eauto.
Qed.

(** What a commit does to the placements. *)
Lemma CommitUpload_placements now owner version stored d f v d' :
  CommitUpload now owner version stored d = (Ok (f, v), d') →
  v_Status v = VCommitted ∧
  (d' = d ∨
   db_placements d' =
     update_where (λ p, bool_decide (pl_FragmentID p ∈ stored) && bool_decide (pl_Status p = PPending))
       (λ p, upd_pl_Status (λ _, PStored) (upd_pl_StoredAt (λ _, Some now) p)) (db_placements d)).
Proof.
  unfold CommitUpload. rewrite transaction_ok. intros H.
  apply bind_ok in H as ([f0 v0]&d1&Hv&H). apply VersionByID_ok in Hv as (->&_).
  destruct (v_Status v0) eqn:Hst; try done; m_ok; split; try done; [right|by left].
  apply store_all_update.
Qed.

(** C2: A commit either fails and leaves the database untouched, or returns a
    committed version.  When it is the call that commits a pending version,
    then every chunk of that version that has a fragment row has at least
    [CommitThreshold] stored copies, the version row is committed, and the
    owner's file is active with this version as the current one; committing an
    already committed version changes nothing. *)
Theorem CommitUpload_spec now owner version stored d r d' :
  CommitUpload now owner version stored d = (r, d') →
  match r with
  | Err _ => d' = d
  | Ok (f, v) =>
      v_Status v = VCommitted ∧ v_ID v = version ∧
      ∃ v0, version_by d version = Some v0 ∧
        ((v_Status v0 = VCommitted ∧ d' = d) ∨
         (v_Status v0 = VPending ∧ f_Status f = FActive ∧
          f_CurrentVersion f = Some version ∧
          (∀ c fr, c ∈ db_chunks d' → c_VersionID c = version →
             fr ∈ db_fragments d' → fr_ChunkID fr = c_ID c →
             (CommitThreshold ≤ stored_copies d' (c_ID c))%nat) ∧
          (∀ w, w ∈ db_versions d' → v_ID w = version → v_Status w = VCommitted) ∧
          (∀ x, x ∈ db_files d' → f_ID x = f_ID f →
             f_Status x = FActive ∧ f_CurrentVersion x = Some version)))
  end.
Proof.
  destruct r as [[f v]|e]; [|apply transaction_err].
  unfold CommitUpload. rewrite transaction_ok. intros H.
  apply bind_ok in H as ([f0 v0]&d1&Hv&H).
  apply VersionByID_ok in Hv as (->&Hver&Hfile&_&_).
  pose proof Hver as [_ Hid%bool_decide_eq_true]%find_by_spec.
  destruct (v_Status v0) eqn:Hst; try done.
  - m_ok. split; [done|]. split; [done|].
    exists v0. split; [done|]. right. split_and!; try done.
    + intros c fr Hc Hcv Hfr Hch.
      rewrite (stored_copies_ext (foldl (λ d fid, store_pending now fid d) d stored)) by done.
      apply negb_false_iff, bool_decide_eq_true in Hg.
      by eapply short_chunks_nil.
    + intros w (w0&Hw0&->)%elem_of_update_where Hw. case_if; [done|].
      by apply bool_decide_eq_false in Eif.
    + intros x (x0&Hx0&->)%elem_of_update_where Hx. case_if; [done|].
      by apply bool_decide_eq_false in Eif.
  - m_ok. split; [done|]. split; [done|]. exists v. eauto.
Qed.

(** ** Aborting *)

Lemma AbortUpload_placements version d :
  db_placements (AbortUpload version d) =
    filter (λ p, ¬ (pl_Status p = PPending ∧ version_of d p = Some version)) (db_placements d).
Proof. unfold AbortUpload. by case_if. Qed.

Lemma version_of_AbortUpload version d p : version_of (AbortUpload version d) p = version_of d p.
Proof. unfold AbortUpload. by case_if. Qed.

(** No pending copy of the version is left, and without stored copies the
    version is not pending either. *)
Lemma AbortUpload_clean version d :
  let d' := AbortUpload version d in
  (∀ p, p ∈ db_placements d' → version_of d' p = Some version → pl_Status p ≠ PPending) ∧
  ((∀ p, p ∈ db_placements d' → version_of d' p = Some version → pl_Status p ≠ PStored) →
   ∀ v, v ∈ db_versions d' → v_ID v = version → v_Status v ≠ VPending).
Proof.
  cbv zeta. rewrite AbortUpload_placements. split.
  - intros p [Hn _]%list_elem_of_filter Hv Hs. rewrite version_of_AbortUpload in Hv. by apply Hn.
  - intros Hno. assert (∀ p, p ∈ filter (λ p, ¬ (pl_Status p = PPending ∧ version_of d p = Some version))
      (db_placements d) → version_of d p = Some version → pl_Status p ≠ PStored) as Hno'.
    { intros p Hp Hv. apply Hno; [done|]. by rewrite version_of_AbortUpload. }
    unfold AbortUpload. rewrite (proj2 (count_where_zero _ _)).
    + intros v (v0&_&->)%elem_of_update_where. case_if; [done|]. intros Hid Hp.
      by rewrite !bool_decide_eq_true_2 in Eif.
    + intros p Hp. apply andb_false_iff.
      destruct (decide (version_of d p = Some version)) as [Hv|]; [right|left]; apply bool_decide_eq_false_2; auto.
Qed.

(** Aborting removes every pending copy of the version and no other row; if
    a copy was already stored the version keeps its status, and otherwise the
    version is no longer pending while every other version is untouched. *)
Theorem AbortUpload_spec version d :
  let d' := AbortUpload version d in
  (∀ p, p ∈ db_placements d' ↔
        p ∈ db_placements d ∧ ¬ (pl_Status p = PPending ∧ version_of d p = Some version)) ∧
  ((∃ p, p ∈ db_placements d ∧ pl_Status p = PStored ∧ version_of d p = Some version) →
   db_versions d' = db_versions d) ∧
  ((∀ p, p ∈ db_placements d → pl_Status p = PStored → version_of d p ≠ Some version) →
   (∀ v, v ∈ db_versions d' → v_ID v = version → v_Status v ≠ VPending) ∧
   filter (λ v, v_ID v ≠ version) (db_versions d') =
     filter (λ v, v_ID v ≠ version) (db_versions d)).
Proof.
  simpl. unfold AbortUpload. set (d1 := upd_db_placements _ d).
  assert (∀ p, version_of d1 p = version_of d p) as Hvo by done.
  assert (∀ p, p ∈ db_placements d1 ↔
    p ∈ db_placements d ∧ ¬ (pl_Status p = PPending ∧ version_of d p = Some version)) as Hd1.
  { intros p. unfold d1. simpl. rewrite list_elem_of_filter. tauto. }
  set (n := count_where _ _).
  assert (n = 0%nat ↔ ∀ p, p ∈ db_placements d → pl_Status p = PStored →
            version_of d p ≠ Some version) as Hn.
  { unfold n. rewrite count_where_zero. split.
    - intros H p Hp Hs Hv. specialize (H p). rewrite Hvo in H.
      rewrite !bool_decide_eq_true_2 in H by done. discriminate H.
      apply Hd1. split; [done|]. intros [? _]. congruence.
    - intros H p [Hp _]%Hd1. rewrite Hvo. apply andb_false_iff.
      destruct (decide (pl_Status p = PStored)) as [Hs|Hs]; [left|right];
        apply bool_decide_eq_false_2; auto. }
  clearbody n. split_and!.
  - by case_if.
  - intros (p&Hp&Hs&Hv). case_if; [done|].
    apply Nat.ltb_ge in Eif. assert (n = 0%nat) as H by lia.
    by destruct (proj1 Hn H p Hp Hs).
  - intros H. apply Hn in H as ->. simpl. split.
    + intros v (v0&Hv0&->)%elem_of_update_where. case_if; [done|].
      intros Hid Hp. by rewrite !bool_decide_eq_true_2 in Eif.
    + generalize (db_versions d). clear. intros t. induction t as [|v t IH]; [done|].
      unfold update_where in *. rewrite fmap_cons, !filter_cons, IH.
      destruct (decide (v_ID v = version)) as [Heq|Hne].
      * rewrite !decide_False; [done|tauto|case_if; tauto].
      * by rewrite (bool_decide_eq_false_2 (v_ID v = version)) by done.
Qed.

(** ** Planning and resuming *)

#[local] Instance frame_chunk {B} (g : DB → B) v ch :
  (∀ d f h, g (upd_db_chunks f (upd_db_next_uuid h d)) = g d) →
  (∀ d h, g (upd_db_next_uuid h d) = g d) → Frame g (insert_chunk v ch).
Proof. intros H1 H2 d. unfold insert_chunk. simpl. case_if; simpl; auto. Qed.
#[local] Instance frame_fragment {B} (g : DB → B) c fr :
  (∀ d f h, g (upd_db_fragments f (upd_db_next_uuid h d)) = g d) →
  (∀ d h, g (upd_db_next_uuid h d) = g d) → Frame g (insert_fragment c fr).
Proof. intros H1 H2 d. unfold insert_fragment. simpl. case_if; simpl; auto. Qed.

(** The tables a plan reads back besides the ones it writes. *)
Definition plan_frame (d : DB) := (db_files d, db_buckets d, db_versions d, db_placements d).

Lemma insert_chunks_frame v chs : Frame plan_frame (for_each (insert_manifest_chunk v) chs).
Proof.
  apply frame_for_each. intros ch. unfold insert_manifest_chunk.
  apply frame_bind; [by apply frame_chunk|]. intros c.
  apply frame_bind; [apply _|]. intros _.
  apply frame_for_each. intros fr. by apply frame_fragment.
Qed.

Lemma insert_plan_ok now m ec f d pu d1 :
  insert_plan now m ec f d = (Ok pu, d1) →
  ∃ v, plan_frame d1 = (db_files d, db_buckets d, db_versions d ++ [v], db_placements d) ∧
       v_FileID v = f_ID f ∧ v_VersionNo v = next_version_no (f_ID f) d ∧
       v_Status v = VPending ∧ v_ContentSHA256 v = m_ContentSHA256 m ∧
       pu = loadPlanned f v false d1.
Proof.
  unfold insert_plan. intros (v&d2&Hv&H)%bind_ok.
  apply bind_ok in H as ([]&d3&Hc&H). injection H as <- <-.
  unfold insert_version in Hv. cbn [gen_uuid] in Hv. injection Hv as Hv Hd2.
  pose proof (insert_chunks_frame (v_ID v) (m_Chunks m) d2) as Hf.
  rewrite Hc in Hf. cbn [snd] in Hf.
  exists v. split_and!; try (by rewrite <- Hv).
  rewrite Hf, <- Hd2, <- Hv. done.
Qed.

(** A plan is read from the database it leaves behind. *)
Lemma BeginUpload_loaded now owner m d pu d1 :
  BeginUpload now owner m d = (Ok pu, d1) → ∃ f v b, pu = loadPlanned f v b d1.
Proof.
  unfold BeginUpload. intros (path&d0&_&H)%bind_ok. apply bind_ok in H as (b&d2&_&H).
  apply bind_ok in H as ([]&d3&_&H). rewrite transaction_ok in H.
  apply bind_ok in H as ([f|]&d4&_&H).
  - case_if_in H; [done|]. apply bind_ok in H as ([v|]&d5&_&H).
    + case_if_in H; [|done]. apply gets_ok in H as [-> ->]. eauto.
    + apply insert_plan_ok in H as (v&_&_&_&_&_&->). eauto.
  - apply bind_ok in H as (f&d5&_&H). apply insert_plan_ok in H as (v&_&_&_&_&_&->). eauto.
Qed.

Lemma planned_row_placement d version pf p :
  pf ∈ planned_rows d version → pf_Placement pf = Some p →
  p ∈ db_placements d ∧ pl_FragmentID p = fr_ID (pf_Fragment pf).
Proof.
  unfold planned_rows. rewrite elem_of_order_by. intros (c&Hpf&_)%list_elem_of_bind.
  apply list_elem_of_bind in Hpf as (fr&Hpf&_). revert Hpf.
  destruct (filter _ (db_placements d)) as [|p0 ps] eqn:Hf.
  - by intros ->%list_elem_of_singleton.
  - rewrite <- Hf. intros (p1&->&Hp1)%list_elem_of_fmap [= <-].
    apply list_elem_of_filter in Hp1 as [[Hid _] Hin]. done.
Qed.

(** Every pair asked for has a row afterwards, and no row is lost. *)
Lemma InsertPlacements_rows pairs d d' :
  InsertPlacements pairs d = (Ok tt, d') →
  (∀ p, p ∈ db_placements d → p ∈ db_placements d') ∧
  ∀ frag node, (frag, node) ∈ pairs →
    ∃ p, p ∈ db_placements d' ∧ pl_FragmentID p = frag ∧ pl_NodeID p = node.
Proof.
  revert d. unfold InsertPlacements. induction pairs as [|[frag node] pairs IH]; intros d; cbn [for_each].
  { intros [= <-]. split; [done|]. by intros ?? ?%not_elem_of_nil. }
  intros ([]&d1&H1&H2)%bind_ok. apply IH in H2 as [Hkeep Hrows].
  assert ((∀ p, p ∈ db_placements d → p ∈ db_placements d1) ∧
    ∃ p, p ∈ db_placements d1 ∧ pl_FragmentID p = frag ∧ pl_NodeID p = node) as [Hk1 (p&Hp&Hpf)].
  { revert H1. unfold insert_placement. case_if.
    - intros [= <-]. split; [done|]. apply existsb_exists in Eif as (p&Hp%list_elem_of_In&Hb).
      apply andb_true_iff in Hb as [?%bool_decide_eq_true ?%bool_decide_eq_true]. by exists p.
    - case_if; [done|]. intros [= <-]. cbn. split; [intros p Hp; apply elem_of_app; by left|].
      eexists. split; [apply elem_of_app; right; left|done]. }
  split; [auto|]. intros f n [[= -> ->]|Hin]%elem_of_cons; [|by apply Hrows].
  exists p. split; [by apply Hkeep|done].
Qed.

Lemma newest_pending_fresh d d1 v :
  db_versions d1 = db_versions d ++ [v] → v_Status v = VPending →
  v_VersionNo v = next_version_no (v_FileID v) d →
  newest_pending (v_FileID v) d1 = Some v.
Proof.
  intros Hv Hs Hn. unfold newest_pending. rewrite Hv. apply head_order_by.
  - apply list_elem_of_filter. split; [done|]. apply elem_of_app. right. by left.
  - intros w [[Hf Hp] [Hw|Hw]%elem_of_app]%list_elem_of_filter.
    + right. apply next_version_no_fresh in Hw. rewrite Hf, <- Hn in Hw.
      unfold key_le. simpl. rewrite orb_true_iff, andb_true_iff, Z.ltb_lt, Z.eqb_eq. lia.
    + left. by apply list_elem_of_singleton.
Qed.

(** Planning the same upload again resumes it: when a plan succeeds, a
    second call with the same manifest returns the same file and version,
    flagged as a resume, with the same pending and stored fragments, and leaves
    the database exactly as it is. *)
Theorem BeginUpload_resumes now now' owner m d pu d1 :
  BeginUpload now owner m d = (Ok pu, d1) →
  f_Status (pu_File pu) = FUploading →
  BeginUpload now' owner m d1 =
    (Ok (MkPlannedUpload (pu_File pu) (pu_Version pu) true (pu_Pending pu) (pu_Stored pu)), d1).
Proof.
  unfold BeginUpload. intros H Hup.
  apply bind_ok in H as (path&d0&Hp&H). injection Hp as Hp <-.
  apply bind_ok in H as (b&d0&Hb&H).
  pose proof (f_equal snd Hb) as Hd0. simpl in Hd0. subst d0.
  apply bind_ok in H as ([]&d0&Hg&H). unfold guard_err in Hg.
  case_if_in Hg; [done|]. injection Hg as <-.
  rewrite transaction_ok in H. apply bind_ok in H as (found&d0&Hf&H). injection Hf as Hf <-.
  (* what the second call has to read back *)
  assert (∃ f v, find_by (live_file_at (m_BucketID m) path) (db_files d1) = Some f ∧
    newest_pending (f_ID f) d1 = Some v ∧ v_ContentSHA256 v = m_ContentSHA256 m ∧
    f_Status f = FUploading ∧ f_IsFolder f = false ∧ db_buckets d1 = db_buckets d ∧
    ∃ r, pu = loadPlanned f v r d1) as (f&v&Hfind&Hnew&Hsha&Hst&Hdir&Hbk&r&->).
  { destruct found as [f|].
    - case_if_in H; [done|]. apply orb_false_iff in Eif0 as [_ Hdir].
      apply bind_ok in H as (pending&d0&Hpend&H). injection Hpend as Hpend <-.
      destruct pending as [v|].
      + case_if_in H; [|done]. injection H as <- <-. exists f, v.
        apply bool_decide_eq_true in Eif0. simpl in Hup.
        rewrite bool_decide_eq_true_2 in Hpend by done. split_and!; eauto.
      + apply insert_plan_ok in H as (v&[= Hfs Hbs Hvs _]&Hfid&Hno&Hvst&Hvsha&->).
        exists f, v. rewrite Hfs. split_and!; eauto.
        rewrite <- Hfid. apply (newest_pending_fresh d); congruence.
    - apply bind_ok in H as (f&d2&Hins&H). unfold insert_file in Hins. simpl in Hins.
      case_if_in Hins; [done|]. injection Hins as Hfe <-.
      apply insert_plan_ok in H as (v&[= Hfs Hbs Hvs _]&Hfid&Hno&Hvst&Hvsha&->).
      exists f, v. rewrite Hfs. simpl. split_and!; subst f; eauto.
      + apply find_by_app_r; [done|]. unfold live_file_at. simpl.
        by rewrite !bool_decide_eq_true_2.
      + rewrite <- Hfid. eapply newest_pending_fresh; [done..|]. by rewrite Hfid. }
  assert (BucketByID owner (m_BucketID m) d1 = (Ok b, d1)) as Hb1.
  { unfold BucketByID in *. rewrite Hbk. congruence. }
  apply bind_ok. exists path, d1. split; [by unfold lift; rewrite Hp|].
  apply bind_ok. exists b, d1. split; [exact Hb1|].
  apply bind_ok. exists tt, d1. split; [done|].
  rewrite transaction_ok, bind_ok. do 2 eexists. split; [done|].
  rewrite Hfind, (bool_decide_eq_false_2 (f_Status f = FActive)), Hdir by congruence.
  simpl orb. cbv iota. apply bind_ok. do 2 eexists. split; [done|].
  rewrite (bool_decide_eq_true_2 (f_Status f = FUploading)) by done.
  rewrite Hnew, bool_decide_eq_true_2 by done. done.
Qed.
