(* ===== verification/Wire.v ===== *)
(** * The upload manifest on the wire

    The manifest travels twice as JSON: from the client to the gateway
    ([decodeUploadManifest] of [src/internal/gateway/gateway.go]), and from
    there to the metadata service ([manifestJSON] of
    [src/internal/metadata/client.go], [decodeManifest] of
    [src/internal/metadata/http.go]).  A [J…] record is the struct
    [encoding/json] fills; a body it refuses is [None].  Text is bytes.

    [encoding/hex] is modelled; the text form of UUIDs is
    [github.com/google/uuid]'s, a parameter. *)

From S2P Require Import Prelude Bytes Schema Uploads.

(** ** [encoding/hex] *)

Definition hex_digit (i : Z) : Byte.byte :=
  if i <? 10 then byte_of_Z (48 + i) else byte_of_Z (97 + (i - 10)).

Definition hex_value (b : Byte.byte) : option Z :=
  let c := byte_Z b in
  if (48 <=? c) && (c <=? 57) then Some (c - 48)
  else if (97 <=? c) && (c <=? 102) then Some (c - 97 + 10)
  else if (65 <=? c) && (c <=? 70) then Some (c - 65 + 10)
  else None.

Fixpoint hex_encode (bs : bytes) : bytes :=
  match bs with
  | [] => []
  | b :: bs => hex_digit (byte_Z b / 16) :: hex_digit (byte_Z b `mod` 16) :: hex_encode bs
  end.

(** [hex.DecodeString]: what was decoded before an error, and whether all was. *)
Fixpoint hex_decode_prefix (text : bytes) : bytes * bool :=
  match text with
  | [] => ([], true)
  | [_] => ([], false)
  | a :: b :: text =>
      match hex_value a, hex_value b with
      | Some x, Some y =>
          let '(bs, ok) := hex_decode_prefix text in (byte_of_Z (x * 16 + y) :: bs, ok)
      | _, _ => ([], false)
      end
  end.

Definition hex_decode (text : bytes) : option bytes :=
  let '(bs, ok) := hex_decode_prefix text in if ok then Some bs else None.

Lemma hex_digit_value i : 0 ≤ i < 16 → hex_value (hex_digit i) = Some i.
Proof.
  intros Hi.
  assert (forallb (λ i, bool_decide (hex_value (hex_digit i) = Some i)) (seqZ 0 16) = true)
    as Hall by by vm_compute.
  rewrite forallb_forall in Hall.
  specialize (Hall i (proj1 (list_elem_of_In _ _) (proj2 (elem_of_seqZ _ _ _) Hi))).
  by apply bool_decide_eq_true in Hall.
Qed.

Lemma hex_decode_encode_prefix bs : hex_decode_prefix (hex_encode bs) = (bs, true).
Proof.
  induction bs as [|b bs IH]; [done|]. cbn [hex_encode hex_decode_prefix].
  pose proof (byte_Z_range b).
  rewrite !hex_digit_value, IH by (try apply Z.mod_pos_bound; Z.div_mod_to_equations; lia).
  replace (byte_Z b / 16 * 16 + byte_Z b `mod` 16) with (byte_Z b) by (Z.div_mod_to_equations; lia).
  by rewrite byte_of_Z_byte_Z.
Qed.

Lemma hex_decode_encode bs : hex_decode (hex_encode bs) = Some bs.
Proof. unfold hex_decode. by rewrite hex_decode_encode_prefix. Qed.
#[export] Hint Rewrite hex_decode_encode hex_decode_encode_prefix : wire.

(** ** UUIDs as text *)
Class UuidText := { uuid_String : uuid → bytes; uuid_Parse : bytes → option uuid }.
Class UuidTextLaws `{UuidText} : Prop := {
  uuid_Parse_String u : uuid_wf u → uuid_Parse (uuid_String u) = Some u;
  uuid_Parse_wf t u : uuid_Parse t = Some u → uuid_wf u }.

(** ** The JSON structs *)

Record JFragment := MkJFragment { jf_ShardIndex : Z; jf_SHA256 : bytes; jf_SizeBytes : Z }.
Record JChunk := MkJChunk {
  jc_Seq : Z; jc_SHA256 : bytes; jc_SizeBytes : Z; jc_Fragments : list JFragment }.
Record JManifest := MkJManifest {
  jm_BucketID : bytes; jm_Path : string; jm_SizeBytes : Z; jm_ContentSHA256 : bytes;
  jm_EncryptionMeta : bytes; jm_ChunkSize : Z; jm_Data : Z; jm_Parity : Z;
  jm_Chunks : list JChunk }.

(** [int16(x)] *)
Definition wrap_s16 (z : Z) : Z := (z + 2^15) `mod` 2^16 - 2^15.

Lemma wrap_s16_small z : - 2^15 ≤ z < 2^15 → wrap_s16 z = z.
Proof. intros Hz. unfold wrap_s16. rewrite Z.mod_small by lia. lia. Qed.

Lemma wrap_s16_range z : - 2^15 ≤ wrap_s16 z < 2^15.
Proof. unfold wrap_s16. pose proof (Z.mod_pos_bound (z + 2^15) (2^16)). lia. Qed.

Section decode.
Context `{UuidText}.

Definition decode_fragment (fr : JFragment) : option ManifestFragment :=
  fs ← hex_decode (jf_SHA256 fr);
  Some (MkManifestFragment (wrap_s16 (jf_ShardIndex fr)) (jf_SizeBytes fr) fs).

Definition decode_chunk (ch : JChunk) : option ManifestChunk :=
  cs ← hex_decode (jc_SHA256 ch);
  frs ← mapM decode_fragment (jc_Fragments ch);
  Some (MkManifestChunk (jc_Seq ch) (jc_SizeBytes ch) cs frs).

(** The metadata service's decoder. *)
Definition decodeManifest (body : option JManifest) : option UploadManifest :=
  jm ← body;
  bid ← uuid_Parse (jm_BucketID jm);
  sum ← hex_decode (jm_ContentSHA256 jm);
  chunks ← mapM decode_chunk (jm_Chunks jm);
  Some (MkManifest bid (jm_Path jm) (jm_SizeBytes jm) sum (jm_EncryptionMeta jm)
          (jm_ChunkSize jm) (wrap_s16 (jm_Data jm)) (wrap_s16 (jm_Parity jm)) chunks).

(** The gateway's: a missing number of data shards is one. *)
Definition decodeUploadManifest (body : option JManifest) : option UploadManifest :=
  jm ← body;
  bid ← uuid_Parse (jm_BucketID jm);
  sum ← hex_decode (jm_ContentSHA256 jm);
  let ecData := wrap_s16 (jm_Data jm) in
  let ecData := if ecData =? 0 then 1 else ecData in
  chunks ← mapM decode_chunk (jm_Chunks jm);
  Some (MkManifest bid (jm_Path jm) (jm_SizeBytes jm) sum (jm_EncryptionMeta jm)
          (jm_ChunkSize jm) ecData (wrap_s16 (jm_Parity jm)) chunks).

Definition fragmentJSON (fr : ManifestFragment) : JFragment :=
  MkJFragment (mf_ShardIndex fr) (hex_encode (mf_SHA256 fr)) (mf_SizeBytes fr).

Definition chunkJSON (ch : ManifestChunk) : JChunk :=
  MkJChunk (mc_Seq ch) (hex_encode (mc_SHA256 ch)) (mc_SizeBytes ch)
    (fragmentJSON <$> mc_Fragments ch).

Definition manifestJSON (m : UploadManifest) : JManifest :=
  MkJManifest (uuid_String (m_BucketID m)) (m_Path m) (m_SizeBytes m)
    (hex_encode (m_ContentSHA256 m)) (m_EncryptionMeta m) (m_ChunkSize m) (m_ECData m)
    (m_ECParity m) (chunkJSON <$> m_Chunks m).

(** A manifest through the gateway, to the metadata service. *)
Definition relay (body : option JManifest) : option UploadManifest :=
  m ← decodeUploadManifest body;
  decodeManifest (Some (manifestJSON m)).
End decode.

Lemma mapM_fmap_roundtrip {A B} (enc : A → B) (dec : B → option A) l :
  (∀ x, x ∈ l → dec (enc x) = Some x) → mapM dec (enc <$> l) = Some l.
Proof.
  intros H. apply mapM_Some, Forall2_fmap_l, Forall_Forall2_diag, Forall_forall. exact H.
Qed.

(** What fits the database's columns. *)
Definition manifest_ranges (m : UploadManifest) : Prop :=
  (- 2^15 ≤ m_ECData m < 2^15) ∧ (- 2^15 ≤ m_ECParity m < 2^15) ∧
  ∀ ch fr, ch ∈ m_Chunks m → fr ∈ mc_Fragments ch → - 2^15 ≤ mf_ShardIndex fr < 2^15.

Lemma decode_chunkJSON ch :
  (∀ fr, fr ∈ mc_Fragments ch → - 2^15 ≤ mf_ShardIndex fr < 2^15) →
  decode_chunk (chunkJSON ch) = Some ch.
Proof.
  intros Hfr. unfold decode_chunk, chunkJSON. cbn. rewrite hex_decode_encode. cbn.
  rewrite (mapM_fmap_roundtrip fragmentJSON decode_fragment).
  - by destruct ch.
  - intros fr Hin. unfold decode_fragment, fragmentJSON. cbn. rewrite hex_decode_encode. cbn.
    rewrite wrap_s16_small by auto. by destruct fr.
Qed.

Lemma decodeManifest_json `{UuidTextLaws} m :
  uuid_wf (m_BucketID m) → manifest_ranges m → decodeManifest (Some (manifestJSON m)) = Some m.
Proof.
  intros Hwf (Hd&Hp&Hfr). unfold decodeManifest, manifestJSON. cbn.
  rewrite uuid_Parse_String by done. cbn. rewrite hex_decode_encode. cbn.
  rewrite (mapM_fmap_roundtrip chunkJSON decode_chunk).
  - cbn. rewrite !wrap_s16_small by done. by destruct m.
  - intros ch Hch. apply decode_chunkJSON. eauto.
Qed.

Lemma decode_chunk_ranges ch mc :
  decode_chunk ch = Some mc → ∀ fr, fr ∈ mc_Fragments mc → - 2^15 ≤ mf_ShardIndex fr < 2^15.
Proof.
  unfold decode_chunk. destruct (hex_decode _); [|done]. cbn.
  destruct (mapM _ _) as [frs|] eqn:Hm; [|done]. cbn. intros [= <-] fr Hin. cbn in Hin.
  apply mapM_Some in Hm. apply list_elem_of_lookup in Hin as [i Hi].
  eapply Forall2_lookup_r in Hi as (j&_&Hj); [|done]. unfold decode_fragment in Hj.
  destruct (hex_decode _); [|done]. injection Hj as <-. apply wrap_s16_range.
Qed.

Lemma decodeUploadManifest_ranges `{UuidTextLaws} body m :
  decodeUploadManifest body = Some m →
  uuid_wf (m_BucketID m) ∧ manifest_ranges m ∧ m_ECData m ≠ 0.
Proof.
  unfold decodeUploadManifest. destruct body as [jm|]; [|done]. cbn.
  destruct (uuid_Parse _) as [u|] eqn:Hu; [|done]. apply uuid_Parse_wf in Hu. cbn. destruct (hex_decode _); [|done]. cbn.
  destruct (mapM _ _) as [chs|] eqn:Hm; [|done]. cbn. intros [= <-]. unfold manifest_ranges. cbn.
  pose proof (wrap_s16_range (jm_Data jm)). pose proof (wrap_s16_range (jm_Parity jm)).
  split_and!; try done; try (destruct (Z.eqb_spec (wrap_s16 (jm_Data jm)) 0); lia).
  intros mc fr Hmc Hfr. apply mapM_Some in Hm.
  apply list_elem_of_lookup in Hmc as [i Hi].
  eapply Forall2_lookup_r in Hi as (ch&_&Hch); [|done]. exact (decode_chunk_ranges _ _ Hch _ Hfr).
Qed.

(** The metadata service receives the manifest the gateway decoded, whatever
    the client sent: the second trip over the wire loses nothing, although shard
    indices and code parameters were cut to 16 bits by the first. *)
Theorem relay_lossless `{UuidTextLaws} body : relay body = decodeUploadManifest body.
Proof.
  unfold relay. destruct (decodeUploadManifest body) as [m|] eqn:Hm; [|done]. cbn.
  apply decodeUploadManifest_ranges in Hm as (?&?&?). by apply decodeManifest_json.
Qed.

(** Text for concrete runs: a UUID is its 16 bytes. *)
Module ToyText.
#[export] Instance text : UuidText := {|
  uuid_String u := hex_encode (uuid_bytes u);
  uuid_Parse t := b ← hex_decode t; if (length b =? 16)%nat then Some (bytes_uuid b) else None |}.

#[export] Instance text_laws : UuidTextLaws.
Proof.
  split; cbn [uuid_String uuid_Parse text].
  - intros u Hu. rewrite hex_decode_encode. cbn [mbind option_bind].
    by rewrite uuid_bytes_length, Nat.eqb_refl, bytes_uuid_bytes.
  - intros t u. destruct (hex_decode t) as [b|]; [|done]. cbn [mbind option_bind].
    destruct (Nat.eqb_spec (length b) 16); [|done]. intros [= <-]. by apply bytes_uuid_wf.
Qed.
End ToyText.

(** A number of data shards of 65536 is taken for a missing one, and one of
    65546 for 10. *)
Example ec_data_truncated :
  let body d := Some (MkJManifest (hex_encode (uuid_bytes (Uuid 8))) "/a" 0 [] [] 1 d 6 []) in
  m_ECData <$> decodeUploadManifest (H := ToyText.text) (body 65536) = Some 1 ∧
  m_ECData <$> decodeUploadManifest (H := ToyText.text) (body 65546) = Some 10.
Proof. by vm_compute. Qed.
