(* ===== verification/Auth.v ===== *)
(** * Passwords and secrets: [src/internal/auth/auth.go], and the secrets of
      [src/internal/metadata/nodes.go]

    Password hashes in PHC form, API keys and registration codes as text
    (bytes).  [base64.RawStdEncoding] differs from the URL alphabet of [Bytes] in
    two characters.  Of [fmt.Sscanf] only what the two formats use is modelled,
    for ASCII text. *)

From S2P Require Import Prelude Bytes Sha256 Crypto Pipeline Wire.

Definition is_byte (c : Z) (b : Byte.byte) : bool := byte_Z b =? c.

(** ** [base64.RawStdEncoding] *)

Definition std_char (b : Byte.byte) : Byte.byte :=
  if is_byte 45 b then byte_of_Z 43 else if is_byte 95 b then byte_of_Z 47 else b.
Definition url_char (b : Byte.byte) : option Byte.byte :=
  if is_byte 45 b || is_byte 95 b then None
  else Some (if is_byte 43 b then byte_of_Z 45 else if is_byte 47 b then byte_of_Z 95 else b).
Definition std_encode (bs : bytes) : bytes := std_char <$> b64_encode bs.
Definition std_decode (text : bytes) : option bytes := t ← mapM url_char text; b64_decode t.

(** [base64.StdEncoding]: padded with [=] to a multiple of four. *)
Definition pad : Byte.byte := byte_of_Z 61.
Definition padding (n : nat) : nat := ((4 - n `mod` 4) `mod` 4)%nat.
Definition padded_encode (bs : bytes) : bytes :=
  let t := std_encode bs in t ++ replicate (padding (length t)) pad.

Definition unpad (text : bytes) : bytes :=
  match reverse text with
  | a :: b :: r =>
      if bool_decide (a = pad) then if bool_decide (b = pad) then reverse r else reverse (b :: r) else text
  | _ => text
  end.

Definition padded_decode (text : bytes) : option bytes :=
  let text := filter (λ b, is_newline b = false) text in
  if (length text `mod` 4 =? 0)%nat then std_decode (unpad text) else None.

(** ** [strings.Split] and [fmt.Sscanf] *)

(** The pieces between the bytes [sep]. *)
Fixpoint split_on (sep : Z) (text : bytes) : list bytes :=
  match text with
  | [] => [[]]
  | b :: text =>
      match split_on sep text with
      | p :: ps => if is_byte sep b then [] :: p :: ps else (b :: p) :: ps
      | [] => [[b]]
      end
  end.

(** Literal text of the format. *)
Fixpoint scan_lit (lit text : bytes) : option bytes :=
  match lit, text with
  | [], _ => Some text
  | a :: lit, b :: text => if bool_decide (a = b) then scan_lit lit text else None
  | _ :: _, [] => None
  end.

(** Blanks before a number; a line break is an error. *)
Fixpoint skip_space (text : bytes) : option bytes :=
  match text with
  | b :: rest =>
      if is_byte 32 b || is_byte 9 b || is_byte 11 b || is_byte 12 b then skip_space rest
      else if is_byte 13 b then
        match rest with
        | c :: _ => if is_byte 10 c then None else skip_space rest
        | [] => skip_space rest
        end
      else if is_byte 10 b then None
      else Some text
  | [] => Some []
  end.

Definition digit_of (b : Byte.byte) : option Z :=
  if (48 <=? byte_Z b) && (byte_Z b <=? 57) then Some (byte_Z b - 48) else None.

Fixpoint scan_digits (acc : Z) (text : bytes) : Z * bytes :=
  match text with
  | b :: rest => match digit_of b with Some d => scan_digits (acc * 10 + d) rest | None => (acc, text) end
  | [] => (acc, [])
  end.

(** [%d] into an unsigned integer below [limit]. *)
Definition scan_uint (limit : Z) (text : bytes) : option (Z * bytes) :=
  text ← skip_space text;
  b ← head text;
  digit_of b ≫= λ _,
  let '(n, rest) := scan_digits 0 text in
  if n <? limit then Some (n, rest) else None.

(** [%d] into an [int]. *)
Definition scan_int (text : bytes) : option (Z * bytes) :=
  text ← skip_space text;
  let '(neg, text) := match text with
                      | b :: rest => if is_byte 45 b then (true, rest)
                                     else if is_byte 43 b then (false, rest) else (false, text)
                      | [] => (false, []) end in
  b ← head text;
  digit_of b ≫= λ _,
  let '(n, rest) := scan_digits 0 text in
  let n := if neg : bool then - n else n in
  if (- 2^63 <=? n) && (n <? 2^63) then Some (n, rest) else None.

(** ** Passwords *)

Definition argonTime : Z := 1.
Definition argonMemory : Z := 32 * 1024.
Definition argonThreads : Z := 1.
Definition argonKeyLen : nat := 32.
Definition saltLen : nat := 16.
Definition argon2_Version : Z := 19.

Inductive auth_error := ErrPasswordMismatch | ErrInvalidHash | ErrRandom.
#[export] Instance auth_error_eq_dec : EqDecision auth_error.
Proof. solve_decision. Defined.

Definition phc_head : bytes := ascii_bytes "$argon2id$v=19$m=32768,t=1,p=1$".
Definition dollar : bytes := ascii_bytes "$".

Record Phc := MkPhc {
  phc_salt : bytes; phc_hash : bytes; phc_time : Z; phc_memory : Z; phc_threads : Z; phc_keyLen : nat }.

(** A [rand.Read] that fails is [None]. *)
Definition random (n : nat) (entropy : option bytes) : result auth_error bytes :=
  match entropy with Some b => Ok (take n (b ++ zero_bytes n)) | None => Err ErrRandom end.

Section passwords.
Context `{Argon2}.

Definition HashPassword (password : bytes) (entropy : option bytes) : result auth_error bytes :=
  salt ← random saltLen entropy;
  let sum := argon2_IDKey password salt argonTime argonMemory argonThreads argonKeyLen in
  Ok (phc_head ++ std_encode salt ++ dollar ++ std_encode sum).

Definition parseArgon2id (encoded : bytes) : result auth_error Phc :=
  match split_on 36 encoded with
  | [_; name; version; params; salt; hash] =>
      of_option ErrInvalidHash (
        guard (name = ascii_bytes "argon2id");;
        v ← scan_lit (ascii_bytes "v=") version ≫= scan_int;
        guard (v.1 = argon2_Version);;
        m ← scan_lit (ascii_bytes "m=") params ≫= scan_uint (2^32);
        t ← scan_lit (ascii_bytes ",t=") m.2 ≫= scan_uint (2^32);
        p ← scan_lit (ascii_bytes ",p=") t.2 ≫= scan_uint (2^8);
        salt ← std_decode salt;
        hash ← std_decode hash;
        guard (hash ≠ [] ∧ salt ≠ []);;
        Some (MkPhc salt hash t.1 m.1 p.1 (length hash)))
  | _ => Err ErrInvalidHash
  end.

Definition VerifyPassword (encoded password : bytes) : result auth_error unit :=
  p ← parseArgon2id encoded;
  let got := argon2_IDKey password (phc_salt p) (phc_time p) (phc_memory p) (phc_threads p)
               (phc_keyLen p) in
  if bool_decide (phc_hash p = got) then Ok tt else Err ErrPasswordMismatch.
End passwords.

(** ** API keys and registration codes *)

Definition keyPrefix : bytes := ascii_bytes "dsp_".
Definition keyBytes : nat := 32.

Record MintedKey := MkMinted { mk_Secret : bytes; mk_Hash : bytes }.

Definition HashAPIKey (secret : bytes) : bytes := hex_encode (sha256 secret).

Definition MintAPIKey (entropy : option bytes) : result auth_error MintedKey :=
  raw ← random keyBytes entropy;
  let secret := keyPrefix ++ b64_encode raw in
  Ok (MkMinted secret (HashAPIKey secret)).

Definition ValidSecretFormat (secret : bytes) : bool :=
  match scan_lit keyPrefix secret with
  | None => false
  | Some payload =>
      match b64_decode payload with
      | Some decoded => (length decoded =? keyBytes)%nat
      | None => false
      end
  end.

Definition mintRegSecret (entropy : option bytes) : result auth_error bytes :=
  b ← random 32 entropy;
  Ok (ascii_bytes "reg_" ++ b64_encode b).

(** ** Encodings *)

Lemma split_on_piece sep a sepb rest :
  byte_Z sepb = sep → (∀ b, b ∈ a → byte_Z b ≠ sep) → split_on sep (a ++ sepb :: rest) = a :: split_on sep rest.
Proof.
  intros Hs Ha. induction a as [|b a IH]; cbn [app split_on].
  - assert (is_byte sep sepb = true) as -> by by apply Z.eqb_eq.
    destruct (split_on sep rest) as [|p ps] eqn:Hr; [|done].
    exfalso. clear -Hr. induction rest as [|c rest IH]; [done|]. cbn in Hr.
    destruct (split_on sep rest); [done|]. by destruct (is_byte sep c).
  - rewrite IH by (intros c Hc; apply Ha; by right).
    assert (is_byte sep b = false) as ->; [|done]. apply Z.eqb_neq, Ha. left.
Qed.

Lemma split_on_last sep a : (∀ b, b ∈ a → byte_Z b ≠ sep) → split_on sep a = [a].
Proof.
  intros Ha. induction a as [|b a IH]; cbn [split_on]; [done|].
  rewrite IH by (intros c Hc; apply Ha; by right).
  assert (is_byte sep b = false) as ->; [|done]. apply Z.eqb_neq, Ha. left.
Qed.

(** Base64 text is digits only. *)
Definition b64_text (text : bytes) : Prop := Forall (λ b, is_Some (b64_value b)) text.

Lemma b64_encode_text bs : b64_text (b64_encode bs).
Proof.
  destruct (b64_encode_spells bs) as (vs&Hs&_). apply Forall_forall. intros b Hb.
  destruct Hs as [Htext Hvs]. rewrite Htext in Hb. apply list_elem_of_fmap in Hb as (i&->&Hi).
  rewrite Forall_forall in Hvs. destruct (b64_digit_spec i (Hvs i Hi)) as [Hv _]. by eexists.
Qed.

Lemma std_char_spec b :
  is_Some (b64_value b) →
  url_char (std_char b) = Some b ∧ byte_Z (std_char b) ≠ 36 ∧ std_char b ≠ pad ∧ is_newline (std_char b) = false.
Proof.
  intros Hb.
  assert (forallb (λ i, let b := byte_of_Z i in
    negb (bool_decide (b64_value b ≠ None)) ||
    bool_decide (url_char (std_char b) = Some b ∧ byte_Z (std_char b) ≠ 36 ∧ std_char b ≠ pad ∧
      is_newline (std_char b) = false)) (seqZ 0 256) = true)
    as Hall by by vm_compute.
  rewrite forallb_forall in Hall. pose proof (byte_Z_range b) as Hr.
  assert (byte_Z b ∈ seqZ 0 256) as Hin by (apply elem_of_seqZ; clear -Hr; lia).
  specialize (Hall (byte_Z b) (proj1 (list_elem_of_In _ _) Hin)).
  cbv zeta in Hall. rewrite byte_of_Z_byte_Z in Hall.
  rewrite bool_decide_eq_true_2 in Hall by (by destruct Hb as [? ->]).
  cbn [negb orb] in Hall. by apply bool_decide_eq_true in Hall.
Qed.

Lemma std_encode_text bs b :
  b ∈ std_encode bs → byte_Z b ≠ 36 ∧ b ≠ pad ∧ is_newline b = false.
Proof.
  intros (c&->&Hc)%list_elem_of_fmap. pose proof (b64_encode_text bs) as Ht.
  unfold b64_text in Ht. rewrite Forall_forall in Ht. by apply std_char_spec, Ht.
Qed.

Lemma std_decode_encode bs : std_decode (std_encode bs) = Some bs.
Proof.
  unfold std_decode, std_encode.
  rewrite (mapM_fmap_roundtrip std_char url_char (b64_encode bs)).
  - cbn [mbind option_bind]. apply b64_decode_encode.
  - intros b Hb. apply std_char_spec. pose proof (b64_encode_text bs) as Ht.
    unfold b64_text in Ht. rewrite Forall_forall in Ht. by apply Ht.
Qed.

Lemma std_encode_no_dollar bs b : b ∈ std_encode bs → byte_Z b ≠ 36.
Proof.
  intros Hb. by destruct (std_encode_text bs b Hb) as (?&?&?).
Qed.

Lemma std_encode_length bs : padding (length (std_encode bs)) = 0%nat ∨
  padding (length (std_encode bs)) = 1%nat ∨ padding (length (std_encode bs)) = 2%nat.
Proof.
  unfold std_encode. rewrite length_fmap.
  induction bs as [|a|a b|a b c l IH] using bytes3_ind; [by left|by (right; right)|by (right; left)|].
  cbn [b64_encode length]. generalize dependent (length (b64_encode l)). intros n.
  unfold padding. replace (S (S (S (S n)))) with (n + 1 * 4)%nat by lia. by rewrite Nat.Div0.mod_add.
Qed.

Lemma unpad_replicate t n :
  (n ≤ 2)%nat → (∀ b, b ∈ t → b ≠ pad) → (n = 0%nat ∨ t ≠ []) → unpad (t ++ replicate n pad) = t.
Proof.
  intros Hn Ht Hne. unfold unpad. rewrite reverse_app, reverse_replicate.
  assert (∀ b r, reverse t = b :: r → b ≠ pad) as Hlast.
  { intros b r Hr. apply Ht. rewrite <- elem_of_reverse, Hr. left. }
  destruct n as [|[|[|]]]; [| | |lia]; cbn [replicate app].
  - rewrite app_nil_r. destruct (reverse t) as [|a [|b r]] eqn:Hr; [done..|].
    by rewrite bool_decide_eq_false_2 by by eapply Hlast.
  - destruct (reverse t) as [|a r] eqn:Hr; [by destruct Hne as [|Hne]; [|destruct Hne; rewrite <- (reverse_involutive t), Hr]|].
    rewrite bool_decide_eq_true_2, bool_decide_eq_false_2 by (done || by eapply Hlast).
    rewrite <- Hr. apply reverse_involutive.
  - rewrite !bool_decide_eq_true_2 by done. apply reverse_involutive.
Qed.

Lemma padded_decode_encode bs : padded_decode (padded_encode bs) = Some bs.
Proof.
  unfold padded_decode, padded_encode. set (t := std_encode bs).
  replace (filter _ _) with (t ++ replicate (padding (length t)) pad).
  2: { symmetry. apply filter_all. intros b [Hb|[-> _]%elem_of_replicate]%elem_of_app; [|done].
       by destruct (std_encode_text bs b Hb) as (?&?&?). }
  assert (length (t ++ replicate (padding (length t)) pad) `mod` 4 = 0)%nat as ->.
  { rewrite length_app, length_replicate. unfold padding.
    pose proof (Nat.mod_upper_bound (length t) 4). pose proof (Nat.div_mod_eq (length t) 4).
    destruct (decide (length t `mod` 4 = 0)%nat) as [Hz|Hz].
    - rewrite Hz. cbn. rewrite Nat.add_0_r. done.
    - rewrite (Nat.mod_small (4 - _)) by lia.
      replace (length t + (4 - length t `mod` 4))%nat with ((length t / 4 + 1) * 4)%nat by lia.
      apply Nat.Div0.mod_mul. }
  cbn [Nat.eqb]. rewrite unpad_replicate; [apply std_decode_encode| | |].
  - pose proof (std_encode_length bs) as Hl. fold t in Hl. lia.
  - intros b Hb. by destruct (std_encode_text bs b Hb) as (?&?&?).
  - destruct (decide (t = [])) as [->|]; [by left|by right].
Qed.

Lemma scan_lit_app lit rest : scan_lit lit (lit ++ rest) = Some rest.
Proof. induction lit as [|b lit IH]; [done|]. cbn. by rewrite bool_decide_eq_true_2. Qed.

Lemma random_length n e b : random n e = Ok b → length b = n.
Proof.
  destruct e as [r|]; [|done]. intros [= <-]. unfold zero_bytes.
  rewrite length_take, length_app, length_replicate. lia.
Qed.

Section laws.
Context `{Argon2Laws}.

Lemma parse_hashed salt sum :
  salt ≠ [] → sum ≠ [] →
  parseArgon2id (phc_head ++ std_encode salt ++ dollar ++ std_encode sum) =
    Ok (MkPhc salt sum argonTime argonMemory argonThreads (length sum)).
Proof.
  intros Hs Hh. unfold parseArgon2id.
  assert (split_on 36 (phc_head ++ std_encode salt ++ dollar ++ std_encode sum) =
    [[]; ascii_bytes "argon2id"; ascii_bytes "v=19"; ascii_bytes "m=32768,t=1,p=1";
     std_encode salt; std_encode sum]) as ->.
  { replace (phc_head ++ std_encode salt ++ dollar ++ std_encode sum) with
      ([] ++ Byte.x24 :: (ascii_bytes "argon2id" ++ Byte.x24 :: (ascii_bytes "v=19" ++ Byte.x24 ::
         (ascii_bytes "m=32768,t=1,p=1" ++ Byte.x24 :: (std_encode salt ++ Byte.x24 :: std_encode sum)))))
      by reflexivity.
    rewrite split_on_piece by (done || by intros ? ?%not_elem_of_nil).
    rewrite !split_on_piece; try done; try apply std_encode_no_dollar;
      try (apply Forall_forall; apply (bool_decide_unpack _); by vm_compute).
    by rewrite split_on_last by apply std_encode_no_dollar. }
  rewrite !std_decode_encode, option_guard_True by done.
  assert (scan_lit (ascii_bytes "v=") (ascii_bytes "v=19") ≫= scan_int = Some (19, [])) as -> by by vm_compute.
  cbn [mbind option_bind fst snd]. rewrite option_guard_True by done.
  assert (scan_lit (ascii_bytes "m=") (ascii_bytes "m=32768,t=1,p=1") ≫= scan_uint (2^32) =
    Some (32768, ascii_bytes ",t=1,p=1")) as -> by by vm_compute.
  cbn [mbind option_bind fst snd].
  assert (scan_lit (ascii_bytes ",t=") (ascii_bytes ",t=1,p=1") ≫= scan_uint (2^32) =
    Some (1, ascii_bytes ",p=1")) as -> by by vm_compute.
  cbn [mbind option_bind fst snd].
  assert (scan_lit (ascii_bytes ",p=") (ascii_bytes ",p=1") ≫= scan_uint (2^8) = Some (1, [])) as ->
    by by vm_compute.
  cbn [mbind option_bind fst snd]. by rewrite option_guard_True.
Qed.

(** A stored password hash accepts the password it was made from, and
    another one only if Argon2 derives the same key from both; the check never
    mistakes a hash the service made for a malformed one. *)
Theorem VerifyPassword_HashPassword password entropy encoded :
  HashPassword password entropy = Ok encoded →
  VerifyPassword encoded password = Ok tt ∧
  ∃ salt, length salt = 16%nat ∧ ∀ other,
    VerifyPassword encoded other =
      if bool_decide (argon2_IDKey password salt argonTime argonMemory argonThreads argonKeyLen =
                      argon2_IDKey other salt argonTime argonMemory argonThreads argonKeyLen)
      then Ok tt else Err ErrPasswordMismatch.
Proof.
  unfold HashPassword. destruct (random saltLen entropy) as [salt|] eqn:Hr; [|done].
  apply random_length in Hr. cbn [mbind result_bind]. intros [= <-].
  assert (∀ other, VerifyPassword (phc_head ++ std_encode salt ++ dollar ++
      std_encode (argon2_IDKey password salt argonTime argonMemory argonThreads argonKeyLen)) other =
    if bool_decide (argon2_IDKey password salt argonTime argonMemory argonThreads argonKeyLen =
                    argon2_IDKey other salt argonTime argonMemory argonThreads argonKeyLen)
    then Ok tt else Err ErrPasswordMismatch) as Hv.
  { intros other. unfold VerifyPassword. rewrite parse_hashed.
    - cbn [mbind result_bind phc_salt phc_time phc_memory phc_threads phc_keyLen phc_hash].
      by rewrite (argon2_length password).
    - by intros ->.
    - intros Hn. pose proof (argon2_length password salt argonTime argonMemory argonThreads argonKeyLen) as Hl.
      by rewrite Hn in Hl. }
  split; [by rewrite Hv, bool_decide_eq_true_2|]. by exists salt.
Qed.
End laws.

(** A minted secret has the format the gateway asks for. *)
Lemma MintAPIKey_valid entropy k :
  MintAPIKey entropy = Ok k → ValidSecretFormat (mk_Secret k) = true ∧ mk_Hash k = HashAPIKey (mk_Secret k).
Proof.
  unfold MintAPIKey. destruct (random keyBytes entropy) as [raw|] eqn:Hr; [|done].
  apply random_length in Hr. cbn [mbind result_bind]. intros [= <-]. cbn [mk_Secret mk_Hash].
  split; [|done]. unfold ValidSecretFormat.
  change (scan_lit keyPrefix _) with (scan_lit keyPrefix (keyPrefix ++ b64_encode raw)).
  rewrite scan_lit_app, b64_decode_encode. by rewrite Hr.
Qed.
