(* ===== verification/PlacementLifecycle.v ===== *)
(** * The life of a placement row

    An abstract specification of [fragment_placements]: a small step relation
    [pstep] on the table, whose updates move a row's status along [edge] only.
    [db_step] lists every operation of the store that writes the table, and
    each one refines the specification. *)

From S2P Require Import Prelude GoFloat Schema Nodes Placements Files Uploads.

(** ** The specification *)

Inductive edge : placement_status → placement_status → Prop :=
  | edge_commit : edge PPending PStored
  | edge_lose_pending : edge PPending PLost
  | edge_lose_stored : edge PStored PLost
  | edge_restore : edge PLost PStored
  | edge_expire_pending : edge PPending PExpiring
  | edge_expire_stored : edge PStored PExpiring
  | edge_expire_lost : edge PLost PExpiring
  | edge_delete : edge PExpiring PDeleted.

(** The same copy, its status moved along at most one edge. *)
Definition moves (p q : Placement) : Prop :=
  pl_ID q = pl_ID p ∧ pl_FragmentID q = pl_FragmentID p ∧ pl_NodeID q = pl_NodeID p ∧
  (pl_Status q = pl_Status p ∨ edge (pl_Status p) (pl_Status q)).

(** The sequence and the table. *)
Definition pview (d : DB) : Z * list Placement := (db_next_placement d, db_placements d).

Inductive pstep : Z * list Placement → Z * list Placement → Prop :=
  | ps_update n t sel f :
      (∀ p, sel p = true → moves p (f p)) →
      pstep (n, t) (n, update_where sel f t)
  | ps_insert n t frag node :
      (∀ p, p ∈ t → ¬ (pl_FragmentID p = frag ∧ pl_NodeID p = node)) →
      pstep (n, t) (n + 1, t ++ [MkPlacement n frag node PPending None None None])
  | ps_skip n t : pstep (n, t) (n + 1, t)
  | ps_drop n t (P : Placement → Prop) `{!∀ p, Decision (P p)} :
      (∀ p, p ∈ t → ¬ P p → pl_Status p = PPending) →
      pstep (n, t) (n, filter P t).

(** Row ids are unique and below the sequence; a fragment has at most one row
    per node. *)
Definition pwf (v : Z * list Placement) : Prop :=
  NoDup (pl_ID <$> v.2) ∧ Forall (λ p, pl_ID p < v.1) v.2 ∧
  NoDup ((λ p, (pl_FragmentID p, pl_NodeID p)) <$> v.2).

(** ** Invariants of the specification *)

Lemma moves_refl p : moves p p.
Proof. unfold moves. auto. Qed.

Lemma update_moves (sel : Placement → bool) f p :
  (∀ p, sel p = true → moves p (f p)) → moves p (if sel p then f p else p).
Proof. intros Hf. destruct (sel p) eqn:?; [by apply Hf|apply moves_refl]. Qed.

Lemma pstep_wf v v' : pstep v v' → pwf v → pwf v'.
Proof.
  intros Hs (Hid&Hlt&Huq). destruct Hs as [n t sel f Hf|n t frag node Hn|n t|n t P ? HP];
    unfold pwf in *; simpl in *.
  - rewrite (update_where_fmap sel f pl_ID) by (intros p Hp; by apply Hf).
    rewrite (update_where_fmap sel f (λ p, (pl_FragmentID p, pl_NodeID p)))
      by (intros p Hp; destruct (Hf p Hp) as (_&->&->&_); done).
    split_and!; [done| |done].
    apply Forall_forall. intros q (p&Hp&->)%elem_of_update_where.
    rewrite Forall_forall in Hlt. simpl.
    destruct (update_moves sel f p Hf) as (Hi&_). rewrite Hi. by apply Hlt.
  - rewrite !fmap_app, !NoDup_app. simpl. split_and!.
    + done.
    + intros i (p&Hi&Hp)%list_elem_of_fmap Hn'%list_elem_of_singleton.
      rewrite Forall_forall in Hlt. specialize (Hlt p Hp). lia.
    + apply NoDup_singleton.
    + apply Forall_app. split; [|repeat constructor; simpl; lia].
      eapply Forall_impl; [done|]. simpl. lia.
    + done.
    + intros i (p&Hi&Hp)%list_elem_of_fmap Heq%list_elem_of_singleton.
      rewrite Hi in Heq. injection Heq as ??. by apply (Hn p).
    + apply NoDup_singleton.
  - split_and!; [done| |done]. eapply Forall_impl; [done|]. simpl. lia.
  - split_and!.
    + eapply sublist_NoDup; [done|]. apply fmap_sublist, sublist_filter.
    + rewrite Forall_forall in *. intros p [_ Hp]%list_elem_of_filter. by apply Hlt.
    + eapply sublist_NoDup; [done|]. apply fmap_sublist, sublist_filter.
Qed.

(** A row evolves along the edges, or was pending and is gone. *)
Definition evolves (p : Placement) (v' : Z * list Placement) : Prop :=
  (∃ q, q ∈ v'.2 ∧ pl_ID q = pl_ID p ∧ pl_FragmentID q = pl_FragmentID p ∧
        pl_NodeID q = pl_NodeID p ∧ rtc edge (pl_Status p) (pl_Status q)) ∨
  pl_Status p = PPending.

Lemma pstep_evolves v v' p :
  pstep v v' → p ∈ v.2 → evolves p v'.
Proof.
  intros [n t sel f Hf|n t frag node _|n t|n t P ? HP] Hp; simpl in *.
  - left. exists (if sel p then f p else p). simpl. split.
    { apply elem_of_update_where. eauto. }
    destruct (update_moves sel f p Hf) as (->&->&->&[->|?]); auto using rtc_once, rtc_refl.
  - left. exists p. simpl. rewrite elem_of_app. auto using rtc_refl.
  - left. exists p. auto using rtc_refl.
  - destruct (decide (P p)) as [?|?]; [|right; auto].
    left. exists p. simpl. rewrite list_elem_of_filter. auto using rtc_refl.
Qed.

Lemma no_edge_to_pending s : ¬ edge s PPending.
Proof. by inversion 1. Qed.

Lemma rtc_edge_pending s : rtc edge s PPending → s = PPending.
Proof.
  intros H. apply rtc_inv_r in H as [?|(s'&_&He)]; [done|].
  by apply no_edge_to_pending in He.
Qed.

Lemma psteps_evolve v v' p : rtc pstep v v' → p ∈ v.2 → evolves p v'.
Proof.
  intros Hs. revert p. induction Hs as [v|v v1 v' Hs _ IH]; intros p Hp.
  - left. exists p. auto using rtc_refl.
  - destruct (pstep_evolves _ _ _ Hs Hp) as [(q&Hq&Hid&Hf&Hn&He)|]; [|by right].
    destruct (IH q Hq) as [(r&Hr&Hid'&Hf'&Hn'&He')|Hpend].
    + left. exists r. split_and!; [done|congruence..|etrans; [exact He|exact He']].
    + right. apply rtc_edge_pending. by rewrite <- Hpend.
Qed.

Lemma psteps_wf v v' : rtc pstep v v' → pwf v → pwf v'.
Proof. induction 1; eauto using pstep_wf. Qed.

(** Where a doomed copy can end up. *)
Lemma rtc_edge_expiring s0 s :
  rtc edge s0 s → s0 = PExpiring ∨ s0 = PDeleted → s = PExpiring ∨ s = PDeleted.
Proof.
  induction 1 as [|s1 s2 s3 He _ IH]; [done|].
  intros [-> | ->]; inversion He; subst; auto.
Qed.

Lemma rtc_edge_deleted s : rtc edge PDeleted s → s = PDeleted.
Proof. intros H. apply rtc_inv in H as [?|(s'&He&_)]; [done|inversion He]. Qed.

(** ** The operations *)

Lemma update_where_pstep d sel f :
  (∀ p, sel p = true → moves p (f p)) →
  pstep (pview d) (pview (upd_db_placements (update_where sel f) d)).
Proof. intros Hf. by apply (ps_update (db_next_placement d) (db_placements d)). Qed.

(** An update that moves the status of the selected rows from the states the
    guard allows. *)
Ltac solve_moves :=
  let p := fresh "p" in let Hp := fresh "Hp" in
  intros p Hp; unfold moves;
  repeat match goal with
  | H : _ && _ = true |- _ => apply andb_true_iff in H as [??]
  | H : _ || _ = true |- _ => apply orb_true_iff in H as [?|?]
  | H : bool_decide _ = true |- _ => apply bool_decide_eq_true in H
  | H : live_placement _ = true |- _ => unfold live_placement in H
  end; split_and!; try done; right; simpl;
  match goal with H : pl_Status _ = _ |- _ => rewrite H end; constructor.

Section refinement.
Implicit Types d : DB.

Lemma MarkPlacementsLostByNode_psteps now node d :
  rtc pstep (pview d) (pview (MarkPlacementsLostByNode now node d).2).
Proof.
  apply rtc_once, update_where_pstep. unfold on_node_live. solve_moves.
Qed.

Lemma MarkPlacementLost_psteps now frag node d :
  rtc pstep (pview d) (pview (MarkPlacementLost now frag node d).2).
Proof.
  unfold MarkPlacementLost. destruct (omap _ _); [done|].
  apply rtc_once, update_where_pstep. unfold this_copy_live. solve_moves.
Qed.

Lemma store_pending_psteps now frag d :
  rtc pstep (pview d) (pview (store_pending now frag d)).
Proof. apply rtc_once, update_where_pstep. solve_moves. Qed.

Lemma store_all_psteps now frags d :
  rtc pstep (pview d) (pview (foldl (λ d fid, store_pending now fid d) d frags)).
Proof.
  revert d. induction frags as [|fid frags IH]; intros d; simpl; [done|].
  etrans; [apply (store_pending_psteps now fid)|apply IH].
Qed.

Lemma RestorePlacements_psteps now ids d :
  rtc pstep (pview d) (pview (RestorePlacements now ids d)).
Proof. apply rtc_once, update_where_pstep. unfold lost_among. solve_moves. Qed.

Lemma ExpirePlacements_psteps ids d :
  rtc pstep (pview d) (pview (ExpirePlacements ids d)).
Proof. apply rtc_once, update_where_pstep. unfold lost_among. solve_moves. Qed.

Lemma MarkPlacementDeleted_psteps id d :
  rtc pstep (pview d) (pview (MarkPlacementDeleted id d)).
Proof. apply rtc_once, update_where_pstep. solve_moves. Qed.

Lemma insert_placement_psteps frag node d :
  rtc pstep (pview d) (pview (insert_placement frag node d).2).
Proof.
  apply rtc_once. unfold insert_placement.
  destruct (existsb _ _) eqn:Hex; [apply (ps_skip _ (db_placements d))|].
  destruct (_ || _); [apply (ps_skip _ (db_placements d))|].
  apply (ps_insert (db_next_placement d) (db_placements d)).
  intros p Hp [Hf Hn]. apply Is_true_false_2 in Hex as []. 
  apply Is_true_true, existsb_exists. exists p.
  split; [by apply list_elem_of_In|].
  by rewrite !bool_decide_eq_true_2.
Qed.

Lemma InsertPlacements_psteps pairs d :
  rtc pstep (pview d) (pview (InsertPlacements pairs d).2).
Proof.
  unfold InsertPlacements.
  apply (for_each_inv (λ d', rtc pstep (pview d) (pview d'))); [|done].
  intros [frag node] d' _ H. etrans; [exact H|apply insert_placement_psteps].
Qed.

Lemma AbortUpload_psteps version d :
  rtc pstep (pview d) (pview (AbortUpload version d)).
Proof.
  unfold AbortUpload.
  assert (pstep (pview d) (pview (upd_db_placements
            (filter (λ p, ¬ (pl_Status p = PPending ∧ version_of d p = Some version))) d))).
  { apply (ps_drop (db_next_placement d) (db_placements d)). intros p _ Hp.
    by apply dec_stable in Hp as [? _]. }
  case_if; by apply rtc_once.
Qed.

Lemma CommitUpload_psteps now owner version stored d :
  rtc pstep (pview d) (pview (CommitUpload now owner version stored d).2).
Proof.
  unfold CommitUpload, transaction.
  destruct (VersionByID owner version d) as [[[f v]|e] d1] eqn:Hv;
    pose proof (f_equal snd Hv) as Hd; simpl in Hd; subst d1.
  2:{ unfold mbind, M_bind. by rewrite Hv. }
  unfold mbind at 1, M_bind at 1. rewrite Hv. cbn [fst snd].
  destruct (v_Status v); try done.
  unfold mbind, M_bind, modify, gets, guard_err. cbn [fst snd].
  case_if; [done|]. apply store_all_psteps.
Qed.

Lemma SoftDeleteFile_psteps now owner id d :
  rtc pstep (pview d) (pview (SoftDeleteFile now owner id d).2).
Proof.
  unfold SoftDeleteFile, mbind, M_bind, modify.
  destruct (FileByID owner id d) as [[f|e] d1] eqn:Hf;
    pose proof (f_equal snd Hf) as Hd; simpl in Hd; subst d1; [|done].
  cbn [fst snd]. apply rtc_once.
  apply (ps_update (db_next_placement d) (db_placements d)). solve_moves.
Qed.
End refinement.

(** ** The store as a whole *)

#[local] Instance frame_insert_file now b p : Frame pview (insert_file now b p).
Proof. intros d. unfold insert_file. simpl. by case_if. Qed.
#[local] Instance frame_insert_version now m e f : Frame pview (insert_version now m e f).
Proof. done. Qed.
#[local] Instance frame_insert_chunk v ch : Frame pview (insert_chunk v ch).
Proof. intros d. unfold insert_chunk. simpl. by case_if. Qed.
#[local] Instance frame_insert_fragment c fr : Frame pview (insert_fragment c fr).
Proof. intros d. unfold insert_fragment. simpl. by case_if. Qed.
#[local] Instance frame_BucketByID o b : Frame pview (BucketByID o b).
Proof. done. Qed.

Lemma BeginUpload_pview now owner m : Frame pview (BeginUpload now owner m).
Proof. unfold BeginUpload, insert_plan, insert_manifest_chunk. apply _. Qed.

(** One call of the store by any service, with any arguments. *)
Inductive store_step : DB → DB → Prop :=
  | ss_begin now owner m d : store_step d (BeginUpload now owner m d).2
  | ss_insert pairs d : store_step d (InsertPlacements pairs d).2
  | ss_commit now owner v frags d : store_step d (CommitUpload now owner v frags d).2
  | ss_abort v d : store_step d (AbortUpload v d)
  | ss_lose_node now node d : store_step d (MarkPlacementsLostByNode now node d).2
  | ss_lose_one now frag node d : store_step d (MarkPlacementLost now frag node d).2
  | ss_commit_repair now frags d : store_step d (CommitRepairPlacements now frags d)
  | ss_restore now ids d : store_step d (RestorePlacements now ids d)
  | ss_expire ids d : store_step d (ExpirePlacements ids d)
  | ss_deleted id d : store_step d (MarkPlacementDeleted id d)
  | ss_soft_delete now owner id d : store_step d (SoftDeleteFile now owner id d).2
  | ss_touch now id u c d : store_step d (TouchNodeStatus now id u c d).2
  | ss_scan now s o d : store_step d (TransitionStaleNodes now s o d).2
  | ss_reputation now id x d : store_step d (ApplyReputationEvent now id x d).2.

Lemma store_step_psteps d d' : store_step d d' → rtc pstep (pview d) (pview d').
Proof.
  destruct 1.
  - by rewrite (BeginUpload_pview now owner m d).
  - apply InsertPlacements_psteps.
  - apply CommitUpload_psteps.
  - apply AbortUpload_psteps.
  - apply MarkPlacementsLostByNode_psteps.
  - apply MarkPlacementLost_psteps.
  - apply store_all_psteps.
  - apply RestorePlacements_psteps.
  - apply ExpirePlacements_psteps.
  - apply MarkPlacementDeleted_psteps.
  - apply SoftDeleteFile_psteps.
  - unfold TouchNodeStatus. by destruct (find_by _ _).
  - done.
  - unfold ApplyReputationEvent. by destruct (find_by _ _).
Qed.

Lemma store_steps_psteps d d' : rtc store_step d d' → rtc pstep (pview d) (pview d').
Proof.
  induction 1 as [|d d1 d' Hs _ IH]; [done|].
  etrans; [by apply store_step_psteps|exact IH].
Qed.


(** C6: Once a copy is expiring or deleted it is never served again: after any
    sequence of store calls its row is still there, expiring or deleted, and a
    deleted row stays deleted. *)
Theorem doomed_copies_stay_doomed d d' p :
  rtc store_step d d' → p ∈ db_placements d →
  pl_Status p = PExpiring ∨ pl_Status p = PDeleted →
  ∃ q, q ∈ db_placements d' ∧ pl_ID q = pl_ID p ∧
       pl_FragmentID q = pl_FragmentID p ∧ pl_NodeID q = pl_NodeID p ∧
       (pl_Status q = PExpiring ∨ pl_Status q = PDeleted) ∧
       (pl_Status p = PDeleted → pl_Status q = PDeleted).
Proof.
  intros Hs Hp Hd.
  destruct (psteps_evolve _ _ p (store_steps_psteps _ _ Hs) Hp)
    as [(q&Hq&Hid&Hf&Hn&He)|Hpend]; [|by destruct Hd; congruence].
  exists q. split_and!; try done.
  - by eapply rtc_edge_expiring.
  - intros Hdel. rewrite Hdel in He. by apply rtc_edge_deleted in He.
Qed.
