(* ===== verification/Scheduler.v ===== *)
(** * The scheduler: [src/internal/scheduler/scheduler.go] and [score.go]

    [Place] assigns each fragment to an online, live node under hard caps per
    chunk, by weighted sampling on a float64 score.  The random draw for the
    i-th need is [draw i], a value of [rand.Int(rand.Reader, 1 << 53)], or
    [None] when the reader fails. *)

From S2P Require Import Prelude GoFloat Schema Nodes World Placements.

Definition RegionCap : Z := 3.
Definition ASNCap : Z := 3.
Definition OwnerCap : Z := 2.
Definition ProbationQuota : Z := 2.

Record Need := MkNeed { nd_FragmentID : uuid; nd_ChunkID : uuid; nd_SizeBytes : Z }.
Record Assignment := MkAssignment { as_FragmentID : uuid; as_Node : Node }.

(** ** Scores *)

Definition latencyFactor (ms : float) : float :=
  let one := F64.one in
  if fle ms F32.zero then one
  else F64.div one (F64.add one (F64.div (F64.of_f32 ms) (F64.of_Z 50))).

Definition nodeScore (n : Node) : float :=
  let cap :=
    if 0 <? n_CapacityBytes n
    then clamp F64.zero F64.one
           (F64.div (F64.of_Z (sub64 (n_CapacityBytes n) (n_UsedBytes n)))
                    (F64.of_Z (n_CapacityBytes n)))
    else F64.zero in
  let up := F64.of_f32 (n_UptimeRatio n) in
  let up := if fle up F64.zero then F64.const 1 2 else up in
  let up := if fgt up F64.one then F64.one else up in
  let rep := clamp F64.zero F64.one (F64.of_f32 (n_Reputation n)) in
  let lat := latencyFactor (n_LatencyMS n) in
  let pressure := clamp F64.zero F64.one
    (F64.add (F64.mul (F64.of_f32 (n_CPULoad n)) (F64.const 1 2))
             (F64.mul (F64.of_f32 (n_MemUsedRatio n)) (F64.const 1 2))) in
  let s := F64.sub
    (F64.add (F64.add (F64.add (F64.add
       (F64.mul (F64.const 20 100) cap) (F64.mul (F64.const 30 100) up))
       (F64.mul (F64.const 30 100) rep)) (F64.mul (F64.const 10 100) lat))
       (F64.const 10 100)) pressure in
  let eps := F64.const 1 1000000 in
  if flt s eps then eps else s.

(** ** Occupancy of one chunk *)

Record chunkUse := MkUse {
  u_nodes : gset uuid; u_regions : gmap string Z; u_asns : gmap Z Z; u_owners : gmap uuid Z }.

Definition newChunkUse : chunkUse := MkUse ∅ ∅ ∅ ∅.

(** A Go map read: the zero value when the key is absent. *)
Definition get {K} `{Countable K} (m : gmap K Z) (k : K) : Z := default 0 (m !! k).
Definition incr {K} `{Countable K} (k : K) (m : gmap K Z) : gmap K Z := <[k := get m k + 1]> m.

Definition add (u : chunkUse) (n : Node) : chunkUse :=
  MkUse ({[n_ID n]} ∪ u_nodes u)
    (if bool_decide (n_Region n = EmptyString) then u_regions u
     else incr (n_Region n) (u_regions u))
    (match n_ASN n with Some a => incr a (u_asns u) | None => u_asns u end)
    (incr (n_OwnerID n) (u_owners u)).

Definition inProbation (now : Z) (n : Node) : bool :=
  match n_ProbationUntil n with Some t => now <? t | None => false end.

Definition eligible (now : Z) (n : Node) (used : chunkUse) : bool :=
  if bool_decide (n_ID n ∈ u_nodes used) then false
  else if negb (bool_decide (n_Region n = EmptyString)) &&
          (RegionCap <=? get (u_regions used) (n_Region n)) then false
  else if match n_ASN n with Some a => ASNCap <=? get (u_asns used) a | None => false end then false
  else if OwnerCap <=? get (u_owners used) (n_OwnerID n) then false
  else if sub64 (n_CapacityBytes n) (n_UsedBytes n) <=? 0 then false
  else if inProbation now n && (ProbationQuota <=? n_LivePlacements n) then false
  else true.

(** [for i, w := range weights { acc += w; if x <= acc { return cand[i] } }] *)
Fixpoint walk (x acc : float) (cand : list Node) (weights : list float) (last : Node) : Node :=
  match cand, weights with
  | n :: cand', w :: weights' =>
      let acc := F64.add acc w in
      if fle x acc then n else walk x acc cand' weights' last
  | _, _ => last
  end.

Definition pick (now : Z) (draw : option Z) (nodes : list Node) (used : chunkUse) :
    result store_error Node :=
  let cand := filter (λ n, eligible now n used = true) nodes in
  let weights := nodeScore <$> cand in
  let sum := foldl F64.add F64.zero weights in
  match last cand with
  | None => Err EUnavailable
  | Some final =>
      let '(sum, weights) :=
        if fle sum F64.zero
        then (F64.of_Z (Z.of_nat (length cand)), (λ _, F64.one) <$> weights)
        else (sum, weights) in
      match draw with
      | None => Err EQuery
      | Some r =>
          let x := F64.mul (F64.div (F64.of_Z r) (F64.of_Z (2^53))) sum in
          Ok (walk x F64.zero cand weights final)
      end
  end.

(** ** The live fleet *)

Definition with_stats (st : option NodeStats) (n : Node) : Node :=
  match st with
  | None => n
  | Some st =>
      let zero_then (v : option float) (old : float) :=
        if SFeqb old F32.zero then default F32.zero v else old in
      upd_n_UptimeRatio (λ _, ns_UptimeRatio st)
        (upd_n_LatencyMS (zero_then (ns_AvgLatencyMS st))
           (upd_n_CPULoad (zero_then (ns_CPULoad st))
              (upd_n_MemUsedRatio (zero_then (ns_MemUsedRatio st)) n)))
  end.

Definition with_metrics (m : option Metrics) (n : Node) : Node :=
  match m with
  | None => n
  | Some m =>
      upd_n_LatencyMS (λ _, F32.of_f64 (m_DiskReadLatencyMS m))
        (upd_n_CPULoad (λ _, F32.of_f64 (m_CPULoad m))
           (upd_n_MemUsedRatio (λ _, F32.of_f64 (m_MemUsedRatio m)) n))
  end.

Definition fleet (now : Z) (d : DB) (r : Redis) : list Node :=
  (λ n, upd_n_LivePlacements (λ _, CountLivePlacementsAll d (n_ID n))
          (with_metrics (metrics_of now r (n_ID n))
             (with_stats (LatestNodeStats d (n_ID n)) n))) <$>
    filter (λ n, is_live now r (n_ID n) && (0 <? sub64 (n_CapacityBytes n) (n_UsedBytes n)) = true)
      (ListOnlineNodes now d).

(** ** Placing *)

Definition chunkIDs (needs : list Need) : list uuid := distinct (nd_ChunkID <$> needs).

Definition chunk_use (used : gmap uuid chunkUse) (c : uuid) : chunkUse :=
  default newChunkUse (used !! c).

(** The occupants the store reports, folded into [usedInChunk]. *)
Definition occupied (occ : list Occupant) : gmap uuid chunkUse :=
  foldl (λ used o, <[o_ChunkID o := add (chunk_use used (o_ChunkID o)) (o_Node o)]> used) ∅ occ.

Definition bump_live (id : uuid) (live : list Node) : list Node :=
  (λ n, if bool_decide (n_ID n = id) then upd_n_LivePlacements (λ c, c + 1) n else n) <$> live.

(** The loop over the needs: a need that cannot be placed is skipped. *)
Fixpoint place_loop (now : Z) (draw : nat → option Z) (i : nat) (live : list Node)
    (used : gmap uuid chunkUse) (needs : list Need) : list (Need * Node) :=
  match needs with
  | [] => []
  | need :: needs' =>
      let u := chunk_use used (nd_ChunkID need) in
      match pick now (draw i) live u with
      | Err _ => place_loop now draw (S i) live (<[nd_ChunkID need := u]> used) needs'
      | Ok n =>
          (need, n) ::
          place_loop now draw (S i) (bump_live (n_ID n) live)
            (<[nd_ChunkID need := add u n]> used) needs'
      end
  end.

Definition reserve (now ttl : Z) (placed : list (Need * Node)) (r : Redis) : Redis :=
  foldl (λ r '(need, n),
    upd_rd_reserve <[(n_ID n, nd_FragmentID need) := (nd_SizeBytes need, now + ttl)]> r) r placed.

Definition Place (now ttl : Z) (draw : nat → option Z) (needs : list Need) :
    service (list Assignment) := λ w,
  let ttl := if ttl <=? 0 then 15 * minute else ttl in
  let live := fleet now (w_db w) (w_redis w) in
  match live with
  | [] => (Err (StoreErr EUnavailable), w)
  | _ =>
      let occ := ListOccupants (chunkIDs needs) (w_db w) in
      let placed := place_loop now draw 0 live (occupied occ) needs in
      (Ok ((λ '(need, n), MkAssignment (nd_FragmentID need) n) <$> placed),
       upd_w_redis (reserve now ttl placed) w)
  end.

(** ** Occupancy counts *)

Definition count_region (r : string) (ns : list Node) : Z :=
  Z.of_nat (count_where (λ n, bool_decide (n_Region n = r)) ns).
Definition count_asn (a : Z) (ns : list Node) : Z :=
  Z.of_nat (count_where (λ n, bool_decide (n_ASN n = Some a)) ns).
Definition count_owner (o : uuid) (ns : list Node) : Z :=
  Z.of_nat (count_where (λ n, bool_decide (n_OwnerID n = o)) ns).

(** A [chunkUse] summarises the nodes added to it. *)
Record summarises (u : chunkUse) (ns : list Node) : Prop := {
  sum_nodes : ∀ id, id ∈ u_nodes u ↔ id ∈ (n_ID <$> ns);
  sum_regions : ∀ r, r ≠ EmptyString → get (u_regions u) r = count_region r ns;
  sum_asns : ∀ a, get (u_asns u) a = count_asn a ns;
  sum_owners : ∀ o, get (u_owners u) o = count_owner o ns }.

Lemma get_incr {K} `{Countable K} (k k' : K) m :
  get (incr k m) k' = get m k' + (if bool_decide (k = k') then 1 else 0).
Proof.
  unfold get, incr. destruct (decide (k = k')) as [->|Hne].
  - by rewrite lookup_insert_eq, bool_decide_eq_true_2.
  - rewrite lookup_insert_ne, bool_decide_eq_false_2 by done. lia.
Qed.

Lemma summarises_new : summarises newChunkUse [].
Proof. split; unfold get; intros; rewrite ?lookup_empty; [set_solver|done..]. Qed.

Lemma count_snoc (p : Node → bool) ns n :
  Z.of_nat (count_where p (ns ++ [n])) =
  Z.of_nat (count_where p ns) + (if p n then 1 else 0).
Proof.
  rewrite count_where_app, count_where_cons. change (count_where p []) with 0%nat.
  case_if; lia.
Qed.

Lemma summarises_add u ns n : summarises u ns → summarises (add u n) (ns ++ [n]).
Proof.
  intros [Hn Hr Ha Ho]. split.
  - intros id. rewrite fmap_app, elem_of_app. simpl. rewrite elem_of_union, elem_of_singleton, <- Hn, list_elem_of_singleton. tauto.
  - intros r Hne. unfold count_region. simpl. rewrite count_snoc. fold (count_region r ns).
    rewrite <- Hr by done. case_if.
    + apply bool_decide_eq_true in Eif. rewrite bool_decide_eq_false_2 by congruence. lia.
    + by rewrite get_incr.
  - intros a. unfold count_asn. simpl. rewrite count_snoc. fold (count_asn a ns).
    rewrite <- Ha. destruct (n_ASN n) as [b|].
    + rewrite get_incr. f_equal. erewrite bool_decide_ext; [done|]. split; congruence.
    + rewrite bool_decide_eq_false_2 by done. lia.
  - intros o. unfold count_owner. simpl. rewrite count_snoc. fold (count_owner o ns).
    by rewrite <- Ho, get_incr.
Qed.

(** What [eligible] guarantees, in terms of the nodes already used. *)
Lemma eligible_spec now n u ns :
  summarises u ns → eligible now n u = true →
  (n_ID n ∉ (n_ID <$> ns)) ∧
  (n_Region n ≠ EmptyString → count_region (n_Region n) ns < RegionCap) ∧
  (∀ a, n_ASN n = Some a → count_asn a ns < ASNCap) ∧
  count_owner (n_OwnerID n) ns < OwnerCap ∧
  0 < sub64 (n_CapacityBytes n) (n_UsedBytes n) ∧
  (inProbation now n = true → n_LivePlacements n < ProbationQuota).
Proof.
  intros [Hn Hr Ha Ho] He. unfold eligible in He.
  repeat case_if_in He; try done. split_and!.
  - rewrite <- Hn. by apply bool_decide_eq_false in Eif.
  - intros Hne. rewrite <- Hr by done. rewrite bool_decide_eq_false_2 in Eif0 by done.
    simpl in Eif0. lia.
  - intros a Hna. rewrite Hna in Eif1. rewrite <- Ha. lia.
  - rewrite <- Ho. lia.
  - lia.
  - intros Hp. rewrite Hp in Eif4. simpl in Eif4. lia.
Qed.

(** ** Sampling *)

Lemma walk_elem x acc cand ws final :
  walk x acc cand ws final ∈ cand ∨ walk x acc cand ws final = final.
Proof.
  revert acc ws. induction cand as [|n cand IH]; intros acc [|w ws]; simpl; auto.
  case_if; [left; left|]. destruct (IH (F64.add acc w) ws) as [?|?]; [left; by right|auto].
Qed.

Lemma pick_sound now draw nodes used n :
  pick now draw nodes used = Ok n → n ∈ nodes ∧ eligible now n used = true.
Proof.
  unfold pick. set (cand := filter _ nodes).
  assert (∀ n, n ∈ cand → n ∈ nodes ∧ eligible now n used = true) as Hc
    by (intros m; unfold cand; by intros [??]%list_elem_of_filter).
  destruct (last cand) as [final|] eqn:Hl; [|done].
  assert (final ∈ cand) as Hf by by apply last_Some_elem_of.
  case_if; destruct draw as [r|]; (intros [= <-] || done); apply Hc;
    match goal with |- walk ?x ?a ?c ?w ?f ∈ _ =>
      destruct (walk_elem x a c w f) as [H|H]; [done|by rewrite H]
    end.
Qed.

Lemma pick_complete now draw nodes used e :
  pick now draw nodes used = Err e →
  draw = None ∨ ∀ n, n ∈ nodes → eligible now n used = false.
Proof.
  unfold pick. set (cand := filter _ nodes).
  destruct (last cand) as [final|] eqn:Hl.
  - case_if; destruct draw; intros; by auto.
  - intros _. right. intros n Hn. apply last_None in Hl.
    destruct (eligible now n used) eqn:He; [|done].
    assert (n ∈ cand) as Hin by by apply list_elem_of_filter.
    rewrite Hl in Hin. by apply not_elem_of_nil in Hin.
Qed.

(** Whatever the draw and the float scores, [pick] returns a node of the
    list that satisfies every hard constraint; it fails only if no node does
    (or the random reader fails), so an eligible node always means a pick. *)
Theorem pick_spec now draw nodes used :
  match pick now draw nodes used with
  | Ok n => n ∈ nodes ∧ eligible now n used = true
  | Err e => draw = None ∨ (∀ n, n ∈ nodes → eligible now n used = false)
  end.
Proof.
  destruct (pick now draw nodes used) eqn:Hp.
  - by eapply pick_sound.
  - by eapply pick_complete.
Qed.

(** ** Hard caps *)

Definition placed_in (c : uuid) (placed : list (Need * Node)) : list Node :=
  snd <$> filter (λ x, nd_ChunkID x.1 = c) placed.

(** The new nodes of a chunk are distinct, none already held a copy, and each
    one's region, ASN and owner stays within its cap, occupants included. *)
Definition caps_ok (occ new : list Node) : Prop :=
  NoDup (n_ID <$> new) ∧ (∀ n, n ∈ new → n_ID n ∉ (n_ID <$> occ)) ∧
  ∀ n, n ∈ new →
    (n_Region n ≠ EmptyString → count_region (n_Region n) (occ ++ new) ≤ RegionCap) ∧
    (∀ a, n_ASN n = Some a → count_asn a (occ ++ new) ≤ ASNCap) ∧
    count_owner (n_OwnerID n) (occ ++ new) ≤ OwnerCap.

(** Adding one more node below the cap keeps every class of the new nodes
    within it. *)
Lemma count_cap_cons (p : Node → bool) cap occ n new :
  Z.of_nat (count_where p occ) < cap →
  (∀ m, m ∈ new → p m = true → Z.of_nat (count_where p ((occ ++ [n]) ++ new)) ≤ cap) →
  Z.of_nat (count_where p (occ ++ n :: new)) ≤ cap.
Proof.
  intros Hlt Hnew. rewrite cons_middle, app_assoc.
  destruct (decide (count_where p new = 0)%nat) as [H0|Hpos].
  - rewrite count_where_app, H0, Nat.add_0_r, count_snoc. case_if; lia.
  - apply count_where_pos in Hpos as (m&Hm&Hp). by eapply Hnew.
Qed.

Lemma caps_ok_cons now occ u n new :
  summarises u occ → eligible now n u = true →
  caps_ok (occ ++ [n]) new → caps_ok occ (n :: new).
Proof.
  intros Hu He (Hnd&Hout&Hcap).
  destruct (eligible_spec now n u occ Hu He) as (Hid&Hr&Ha&Ho&_).
  assert (∀ m, m ∈ new → n_ID m ≠ n_ID n ∧ n_ID m ∉ (n_ID <$> occ)) as Hout'.
  { intros m Hm. specialize (Hout m Hm). rewrite fmap_app, elem_of_app in Hout. split.
    - intros Heq. apply Hout. right. simpl. rewrite Heq. left.
    - intros Hin. apply Hout. by left. }
  split_and!.
  - simpl. constructor; [|done].
    intros (m&Heq&Hm)%list_elem_of_fmap. by destruct (Hout' m Hm) as [[] _].
  - intros m [->|Hm]%elem_of_cons; [done|by destruct (Hout' m Hm)].
  - assert (∀ m, m ∈ new →
      (n_Region m ≠ EmptyString → count_region (n_Region m) (occ ++ n :: new) ≤ RegionCap) ∧
      (∀ a, n_ASN m = Some a → count_asn a (occ ++ n :: new) ≤ ASNCap) ∧
      count_owner (n_OwnerID m) (occ ++ n :: new) ≤ OwnerCap) as Hnew.
    { intros m Hm. rewrite cons_middle, app_assoc. by apply Hcap. }
    intros m [->|Hm]%elem_of_cons; [|by apply Hnew]. split_and!.
    + intros Hne. apply count_cap_cons; [by apply Hr|].
      intros m' Hm' Heq%bool_decide_eq_true. rewrite <- Heq. apply Hcap; congruence.
    + intros a Hna. apply count_cap_cons; [by apply Ha|].
      intros m' Hm' Heq%bool_decide_eq_true. by apply (Hcap m' Hm').
    + apply count_cap_cons; [done|].
      intros m' Hm' Heq%bool_decide_eq_true. rewrite <- Heq. by apply Hcap.
Qed.

Lemma chunk_use_insert used c u c' :
  chunk_use (<[c := u]> used) c' = if decide (c = c') then u else chunk_use used c'.
Proof.
  unfold chunk_use. destruct (decide (c = c')) as [->|]; by rewrite ?lookup_insert_eq, ?lookup_insert_ne.
Qed.

Lemma place_loop_caps now draw needs i live used base :
  (∀ c, summarises (chunk_use used c) (base c)) →
  ∀ c, caps_ok (base c) (placed_in c (place_loop now draw i live used needs)).
Proof.
  revert i live used base.
  induction needs as [|need needs IH]; intros i live used base Hs c; simpl.
  { split_and!; [constructor|..]; by intros ? ?%not_elem_of_nil. }
  set (u := chunk_use used (nd_ChunkID need)).
  destruct (pick now (draw i) live u) as [n|e] eqn:Hp.
  - apply pick_sound in Hp as [_ He]. unfold placed_in. rewrite filter_cons.
    set (base' c := if decide (nd_ChunkID need = c) then base c ++ [n] else base c).
    assert (∀ c, summarises (chunk_use (<[nd_ChunkID need:=add u n]> used) c) (base' c)) as Hs'.
    { intros c'. rewrite chunk_use_insert. unfold base'.
      destruct (decide _) as [<-|]; [apply summarises_add|]; apply Hs. }
    specialize (IH (S i) (bump_live (n_ID n) live) _ _ Hs' c).
    unfold base', placed_in in IH. simpl. destruct (decide (nd_ChunkID need = c)) as [<-|]; [|done].
    simpl. by eapply caps_ok_cons.
  - apply IH. intros c'. rewrite chunk_use_insert.
    destruct (decide _) as [<-|]; apply Hs.
Qed.

Lemma occupied_summarises occ c :
  summarises (chunk_use (occupied occ) c)
    (o_Node <$> filter (λ o, o_ChunkID o = c) occ).
Proof.
  unfold occupied. induction occ as [|o occ IH] using rev_ind.
  { unfold chunk_use. simpl. rewrite lookup_empty. apply summarises_new. }
  rewrite foldl_snoc, filter_app, fmap_app, chunk_use_insert, filter_cons.
  simpl. destruct (decide (o_ChunkID o = c)) as [<-|].
  - by apply summarises_add.
  - by rewrite app_nil_r.
Qed.

(** ** The nodes of the fleet *)

(** The columns of a node row that statistics and metrics do not overwrite. *)
Definition host (n : Node) : uuid * uuid * string * option Z * Z * Z :=
  (n_ID n, n_OwnerID n, n_Region n, n_ASN n, n_CapacityBytes n, n_UsedBytes n).

Lemma host_with_stats st n : host (with_stats st n) = host n.
Proof. by destruct st. Qed.
Lemma host_with_metrics m n : host (with_metrics m n) = host n.
Proof. by destruct m. Qed.

(** What the scheduler promises of a node it hands out. *)
Definition usable (now : Z) (w : World) (n : Node) : Prop :=
  ∃ n0, n0 ∈ db_nodes (w_db w) ∧ host n0 = host n ∧ selectable now n0 = true ∧
    is_live now (w_redis w) (n_ID n0) = true ∧
    0 < sub64 (n_CapacityBytes n0) (n_UsedBytes n0).

Lemma fleet_usable now w n : n ∈ fleet now (w_db w) (w_redis w) → usable now w n.
Proof.
  unfold fleet. intros (n0&->&Hin)%list_elem_of_fmap.
  apply list_elem_of_filter in Hin as [[Hl Hs]%andb_true_iff Hon].
  unfold ListOnlineNodes in Hon. rewrite elem_of_order_by in Hon.
  apply list_elem_of_filter in Hon as [Hsel Hin].
  exists n0. split_and!; try done; [|lia].
  change (host n0 = host (with_metrics (metrics_of now (w_redis w) (n_ID n0))
            (with_stats (LatestNodeStats (w_db w) (n_ID n0)) n0))).
  by rewrite host_with_metrics, host_with_stats.
Qed.

Lemma place_loop_from now w draw needs i live used :
  (∀ n, n ∈ live → usable now w n) →
  ∀ x, x ∈ place_loop now draw i live used needs → usable now w x.2.
Proof.
  revert i live used. induction needs as [|need needs IH]; intros i live used Hl x; simpl.
  { by intros ?%not_elem_of_nil. }
  destruct (pick _ _ _ _) as [n|e] eqn:Hp; [|by apply IH].
  apply pick_sound in Hp as [Hn _].
  intros [->|Hx]%elem_of_cons; [by apply Hl|]. revert x Hx. apply IH.
  unfold bump_live. intros m (m0&->&Hm0)%list_elem_of_fmap.
  specialize (Hl m0 Hm0). by case_match.
Qed.

Lemma place_loop_needs now draw needs i live used :
  fst <$> place_loop now draw i live used needs `sublist_of` needs.
Proof.
  revert i live used. induction needs as [|need needs IH]; intros; simpl; [done|].
  destruct (pick _ _ _ _) as [n|e]; simpl; by constructor.
Qed.

(** ** Reservations *)

Lemma reserve_lookup now ttl placed r k :
  rd_reserve (reserve now ttl placed r) !! k =
  match last (filter (λ x, (n_ID x.2, nd_FragmentID x.1) = k) placed) with
  | Some x => Some (nd_SizeBytes x.1, now + ttl)
  | None => rd_reserve r !! k
  end.
Proof.
  unfold reserve. induction placed as [|[need n] placed IH] using rev_ind; [done|].
  rewrite foldl_snoc, filter_app, filter_cons, filter_nil.
  destruct (decide ((n_ID n, nd_FragmentID need) = k)) as [<-|Hne].
  - simpl. rewrite decide_True by done. rewrite last_snoc. by apply lookup_insert_eq.
  - simpl. rewrite decide_False by done. rewrite app_nil_r, <- IH. by apply lookup_insert_ne.
Qed.

(** C7: [Place] never hands out a node that is not in the node table, online
    and unrevoked, alive in Redis and with free space; per chunk, the new nodes
    are distinct, none already holds or awaits a copy of the chunk, and with
    the existing occupants each one's region, ASN and owner stays within its
    cap.  The needs placed are a sublist of those asked for, each placed
    fragment is reserved on its node until the TTL, and the database is not
    touched. *)
Theorem Place_spec now ttl draw needs w out w' :
  Place now ttl draw needs w = (Ok out, w') →
  ∃ placed : list (Need * Node),
    out = (λ x, MkAssignment (nd_FragmentID x.1) x.2) <$> placed ∧
    placed.*1 `sublist_of` needs ∧
    (∀ x, x ∈ placed → usable now w x.2) ∧
    (∀ c, caps_ok
       (o_Node <$> filter (λ o, o_ChunkID o = c) (ListOccupants (chunkIDs needs) (w_db w)))
       (placed_in c placed)) ∧
    (∀ x, x ∈ placed → ∃ size,
       rd_reserve (w_redis w') !! (n_ID x.2, nd_FragmentID x.1) =
         Some (size, now + (if ttl <=? 0 then 15 * minute else ttl))) ∧
    w_db w' = w_db w ∧ w_bus w' = w_bus w.
Proof.
  unfold Place. destruct (fleet _ _ _) as [|f fs] eqn:Hf; [done|]. rewrite <- Hf.
  set (t := if ttl <=? 0 then _ else _). set (p := place_loop _ _ _ _ _ _).
  intros [= <- <-]. exists p. split_and!; try done.
  - by apply list_fmap_ext; intros ? [].
  - apply place_loop_needs.
  - apply place_loop_from, fleet_usable.
  - apply place_loop_caps, occupied_summarises.
  - intros x Hx. simpl. rewrite reserve_lookup.
    destruct (last _) as [y|] eqn:Hl; [by eexists|].
    apply last_None in Hl. assert (x ∈ []) as []%not_elem_of_nil.
    rewrite <- Hl. by apply list_elem_of_filter.
Qed.
