(* ===== verification/Apierr.v ===== *)
(** * Public errors: [src/internal/apierr/apierr.go]

    The error codes of the HTTP services and the status each maps to.  A
    handler returns [result code A]: [Err c] is [apierr.Write(w, c, …)]. *)

From S2P Require Import Prelude.

Inductive code :=
  | CodeInvalidRequest | CodeUnauthenticated | CodeForbidden | CodeNotFound
  | CodeConflict | CodeAlreadyExists | CodeRateLimited | CodeInternal
  | CodeManifestInvalid | CodePlacementUnavailable | CodeQuotaExceeded.
#[export] Instance code_eq_dec : EqDecision code.
Proof. solve_decision. Defined.

Definition Status (c : code) : Z :=
  match c with
  | CodeInvalidRequest | CodeManifestInvalid => 400
  | CodeUnauthenticated => 401
  | CodeForbidden | CodeQuotaExceeded => 403
  | CodeNotFound => 404
  | CodeConflict | CodeAlreadyExists => 409
  | CodeRateLimited => 429
  | CodePlacementUnavailable => 503
  | CodeInternal => 500
  end.
