(* ===== verification/Health.v ===== *)
(** * Node health: [src/internal/healthmon/state.go], [healthmon.go], [rollup.go]

    The health state machine, the monitor's scan, the heartbeat and scrub-report
    handlers and the hourly rollup.  A handler's Redis commands can fail one by
    one: [faults] says which do.  One clock reading [now] serves a whole call.
    Request bodies are given decoded; a body that does not decode leaves the
    zero values, as [json.Decode] does. *)

From S2P Require Import Prelude GoFloat Schema Nodes World Placements Apierr.

Definition DefaultSuspectAfter : Z := 30 * second.
Definition DefaultOfflineAfter : Z := 5 * minute.
Definition liveTTL : Z := 30 * second.
Definition HeartbeatInterval : Z := 10 * second.

(** ** The state machine *)

Definition NextStatus (current : node_status) (lastSeen now suspectAfter offlineAfter : Z) :
    node_status :=
  if is_zero lastSeen then current
  else
    let silent := time_sub now lastSeen in
    match current with
    | NOnline =>
        if offlineAfter <=? silent then NOffline
        else if suspectAfter <=? silent then NSuspect
        else current
    | NSuspect => if offlineAfter <=? silent then NOffline else current
    | _ => current
    end.

(** ** The monitor *)

(** One transition of [scan]: the event, then the penalty.  Errors are logged. *)
Definition announce (now : Z) (tr : NodeTransition) : service unit :=
  ignore_err (PublishNode now (MkNodeEvent (tr_ID tr) (tr_From tr) (tr_To tr) now)) ≫= λ _,
  if bool_decide (tr_To tr = NOffline)
  then ignore_err (with_store (ApplyReputationEvent now (tr_ID tr) SignalUnplannedOffline))
  else mret tt.

Definition scan (now suspectAfter offlineAfter : Z) : service unit :=
  ts ← with_db (TransitionStaleNodes now suspectAfter offlineAfter);
  for_each (announce now) ts.

(** The defaults [Run] fills in before the first scan. *)
Definition run_defaults (suspectAfter offlineAfter : Z) : Z * Z :=
  (if suspectAfter <=? 0 then DefaultSuspectAfter else suspectAfter,
   if offlineAfter <=? 0 then DefaultOfflineAfter else offlineAfter).

(** ** Handlers *)

Abbreviation handler A := (M World code A).

(** A service call whose error becomes one HTTP code. *)
Definition or_code {A} (c : code) (m : service A) : handler A := λ w,
  match m w with
  | (Ok a, w') => (Ok a, w')
  | (Err _, w') => (Err c, w')
  end.

(** [_ = m] inside a handler. *)
Definition dropped {A} (m : service A) : handler unit := or_code CodeInternal (ignore_err m).

(** The mTLS peer, known by its certificate fingerprint, resolved to an
    admitted node. *)
Definition admitted_peer (now : Z) (peer : option bytes) : handler Node :=
  fp ← lift (of_option CodeUnauthenticated peer);
  n ← or_code CodeForbidden (with_store (NodeByFingerprint fp));
  or_code CodeForbidden (with_store (lift (AdmitNode n now))) ≫= λ _,
  mret n.

Record Faults := MkFaults {
  set_fails : bool; incr_fails : bool; expire_fails : bool;
  hset_fails : bool; mexpire_fails : bool }.
Definition no_faults : Faults := MkFaults false false false false false.

Record HeartbeatReq := MkHeartbeat {
  hb_NodeID : option (option uuid);    (* None: empty; Some None: unparsable *)
  hb_Metrics : Metrics }.

Definition HeartbeatCountKey (id : uuid) (window : Z) : uuid * Z :=
  (id, unix (truncate_hour window)).

Definition redis_incr (now : Z) (k : uuid * Z) (r : Redis) : Redis :=
  upd_rd_hb (λ m, <[k := (default 0 (redis_get now m k) + 1, redis_ttl now m k)]> m) r.

(** [SET node:live], [INCR]+[EXPIRE] of the hour's counter, [HSET]+[EXPIRE] of
    the metrics. *)
Definition record_liveness (now : Z) (fl : Faults) (id : uuid) (m : Metrics) (r : Redis) : Redis :=
  let r := upd_rd_live <[id := now + liveTTL]> r in
  let k := HeartbeatCountKey id now in
  let r := if incr_fails fl then r
           else let r := redis_incr now k r in
                if expire_fails fl then r
                else upd_rd_hb (redis_expire now (3 * hour) k) r in
  let r := if hset_fails fl then r
           else upd_rd_metrics (λ ms, <[id := (m, redis_ttl now ms id)]> ms) r in
  if mexpire_fails fl then r else upd_rd_metrics (redis_expire now (2 * minute) id) r.

(** The reply says whether the agent is asked to renew its certificate. *)
Definition handleHeartbeat (now : Z) (fl : Faults) (peer : option bytes) (req : HeartbeatReq) :
    handler bool :=
  node ← admitted_peer now peer;
  guard_err (match hb_NodeID req with
             | Some (Some id) => negb (bool_decide (id = n_ID node))
             | _ => false
             end) CodeForbidden ≫= λ _,
  guard_err (set_fails fl) CodeInternal ≫= λ _,
  modify (upd_w_redis (record_liveness now fl (n_ID node) (hb_Metrics req))) ≫= λ _,
  '(from, to) ← or_code CodeInternal
    (with_store (TouchNodeStatus now (n_ID node) (m_UsedBytes (hb_Metrics req)) (n_CapacityBytes node)));
  (if bool_decide (from ≠ to)
   then dropped (PublishNode now (MkNodeEvent (n_ID node) from to now))
   else mret tt) ≫= λ _,
  mret (match n_CertExpiresAt node with
        | Some e => time_sub e now <? 7 * 24 * hour
        | None => false
        end).

Definition InsertAudit (now : Z) (actorType : string) (actorID : option uuid)
    (action subjectType : string) (subjectID : option uuid) : store unit :=
  modify (upd_db_audit (λ t, t ++ [MkAuditRow actorType actorID action subjectType subjectID now])).

(** The body holds a fragment id, [None] if it does not decode or parse. *)
Definition handleScrubReport (now : Z) (peer : option bytes) (fragment : option uuid) :
    handler unit :=
  node ← admitted_peer now peer;
  fid ← lift (of_option CodeInvalidRequest fragment);
  lp ← or_code CodeInternal (with_store (MarkPlacementLost now fid (n_ID node)));
  dropped (with_store (ApplyReputationEvent now (n_ID node) SignalHonestSelfReport)) ≫= λ _,
  dropped (with_store (InsertAudit now "node" (Some (n_ID node)) "node.scrub" "fragment" (Some fid))) ≫= λ _,
  if bool_decide (lp_ChunkID lp = uuid_nil) then mret tt
  else
    healthy ← gets (λ w, ChunkHealth (lp_ChunkID lp) (w_db w));
    dropped (PublishRepair (MkRepairJob (lp_ChunkID lp) healthy)).

(** ** Rollup *)

Definition ExpectedHeartbeats (window : Z) : float :=
  let window := if window <=? 0 then hour else window in
  F64.of_Z (Z.quot window HeartbeatInterval).

Definition uptime_ratio (received : Z) (expected : float) : float :=
  if fgt expected F64.zero then
    let ratio := F32.of_f64 (F64.div (F64.of_Z received) expected) in
    let ratio := if fgt ratio F32.one then F32.one else ratio in
    if flt ratio F32.zero then F32.zero else ratio
  else F32.zero.

(** [strconv.ParseFloat(s, 32)] of the printed float64: a value beyond float32
    is a range error, which [parseF32] turns into 0. *)
Definition parseF32 (v : float) : float :=
  match F32.of_f64 v with
  | S754_infinity _ => F32.zero
  | f => f
  end.

(** The row of one node for the hour [window]. *)
Definition rollup_row (now window : Z) (r : Redis) (n : Node) : NodeStats :=
  let received := default 0 (redis_get now (rd_hb r) (HeartbeatCountKey (n_ID n) window)) in
  let m := metrics_of now r (n_ID n) in
  let f32 g := Some (match m with Some m => parseF32 (g m) | None => F32.zero end) in
  MkNodeStats (n_ID n) window (uptime_ratio received (ExpectedHeartbeats hour))
    (f32 m_DiskReadLatencyMS)
    (Some (match m with Some m => m_FreeBytes m
           | None => sub64 (n_CapacityBytes n) (n_UsedBytes n) end))
    (f32 m_CPULoad) (f32 m_MemUsedRatio) 0 0 0 0.

Definition rollup_node (now window : Z) (n : Node) : service unit := λ w,
  match with_store (UpsertNodeStats (rollup_row now window (w_redis w) n)) w with
  | (Err _, w') => (Ok tt, w')
  | (Ok _, w') =>
      ignore_err (PublishUsage now (MkUsageEvent UsageUptime (n_ID n) window [] 0)) w'
  end.

Definition RollupWindow (now window : Z) : service unit :=
  let window := truncate_hour window in
  nodes ← gets (λ w, ListAllNodes (w_db w));
  for_each (rollup_node now window) nodes.

(** ** The state machine and the scan's SQL *)

Section thresholds.
Context (now s o : Z).

Lemma silent_past_spec n t k :
  n_LastSeenAt n = Some t → silent_past now k n = (k * second <? now - t).
Proof.
  intros Ht. unfold silent_past. rewrite Ht.
  destruct (t <? now - k * second) eqn:E1, (k * second <? now - t) eqn:E2; lia.
Qed.

Lemma whole_seconds_mul k : whole_seconds (k * second) = k.
Proof. unfold whole_seconds, second. apply Z.quot_mul. lia. Qed.

(** One row of the update, against [NextStatus]. *)
Lemma stale_status_NextStatus n t :
  n_LastSeenAt n = Some t → t ≠ time_zero → - 2^63 ≤ now - t < 2^63 →
  now - t ≠ s * second → now - t ≠ o * second →
  (if stale now s o n then stale_status now s o n else n_Status n) =
  NextStatus (n_Status n) t now (s * second) (o * second).
Proof.
  intros Ht Hz Hr H1 H2. unfold stale, stale_status, NextStatus, is_zero, time_sub.
  rewrite !(silent_past_spec n t) by done.
  rewrite (bool_decide_eq_false_2 (t = time_zero)) by done.
  replace (Z.max _ _) with (now - t) by lia.
  destruct (o * second <? now - t) eqn:E1, (o * second <=? now - t) eqn:E2; try lia;
    destruct (s * second <? now - t) eqn:E3, (s * second <=? now - t) eqn:E4; try lia;
    by destruct (n_Status n).
Qed.
End thresholds.

(** C39: The scan's SQL implements the health state machine: with thresholds of
    whole seconds and no node exactly at a threshold, the update leaves every
    row with the status [NextStatus] computes from its last heartbeat and
    changes nothing else, a node never seen keeps its status, and the
    transitions reported are exactly the rows whose status changed. *)
Theorem TransitionStaleNodes_NextStatus now s o d :
  (∀ n t, n ∈ db_nodes d → n_LastSeenAt n = Some t →
     t ≠ time_zero ∧ - 2^63 ≤ now - t < 2^63 ∧
     now - t ≠ s * second ∧ now - t ≠ o * second) →
  let next n := match n_LastSeenAt n with
                | None => n_Status n
                | Some t => NextStatus (n_Status n) t now (s * second) (o * second)
                end in
  let '(out, d') := TransitionStaleNodes now (s * second) (o * second) d in
  d' = upd_db_nodes (λ _, (λ n, upd_n_Status (λ _, next n) n) <$> db_nodes d) d ∧
  out = (λ n, MkTransition (n_ID n) (n_Status n) (next n)) <$>
          filter (λ n, n_Status n ≠ next n) (db_nodes d).
Proof.
  intros Hrows next. unfold TransitionStaleNodes. rewrite !whole_seconds_mul.
  assert (∀ n, n ∈ db_nodes d →
    next n = if stale now s o n then stale_status now s o n else n_Status n) as Hnext.
  { intros n Hn. unfold next. destruct (n_LastSeenAt n) as [t|] eqn:Ht.
    - destruct (Hrows n t Hn Ht) as (?&?&?&?). symmetry. by apply stale_status_NextStatus.
    - unfold stale, silent_past. rewrite Ht. by rewrite !andb_false_r. }
  split.
  - unfold upd_db_nodes. f_equal. unfold update_where.
    apply list_fmap_ext. intros i n Hi. apply list_elem_of_lookup_2 in Hi.
    rewrite (Hnext n Hi). destruct (stale now s o n); [done|by destruct n].
  - clear Hrows. induction (db_nodes d) as [|n t IH]; [done|].
    rewrite (filter_cons _ n t), (filter_cons (λ n, n_Status n ≠ next n)).
    specialize (IH (λ m Hm, Hnext m ltac:(by right))). pose proof (Hnext n ltac:(left)) as Hn.
    destruct (stale now s o n).
    + rewrite decide_True by done. rewrite fmap_cons, filter_cons, <- Hn. simpl.
      destruct (decide (n_Status n ≠ next n)); simpl; [f_equal|]; exact IH.
    + rewrite decide_False by done. rewrite decide_False by (rewrite Hn; tauto). exact IH.
Qed.

(** ** What a scan announces *)

Definition penalised (now : Z) (n : Node) : Node :=
  upd_n_Reputation (λ r, reputation_sql r SignalUnplannedOffline)
    (upd_n_ReputationUpdatedAt (λ _, Some now) n).

(** The message of a transition; only online, suspect and offline have one. *)
Definition transition_msg (now : Z) (tr : NodeTransition) : option message :=
  s ← nodeSubject (tr_To tr);
  Some (MkMessage s (IdNode (tr_ID tr) (tr_To tr) (unix now))
          (PNode (MkNodeEvent (tr_ID tr) (tr_From tr) (tr_To tr) now))).

Definition goes_offline (id : uuid) (tr : NodeTransition) : bool :=
  bool_decide (tr_ID tr = id) && bool_decide (tr_To tr = NOffline).

Lemma ApplyReputationEvent_update now id x d :
  db_nodes (ApplyReputationEvent now id x d).2 =
  update_where (λ n, bool_decide (n_ID n = id))
    (λ n, upd_n_Reputation (λ r, reputation_sql r x)
            (upd_n_ReputationUpdatedAt (λ _, Some now) n)) (db_nodes d).
Proof.
  unfold ApplyReputationEvent. destruct (find_by _ _) eqn:Hf; [done|].
  symmetry. apply update_where_none. by apply find_by_none.
Qed.

Lemma announce_spec now tr w :
  announce now tr w =
    (Ok tt, let w1 := upd_w_bus (λ b, if bus_up b
                        then MkBus true (bus_out b ++ option_list (transition_msg now tr)) else b) w in
            if bool_decide (tr_To tr = NOffline)
            then upd_w_db (λ d, (ApplyReputationEvent now (tr_ID tr) SignalUnplannedOffline d).2) w1
            else w1).
Proof.
  assert ((PublishNode now (MkNodeEvent (tr_ID tr) (tr_From tr) (tr_To tr) now) w).2 =
    upd_w_bus (λ b, if bus_up b
      then MkBus true (bus_out b ++ option_list (transition_msg now tr)) else b) w) as Hp.
  { unfold PublishNode, transition_msg, publish. simpl.
    destruct (nodeSubject (tr_To tr)) as [sj|]; simpl.
    - replace (if is_zero now then _ else _) with
        (MkNodeEvent (tr_ID tr) (tr_From tr) (tr_To tr) now) by by case_if.
      destruct w as [d r [[|] out]]; done.
    - destruct w as [d r [[|] out]]; unfold upd_w_bus; simpl; by rewrite ?app_nil_r. }
  unfold announce. unfold mbind, M_bind, ignore_err. rewrite Hp. cbn [fst snd].
  destruct (bool_decide (tr_To tr = NOffline)); [|done]. f_equal. unfold with_store, upd_w_db.
  by destruct (ApplyReputationEvent _ _ _ _) as [[]].
Qed.

Lemma announce_all now ts w :
  ∃ w', for_each (announce now) ts w = (Ok tt, w') ∧
    w_redis w' = w_redis w ∧ w_db w' = upd_db_nodes (λ _, db_nodes (w_db w')) (w_db w) ∧
    bus_up (w_bus w') = bus_up (w_bus w) ∧
    bus_out (w_bus w') = bus_out (w_bus w) ++
      (if bus_up (w_bus w) then omap (transition_msg now) ts else []) ∧
    (NoDup (tr_ID <$> ts) →
     db_nodes (w_db w') =
       update_where (λ n, existsb (goes_offline (n_ID n)) ts) (penalised now) (db_nodes (w_db w))).
Proof.
  revert w. induction ts as [|tr ts IH]; intros w; simpl.
  { exists w. split_and!; try done; [by destruct (w_db w)|by destruct (bus_up _); rewrite app_nil_r|].
    intros _. by rewrite update_where_none. }
  unfold mbind, M_bind. rewrite announce_spec. cbn [fst snd].
  set (w1 := if bool_decide _ then _ else _).
  assert (w_redis w1 = w_redis w ∧ bus_up (w_bus w1) = bus_up (w_bus w) ∧
    w_db w1 = upd_db_nodes (λ _, db_nodes (w_db w1)) (w_db w) ∧
    bus_out (w_bus w1) = bus_out (w_bus w) ++
      (if bus_up (w_bus w) then option_list (transition_msg now tr) else []) ∧
    db_nodes (w_db w1) = update_where (λ n, goes_offline (n_ID n) tr) (penalised now) (db_nodes (w_db w)))
    as (Hr1&Hu1&Hd1&Ho1&Hn1).
  { subst w1. destruct w as [d r [up out]]. unfold goes_offline.
    destruct (bool_decide (tr_To tr = NOffline)); simpl; split_and!;
      try (destruct up; simpl; by rewrite ?app_nil_r).
    - unfold ApplyReputationEvent. destruct (find_by _ _); by destruct d.
    - rewrite ApplyReputationEvent_update. unfold update_where. apply list_fmap_ext.
      intros i n _. rewrite andb_true_r. erewrite bool_decide_ext; [done|]. split; congruence.
    - by destruct d.
    - rewrite update_where_none; [done|]. intros. by rewrite andb_false_r. }
  destruct (IH w1) as (w'&Hw&Hr&Hd&Hu&Ho&Hn). exists w'. split_and!.
  - exact Hw.
  - congruence.
  - rewrite Hd, Hd1. by destruct (w_db w).
  - congruence.
  - rewrite Ho, Ho1, Hu1, <- app_assoc. f_equal. destruct (bus_up (w_bus w)); [|done].
    by destruct (transition_msg now tr).
  - intros Hnd. apply NoDup_cons in Hnd as [Hx Hnd]. rewrite (Hn Hnd), Hn1.
    unfold update_where. rewrite <- list_fmap_compose. apply list_fmap_ext.
    intros i n _. simpl. destruct (goes_offline (n_ID n) tr) eqn:Hg; [|done].
    unfold goes_offline in Hg. apply andb_true_iff in Hg as [Hid _].
    apply bool_decide_eq_true in Hid. simpl.
    destruct (existsb (goes_offline (n_ID n)) ts) eqn:Hex; [|done].
    apply existsb_exists in Hex as (tr'&Htr&Hg'). destruct Hx.
    unfold goes_offline in Hg'. apply andb_true_iff in Hg' as [Hid' _].
    apply bool_decide_eq_true in Hid'. rewrite Hid, <- Hid'.
    apply list_elem_of_fmap_2. by apply list_elem_of_In.
Qed.

Lemma fmap_filter_sublist {A B} (f : A → B) (P : A → Prop) `{∀ x, Decision (P x)} (l : list A) :
  f <$> filter P l `sublist_of` f <$> l.
Proof. apply fmap_sublist, sublist_filter. Qed.

Lemma stale_transitions now sus off d tr :
  tr ∈ (TransitionStaleNodes now sus off d).1 →
  (∃ n, n ∈ db_nodes d ∧ n_ID n = tr_ID tr ∧ n_Status n = tr_From tr) ∧
  (tr_From tr, tr_To tr) ∈ [(NOnline, NSuspect); (NOnline, NOffline); (NSuspect, NOffline)].
Proof.
  unfold TransitionStaleNodes. simpl.
  intros [Hne (n&->&[Hs Hn]%list_elem_of_filter)%list_elem_of_fmap]%list_elem_of_filter.
  split; [by exists n|]. revert Hne Hs. simpl. unfold stale, stale_status.
  destruct (silent_past now (whole_seconds off) n), (silent_past now (whole_seconds sus) n),
    (n_Status n); simpl; intros; (done || by rewrite !elem_of_cons; auto).
Qed.

(** One scan of the monitor: every node that fell silent moves one step
    down (online to suspect or offline, suspect to offline), each transition is
    published once, each node that went offline is penalised exactly once, and
    nothing else of the world changes.  A bus that is down loses the events but
    not the transitions. *)
Theorem scan_spec now sus off w :
  NoDup (n_ID <$> db_nodes (w_db w)) →
  let '(ts, d) := TransitionStaleNodes now sus off (w_db w) in
  ∃ w', scan now sus off w = (Ok tt, w') ∧
    w_redis w' = w_redis w ∧
    w_db w' = upd_db_nodes (λ _, db_nodes (w_db w')) (w_db w) ∧
    db_nodes (w_db w') =
      update_where (λ n, existsb (goes_offline (n_ID n)) ts) (penalised now) (db_nodes d) ∧
    bus_out (w_bus w') = bus_out (w_bus w) ++
      (if bus_up (w_bus w) then omap (transition_msg now) ts else []) ∧
    NoDup (tr_ID <$> ts) ∧
    (∀ tr, tr ∈ ts → is_Some (transition_msg now tr) ∧
       (tr_From tr, tr_To tr) ∈ [(NOnline, NSuspect); (NOnline, NOffline); (NSuspect, NOffline)]).
Proof.
  intros Hnd. pose proof (stale_transitions now sus off (w_db w)) as Htr.
  destruct (TransitionStaleNodes now sus off (w_db w)) as [ts d] eqn:Ht. simpl in Htr.
  assert (NoDup (tr_ID <$> ts)) as Hid.
  { injection Ht as <- _. eapply sublist_NoDup; [exact Hnd|].
    etrans; [apply fmap_filter_sublist|]. rewrite <- list_fmap_compose.
    apply (fmap_filter_sublist n_ID). }
  assert (d = upd_db_nodes (λ _, db_nodes d) (w_db w)) as Hd by (by injection Ht as _ <-).
  destruct (announce_all now ts (upd_w_db (λ _, d) w)) as (w'&Hw&Hr&Hdb&_&Ho&Hn).
  exists w'. split_and!; try done.
  - unfold scan, mbind, M_bind, with_db. rewrite Ht. exact Hw.
  - rewrite Hdb. simpl. by rewrite Hd.
  - by apply Hn.
  - intros tr Hin. destruct (Htr tr Hin) as [_ He]. split; [|done].
    unfold transition_msg. rewrite !elem_of_cons in He.
    destruct He as [[= _ ->]|[[= _ ->]|[[= _ ->]|[]%not_elem_of_nil]]]; simpl; eauto.
Qed.

(** ** Heartbeats *)

Lemma admitted_peer_ok now peer w n w' :
  admitted_peer now peer w = (Ok n, w') →
  w' = w ∧ n ∈ db_nodes (w_db w) ∧ peer = Some (n_CertFingerprint n) ∧ AdmitNode n now = Ok tt.
Proof.
  unfold admitted_peer, mbind, M_bind, lift, or_code, with_store.
  destruct peer as [fp|]; simpl; [|done].
  destruct (query_row _ _) as [m|e] eqn:Hf; simpl; [|done].
  destruct (AdmitNode m now) as [[]|e] eqn:Ha; simpl; [|done].
  intros [= <- <-]. unfold query_row in Hf.
  assert (m ∈ filter (λ n, n_CertFingerprint n = fp) (db_nodes (w_db w))) as [Hfp Hin]%list_elem_of_filter.
  { destruct (filter _ _); simplify_eq/=. left. }
  split_and!; [by destruct w|done|congruence|done].
Qed.

Lemma admitted_peer_err now peer w c w' :
  admitted_peer now peer w = (Err c, w') →
  w' = w ∧ (c = CodeUnauthenticated ∨ c = CodeForbidden).
Proof.
  unfold admitted_peer, mbind, M_bind, lift, or_code, with_store.
  destruct peer as [fp|]; simpl; [|intros [= <- <-]; auto].
  destruct (query_row _ _) as [m|e]; simpl.
  - destruct (AdmitNode m now) as [[]|e]; simpl; [done|]. intros [= <- <-]. destruct w; auto.
  - intros [= <- <-]. destruct w; auto.
Qed.

Lemma redis_get_expire {K V} `{Countable K} now ttl (m : gmap K (V * option Z)) k t :
  now ≤ t < now + ttl → redis_get t (redis_expire now ttl k m) k = redis_get now m k.
Proof.
  intros Ht. unfold redis_expire. destruct (redis_get now m k) as [v|] eqn:Hg.
  - unfold redis_get. rewrite lookup_insert_eq. simpl. by rewrite (proj2 (Z.ltb_lt _ _)) by lia.
  - unfold redis_get in *. destruct (m !! k) as [[v [e|]]|]; simpl in *; try done.
    destruct (now <? e) eqn:E; [done|]. by destruct (Z.ltb_spec t e); [lia|].
Qed.

Lemma redis_get_set {K V} `{Countable K} now (m : gmap K (V * option Z)) k v :
  redis_get now (<[k := (v, redis_ttl now m k)]> m) k = Some v.
Proof.
  unfold redis_get, redis_ttl. rewrite lookup_insert_eq.
  destruct (m !! k) as [[v' [e|]]|]; simpl; try done.
  destruct (now <? e) eqn:E; simpl; by rewrite ?E.
Qed.

Lemma record_liveness_live now fl id m r :
  rd_live (record_liveness now fl id m r) = <[id := now + liveTTL]> (rd_live r).
Proof.
  unfold record_liveness. by destruct fl as [? [] [] [] []].
Qed.

Lemma record_liveness_ok now id m r t :
  now ≤ t < now + 2 * minute →
  metrics_of t (record_liveness now no_faults id m r) id = Some m ∧
  redis_get t (rd_hb (record_liveness now no_faults id m r)) (HeartbeatCountKey id now) =
    Some (default 0 (redis_get now (rd_hb r) (HeartbeatCountKey id now)) + 1).
Proof.
  intros Ht. unfold record_liveness, metrics_of. simpl. split.
  - rewrite redis_get_expire by done. apply redis_get_set.
  - rewrite redis_get_expire by (unfold hour, minute, second in *; lia). apply redis_get_set.
Qed.

Lemma TouchNodeStatus_found now n used cap d :
  n ∈ db_nodes d →
  ∃ from, TouchNodeStatus now (n_ID n) used cap d =
    (Ok (from, touch_status from),
     upd_db_nodes (update_where (λ m, bool_decide (n_ID m = n_ID n)) (touch_row now used cap)) d).
Proof.
  intros Hn. unfold TouchNodeStatus. destruct (find_by _ _) as [m|] eqn:Hf; [by exists (n_Status m)|].
  pose proof (proj1 (find_by_none _ _) Hf n Hn) as Hc. simpl in Hc.
  by rewrite bool_decide_eq_true_2 in Hc.
Qed.

(** A heartbeat is accepted only from an admitted certificate whose node id
    the body does not contradict; a refused or failed one changes nothing at
    all.  An accepted one keeps the node live for 30 seconds, brings a pending,
    suspect or offline node online (no other status moves), records the used
    bytes and touches no other node; with Redis healthy it counts in the hour
    and its metrics can be read for two minutes. *)
Theorem handleHeartbeat_spec now fl peer req w :
  match handleHeartbeat now fl peer req w with
  | (Err c, w') => w' = w ∧ (c = CodeInternal → set_fails fl = true)
  | (Ok renew, w') =>
      ∃ n, n ∈ db_nodes (w_db w) ∧ peer = Some (n_CertFingerprint n) ∧
        AdmitNode n now = Ok tt ∧
        (∀ id, hb_NodeID req = Some (Some id) → id = n_ID n) ∧
        rd_live (w_redis w') = <[n_ID n := now + liveTTL]> (rd_live (w_redis w)) ∧
        w_db w' = upd_db_nodes (update_where (λ m, bool_decide (n_ID m = n_ID n))
           (touch_row now (m_UsedBytes (hb_Metrics req)) (n_CapacityBytes n))) (w_db w) ∧
        (fl = no_faults → ∀ t, now ≤ t < now + 2 * minute →
           metrics_of t (w_redis w') (n_ID n) = Some (hb_Metrics req) ∧
           redis_get t (rd_hb (w_redis w')) (HeartbeatCountKey (n_ID n) now) =
             Some (default 0 (redis_get now (rd_hb (w_redis w)) (HeartbeatCountKey (n_ID n) now)) + 1))
  end.
Proof.
  unfold handleHeartbeat. unfold mbind at 1, M_bind at 1.
  destruct (admitted_peer now peer w) as [[n|c] w1] eqn:Ha.
  2:{ apply admitted_peer_err in Ha as [-> [-> | ->]]; by split. }
  apply admitted_peer_ok in Ha as (->&Hn&Hp&Had).
  unfold guard_err. destruct (match hb_NodeID req with Some (Some id) => _ | _ => false end) eqn:Hid; [by split|].
  unfold mbind at 1, M_bind at 1. cbn [mret M_ret fst snd].
  destruct (set_fails fl) eqn:Hset; [by split|].
  unfold mbind, M_bind, modify, or_code, with_store. cbn [mret M_ret].
  cbn [w_db upd_w_redis].
  destruct (TouchNodeStatus_found now n (m_UsedBytes (hb_Metrics req)) (n_CapacityBytes n) (w_db w) Hn)
    as [from Ht]. rewrite Ht.
  set (w2 := upd_w_db _ (upd_w_redis _ _)).
  assert (∀ (b : bool) ev, ∃ w3, (if b then dropped (PublishNode now ev) else mret tt) w2 = (Ok tt, w3) ∧
    w_db w3 = w_db w2 ∧ w_redis w3 = w_redis w2) as Hpub.
  { intros [] ev; [|by exists w2]. unfold dropped, or_code, ignore_err. eexists. split; [done|].
    split; [by rewrite PublishNode_db|]. unfold PublishNode, publish.
    destruct (nodeSubject _); [|done]. by destruct (bus_up _). }
  destruct (Hpub (bool_decide (from ≠ touch_status from))
    (MkNodeEvent (n_ID n) from (touch_status from) now)) as (w3&->&Hd3&Hr3).
  exists n. split_and!; try done.
  - intros id Hi. rewrite Hi in Hid. apply negb_false_iff in Hid. by apply bool_decide_eq_true in Hid.
  - rewrite Hr3. apply record_liveness_live.
  - intros -> t Ht'. rewrite Hr3. by apply record_liveness_ok.
Qed.

(** ** Scrub reports *)

Lemma ChunkHealth_ext d d' c :
  db_fragments d' = db_fragments d → db_placements d' = db_placements d →
  ChunkHealth c d' = ChunkHealth c d.
Proof.
  intros Hf Hp. unfold ChunkHealth, stored_in, chunk_of, fragment_by. by rewrite Hf, Hp.
Qed.

Lemma ApplyReputationEvent_fragments now id s d :
  db_fragments (ApplyReputationEvent now id s d).2 = db_fragments d.
Proof. unfold ApplyReputationEvent. by destruct (find_by _ _). Qed.

(** The job published for a chunk that is [healthy] copies strong. *)
Definition repair_msg (chunk : uuid) (healthy : Z) : option message :=
  s ← PrioritySubject healthy;
  Some (MkMessage s (IdRepair chunk healthy) (PRepair (MkRepairJob chunk healthy))).

Definition say (m : option message) (b : Bus) : Bus :=
  if bus_up b then MkBus true (bus_out b ++ option_list m) else b.

Lemma PublishRepair_say chunk healthy w :
  (PublishRepair (MkRepairJob chunk healthy) w).2 = upd_w_bus (say (repair_msg chunk healthy)) w.
Proof.
  unfold PublishRepair, repair_msg, publish, say, upd_w_bus. simpl.
  destruct (PrioritySubject healthy); simpl; destruct w as [? ? [[] ?]]; simpl;
    by rewrite ?app_nil_r.
Qed.

(** An admitted node's scrub report loses exactly the copy it names, lowers
    the node's reputation by the self-report signal, is audited, and a repair
    job carries the chunk's health after the loss; every refused report leaves
    the world unchanged. *)
Theorem handleScrubReport_spec now peer fragment w :
  match handleScrubReport now peer fragment w with
  | (Err c, w') => w' = w
  | (Ok _, w') =>
      ∃ n fid lp d1, n ∈ db_nodes (w_db w) ∧ peer = Some (n_CertFingerprint n) ∧
        AdmitNode n now = Ok tt ∧ fragment = Some fid ∧
        MarkPlacementLost now fid (n_ID n) (w_db w) = (Ok lp, d1) ∧
        w_db w' = upd_db_audit
          (λ t, t ++ [MkAuditRow "node" (Some (n_ID n)) "node.scrub" "fragment" (Some fid) now])
          (ApplyReputationEvent now (n_ID n) SignalHonestSelfReport d1).2 ∧
        w_bus w' = (if bool_decide (lp_ChunkID lp = uuid_nil) then w_bus w
                    else say (repair_msg (lp_ChunkID lp) (ChunkHealth (lp_ChunkID lp) d1)) (w_bus w)) ∧
        w_redis w' = w_redis w
  end.
Proof.
  unfold handleScrubReport. unfold mbind at 1, M_bind at 1.
  destruct (admitted_peer now peer w) as [[n|c] w1] eqn:Ha;
    [|by apply admitted_peer_err in Ha as [-> _]].
  apply admitted_peer_ok in Ha as (->&Hn&Hp&Had).
  destruct fragment as [fid|]; [|done]. unfold mbind, M_bind, lift, or_code at 1, with_store at 1.
  cbn [of_option]. destruct (MarkPlacementLost now fid (n_ID n) (w_db w)) as [[lp|e] d1] eqn:Hm.
  2:{ pose proof (MarkPlacementLost_spec now fid (n_ID n) (w_db w)) as Hs. rewrite Hm in Hs.
      destruct Hs as (_&->&_). by destruct w. }
  set (w1 := upd_w_db (λ _, d1) w).
  set (d2 := (ApplyReputationEvent now (n_ID n) SignalHonestSelfReport d1).2).
  assert (∀ A (m : service A) w, dropped m w = (Ok tt, (m w).2)) as Hdrop by done.
  rewrite !Hdrop.
  assert ((with_store (ApplyReputationEvent now (n_ID n) SignalHonestSelfReport) w1).2 =
    upd_w_db (λ _, d2) w1) as ->.
  { unfold with_store, d2. simpl. by destruct (ApplyReputationEvent _ _ _ _) as [[] ?]. }
  unfold with_store, InsertAudit, modify. simpl.
  destruct (bool_decide (lp_ChunkID lp = uuid_nil)) eqn:Hc.
  { exists n, fid, lp, d1. by rewrite Hc. }
  unfold gets. rewrite Hdrop, PublishRepair_say. simpl.
  exists n, fid, lp, d1. rewrite Hc. split_and!; try done. do 2 f_equal. apply ChunkHealth_ext.
  - simpl. apply ApplyReputationEvent_fragments.
  - simpl. apply ApplyReputationEvent_placements.
Qed.
