(* ===== verification/Accounts.v ===== *)
(** * Accounts, API keys and node registration: [src/internal/store/users.go],
      [apikeys.go], [registration_codes.go], [src/internal/metadata/service.go]
      and [nodes.go]

    The registry is the three tables these files keep, next to the database of
    [Schema].  SQL [now()] and [time.Now()] are the argument [now].  Email
    addresses and labels are ASCII text; [strings.ToLower] and
    [strings.TrimSpace] are modelled for it.  Issuing a certificate
    ([s.IssueNode]) is a parameter; it answers the certificate, its public key,
    fingerprint and expiry. *)

From S2P Require Import Prelude GoFloat Bytes Sha256 Crypto Pipeline Schema Nodes World Health Wire Auth.
From S2P Require Import Apierr.
From Stdlib Require Import Ascii.

(** ** Tables *)

Record User := MkUser {
  us_ID : uuid; us_Email : string; us_PasswordHash : bytes; us_Role : string; us_Status : string;
  us_CreatedAt : Z; us_UpdatedAt : Z }.
Record APIKey := MkAPIKey {
  ak_ID : uuid; ak_UserID : uuid; ak_KeyHash : bytes; ak_Label : string; ak_Scopes : list string;
  ak_ExpiresAt : option Z; ak_RevokedAt : option Z; ak_CreatedAt : Z }.
Record RegistrationCode := MkCode {
  rg_ID : uuid; rg_OwnerID : uuid; rg_CodeHash : bytes; rg_Endpoint : string; rg_Country : string;
  rg_Region : string; rg_ASN : option Z; rg_ExpiresAt : Z; rg_UsedAt : option Z;
  rg_NodeID : option uuid; rg_CreatedAt : Z }.

Record Registry := MkRegistry {
  r_users : list User; r_keys : list APIKey; r_codes : list RegistrationCode; r_db : DB }.
Definition upd_r_users f r := MkRegistry (f (r_users r)) (r_keys r) (r_codes r) (r_db r).
Definition upd_r_keys f r := MkRegistry (r_users r) (f (r_keys r)) (r_codes r) (r_db r).
Definition upd_r_codes f r := MkRegistry (r_users r) (r_keys r) (f (r_codes r)) (r_db r).
Definition upd_r_db f r := MkRegistry (r_users r) (r_keys r) (r_codes r) (f (r_db r)).

(** A store or metadata sentinel, or another error ([EOther]). *)
Inductive acct_error := EStore (e : store_error) | EUnauthenticated | EInvalidReq | EForbidden | EOther.
#[export] Instance acct_error_eq_dec : EqDecision acct_error.
Proof. solve_decision. Defined.

Abbreviation registry A := (M Registry acct_error A).

(** A method of the store on the shared database. *)
Definition on_db {A} (m : store A) : registry A := λ r,
  let '(x, d) := m (r_db r) in
  (match x with Ok a => Ok a | Err e => Err (EStore e) end, upd_r_db (λ _, d) r).

Definition new_uuid : registry uuid := λ r,
  let '(id, d) := gen_uuid (r_db r) in (Ok id, upd_r_db (λ _, d) r).

Definition pg_err {A} (e : pg_error) : registry A := throw (EStore (mapQueryErr e)).

(** ** Text *)

Definition lower_char (c : ascii) : ascii :=
  let n := nat_of_ascii c in if (65 <=? n)%nat && (n <=? 90)%nat then ascii_of_nat (n + 32) else c.
Fixpoint ToLower (s : string) : string :=
  match s with EmptyString => "" | String c s => String (lower_char c) (ToLower s) end.

Definition is_space (c : ascii) : bool :=
  let n := nat_of_ascii c in ((9 <=? n)%nat && (n <=? 13)%nat) || (n =? 32)%nat.
Fixpoint trim_left (s : string) : string :=
  match s with
  | EmptyString => ""
  | String c s' => if is_space c then trim_left s' else s
  end.
Fixpoint rev_onto (acc s : string) : string :=
  match s with EmptyString => acc | String c s => rev_onto (String c acc) s end.
Definition TrimSpace (s : string) : string :=
  rev_onto "" (trim_left (rev_onto "" (trim_left s))).

(** [IndexByte(email, '@')] strictly inside, and a dot after it. *)
Definition validEmail (email : string) : bool :=
  match String.index 0 "@" email with
  | None | Some O => false
  | Some i =>
      let domain := String.substring (S i) (String.length email - S i) email in
      negb (bool_decide (domain = ""%string)) && bool_decide (String.index 0 "." domain ≠ None)
  end.

(** ** Users in the store *)

Definition CreateUser_row (now : Z) (email : string) (passwordHash : bytes) : registry User :=
  let email := ToLower (TrimSpace email) in
  id ← new_uuid;
  taken ← gets (λ r, existsb (λ u, bool_decide (us_Email u = email)) (r_users r));
  if taken : bool then pg_err PgUniqueViolation
  else
    let u := MkUser id email passwordHash "customer" "active" now now in
    modify (upd_r_users (λ t, t ++ [u])) ≫= λ _, mret u.

Definition UserByEmail (email : string) : registry User := λ r,
  (query_row (EStore (mapQueryErr PgNoRows))
     (filter (λ u, us_Email u = ToLower (TrimSpace email)) (r_users r)), r).

Definition UserByID (id : uuid) : registry User := λ r,
  (query_row (EStore (mapQueryErr PgNoRows)) (filter (λ u, us_ID u = id) (r_users r)), r).

(** ** API keys in the store *)

Definition user_exists (r : Registry) (id : uuid) : bool :=
  existsb (λ u, bool_decide (us_ID u = id)) (r_users r).

Definition CreateAPIKey_row (now : Z) (user : uuid) (keyHash : bytes) (label : string)
    (scopes : list string) (expiresAt : option Z) : registry APIKey :=
  let scopes := if bool_decide (scopes = []) then ["read"; "write"]%string else scopes in
  id ← new_uuid;
  taken ← gets (λ r, existsb (λ k, bool_decide (ak_KeyHash k = keyHash)) (r_keys r));
  if taken : bool then pg_err PgUniqueViolation
  else
    known ← gets (λ r, user_exists r user);
    if negb known then pg_err PgOther
    else
      let k := MkAPIKey id user keyHash label scopes expiresAt None now in
      modify (upd_r_keys (λ t, t ++ [k])) ≫= λ _, mret k.

(** [revoked_at IS NULL AND (expires_at IS NULL OR expires_at > now())] *)
Definition key_active (now : Z) (k : APIKey) : bool :=
  bool_decide (ak_RevokedAt k = None) &&
  match ak_ExpiresAt k with None => true | Some e => now <? e end.

Definition APIKeyByHash (now : Z) (keyHash : bytes) : registry APIKey := λ r,
  (query_row (EStore (mapQueryErr PgNoRows))
     (filter (λ k, ak_KeyHash k = keyHash ∧ key_active now k = true) (r_keys r)), r).

Definition ListAPIKeys (user : uuid) (r : Registry) : list APIKey :=
  order_by (λ k, [ak_CreatedAt k])
    (filter (λ k, ak_UserID k = user ∧ ak_RevokedAt k = None) (r_keys r)).

Definition revocable (user key : uuid) (k : APIKey) : bool :=
  bool_decide (ak_ID k = key) && bool_decide (ak_UserID k = user) && bool_decide (ak_RevokedAt k = None).
Definition revoke (now : Z) (k : APIKey) : APIKey :=
  MkAPIKey (ak_ID k) (ak_UserID k) (ak_KeyHash k) (ak_Label k) (ak_Scopes k) (ak_ExpiresAt k)
    (Some now) (ak_CreatedAt k).

Definition RevokeAPIKey_row (now : Z) (user key : uuid) : registry unit := λ r,
  if existsb (revocable user key) (r_keys r)
  then (Ok tt, upd_r_keys (update_where (revocable user key) (revoke now)) r)
  else (Err (EStore ENotFound), r).

(** ** Registration codes in the store *)

Definition MintRegistrationCode_row (now : Z) (owner : uuid) (codeHash : bytes)
    (endpoint country region : string) (asn : option Z) (expiresAt : Z) : registry RegistrationCode :=
  id ← new_uuid;
  taken ← gets (λ r, existsb (λ c, bool_decide (rg_CodeHash c = codeHash)) (r_codes r));
  if taken : bool then pg_err PgUniqueViolation
  else
    known ← gets (λ r, user_exists r owner);
    if negb known then pg_err PgOther
    else
      let c := MkCode id owner codeHash endpoint country region asn expiresAt None None now in
      modify (upd_r_codes (λ t, t ++ [c])) ≫= λ _, mret c.

Definition RegistrationCodeByHash (codeHash : bytes) : registry RegistrationCode := λ r,
  (query_row (EStore (mapQueryErr PgNoRows)) (filter (λ c, rg_CodeHash c = codeHash) (r_codes r)), r).

Definition use_code (now : Z) (node : uuid) (c : RegistrationCode) : RegistrationCode :=
  MkCode (rg_ID c) (rg_OwnerID c) (rg_CodeHash c) (rg_Endpoint c) (rg_Country c) (rg_Region c)
    (rg_ASN c) (rg_ExpiresAt c) (Some now) (Some node) (rg_CreatedAt c).

(** The code, when it can still be used: [SELECT … FOR UPDATE] and the checks. *)
Definition open_code (now : Z) (codeHash : bytes) : registry RegistrationCode :=
  c ← RegistrationCodeByHash codeHash;
  guard_err (bool_decide (rg_UsedAt c ≠ None)) (EStore EConflict) ≫= λ _,
  guard_err (rg_ExpiresAt c <? now) (EStore ENotFound) ≫= λ _,
  mret c.

Definition bind_code (now : Z) (id node : uuid) : registry unit := λ r,
  if existsb (λ n, bool_decide (n_ID n = node)) (db_nodes (r_db r))
  then (Ok tt, upd_r_codes (update_where (λ c, bool_decide (rg_ID c = id)) (use_code now node)) r)
  else (Err (EStore (mapQueryErr PgOther)), r).

(** The node takes its owner and its place from the code. *)
Definition code_params (c : RegistrationCode) (p : CreateNodeParams) : CreateNodeParams :=
  MkCreateNodeParams (p_ID p) (rg_OwnerID c) (p_CertFingerprint p) (p_PublicKey p) (p_CertPEM p)
    (p_CertExpiresAt p) (p_HostnameLabel p) (p_OS p) (p_AgentVersion p) (rg_Country c) (rg_Region c)
    (rg_ASN c) (rg_Endpoint c) (p_CapacityBytes p).

Definition RegisterNode_row (now : Z) (codeHash : bytes) (p : CreateNodeParams) : registry Node :=
  transaction (
    c ← open_code now codeHash;
    n ← on_db (CreateNode now (code_params c p));
    bind_code now (rg_ID c) (n_ID n) ≫= λ _,
    mret n).

Definition ConsumeRegistrationCode (now : Z) (codeHash : bytes) (node : uuid) :
    registry RegistrationCode :=
  transaction (
    c ← open_code now codeHash;
    bind_code now (rg_ID c) node ≫= λ _,
    mret (use_code now node c)).

(** ** The service *)

(** What [IssueNode] makes of a certificate request. *)
Record Issued := MkIssued { is_PEM : string; is_Pub : bytes; is_FP : bytes; is_Expires : Z }.

Definition codeTTL : Z := 24 * 3600 * second.

(** The hash stored for a registration code. *)
Definition hashSecret (secret : bytes) : bytes := hex_encode (sha256 secret).

(** An audit entry whose error is dropped. *)
Definition audit_log (now : Z) (actorType : string) (actor : option uuid) (action subject : string)
    (id : option uuid) : registry unit :=
  ignore_err (on_db (InsertAudit now actorType actor action subject id)).

Definition auth_lift {A} (r : result auth_error A) : registry A :=
  lift (match r with Ok a => Ok a | Err _ => Err EOther end).

Section service.
Context `{Argon2} (now : Z).

Definition CreateUser (email : string) (password : bytes) (entropy : option bytes) : registry User :=
  let email := ToLower (TrimSpace email) in
  guard_err (negb (validEmail email)) EInvalidReq ≫= λ _,
  guard_err (length password <? 8)%nat EInvalidReq ≫= λ _,
  hash ← auth_lift (HashPassword password entropy);
  CreateUser_row now email hash.

(** [errors.Is(err, store.ErrNotFound)] becomes [ErrUnauthenticated]. *)
Definition or_unauthenticated {A} (m : registry A) : registry A := λ r,
  match m r with
  | (Err (EStore ENotFound), r') => (Err EUnauthenticated, r')
  | x => x
  end.

Definition VerifyPassword (email : string) (password : bytes) : registry User :=
  u ← or_unauthenticated (UserByEmail email);
  guard_err (negb (bool_decide (us_Status u = "active"%string))) EUnauthenticated ≫= λ _,
  guard_err (negb (is_ok (Auth.VerifyPassword (us_PasswordHash u) password))) EUnauthenticated ≫= λ _,
  mret u.

Definition LookupAPIKey (keyHash : bytes) : registry (APIKey * User) :=
  k ← or_unauthenticated (APIKeyByHash now keyHash);
  u ← UserByID (ak_UserID k);
  guard_err (negb (bool_decide (us_Status u = "active"%string))) EUnauthenticated ≫= λ _,
  mret (k, u).

Definition CreateAPIKey (user : uuid) (keyHash : bytes) (label : string) (scopes : list string)
    (expiresAt : option Z) : registry APIKey :=
  let label := TrimSpace label in
  guard_err (bool_decide (label = ""%string)) EInvalidReq ≫= λ _,
  k ← CreateAPIKey_row now user keyHash label scopes expiresAt;
  audit_log now "user" (Some user) "api_key.issue" "api_key" (Some (ak_ID k)) ≫= λ _,
  mret k.

Definition RevokeAPIKey (user key : uuid) : registry unit :=
  RevokeAPIKey_row now user key ≫= λ _,
  audit_log now "user" (Some user) "api_key.revoke" "api_key" (Some key).

Definition MintRegistrationCode (user : uuid) (endpoint country region : string) (asn : option Z)
    (entropy : option bytes) : registry (RegistrationCode * bytes) :=
  guard_err (bool_decide (endpoint = ""%string) || bool_decide (country = ""%string) ||
             bool_decide (region = ""%string) || bool_decide (asn = None)) EInvalidReq ≫= λ _,
  secret ← auth_lift (mintRegSecret entropy);
  c ← MintRegistrationCode_row now user (hashSecret secret) endpoint country region asn (now + codeTTL);
  mret (c, secret).

(** [s.IssueNode]; [None] when no CA is configured. *)
Context (IssueNode : option (bytes → uuid → string → option Issued)).

Definition issue (csr : bytes) (node : uuid) (endpoint : string) (none : acct_error) : registry Issued :=
  f ← lift (of_option none IssueNode);
  lift (of_option EOther (f csr node endpoint)).

Definition RegisterNode (code csr : bytes) (osName version label : string) (capacity : Z) :
    registry (Node * string) :=
  guard_err (bool_decide (IssueNode = None)) EOther ≫= λ _,
  guard_err (bool_decide (code = []) || bool_decide (csr = [])) EInvalidReq ≫= λ _,
  let hashed := hashSecret code in
  rc ← open_code now hashed;
  nodeID ← new_uuid;
  cert ← issue csr nodeID (rg_Endpoint rc) EOther;
  let osName := if bool_decide (osName = ""%string) then "linux"%string else osName in
  let version := if bool_decide (version = ""%string) then "m2"%string else version in
  let capacity := if capacity <=? 0 then 10 * 2^30 else capacity in
  n ← RegisterNode_row now hashed
        (MkCreateNodeParams nodeID uuid_nil (is_FP cert) (is_Pub cert) (is_PEM cert) (is_Expires cert)
           label osName version "" "" None "" capacity);
  audit_log now "node" (Some (n_ID n)) "node.register" "node" (Some (n_ID n)) ≫= λ _,
  mret (n, is_PEM cert).

Definition RenewCertificate (node : uuid) (csr peerFP : bytes) : registry string :=
  guard_err (bool_decide (IssueNode = None) || bool_decide (csr = [])) EInvalidReq ≫= λ _,
  n ← on_db (NodeByID node);
  guard_err (negb (is_ok (AdmitNodeRenew n))) EForbidden ≫= λ _,
  guard_err (negb (bool_decide (peerFP = n_CertFingerprint n))) EForbidden ≫= λ _,
  cert ← issue csr node (n_Endpoint n) EInvalidReq;
  guard_err (negb (bool_decide (is_Pub cert = n_PublicKey n))) EInvalidReq ≫= λ _,
  on_db (RotateNodeCert node (is_FP cert) (is_PEM cert) (is_Expires cert)) ≫= λ _,
  audit_log now "node" (Some node) "node.renew" "node" (Some node) ≫= λ _,
  mret (is_PEM cert).

Definition HeartbeatNode (node : uuid) (used capacity : Z) : registry unit :=
  on_db (TouchNodeStatus now node used capacity) ≫= λ _, mret tt.
End service.

(** [writeErr] of these errors. *)
Definition acct_code (e : acct_error) : code :=
  match e with
  | EInvalidReq => CodeInvalidRequest
  | EUnauthenticated => CodeUnauthenticated
  | EForbidden => CodeForbidden
  | EStore ENotFound => CodeNotFound
  | EStore EConflict => CodeAlreadyExists
  | EStore (ENotEmpty | EIncomplete) => CodeConflict
  | EStore EUnavailable => CodePlacementUnavailable
  | EStore _ | EOther => CodeInternal
  end.

(** ** How the registry changes *)

Definition next_id (r : Registry) : N := db_next_uuid (r_db r).
Definition bump (r : Registry) : Registry := upd_r_db (upd_db_next_uuid N.succ) r.
Definition node_ids (d : DB) : list uuid := n_ID <$> db_nodes d.
Definition fingerprints (d : DB) : list bytes := n_CertFingerprint <$> db_nodes d.

(** The node table keeps its nodes and its unique columns unique. *)
Definition node_keys (d : DB) : Prop := NoDup (node_ids d) ∧ NoDup (fingerprints d).
Definition db_evolves (d d' : DB) : Prop :=
  node_ids d ⊆ node_ids d' ∧ (node_keys d → node_keys d') ∧ (db_next_uuid d ≤ db_next_uuid d')%N.

(** One row at a time. *)
Inductive prim (r : Registry) : Registry → Prop :=
  | prim_db d : db_evolves (r_db r) d → prim r (upd_r_db (λ _, d) r)
  | prim_user u :
      us_ID u = Uuid (next_id r) → us_Email u ∉ us_Email <$> r_users r →
      prim r (upd_r_users (λ t, t ++ [u]) (bump r))
  | prim_key k :
      ak_ID k = Uuid (next_id r) → ak_KeyHash k ∉ ak_KeyHash <$> r_keys r →
      ak_UserID k ∈ us_ID <$> r_users r → ak_RevokedAt k = None →
      prim r (upd_r_keys (λ t, t ++ [k]) (bump r))
  | prim_revoke now user key :
      prim r (upd_r_keys (update_where (revocable user key) (revoke now)) r)
  | prim_code c :
      rg_ID c = Uuid (next_id r) → rg_CodeHash c ∉ rg_CodeHash <$> r_codes r →
      rg_OwnerID c ∈ us_ID <$> r_users r → rg_UsedAt c = None → rg_NodeID c = None →
      prim r (upd_r_codes (λ t, t ++ [c]) (bump r))
  | prim_use now c node :
      c ∈ r_codes r → rg_UsedAt c = None → node ∈ node_ids (r_db r) →
      prim r (upd_r_codes (update_where (λ x, bool_decide (rg_ID x = rg_ID c)) (use_code now node)) r).

(** [m] changes the registry row by row, whatever it answers. *)
Definition primitive {A} (m : registry A) : Prop := ∀ r, rtc prim r (m r).2.

Lemma upd_r_db_id r : upd_r_db (λ _, r_db r) r = r.
Proof. by destruct r. Qed.

Lemma primitive_bind {A B} (m : registry A) (k : A → registry B) :
  primitive m → (∀ a, primitive (k a)) → primitive (m ≫= k).
Proof.
  intros Hm Hk r. unfold mbind, M_bind. specialize (Hm r). destruct (m r) as [[a|e] r1]; [|done].
  etrans; [exact Hm|apply Hk].
Qed.
Lemma primitive_ret {A} (a : A) : primitive (mret a). Proof. by intros r. Qed.
Lemma primitive_guard b e : primitive (guard_err b e). Proof. intros r. unfold guard_err. by destruct b. Qed.
Lemma primitive_lift {A} (x : result acct_error A) : primitive (lift x). Proof. by intros r. Qed.
Lemma primitive_read {A} (f : Registry → result acct_error A) : primitive (λ r, (f r, r)).
Proof. by intros r. Qed.
Lemma primitive_ignore {A} (m : registry A) : primitive m → primitive (ignore_err m).
Proof. intros Hm r. apply Hm. Qed.
Lemma primitive_transaction {A} (m : registry A) : primitive m → primitive (transaction m).
Proof. intros Hm r. unfold transaction. specialize (Hm r). by destruct (m r) as [[]]. Qed.
Lemma primitive_db {A} (m : store A) : (∀ d, db_evolves d (m d).2) → primitive (on_db m).
Proof.
  intros Hm r. unfold on_db. specialize (Hm (r_db r)). destruct (m (r_db r)) as [x d]. cbn in *.
  by apply rtc_once, prim_db.
Qed.

Lemma db_evolves_same d d' :
  db_nodes d' = db_nodes d → (db_next_uuid d ≤ db_next_uuid d')%N → db_evolves d d'.
Proof. intros Hn Hu. unfold db_evolves, node_keys, node_ids, fingerprints. by rewrite Hn. Qed.
#[local] Hint Resolve db_evolves_same : core.

Lemma primitive_uuid : primitive new_uuid.
Proof. intros r. apply rtc_once, prim_db, db_evolves_same; [done|]. cbn. lia. Qed.

Lemma primitive_audit now t a x y i : primitive (audit_log now t a x y i).
Proof. apply primitive_ignore, primitive_db. intros d. by apply db_evolves_same. Qed.

(** The rows an update of the node table keeps in place. *)
Lemma update_where_ids p f (t : list Node) :
  (∀ n, n_ID (f n) = n_ID n) → n_ID <$> update_where p f t = n_ID <$> t.
Proof. intros Hf. apply update_where_fmap. auto. Qed.

Lemma evolves_update d p f :
  (∀ n, n_ID (f n) = n_ID n) → (∀ n, n_CertFingerprint (f n) = n_CertFingerprint n) →
  db_evolves d (upd_db_nodes (update_where p f) d).
Proof.
  intros Hi Hf. unfold db_evolves, node_keys, node_ids, fingerprints. cbn [db_nodes upd_db_nodes db_next_uuid].
  rewrite update_where_ids by done. rewrite update_where_fmap by auto. done.
Qed.

Lemma evolves_touch now id used cap d : db_evolves d (TouchNodeStatus now id used cap d).2.
Proof.
  unfold TouchNodeStatus. destruct (find_by _ _); [|by apply db_evolves_same]. by apply evolves_update.
Qed.

Lemma evolves_create now p d : db_evolves d (CreateNode now p d).2.
Proof.
  unfold CreateNode. destruct (if decide (p_ID p = uuid_nil) then gen_uuid d else (p_ID p, d)) as [id d1] eqn:Hid.
  assert (db_nodes d1 = db_nodes d ∧ (db_next_uuid d ≤ db_next_uuid d1)%N) as [Hn Hu].
  { destruct (decide _); injection Hid as <- <-; cbn; split; done || lia. }
  destruct (existsb _ (db_nodes d1)) eqn:He; [by apply db_evolves_same|]. rewrite Hn in He.
  assert (∀ m, m ∈ db_nodes d → n_ID m ≠ id ∧ n_CertFingerprint m ≠ p_CertFingerprint p) as Hnew.
  { intros m Hm. rewrite <- not_true_iff_false, existsb_exists in He.
    split; intros Heq; apply He; exists m; (split; [by apply list_elem_of_In|]);
      apply orb_true_iff; rewrite !bool_decide_eq_true; auto. }
  unfold db_evolves, node_keys, node_ids, fingerprints.
  cbn [snd db_nodes upd_db_nodes db_next_uuid]. rewrite Hn, !fmap_app.
  split_and!; [set_solver| |done]. intros [Hnd Hnf]. split; apply NoDup_app; split_and!; try done.
  - intros x (m&->&Hm)%list_elem_of_fmap ?%list_elem_of_singleton. by destruct (Hnew m Hm).
  - apply NoDup_singleton.
  - intros x (m&->&Hm)%list_elem_of_fmap ?%list_elem_of_singleton. by destruct (Hnew m Hm).
  - apply NoDup_singleton.
Qed.

Lemma evolves_rotate id fp pem expires d : db_evolves d (RotateNodeCert id fp pem expires d).2.
Proof.
  unfold RotateNodeCert. destruct (_ && _) eqn:Hc; [by apply db_evolves_same|].
  unfold update_nodes. destruct (existsb (live_with_id id) (db_nodes d)) eqn:He; [|by apply db_evolves_same].
  cbn [andb] in Hc. unfold db_evolves, node_keys, node_ids, fingerprints.
  cbn [snd db_nodes upd_db_nodes db_next_uuid]. rewrite update_where_ids by done.
  split_and!; try done. intros [Hid Hfp]. split; [done|].
  assert (∀ n, n ∈ db_nodes d → n_ID n ≠ id → n_CertFingerprint n ≠ fp) as Hnew.
  { intros n Hn Hne Heq. rewrite <- not_true_iff_false, existsb_exists in Hc. apply Hc. exists n.
    split; [by apply list_elem_of_In|]. by rewrite !bool_decide_eq_true_2. }
  clear Hc He. induction (db_nodes d) as [|n t IH]; [done|].
  apply NoDup_cons in Hid as [Hni Hid], Hfp as [Hnf Hfp]. cbn [update_where fmap list_fmap] in *.
  apply NoDup_cons. split; [|apply IH; try done; intros m Hm; apply Hnew; by right].
  change (list_fmap Node Node (λ r, if live_with_id id r then _ else r) t) with
    (update_where (live_with_id id) (λ n, upd_n_CertFingerprint (λ _, fp)
                 (upd_n_CertPEM (λ _, pem) (upd_n_CertExpiresAt (λ _, Some expires) n))) t).
  intros (m&Heq&(m0&Hm0&->)%elem_of_update_where)%list_elem_of_fmap.
  assert (n_ID m0 ≠ n_ID n) as Hne.
  { intros E. apply Hni. rewrite <- E. by apply list_elem_of_fmap_2. }
  destruct (live_with_id id n) eqn:H1, (live_with_id id m0) eqn:H2; cbn in Heq.
  - unfold live_with_id in H1, H2. apply andb_true_iff in H1 as [H1%bool_decide_eq_true _],
      H2 as [H2%bool_decide_eq_true _]. congruence.
  - unfold live_with_id in H1. apply andb_true_iff in H1 as [H1%bool_decide_eq_true _].
    apply (Hnew m0); [by right|congruence|done].
  - unfold live_with_id in H2. apply andb_true_iff in H2 as [H2%bool_decide_eq_true _].
    apply (Hnew n); [left|congruence|done].
  - apply Hnf. rewrite Heq. by apply list_elem_of_fmap_2.
Qed.

Ltac prim_step :=
  match goal with
  | |- primitive (_ ≫= _) => apply primitive_bind; [|intros]
  | |- primitive (guard_err _ _) => apply primitive_guard
  | |- primitive (mret _) => apply primitive_ret
  | |- primitive (lift _) => apply primitive_lift
  | |- primitive (auth_lift _) => apply primitive_lift
  | |- primitive new_uuid => apply primitive_uuid
  | |- primitive (audit_log _ _ _ _ _ _) => apply primitive_audit
  | |- primitive (let _ := _ in _) => cbv zeta
  | |- primitive (match ?x with _ => _ end) => destruct x
  end.
Ltac prim_auto := repeat prim_step.

(** An insert with a fresh id under a uniqueness check. *)
Lemma existsb_key {A B} `{EqDecision B} (key : A → B) x t :
  existsb (λ r, bool_decide (key r = x)) t = false ↔ x ∉ key <$> t.
Proof.
  rewrite <- not_true_iff_false, existsb_exists, list_elem_of_fmap. split; intros H.
  - intros (r&->&Hr). apply H. exists r. split; [by apply list_elem_of_In|by apply bool_decide_eq_true].
  - intros (r&Hr%list_elem_of_In&<-%bool_decide_eq_true). eauto.
Qed.

Lemma primitive_CreateUser_row now email h : primitive (CreateUser_row now email h).
Proof.
  intros r. unfold CreateUser_row, mbind, M_bind, new_uuid, gets. cbn.
  destruct (existsb _ _) eqn:He; [apply primitive_uuid|]. cbn. apply rtc_once.
  apply (prim_user r (MkUser (Uuid (next_id r)) (ToLower (TrimSpace email)) h "customer" "active" now now)); [done|].
  cbn. by apply (existsb_key us_Email).
Qed.

Lemma primitive_CreateAPIKey_row now user h label scopes exp :
  primitive (CreateAPIKey_row now user h label scopes exp).
Proof.
  intros r. unfold CreateAPIKey_row, mbind, M_bind, new_uuid, gets. cbn.
  destruct (existsb _ _) eqn:He; [apply primitive_uuid|]. cbn.
  unfold user_exists. cbn. destruct (existsb _ (r_users r)) eqn:Hu; [|apply primitive_uuid]. cbn.
  apply rtc_once.
  apply (prim_key r (MkAPIKey (Uuid (next_id r)) user h label
    (if bool_decide (scopes = []) then ["read"; "write"]%string else scopes) exp None now)); try done.
  - cbn. by apply (existsb_key ak_KeyHash).
  - cbn. apply dec_stable. intros Hn%(existsb_key us_ID). congruence.
Qed.

Lemma primitive_MintRegistrationCode_row now user h ep co rg asn exp :
  primitive (MintRegistrationCode_row now user h ep co rg asn exp).
Proof.
  intros r. unfold MintRegistrationCode_row, mbind, M_bind, new_uuid, gets. cbn.
  destruct (existsb _ _) eqn:He; [apply primitive_uuid|]. cbn.
  unfold user_exists. cbn. destruct (existsb _ (r_users r)) eqn:Hu; [|apply primitive_uuid]. cbn.
  apply rtc_once.
  apply (prim_code r (MkCode (Uuid (next_id r)) user h ep co rg asn exp None None now)); try done.
  - cbn. by apply (existsb_key rg_CodeHash).
  - cbn. apply dec_stable. intros Hn%(existsb_key us_ID). congruence.
Qed.

Lemma primitive_RevokeAPIKey_row now user key : primitive (RevokeAPIKey_row now user key).
Proof. intros r. unfold RevokeAPIKey_row. destruct (existsb _ _); [apply rtc_once, prim_revoke|done]. Qed.

Lemma query_row_head {E A} (e : E) (P : A → Prop) `{∀ x, Decision (P x)} t x :
  query_row e (filter P t) = Ok x → x ∈ t ∧ P x.
Proof.
  unfold query_row. intros Hq. assert (x ∈ filter P t) as [? ?]%list_elem_of_filter; [|done].
  destruct (filter P t); [done|]. injection Hq as ->. left.
Qed.

Lemma open_code_ok now h r c r' :
  open_code now h r = (Ok c, r') →
  r' = r ∧ c ∈ r_codes r ∧ rg_CodeHash c = h ∧ rg_UsedAt c = None ∧ now ≤ rg_ExpiresAt c.
Proof.
  unfold open_code. intros (c'&r1&Hq&([]&r2&[Hu ->]%guard_ok&([]&r3&[He ->]%guard_ok&[= <- <-])%bind_ok)%bind_ok)%bind_ok.
  unfold RegistrationCodeByHash in Hq. injection Hq as Hq <-. apply query_row_head in Hq as [Hin Hh].
  apply bool_decide_eq_false in Hu. apply Z.ltb_ge in He.
  split_and!; try done. by apply dec_stable.
Qed.

Lemma primitive_open_code now h : primitive (open_code now h).
Proof. unfold open_code, RegistrationCodeByHash. prim_auto. apply primitive_read. Qed.

Lemma bind_code_ok now id node r u r' :
  bind_code now id node r = (Ok u, r') →
  node ∈ node_ids (r_db r) ∧
  r' = upd_r_codes (update_where (λ c, bool_decide (rg_ID c = id)) (use_code now node)) r.
Proof.
  unfold bind_code. destruct (existsb _ _) eqn:He; [|done]. intros [= _ <-]. split; [|done].
  apply dec_stable. intros Hn%(existsb_key n_ID). congruence.
Qed.

(** Registering: the node appears and the code is used, in one transaction. *)
Lemma RegisterNode_row_ok now h p r n r' :
  RegisterNode_row now h p r = (Ok n, r') →
  ∃ c d1, c ∈ r_codes r ∧ rg_CodeHash c = h ∧ rg_UsedAt c = None ∧ now ≤ rg_ExpiresAt c ∧
    CreateNode now (code_params c p) (r_db r) = (Ok n, d1) ∧ n_ID n ∈ node_ids d1 ∧
    r' = upd_r_codes (update_where (λ x, bool_decide (rg_ID x = rg_ID c)) (use_code now (n_ID n)))
           (upd_r_db (λ _, d1) r).
Proof.
  unfold RegisterNode_row.
  intros (c&r1&Ho&(n'&r2&Hc&(u&r3&Hb&[= <- <-])%bind_ok)%bind_ok)%transaction_ok%bind_ok.
  apply open_code_ok in Ho as (->&Hin&Hh&Hu&He). unfold on_db in Hc.
  destruct (CreateNode now (code_params c p) (r_db r)) as [[n''|] d1] eqn:Hcn; [|done].
  injection Hc as -> <-. apply bind_code_ok in Hb as [Hn ->]. by exists c, d1.
Qed.

Lemma primitive_RegisterNode_row now h p : primitive (RegisterNode_row now h p).
Proof.
  intros r. destruct (RegisterNode_row now h p r) as [[n|e] r'] eqn:Hr.
  - apply RegisterNode_row_ok in Hr as (c&d1&Hin&_&Hu&_&Hcn&Hn&->). cbn [snd].
    eapply rtc_l; [apply (prim_db r d1)|].
    + pose proof (evolves_create now (code_params c p) (r_db r)) as Hev. by rewrite Hcn in Hev.
    + apply rtc_once. by apply (prim_use (upd_r_db (λ _, d1) r) now c (n_ID n)).
  - apply transaction_err in Hr as ->. done.
Qed.

Lemma primitive_Consume now h node : primitive (ConsumeRegistrationCode now h node).
Proof.
  intros r. destruct (ConsumeRegistrationCode now h node r) as [[c|e] r'] eqn:Hr.
  - unfold ConsumeRegistrationCode in Hr.
    rewrite transaction_ok in Hr. apply bind_ok in Hr as (c'&r1&Ho&(u&r2&Hb&[= _ <-])%bind_ok).
    apply open_code_ok in Ho as (->&Hin&_&Hu&_). apply bind_code_ok in Hb as [Hn ->].
    by apply rtc_once, prim_use.
  - apply transaction_err in Hr as ->. done.
Qed.

(** ** The service's steps *)

(** Whatever the services do to the registry: the operations of this file, at
    any time and with any arguments, and other components' work on the database,
    which keeps the nodes and their certificates' fingerprints. *)
Inductive step `{Argon2} (r : Registry) : Registry → Prop :=
  | step_user now email pw e : step r (CreateUser now email pw e r).2
  | step_password email pw : step r (VerifyPassword email pw r).2
  | step_lookup now h : step r (LookupAPIKey now h r).2
  | step_key now user h l s e : step r (CreateAPIKey now user h l s e r).2
  | step_revoke now user key : step r (RevokeAPIKey now user key r).2
  | step_mint now user ep co rg asn e : step r (MintRegistrationCode now user ep co rg asn e r).2
  | step_register now ca code csr os v l cap : step r (RegisterNode now ca code csr os v l cap r).2
  | step_consume now h node : step r (ConsumeRegistrationCode now h node r).2
  | step_renew now ca node csr fp : step r (RenewCertificate now ca node csr fp r).2
  | step_heartbeat now node used cap : step r (HeartbeatNode now node used cap r).2
  | step_other d :
      node_ids d = node_ids (r_db r) → fingerprints d = fingerprints (r_db r) →
      (db_next_uuid (r_db r) ≤ db_next_uuid d)%N → step r (upd_r_db (λ _, d) r).

Section steps.
Context `{Argon2}.

Lemma primitive_or_unauth {A} (m : registry A) : primitive m → primitive (or_unauthenticated m).
Proof.
  intros Hm r. specialize (Hm r). unfold or_unauthenticated.
  destruct (m r) as [[a|[[]| | | |]] r']; done.
Qed.

Lemma primitive_lookup now h : primitive (LookupAPIKey now h).
Proof.
  unfold LookupAPIKey, UserByID. prim_auto; [|apply primitive_read].
  apply primitive_or_unauth, primitive_read.
Qed.

Lemma primitive_RegisterNode now ca code csr os v l cap : primitive (RegisterNode now ca code csr os v l cap).
Proof.
  unfold RegisterNode, issue. prim_auto; auto using primitive_open_code, primitive_RegisterNode_row.
Qed.

Lemma primitive_Renew now ca node csr fp : primitive (RenewCertificate now ca node csr fp).
Proof.
  unfold RenewCertificate, issue. prim_auto; apply primitive_db; intros d.
  - by apply db_evolves_same.
  - apply evolves_rotate.
Qed.

Lemma step_prims r r' : step r r' → rtc prim r r'.
Proof.
  destruct 1 as [now email pw e|email pw|now h|now user h l s e|now user key|now user ep co rg asn e
                |now ca code csr os v l cap|now h node|now ca node csr fp|now node used cap|d Hi Hf Hu].
  - revert r. change (primitive (CreateUser now email pw e)). unfold CreateUser. prim_auto.
    apply primitive_CreateUser_row.
  - revert r. change (primitive (VerifyPassword email pw)). unfold VerifyPassword, UserByEmail. prim_auto.
    apply primitive_or_unauth, primitive_read.
  - apply primitive_lookup.
  - revert r. change (primitive (CreateAPIKey now user h l s e)). unfold CreateAPIKey. prim_auto.
    apply primitive_CreateAPIKey_row.
  - revert r. change (primitive (RevokeAPIKey now user key)). unfold RevokeAPIKey. prim_auto.
    apply primitive_RevokeAPIKey_row.
  - revert r. change (primitive (MintRegistrationCode now user ep co rg asn e)).
    unfold MintRegistrationCode. prim_auto. apply primitive_MintRegistrationCode_row.
  - apply primitive_RegisterNode.
  - apply primitive_Consume.
  - apply primitive_Renew.
  - revert r. change (primitive (HeartbeatNode now node used cap)). unfold HeartbeatNode. prim_auto.
    apply primitive_db. intros d. apply evolves_touch.
  - apply rtc_once, prim_db. unfold db_evolves, node_keys. by rewrite Hi, Hf.
Qed.

Lemma steps_prims r r' : rtc step r r' → rtc prim r r'.
Proof. induction 1 as [|r r1 r2 Hs _ IH]; [done|]. etrans; [by apply step_prims|done]. Qed.
End steps.

(** ** A well-formed registry *)

Definition below (r : Registry) (id : uuid) : Prop := (uuid_n id < next_id r)%N.

(** Unique columns are unique, references point at rows, ids come from the
    supply, and a code is used exactly when it is bound to a registered node. *)
Record registry_wf (r : Registry) : Prop := {
  wf_supply : (0 < next_id r)%N;
  wf_user_ids : NoDup (us_ID <$> r_users r);
  wf_emails : NoDup (us_Email <$> r_users r);
  wf_key_ids : NoDup (ak_ID <$> r_keys r);
  wf_key_hashes : NoDup (ak_KeyHash <$> r_keys r);
  wf_code_ids : NoDup (rg_ID <$> r_codes r);
  wf_code_hashes : NoDup (rg_CodeHash <$> r_codes r);
  wf_nodes : node_keys (r_db r);
  wf_key_users : ∀ k, k ∈ r_keys r → ak_UserID k ∈ us_ID <$> r_users r;
  wf_code_owners : ∀ c, c ∈ r_codes r → rg_OwnerID c ∈ us_ID <$> r_users r;
  wf_code_nodes : ∀ c, c ∈ r_codes r →
    (rg_UsedAt c = None ↔ rg_NodeID c = None) ∧ ∀ n, rg_NodeID c = Some n → n ∈ node_ids (r_db r);
  wf_fresh_users : ∀ u, u ∈ r_users r → below r (us_ID u);
  wf_fresh_keys : ∀ k, k ∈ r_keys r → below r (ak_ID k);
  wf_fresh_codes : ∀ c, c ∈ r_codes r → below r (rg_ID c) }.

Lemma NoDup_snoc {A B} (f : A → B) (t : list A) x : NoDup (f <$> t) → f x ∉ f <$> t → NoDup (f <$> t ++ [x]).
Proof.
  intros Hn Hx. rewrite fmap_app. apply NoDup_app. split_and!; [done| |apply NoDup_singleton].
  by intros y Hy ->%list_elem_of_singleton.
Qed.

(** An id from the supply is new. *)
Lemma fresh_id {A} (f : A → uuid) r (t : list A) :
  (∀ x, x ∈ t → below r (f x)) → Uuid (next_id r) ∉ f <$> t.
Proof. intros Hb (x&Hx&Hin)%list_elem_of_fmap. apply Hb in Hin. unfold below in Hin. rewrite <- Hx in Hin. simpl in Hin. lia. Qed.

Lemma below_bump r id : below r id → below (bump r) id.
Proof. unfold below, next_id. cbn. lia. Qed.
Lemma below_new r id : id = Uuid (next_id r) → below (bump r) id.
Proof. intros ->. unfold below, next_id. cbn. lia. Qed.

Lemma elem_of_snoc {A} (t : list A) x y : x ∈ t ++ [y] ↔ x ∈ t ∨ x = y.
Proof. by rewrite elem_of_app, list_elem_of_singleton. Qed.

Lemma prim_wf r r' : registry_wf r → prim r r' → registry_wf r'.
Proof.
  intros [] [d (Hids&Hk&Hn)|u Hid Hmail|k Hid Hh Hu Hr|now user key|c Hid Hh Ho Hu Hnd|now c node Hc Hu Hn].
  - split; cbn; try done; [unfold next_id in *; cbn in *; lia|by apply Hk| |..].
    + intros c Hc. destruct (wf_code_nodes0 c Hc) as [? Hcn]. split; [done|]. intros n Hcn'. apply Hids. by apply Hcn.
    + intros u Hu. specialize (wf_fresh_users0 u Hu). unfold below, next_id in *. cbn. lia.
    + intros k Hk'. specialize (wf_fresh_keys0 k Hk'). unfold below, next_id in *. cbn. lia.
    + intros c Hc. specialize (wf_fresh_codes0 c Hc). unfold below, next_id in *. cbn. lia.
  - split; cbn; try done.
    + unfold next_id. cbn. lia.
    + apply NoDup_snoc; [done|]. rewrite Hid. by apply fresh_id.
    + by apply NoDup_snoc.
    + intros k Hk. rewrite fmap_app. apply elem_of_app. left. auto.
    + intros c Hc. rewrite fmap_app. apply elem_of_app. left. auto.
    + intros x [Hx| ->]%elem_of_snoc; [by apply below_bump, wf_fresh_users0|by apply below_new].
    + intros x Hx. by apply below_bump, wf_fresh_keys0.
    + intros x Hx. by apply below_bump, wf_fresh_codes0.
  - split; cbn; try done.
    + unfold next_id. cbn. lia.
    + apply NoDup_snoc; [done|]. rewrite Hid. by apply fresh_id.
    + by apply NoDup_snoc.
    + intros x [Hx| ->]%elem_of_snoc; auto.
    + intros x Hx. by apply below_bump, wf_fresh_users0.
    + intros x [Hx| ->]%elem_of_snoc; [by apply below_bump, wf_fresh_keys0|by apply below_new].
    + intros x Hx. by apply below_bump, wf_fresh_codes0.
  - split; cbn; try done; try (by rewrite update_where_fmap).
    + intros x (x0&Hx0&->)%elem_of_update_where. destruct (revocable user key x0); by apply (wf_key_users0 x0).
    + intros x (x0&Hx0&->)%elem_of_update_where. destruct (revocable user key x0); by apply (wf_fresh_keys0 x0).
  - split; cbn; try done.
    + unfold next_id. cbn. lia.
    + apply NoDup_snoc; [done|]. rewrite Hid. by apply fresh_id.
    + by apply NoDup_snoc.
    + intros x [Hx| ->]%elem_of_snoc; auto.
    + intros x [Hx| ->]%elem_of_snoc; [by apply wf_code_nodes0|]. rewrite Hu, Hnd. done.
    + intros x Hx. by apply below_bump, wf_fresh_users0.
    + intros x Hx. by apply below_bump, wf_fresh_keys0.
    + intros x [Hx| ->]%elem_of_snoc; [by apply below_bump, wf_fresh_codes0|by apply below_new].
  - split; cbn; try done; try (by rewrite update_where_fmap).
    + intros x (x0&Hx0&->)%elem_of_update_where. destruct (bool_decide _); by apply (wf_code_owners0 x0).
    + intros x (x0&Hx0&->)%elem_of_update_where. destruct (bool_decide _); [|by apply wf_code_nodes0].
      cbn. split; [done|]. by intros n [= <-].
    + intros x (x0&Hx0&->)%elem_of_update_where. destruct (bool_decide _); by apply (wf_fresh_codes0 x0).
Qed.

Lemma prims_wf r r' : registry_wf r → rtc prim r r' → registry_wf r'.
Proof. intros Hwf. induction 1 as [|r r1 r2 Hp _ IH]; [done|]. apply IH. by eapply prim_wf. Qed.

(** C20: The registry stays well-formed whatever the services do: user ids, email
    addresses, key and code hashes and the nodes' ids and fingerprints stay
    unique, keys and codes belong to users, and a registration code is used
    exactly when it is bound to a node that is in the table. *)
Theorem registry_stays_wf `{Argon2} r r' : registry_wf r → rtc step r r' → registry_wf r'.
Proof.
  intros Hwf Hs%steps_prims. by eapply prims_wf.
Qed.

(** ** Keys *)

Lemma unique_row {A B} (f : A → B) (t : list A) x y :
  NoDup (f <$> t) → x ∈ t → y ∈ t → f x = f y → x = y.
Proof.
  intros Hnd [i Hi]%list_elem_of_lookup [j Hj]%list_elem_of_lookup Heq.
  assert (i = j) as ->; [|congruence].
  apply (NoDup_lookup (f <$> t) i j (f x)); [done|..]; rewrite list_lookup_fmap, ?Hi, ?Hj; cbn; congruence.
Qed.

Lemma query_row_unique {E A B} `{EqDecision B} (e : E) (f : A → B) (P : A → Prop) `{∀ x, Decision (P x)} t x :
  NoDup (f <$> t) → x ∈ t → P x → (∀ y, y ∈ t → P y → f y = f x) → query_row e (filter P t) = Ok x.
Proof.
  intros Hnd Hx HP Hall. unfold query_row.
  assert (x ∈ filter P t) as Hin by (by apply list_elem_of_filter).
  destruct (filter P t) as [|y ys] eqn:Hf; [by apply not_elem_of_nil in Hin|]. simpl. f_equal.
  assert (y ∈ filter P t) as [HPy Hy]%list_elem_of_filter by (rewrite Hf; left).
  by eapply unique_row; [|done..|apply Hall].
Qed.

Lemma query_row_none {E A} (e : E) (P : A → Prop) `{∀ x, Decision (P x)} t :
  (∀ y, y ∈ t → ¬ P y) → query_row e (filter P t) = Err e.
Proof.
  intros Hall. unfold query_row. destruct (filter P t) as [|y ys] eqn:Hf; [done|]. exfalso.
  assert (y ∈ filter P t) as [HPy Hy]%list_elem_of_filter by (rewrite Hf; left). by apply (Hall y).
Qed.

(** The key and user an API secret stands for. *)
Definition authenticates (now : Z) (r : Registry) (h : bytes) (k : APIKey) (u : User) : Prop :=
  k ∈ r_keys r ∧ ak_KeyHash k = h ∧ ak_RevokedAt k = None ∧
  (∀ e, ak_ExpiresAt k = Some e → now < e) ∧
  u ∈ r_users r ∧ us_ID u = ak_UserID k ∧ us_Status u = "active"%string.

Lemma key_active_spec now k :
  key_active now k = true ↔ ak_RevokedAt k = None ∧ ∀ e, ak_ExpiresAt k = Some e → now < e.
Proof.
  unfold key_active. rewrite andb_true_iff, bool_decide_eq_true. destruct (ak_ExpiresAt k) as [e|]; split.
  - intros [? H%Z.ltb_lt]. split; [done|]. by intros ? [= <-].
  - intros [? H]. split; [done|]. by apply Z.ltb_lt, H.
  - intros [? _]. by split.
  - intros [? _]. by split.
Qed.

Lemma APIKeyByHash_cases now h r :
  match APIKeyByHash now h r with
  | (Ok k, r') => r' = r ∧ k ∈ r_keys r ∧ ak_KeyHash k = h ∧ key_active now k = true
  | (Err e, r') => r' = r ∧ e = EStore ENotFound ∧
      ∀ k, k ∈ r_keys r → ak_KeyHash k = h → key_active now k = true → False
  end.
Proof.
  unfold APIKeyByHash. destruct (query_row _ _) as [k|e] eqn:Hk.
  - by apply query_row_head in Hk as [? []].
  - unfold query_row in Hk. destruct (filter _ (r_keys r)) as [|] eqn:Hf; [|done]. injection Hk as <-.
    split_and!; [done..|]. intros k Hin Hh Ha.
    assert (k ∈ filter (λ k, ak_KeyHash k = h ∧ key_active now k = true) (r_keys r)) as Hx
      by (by apply list_elem_of_filter). rewrite Hf in Hx. by apply not_elem_of_nil in Hx.
Qed.

(** An API key authenticates exactly while it is stored under the hash of
    the secret, not revoked, not expired, and its user is active; then the
    service answers that key and that user, and otherwise refuses as
    unauthenticated.  Looking up changes nothing. *)
Theorem LookupAPIKey_spec now h r :
  registry_wf r →
  match LookupAPIKey now h r with
  | (Ok (k, u), r') => r' = r ∧ authenticates now r h k u
  | (Err e, r') => r' = r ∧ e = EUnauthenticated ∧ ∀ k u, ¬ authenticates now r h k u
  end.
Proof.
  intros []. unfold LookupAPIKey, or_unauthenticated. pose proof (APIKeyByHash_cases now h r) as Hk.
  unfold mbind at 1, M_bind at 1. destruct (APIKeyByHash now h r) as [[k|e] r1].
  - destruct Hk as (->&Hin&Hh&[Hrev Hexp]%key_active_spec).
    specialize (wf_key_users0 k Hin). apply list_elem_of_fmap in wf_key_users0 as (u&Hus&Hu).
    assert (UserByID (ak_UserID k) r = (Ok u, r)) as Hrun.
    { unfold UserByID. rewrite (query_row_unique _ us_ID (λ x, us_ID x = ak_UserID k) (r_users r) u); try done.
      intros y _ ?. congruence. }
    rewrite (bind_run _ _ _ _ _ Hrun).
    destruct (bool_decide_reflect (us_Status u = "active"%string)) as [Hs|Hs]; cbn.
    + split; [done|]. unfold authenticates. by split_and!.
    + split_and!; [done..|]. intros k' u' (Hk'&Hh'&_&_&Hu'&Hid'&Hs').
      assert (k' = k) as -> by (eapply (unique_row ak_KeyHash); [done..|congruence]).
      assert (u' = u) as -> by (eapply (unique_row us_ID); [done..|congruence]). done.
  - destruct Hk as (->&->&Hno). split_and!; [done..|]. intros k u (Hin&Hh&Hr&Hx&_).
    apply (Hno k Hin Hh). by apply key_active_spec.
Qed.

(** ** What stays *)

(** A revoked key stays as it is; so does a used code. *)
Lemma prim_keeps r r' :
  registry_wf r → prim r r' →
  (∀ k, k ∈ r_keys r → ak_RevokedAt k ≠ None → k ∈ r_keys r') ∧
  (∀ c, c ∈ r_codes r → rg_UsedAt c ≠ None → c ∈ r_codes r').
Proof.
  intros Hwf [d _|u _ _|k0 _ _ _ _|now user key|c0 _ _ _ _ _|now c0 node Hc0 Hu _]; cbn; split;
    try (intros; assumption).
  - intros k Hk _. apply elem_of_app. by left.
  - intros k Hk Hr. apply elem_of_update_where. exists k. split; [done|].
    assert (revocable user key k = false) as ->; [|done].
    unfold revocable. rewrite (bool_decide_eq_false_2 (ak_RevokedAt k = None)) by done. apply andb_false_r.
  - intros c Hc _. apply elem_of_app. by left.
  - intros c Hc Hr. apply elem_of_update_where. exists c. split; [done|].
    case_bool_decide as Hid; [|done]. exfalso. apply Hr.
    assert (c = c0) as ->; [|done]. by apply (unique_row rg_ID (r_codes r)); [apply wf_code_ids|..].
Qed.

Lemma steps_keep `{Argon2} r r' :
  registry_wf r → rtc step r r' →
  registry_wf r' ∧ (∀ k, k ∈ r_keys r → ak_RevokedAt k ≠ None → k ∈ r_keys r') ∧
  (∀ c, c ∈ r_codes r → rg_UsedAt c ≠ None → c ∈ r_codes r').
Proof.
  intros Hwf Hs%steps_prims. induction Hs as [|r r1 r2 Hp _ IH]; [done|].
  destruct (prim_keeps _ _ Hwf Hp) as [H1 H2]. apply prim_wf in Hp; [|done].
  destruct (IH Hp) as (?&H3&H4). split_and!; [done|auto..].
Qed.

(** ** Revoking *)

Lemma RevokeAPIKey_row_ok now user key r r' :
  RevokeAPIKey_row now user key r = (Ok tt, r') →
  (∃ k, k ∈ r_keys r ∧ revocable user key k = true) ∧
  r' = upd_r_keys (update_where (revocable user key) (revoke now)) r.
Proof.
  unfold RevokeAPIKey_row. destruct (existsb _ _) eqn:He; [|done]. intros [= <-]. split; [|done].
  apply existsb_exists in He as (k&Hk%list_elem_of_In&?). by exists k.
Qed.

(** Revoking works only for an unrevoked key of the user; from then on, in
    every later state of the registry, the key's secret is refused. *)
Lemma revoked_key_refused `{Argon2} now user key r r1 r2 now' :
  registry_wf r → RevokeAPIKey now user key r = (Ok tt, r1) → rtc prim r1 r2 →
  ∃ k, k ∈ r_keys r ∧ ak_ID k = key ∧ ak_UserID k = user ∧ ak_RevokedAt k = None ∧
    (LookupAPIKey now' (ak_KeyHash k) r2).1 = Err EUnauthenticated.
Proof.
  intros Hwf Hr Hs. unfold RevokeAPIKey in Hr. apply bind_ok in Hr as ([]&r0&Hr&Ha).
  apply RevokeAPIKey_row_ok in Hr as [(k&Hk&Hrev) ->].
  assert (r1 = (audit_log now "user" (Some user) "api_key.revoke" "api_key" (Some key)
    (upd_r_keys (update_where (revocable user key) (revoke now)) r)).2) as -> by by rewrite Ha.
  set (r0 := upd_r_keys _ r) in *.
  assert (registry_wf r0) as Hwf0 by by eapply prim_wf, prim_revoke.
  assert (rtc prim r0 (audit_log now "user" (Some user) "api_key.revoke" "api_key" (Some key) r0).2) as Hp
    by apply primitive_audit.
  assert (rtc prim r0 r2) as Hall by by etrans.
  unfold revocable in Hrev. apply andb_true_iff in Hrev as [[Hid%bool_decide_eq_true
    Hus%bool_decide_eq_true]%andb_true_iff Hn%bool_decide_eq_true].
  exists k. split_and!; [done..|].
  assert (revoke now k ∈ r_keys r0) as Hin.
  { apply elem_of_update_where. exists k. split; [done|]. unfold revocable.
    by rewrite !bool_decide_eq_true_2. }
  assert (registry_wf r2 ∧ revoke now k ∈ r_keys r2) as [Hwf2 Hin2].
  { clear -Hwf0 Hin Hall. induction Hall as [|ra rb rc Hp _ IH]; [done|]. apply IH; [by eapply prim_wf|].
    by apply (prim_keeps _ _ Hwf0 Hp). }
  pose proof (APIKeyByHash_cases now' (ak_KeyHash k) r2) as Hc.
  unfold LookupAPIKey, or_unauthenticated, mbind at 1, M_bind at 1.
  destruct (APIKeyByHash now' (ak_KeyHash k) r2) as [[k2|e] r3]; [|by destruct Hc as (->&->&_)].
  exfalso. destruct Hc as (_&Hk2&Hh&[Ha2 _]%key_active_spec).
  assert (k2 = revoke now k) as ->; [|done].
  by eapply (unique_row ak_KeyHash); [apply (wf_key_hashes r2 Hwf2)|..].
Qed.

(** ** Registering a node *)

Lemma open_code_used now h r c :
  registry_wf r → c ∈ r_codes r → rg_CodeHash c = h → rg_UsedAt c ≠ None →
  open_code now h r = (Err (EStore EConflict), r).
Proof.
  intros Hwf Hc Hh Hu. unfold open_code.
  assert (RegistrationCodeByHash h r = (Ok c, r)) as Hrun.
  { unfold RegistrationCodeByHash.
    rewrite (query_row_unique _ rg_CodeHash (λ x, rg_CodeHash x = h) (r_codes r) c); try done.
    - apply (wf_code_hashes r Hwf).
    - intros y _ ?. congruence. }
  rewrite (bind_run _ _ _ _ _ Hrun), bool_decide_eq_true_2 by done. done.
Qed.

Lemma CreateNode_ok now p d n d1 :
  CreateNode now p d = (Ok n, d1) →
  db_nodes d1 = db_nodes d ++ [n] ∧ n_CertFingerprint n ∉ fingerprints d ∧ n_ID n ∉ node_ids d ∧
  (p_ID p ≠ uuid_nil → n_ID n = p_ID p) ∧ n_OwnerID n = p_OwnerID p ∧ n_Endpoint n = p_Endpoint p ∧
  n_Country n = p_Country p ∧ n_Region n = p_Region p ∧ n_ASN n = p_ASN p ∧
  n_PublicKey n = p_PublicKey p ∧ n_CertFingerprint n = p_CertFingerprint p ∧
  n_CertPEM n = p_CertPEM p ∧ n_CertExpiresAt n = Some (p_CertExpiresAt p) ∧
  n_Status n = NPending ∧ n_RevokedAt n = None ∧ n_ProbationUntil n = Some (now + 14 * day).
Proof.
  unfold CreateNode.
  destruct (if decide (p_ID p = uuid_nil) then gen_uuid d else (p_ID p, d)) as [id d'] eqn:Hid.
  assert (db_nodes d' = db_nodes d ∧ (p_ID p ≠ uuid_nil → id = p_ID p)) as [Hn Hne].
  { destruct (decide _); injection Hid as <- <-; split; done. }
  destruct (existsb _ (db_nodes d')) eqn:He; [done|]. intros [= <- <-]. rewrite Hn in He. cbn.
  split_and!; try done; try (by rewrite Hn).
  - intros (m&Heq&Hm)%list_elem_of_fmap. rewrite <- not_true_iff_false, existsb_exists in He. apply He.
    exists m. split; [by apply list_elem_of_In|]. rewrite (bool_decide_eq_true_2 (n_CertFingerprint m = _)) by done.
    apply orb_true_r.
  - intros (m&Heq&Hm)%list_elem_of_fmap. rewrite <- not_true_iff_false, existsb_exists in He. apply He.
    exists m. split; [by apply list_elem_of_In|]. by rewrite (bool_decide_eq_true_2 (n_ID m = _)).
Qed.

Lemma open_code_state now h r : (open_code now h r).2 = r.
Proof.
  unfold open_code, RegistrationCodeByHash, mbind, M_bind. destruct (query_row _ _); [|done].
  unfold guard_err. destruct (bool_decide _); [done|]. by destruct (_ <? _).
Qed.

Lemma issue_run f csr node ep e r :
  issue (Some f) csr node ep e r = (match f csr node ep with Some c => Ok c | None => Err EOther end, r).
Proof. unfold issue, mbind, M_bind, lift. cbn. by destruct (f csr node ep). Qed.

Lemma issue_bind {A} f csr node ep e (k : Issued → registry A) r :
  (issue (Some f) csr node ep e ≫= k) r =
  match f csr node ep with Some c => k c r | None => (Err EOther, r) end.
Proof. unfold mbind at 1, M_bind at 1. rewrite issue_run. by destruct (f csr node ep). Qed.

(** The registry but for its database's audit log and id supply. *)
Definition same_rows (r r' : Registry) : Prop :=
  r_users r' = r_users r ∧ r_keys r' = r_keys r ∧ r_codes r' = r_codes r ∧
  db_nodes (r_db r') = db_nodes (r_db r).

(** What a registration took from the code and from the authority. *)
Lemma RegisterNode_ok now ca code csr osName version label capacity r n pem r' :
  (0 < next_id r)%N →
  RegisterNode now ca code csr osName version label capacity r = (Ok (n, pem), r') →
  ∃ issue rc c cert, ca = Some issue ∧ code ≠ [] ∧ csr ≠ [] ∧
    (rc ∈ r_codes r ∧ rg_CodeHash rc = hashSecret code) ∧
    (c ∈ r_codes r ∧ rg_CodeHash c = hashSecret code ∧ rg_UsedAt c = None ∧ now ≤ rg_ExpiresAt c) ∧
    issue csr (n_ID n) (rg_Endpoint rc) = Some cert ∧ pem = is_PEM cert ∧
    n_ID n = Uuid (next_id r) ∧ n_CertExpiresAt n = Some (is_Expires cert) ∧
    n_OwnerID n = rg_OwnerID c ∧ n_Endpoint n = rg_Endpoint c ∧ n_Country n = rg_Country c ∧
    n_Region n = rg_Region c ∧ n_ASN n = rg_ASN c ∧ n_PublicKey n = is_Pub cert ∧
    n_CertFingerprint n = is_FP cert ∧ n_Status n = NPending ∧ n_ProbationUntil n = Some (now + 14 * day) ∧
    db_nodes (r_db r') = db_nodes (r_db r) ++ [n] ∧
    r_codes r' = update_where (λ x, bool_decide (rg_ID x = rg_ID c)) (use_code now (n_ID n)) (r_codes r) ∧
    r_users r' = r_users r ∧ r_keys r' = r_keys r.
Proof.
  intros Hpos. unfold RegisterNode. intros ([]&r1&[Hca ->]%guard_ok&Hreg)%bind_ok.
  apply bind_ok in Hreg as ([]&r1&[Hne ->]%guard_ok&Hreg). apply orb_false_iff in Hne as [Hcode Hcsr].
  apply bool_decide_eq_false in Hcode, Hcsr, Hca. destruct ca as [issue|]; [|done].
  apply bind_ok in Hreg as (rc&r1&Ho&Hreg). apply open_code_ok in Ho as (->&Hrc&Hh&_&_).
  apply bind_ok in Hreg as (id&r1&Hid&Hreg). injection Hid as <- <-. rewrite issue_bind in Hreg.
  destruct (issue csr _ (rg_Endpoint rc)) as [cert|] eqn:Hcert; [|done].
  apply bind_ok in Hreg as (n'&r2&Hrow&Hreg). apply RegisterNode_row_ok in Hrow as (c&d1&Hc&Hch&Hcu&Hce&Hcn&_&->).
  apply CreateNode_ok in Hcn as (Hnodes&_&_&Hnid&How&Hep&Hco&Hre&Hasn&Hpk&Hfp&_&Hexp&Hst&_&Hprob).
  cbn in Hc, Hch, Hcu, Hce, Hnodes, Hnid, How, Hep, Hco, Hre, Hasn, Hpk, Hfp, Hexp.
  injection Hreg as <- <- <-. cbn.
  assert (n_ID n' = Uuid (next_id r)) as Hidn.
  { apply Hnid. intros Hnil. injection Hnil as Hnil. unfold next_id in Hpos. lia. }
  exists issue, rc, c, cert. rewrite Hidn. by split_and!.
Qed.

Lemma RegisterNode_err now ca code csr osName version label capacity r e r' :
  RegisterNode now ca code csr osName version label capacity r = (Err e, r') → same_rows r r'.
Proof.
  unfold RegisterNode. destruct ca as [issue|]; [|by intros [= _ <-]].
  rewrite (bool_decide_eq_false_2 (Some issue = None)) by done. unfold guard_err. rewrite ret_bind.
  destruct (bool_decide (code = []) || bool_decide (csr = [])); [by intros [= _ <-]|]. rewrite ret_bind.
  unfold mbind at 1, M_bind at 1. destruct (open_code now (hashSecret code) r) as [[rc|e0] r1] eqn:Ho.
  2: { pose proof (open_code_state now (hashSecret code) r) as Hs. rewrite Ho in Hs. cbn in Hs. subst r1.
       by intros [= _ <-]. }
  apply open_code_ok in Ho as (->&_). unfold mbind at 1, M_bind at 1, new_uuid. cbn -[RegisterNode_row].
  rewrite issue_bind. destruct (issue csr _ (rg_Endpoint rc)) as [cert|]; [|by intros [= _ <-]].
  unfold mbind at 1, M_bind at 1. destruct (RegisterNode_row _ _ _ _) as [[n|e0] r2] eqn:Hrow; [done|].
  intros [= _ <-]. by apply transaction_err in Hrow as ->.
Qed.

(** C22: A node is registered exactly against an unused, unexpired code: the new
    node belongs to the code's owner, stands where the code says, carries the
    key and certificate the CA issued for its own id, starts pending and on
    probation, and the code is used up by it in the same transaction.  When
    registration fails no row of the registry has changed. *)
Theorem RegisterNode_spec now ca code csr osName version label capacity r :
  registry_wf r →
  match RegisterNode now ca code csr osName version label capacity r with
  | (Ok (n, pem), r') =>
      ∃ c issue cert, ca = Some issue ∧ code ≠ [] ∧ csr ≠ [] ∧
        c ∈ r_codes r ∧ rg_CodeHash c = hashSecret code ∧ rg_UsedAt c = None ∧ now ≤ rg_ExpiresAt c ∧
        issue csr (n_ID n) (rg_Endpoint c) = Some cert ∧ pem = is_PEM cert ∧
        n_OwnerID n = rg_OwnerID c ∧ n_Endpoint n = rg_Endpoint c ∧ n_Country n = rg_Country c ∧
        n_Region n = rg_Region c ∧ n_ASN n = rg_ASN c ∧ n_PublicKey n = is_Pub cert ∧
        n_CertFingerprint n = is_FP cert ∧ n_Status n = NPending ∧
        n_ProbationUntil n = Some (now + 14 * day) ∧ n_CertExpiresAt n = Some (is_Expires cert) ∧
        db_nodes (r_db r') = db_nodes (r_db r) ++ [n] ∧
        r_codes r' = update_where (λ x, bool_decide (rg_ID x = rg_ID c)) (use_code now (n_ID n)) (r_codes r) ∧
        r_users r' = r_users r ∧ r_keys r' = r_keys r
  | (Err e, r') => same_rows r r'
  end.
Proof.
  intros Hwf. destruct (RegisterNode _ _ _ _ _ _ _ _ _) as [[[n pem]|e] r'] eqn:Hreg;
    [|by eapply RegisterNode_err].
  apply RegisterNode_ok in Hreg; [|apply (wf_supply r Hwf)].
  destruct Hreg as (issue&rc&c&cert&->&Hcode&Hcsr&(Hrc&Hrh)&(Hc&Hh&Hu&He)&Hcert&->&_&Hexp&How&Hep&Hco&Hre&Hasn&Hrest).
  assert (rc = c) as -> by (apply (unique_row rg_CodeHash (r_codes r)); [apply (wf_code_hashes r Hwf)|congruence..]).
  exists c, issue, cert. destruct Hrest as (?&?&?&?&?&?&?&?). by split_and!.
Qed.

(** A registration code registers one node: after a registration succeeded,
    every later attempt with the same code is refused as a conflict, whatever
    happened in between, and changes nothing. *)
Theorem code_single_use `{Argon2} now ca code csr osName version label capacity r n pem r1 r2
    now' issue csr' osName' version' label' capacity' :
  registry_wf r → RegisterNode now ca code csr osName version label capacity r = (Ok (n, pem), r1) →
  rtc step r1 r2 → csr' ≠ [] →
  RegisterNode now' (Some issue) code csr' osName' version' label' capacity' r2 =
    (Err (EStore EConflict), r2).
Proof.
  intros Hwf Hreg Hs Hcsr'.
  assert (registry_wf r1) as Hwf1.
  { pose proof (primitive_RegisterNode now ca code csr osName version label capacity r) as Hp.
    rewrite Hreg in Hp. by eapply prims_wf. }
  assert (code ≠ [] ∧ ∃ c, c ∈ r_codes r1 ∧ rg_CodeHash c = hashSecret code ∧ rg_UsedAt c ≠ None)
    as (Hcode&c&Hc&Hh&Hu).
  { apply RegisterNode_ok in Hreg; [|apply (wf_supply r Hwf)].
    destruct Hreg as (?&?&c&?&_&Hcode&_&_&(Hc&Hh&_)&Hreg). split; [done|].
    exists (use_code now (n_ID n) c). split_and!; [|done|done].
    destruct Hreg as (_&_&_&_&_&_&_&_&_&_&_&_&_&_&->&_).
    apply elem_of_update_where. exists c. by rewrite bool_decide_eq_true_2. }
  destruct (steps_keep _ _ Hwf1 Hs) as (Hwf2&_&Hkeep). specialize (Hkeep c Hc Hu).
  unfold RegisterNode. rewrite (bool_decide_eq_false_2 (Some issue = None)) by done.
  rewrite (bool_decide_eq_false_2 (code = [])), (bool_decide_eq_false_2 (csr' = [])) by done.
  unfold guard_err. cbn [orb]. rewrite !ret_bind.
  unfold mbind at 1, M_bind at 1. by rewrite (open_code_used _ _ _ c).
Qed.

(** The empty registry is well-formed. *)
Definition registry_empty : Registry := MkRegistry [] [] [] db_empty.

Lemma registry_empty_wf : registry_wf registry_empty.
Proof.
  split; cbn; try apply NoDup_nil_2; try done; try (by intros ? ?%not_elem_of_nil).
  split; apply NoDup_nil_2.
Qed.

(** ** Renewing a certificate *)

Definition rotated (cert : Issued) (n : Node) : Node :=
  upd_n_CertFingerprint (λ _, is_FP cert)
    (upd_n_CertPEM (λ _, is_PEM cert) (upd_n_CertExpiresAt (λ _, Some (is_Expires cert)) n)).

(** The node renewed, the certificate issued, and every row after. *)
Lemma RenewCertificate_ok now ca node csr peerFP r pem r' :
  RenewCertificate now ca node csr peerFP r = (Ok pem, r') →
  ∃ n issue cert, ca = Some issue ∧ n ∈ db_nodes (r_db r) ∧ n_ID n = node ∧ AdmitNodeRenew n = Ok tt ∧
    peerFP = n_CertFingerprint n ∧ issue csr node (n_Endpoint n) = Some cert ∧ is_Pub cert = n_PublicKey n ∧
    pem = is_PEM cert ∧
    db_nodes (r_db r') = update_where (live_with_id node) (rotated cert) (db_nodes (r_db r)) ∧
    r_users r' = r_users r ∧ r_keys r' = r_keys r ∧ r_codes r' = r_codes r ∧
    db_next_uuid (r_db r') = db_next_uuid (r_db r).
Proof.
  unfold RenewCertificate. intros ([]&r1&[Hne ->]%guard_ok&Hr)%bind_ok.
  apply orb_false_iff in Hne as [Hca%bool_decide_eq_false _]. destruct ca as [issue|]; [|done].
  apply bind_ok in Hr as (n&r1&Hn&Hr). unfold on_db, NodeByID in Hn.
  destruct (query_row _ _) as [n0|e0] eqn:Hq; [|done]. injection Hn as -> <-.
  apply query_row_head in Hq as [Hin Hid]. rewrite upd_r_db_id in Hr.
  apply bind_ok in Hr as ([]&r1&[Hadm ->]%guard_ok&Hr). apply bind_ok in Hr as ([]&r1&[Hfp ->]%guard_ok&Hr).
  apply negb_false_iff, bool_decide_eq_true in Hfp. rewrite issue_bind in Hr.
  destruct (issue csr node (n_Endpoint n)) as [cert|] eqn:Hc; [|done].
  apply bind_ok in Hr as ([]&r1&[Hpub ->]%guard_ok&Hr). apply negb_false_iff, bool_decide_eq_true in Hpub.
  apply bind_ok in Hr as ([]&r1&Hrot&Hr). unfold on_db, RotateNodeCert in Hrot.
  destruct (_ && _); [done|]. unfold update_nodes in Hrot.
  destruct (existsb (live_with_id node) (db_nodes (r_db r))); [|done].
  injection Hrot as <-. injection Hr as <- <-. exists n, issue, cert. cbn -[update_where].
  split_and!; try done. by destruct (AdmitNodeRenew n) as [[]|].
Qed.

Lemma RenewCertificate_err now ca node csr peerFP r e r' :
  RenewCertificate now ca node csr peerFP r = (Err e, r') → same_rows r r'.
Proof.
  unfold RenewCertificate, guard_err. destruct ca as [issue|]; [|by intros [= _ <-]].
  rewrite (bool_decide_eq_false_2 (Some issue = None)) by done. cbn [orb].
  destruct (bool_decide (csr = [])); [by intros [= _ <-]|]. rewrite ret_bind.
  unfold mbind at 1, M_bind at 1, on_db at 1, NodeByID.
  destruct (query_row _ _) as [n|e0]; [|by intros [= _ <-]]. rewrite upd_r_db_id.
  destruct (negb (is_ok _)); [by intros [= _ <-]|]. rewrite ret_bind.
  destruct (negb _); [by intros [= _ <-]|]. rewrite ret_bind, issue_bind.
  destruct (issue csr node (n_Endpoint n)) as [cert|]; [|by intros [= _ <-]].
  destruct (negb _); [by intros [= _ <-]|]. rewrite ret_bind.
  unfold mbind at 1, M_bind at 1, on_db at 1, RotateNodeCert.
  destruct (_ && _); [by intros [= _ <-]|]. unfold update_nodes.
  by destruct (existsb (live_with_id node) _); [|intros [= _ <-]].
Qed.

(** A certificate is renewed only by the holder of the node's current one:
    the node is neither revoked nor quarantined, the presented fingerprint is
    the registered one and the new certificate keeps the registered key; then
    exactly that node's certificate is replaced.  Otherwise nothing in the
    registry changes.  (An expired certificate can be renewed.) *)
Theorem RenewCertificate_spec now ca node csr peerFP r :
  registry_wf r →
  match RenewCertificate now ca node csr peerFP r with
  | (Ok pem, r') =>
      ∃ n issue cert, ca = Some issue ∧ n ∈ db_nodes (r_db r) ∧ n_ID n = node ∧ n_RevokedAt n = None ∧
        n_Status n ≠ NQuarantined ∧ peerFP = n_CertFingerprint n ∧
        issue csr node (n_Endpoint n) = Some cert ∧ is_Pub cert = n_PublicKey n ∧ pem = is_PEM cert ∧
        db_nodes (r_db r') = update_where (λ m, bool_decide (n_ID m = node)) (rotated cert) (db_nodes (r_db r)) ∧
        r_users r' = r_users r ∧ r_keys r' = r_keys r ∧ r_codes r' = r_codes r
  | (Err e, r') => same_rows r r'
  end.
Proof.
  intros Hwf. destruct (RenewCertificate _ _ _ _ _ _) as [[pem|e] r'] eqn:Hr; [|by eapply RenewCertificate_err].
  apply RenewCertificate_ok in Hr as (n&issue&cert&->&Hin&Hid&Hadm&Hfp&Hc&Hpub&->&Hnodes&Hu&Hk&Hcd&_).
  unfold AdmitNodeRenew in Hadm. destruct (bool_decide_reflect (n_RevokedAt n ≠ None)) as [|Hrev]; [done|].
  destruct (bool_decide_reflect (n_Status n = NQuarantined)) as [|Hq]; [done|]. apply dec_stable in Hrev.
  exists n, issue, cert. split_and!; try done. rewrite Hnodes.
  unfold update_where. apply list_fmap_ext. intros i m Hm. unfold live_with_id.
  destruct (bool_decide_reflect (n_ID m = node)) as [Hmid|]; [|done]. cbn [andb].
  assert (m = n) as ->.
  { apply list_elem_of_lookup_2 in Hm. apply (unique_row n_ID (db_nodes (r_db r))); try done; [|congruence].
    apply (wf_nodes r Hwf). }
  by rewrite bool_decide_eq_true_2.
Qed.
