(* ===== verification/Tickets.v ===== *)
(** * Tickets: [src/internal/tickets/tickets.go]

    Signed capabilities for one operation on one fragment of one node.  Ed25519
    is [crypto/ed25519], whose documented law is [Ed25519Laws]; base64url, the
    codec and the checks are the program's. *)

From S2P Require Import Prelude Bytes Sha256.

(** ** Ed25519 *)

Class Ed25519 := {
  ed_public : bytes → bytes;                    (* PrivateKey.Public *)
  ed_sign : bytes → bytes → bytes;              (* Sign(priv, message) *)
  ed_verify : bytes → bytes → bytes → bool }.   (* Verify(pub, message, sig) *)

Class Ed25519Laws `{Ed25519} : Prop := {
  ed_sign_length k m : length (ed_sign k m) = 64%nat;
  ed_verify_sign k m : ed_verify (ed_public k) m (ed_sign k m) = true }.

(** A signature scheme that satisfies the laws, for concrete runs. *)
Module ToyEd25519.
Definition toy_sign (pub m : bytes) : bytes := sha256 (pub ++ m) ++ sha256 (m ++ pub).
Definition scheme : Ed25519 := {|
  ed_public k := take 32 k;
  ed_sign k m := toy_sign (take 32 k) m;
  ed_verify pub m s := bool_decide (s = toy_sign pub m) |}.
Definition laws : @Ed25519Laws scheme.
Proof.
  split.
  - intros k m. simpl. unfold toy_sign. by rewrite length_app, !sha256_length.
  - intros k m. simpl. by apply bool_decide_eq_true_2.
Qed.
End ToyEd25519.

(** ** The wire form shared by tickets and receipts *)

Definition dot : Byte.byte := Byte.x2e.

Definition encodeWire (payload sig : bytes) : bytes :=
  b64_encode payload ++ dot :: b64_encode sig.

(** The text before and after the first dot ([strings.IndexByte]). *)
Fixpoint cut_dot (w : bytes) : option (bytes * bytes) :=
  match w with
  | [] => None
  | b :: w' => if bool_decide (b = dot) then Some ([], w')
               else '(x, y) ← cut_dot w'; Some (b :: x, y)
  end.

Definition decodeWire (wire : bytes) : option (bytes * bytes) :=
  '(x, y) ← cut_dot wire;
  if bool_decide (x = []) || bool_decide (y = []) then None
  else
    payload ← b64_decode x;
    sig ← b64_decode y;
    if (length sig =? 64)%nat then Some (payload, sig) else None.

Lemma cut_dot_app x y : (∀ b, b ∈ x → byte_Z b ≠ 46) → cut_dot (x ++ dot :: y) = Some (x, y).
Proof.
  induction x as [|b x IH]; intros Hx; cbn [cut_dot app].
  - destruct (bool_decide_reflect (dot = dot)); done.
  - destruct (bool_decide_reflect (b = dot)) as [->|_]; [by destruct (Hx dot); [left|]|].
    rewrite IH; [done|]. intros. apply Hx. by right.
Qed.

Lemma decodeWire_encodeWire payload sig :
  payload ≠ [] → length sig = 64%nat →
  decodeWire (encodeWire payload sig) = Some (payload, sig).
Proof.
  intros Hp Hs. unfold decodeWire, encodeWire.
  rewrite cut_dot_app by apply b64_encode_no_dot. cbn [mbind option_bind].
  assert (b64_encode payload ≠ []) as Hx by (by intros ?%b64_encode_nil).
  assert (b64_encode sig ≠ []) as Hy by (intros ->%b64_encode_nil; done).
  destruct (bool_decide_reflect (b64_encode payload = [])); [done|].
  destruct (bool_decide_reflect (b64_encode sig = [])); [done|].
  rewrite !b64_decode_encode. simpl. by rewrite Hs.
Qed.

(** ** Tickets *)

Definition text (s : string) : bytes := String.list_byte_of_string s.

Definition OpPut : bytes := text "put".
Definition OpGet : bytes := text "get".
Definition OpDelete : bytes := text "delete".
Definition OpChallenge : bytes := text "challenge".
Definition ops : list bytes := [OpPut; OpGet; OpDelete; OpChallenge].

Definition NonceSize : nat := 16.
Definition SHA256Size : nat := 32.
Definition DefaultTTL : Z := 15 * minute.

Record Ticket := MkTicket {
  tk_Op : bytes; tk_FragmentID : uuid; tk_NodeID : uuid; tk_SHA256 : bytes;
  tk_MaxBytes : Z; tk_ExpiresAt : Z; tk_Nonce : bytes; tk_Raw : bytes }.

Inductive ticket_error := TInvalid | TSignature | TExpired | TBound | TOp | TRandom.
#[export] Instance ticket_error_eq_dec : EqDecision ticket_error.
Proof. solve_decision. Defined.

Definition appendU16String (s : bytes) : bytes :=
  let s := take (Z.to_nat 65535) s in be_bytes 2 (Z.of_nat (length s)) ++ s.

Definition encode (t : Ticket) : bytes :=
  appendU16String (tk_Op t) ++ uuid_bytes (tk_FragmentID t) ++ uuid_bytes (tk_NodeID t) ++
  tk_SHA256 t ++ be_bytes 8 (tk_MaxBytes t) ++ be_bytes 8 (unix (tk_ExpiresAt t)) ++ tk_Nonce t.

Definition takeU16String (p : bytes) : result ticket_error (bytes * bytes) :=
  if (length p <? 2)%nat then Err TInvalid
  else
    let n := Z.to_nat (be_Z (take 2 p)) in
    let p := drop 2 p in
    if (length p <? n)%nat then Err TInvalid else Ok (take n p, drop n p).

Definition decode (p : bytes) : result ticket_error Ticket :=
  '(op, rest) ← takeU16String p;
  if (length rest <? 16 + 16 + SHA256Size + 8 + 8 + NonceSize)%nat then Err TInvalid
  else
    let frag := bytes_uuid (take 16 rest) in
    let node := bytes_uuid (take 16 (drop 16 rest)) in
    let sha := take 32 (drop 32 rest) in
    let rest := drop 64 rest in
    let max := be_Z (take 8 rest) in
    let exp := wrap_s64 (be_Z (take 8 (drop 8 rest))) in
    let nonce := take NonceSize (drop 16 rest) in
    if negb (length rest =? 16 + NonceSize)%nat then Err TInvalid
    else Ok (MkTicket op frag node sha max (exp * second) nonce []).

Section signing.
Context `{Ed25519}.

(** [entropy] is what [rand.Read] would put in a missing nonce. *)
Definition Sign (priv : bytes) (now : Z) (entropy : option bytes) (t : Ticket) :
    result ticket_error Ticket :=
  if negb (bool_decide (tk_Op t ∈ ops)) then Err TOp
  else if bool_decide (tk_FragmentID t = uuid_nil) || bool_decide (tk_NodeID t = uuid_nil)
  then Err TInvalid
  else if negb (length (tk_SHA256 t) =? SHA256Size)%nat then Err TInvalid
  else
    nonce ← (if bool_decide (tk_Nonce t = []) then of_option TRandom entropy else Ok (tk_Nonce t));
    if negb (length nonce =? NonceSize)%nat then Err TInvalid
    else
      let exp := if is_zero (tk_ExpiresAt t) then now + DefaultTTL else tk_ExpiresAt t in
      let t := MkTicket (tk_Op t) (tk_FragmentID t) (tk_NodeID t) (tk_SHA256 t)
                 (tk_MaxBytes t) exp nonce [] in
      let payload := encode t in
      Ok (MkTicket (tk_Op t) (tk_FragmentID t) (tk_NodeID t) (tk_SHA256 t)
            (tk_MaxBytes t) exp nonce (encodeWire payload (ed_sign priv payload))).

Definition Parse (pub : bytes) (now : Z) (wire : bytes) : result ticket_error Ticket :=
  '(payload, sig) ← of_option TInvalid (decodeWire wire);
  if negb (ed_verify pub payload sig) then Err TSignature
  else
    t ← decode payload;
    if negb (now <? tk_ExpiresAt t) then Err TExpired
    else Ok (MkTicket (tk_Op t) (tk_FragmentID t) (tk_NodeID t) (tk_SHA256 t)
               (tk_MaxBytes t) (tk_ExpiresAt t) (tk_Nonce t) wire).

Definition Verify (pub : bytes) (now : Z) (wire op : bytes) (node frag : uuid) :
    result ticket_error Ticket :=
  t ← Parse pub now wire;
  if negb (bool_decide (tk_Op t = op)) then Err TOp
  else if negb (bool_decide (tk_NodeID t = node)) || negb (bool_decide (tk_FragmentID t = frag))
  then Err TBound
  else Ok t.
End signing.

(** The fields, without looking at the signature. *)
Definition Decode (wire : bytes) : result ticket_error Ticket :=
  '(payload, _) ← of_option TInvalid (decodeWire wire);
  decode payload.

(** ** The codec *)

Record ticket_wf (t : Ticket) : Prop := {
  wf_op : Z.of_nat (length (tk_Op t)) ≤ 65535;
  wf_frag : uuid_wf (tk_FragmentID t);
  wf_node : uuid_wf (tk_NodeID t);
  wf_sha : length (tk_SHA256 t) = SHA256Size;
  wf_max : uint64_range (tk_MaxBytes t);
  wf_exp : ∃ s, tk_ExpiresAt t = s * second ∧ int64_range s;
  wf_nonce : length (tk_Nonce t) = NonceSize }.

Lemma unix_seconds s : unix (s * second) = s.
Proof. unfold unix, second. by rewrite Z.div_mul. Qed.

Lemma takeU16String_append s rest :
  Z.of_nat (length s) ≤ 65535 → takeU16String (appendU16String s ++ rest) = Ok (s, rest).
Proof.
  intros Hs. unfold takeU16String, appendU16String. rewrite (take_ge s) by lia.
  rewrite <- app_assoc, length_app, be_bytes_length. change (2 + _ <? 2)%nat with false.
  rewrite (take_app_n 2), (drop_app_n 2) by apply be_bytes_length. rewrite be_Z_bytes.
  change (256 ^ Z.of_nat 2) with 65536. rewrite Z.mod_small, Nat2Z.id by lia.
  rewrite (proj2 (Nat.ltb_ge _ _)) by (rewrite length_app; lia).
  by rewrite take_app_n, drop_app_n.
Qed.

Lemma ticket_decode_encode t :
  ticket_wf t →
  decode (encode t) = Ok (MkTicket (tk_Op t) (tk_FragmentID t) (tk_NodeID t) (tk_SHA256 t)
    (tk_MaxBytes t) (tk_ExpiresAt t) (tk_Nonce t) []).
Proof.
  intros [Hop Hf Hn Hs Hm (s&He&Hr) Hnc]. unfold decode, encode.
  rewrite takeU16String_append by done. unfold mbind, result_bind, SHA256Size, NonceSize in *.
  pose proof (uuid_bytes_length (tk_FragmentID t)). pose proof (uuid_bytes_length (tk_NodeID t)).
  pose proof (be_bytes_length 8 (tk_MaxBytes t)). pose proof (be_bytes_length 8 (unix (tk_ExpiresAt t))).
  rewrite (proj2 (Nat.ltb_ge _ _)) by (rewrite !length_app; lia).
  rewrite (take_app_n 16), (drop_app_n 16), (take_app_n 16) by done.
  rewrite (app_assoc (uuid_bytes _) (uuid_bytes _)), (drop_app_n 32) by (rewrite length_app; lia).
  rewrite (take_app_n 32) by done.
  rewrite (app_assoc _ (tk_SHA256 t)), (drop_app_n 64) by (rewrite !length_app; lia).
  rewrite (take_app_n 8), (drop_app_n 8), (take_app_n 8) by done.
  rewrite (app_assoc (be_bytes 8 _)), (drop_app_n 16) by (rewrite length_app; lia).
  rewrite !length_app. simpl negb.
  replace (_ =? _)%nat with true by (symmetry; apply Nat.eqb_eq; lia).
  rewrite take_ge by lia. cbn [negb].
  do 2 f_equal; try by apply bytes_uuid_bytes.
  - rewrite be_Z_bytes. by apply Z.mod_small.
  - rewrite be_Z_bytes, He, unix_seconds. f_equal.
    change (256 ^ Z.of_nat 8) with (2^64). fold (wrap_u64 s). by rewrite wrap_s64_u64, wrap_s64_id.
Qed.

Lemma takeU16String_inv p op rest :
  takeU16String p = Ok (op, rest) →
  appendU16String op ++ rest = p ∧ Z.of_nat (length op) ≤ 65535.
Proof.
  unfold takeU16String, appendU16String.
  destruct (length p <? 2)%nat eqn:Hl; [done|]. apply Nat.ltb_ge in Hl.
  set (n := Z.to_nat (be_Z (take 2 p))).
  destruct (length (drop 2 p) <? n)%nat eqn:Hn; [done|]. apply Nat.ltb_ge in Hn.
  intros [= <- <-].
  assert (length (take 2 p) = 2%nat) as H2 by (rewrite length_take; lia).
  pose proof (be_Z_range (take 2 p)) as Hr. rewrite H2 in Hr. change (256 ^ Z.of_nat 2) with 65536 in Hr.
  assert (length (take n (drop 2 p)) = n) as Hop by (rewrite length_take; lia).
  assert (Z.of_nat n ≤ 65535) by lia. rewrite Hop. split; [|done].
  rewrite (take_ge (take n _)) by lia. rewrite Hop.
  replace (be_bytes 2 (Z.of_nat n)) with (take 2 p).
  - by rewrite <- app_assoc, !take_drop.
  - unfold n. rewrite Z2Nat.id by lia. rewrite <- H2 at 2. symmetry. apply be_bytes_Z.
Qed.

Lemma ticket_encode_decode p t : decode p = Ok t → encode t = p ∧ ticket_wf t ∧ tk_Raw t = [].
Proof.
  unfold decode. destruct (takeU16String p) as [[op rest]|e] eqn:Ht; [|done].
  apply takeU16String_inv in Ht as [Hp Hop]. unfold mbind, result_bind, SHA256Size, NonceSize.
  destruct (length rest <? _)%nat eqn:Hl; [done|]. apply Nat.ltb_ge in Hl.
  destruct (length (drop 64 rest) =? 16 + 16)%nat eqn:Hn; [|done]. apply Nat.eqb_eq in Hn.
  rewrite length_drop in Hn. cbn [negb]. intros [= <-].
  set (s := wrap_s64 _).
  assert (∀ n m, (m + n ≤ length rest)%nat → length (take n (drop m rest)) = n) as Hlen
    by (intros n m ?; rewrite length_take, length_drop; lia).
  assert (∀ n m, (m + n ≤ length rest)%nat → be_bytes n (be_Z (take n (drop m rest))) = take n (drop m rest)) as Hbe.
  { intros n m ?. rewrite <- (Hlen n m) at 1 by done. apply be_bytes_Z. }
  rewrite !drop_drop in *. simpl Nat.add in *.
  split_and!; [|split; cbn [tk_Op tk_FragmentID tk_NodeID tk_SHA256 tk_MaxBytes tk_ExpiresAt tk_Nonce]|done].
  - unfold encode. cbn [tk_Op tk_FragmentID tk_NodeID tk_SHA256 tk_MaxBytes tk_ExpiresAt tk_Nonce].
    rewrite unix_seconds. unfold s. rewrite drop_drop. cbn [Nat.add]. rewrite be_bytes_wrap, !Hbe by lia.
    rewrite !uuid_bytes_bytes by (apply (Hlen 16%nat 0%nat) || apply Hlen; lia).
    transitivity (appendU16String op ++ rest); [|exact Hp]. f_equal. symmetry.
    rewrite <- (take_drop 16 rest) at 1. apply (f_equal2 app); [done|].
    rewrite <- (take_drop 16 (drop 16 rest)) at 1. rewrite drop_drop. cbn [Nat.add]. apply (f_equal2 app); [done|].
    rewrite <- (take_drop 32 (drop 32 rest)) at 1. rewrite drop_drop. cbn [Nat.add]. apply (f_equal2 app); [done|].
    rewrite <- (take_drop 8 (drop 64 rest)) at 1. rewrite drop_drop. cbn [Nat.add]. apply (f_equal2 app); [done|].
    rewrite <- (take_drop 8 (drop 72 rest)) at 1. rewrite drop_drop. cbn [Nat.add]. apply (f_equal2 app); [done|].
    symmetry. apply take_ge. rewrite length_drop. lia.
  - done.
  - apply bytes_uuid_wf, (Hlen 16%nat 0%nat). lia.
  - apply bytes_uuid_wf, (Hlen 16%nat 16%nat). lia.
  - apply (Hlen 32%nat 32%nat). lia.
  - pose proof (be_Z_range (take 8 (drop 64 rest))) as Hr. rewrite Hlen in Hr by lia. exact Hr.
  - exists s. split; [done|]. apply wrap_s64_range.
  - apply (Hlen 16%nat 80%nat). lia.
Qed.

(** ** What a node accepts *)

Section theorems.
Context `{!Ed25519, !Ed25519Laws}.

(** Reading back a signed ticket: its fields, with the expiry in seconds. *)
Lemma Parse_signed priv now0 entropy t s now :
  Sign priv now0 entropy t = Ok s →
  uuid_wf (tk_FragmentID t) → uuid_wf (tk_NodeID t) → uint64_range (tk_MaxBytes t) →
  int64_range (unix (tk_ExpiresAt s)) →
  let expiry := unix (tk_ExpiresAt s) * second in
  Parse (ed_public priv) now (tk_Raw s) =
    if now <? expiry
    then Ok (MkTicket (tk_Op t) (tk_FragmentID t) (tk_NodeID t) (tk_SHA256 t) (tk_MaxBytes t)
               expiry (tk_Nonce s) (tk_Raw s))
    else Err TExpired.
Proof.
  intros Hs Hf Hn Hm He expiry. unfold Sign in Hs.
  destruct (bool_decide_reflect (tk_Op t ∈ ops)) as [Hop|]; [|done]. cbn [negb] in Hs.
  destruct (_ || _); [done|].
  destruct (length (tk_SHA256 t) =? SHA256Size)%nat eqn:Hsha; [|done]. apply Nat.eqb_eq in Hsha.
  cbn [negb] in Hs. unfold mbind, result_bind in Hs.
  destruct (if bool_decide (tk_Nonce t = []) then _ else _) as [nonce|]; [|done].
  destruct (length nonce =? NonceSize)%nat eqn:Hnc; [|done]. apply Nat.eqb_eq in Hnc.
  cbn [negb tk_Op tk_FragmentID tk_NodeID tk_SHA256 tk_MaxBytes] in Hs.
  set (t1 := MkTicket _ _ _ _ _ _ _ []) in Hs. injection Hs as <-.
  cbn [tk_ExpiresAt tk_Nonce tk_Raw] in *. unfold Parse.
  set (exp := if is_zero _ then _ else _) in *.
  set (t2 := MkTicket (tk_Op t) (tk_FragmentID t) (tk_NodeID t) (tk_SHA256 t)
               (tk_MaxBytes t) expiry nonce []).
  assert (encode t1 = encode t2) as Henc.
  { unfold encode, t1, t2, expiry.
    cbn [tk_Op tk_FragmentID tk_NodeID tk_SHA256 tk_MaxBytes tk_ExpiresAt tk_Nonce].
    by rewrite unix_seconds. }
  assert (ticket_wf t2) as Hwf.
  { split; try done; [|by exists (unix exp)]. simpl. revert Hop. unfold ops.
    rewrite !elem_of_cons. intros [->|[->|[->|[->|[]%not_elem_of_nil]]]]; vm_compute; done. }
  rewrite decodeWire_encodeWire; [|unfold encode, appendU16String; by destruct (be_bytes_length 2 0)|apply ed_sign_length].
  cbn [of_option mbind result_bind]. rewrite ed_verify_sign. cbn [negb].
  rewrite Henc, ticket_decode_encode by done. unfold t2, mbind, result_bind.
  cbn [tk_Op tk_FragmentID tk_NodeID tk_SHA256 tk_MaxBytes tk_ExpiresAt tk_Nonce].
  by destruct (now <? expiry).
Qed.

(** C29: A signed ticket is accepted for exactly its own operation, node and
    fragment, and exactly until the second its expiry falls in; the fields
    the node reads back are those that were signed. *)
Theorem Sign_Verify priv now0 entropy t s pub now op node frag :
  Sign priv now0 entropy t = Ok s → pub = ed_public priv →
  uuid_wf (tk_FragmentID t) → uuid_wf (tk_NodeID t) → uint64_range (tk_MaxBytes t) →
  int64_range (unix (tk_ExpiresAt s)) →
  let expiry := unix (tk_ExpiresAt s) * second in
  Verify pub now (tk_Raw s) op node frag =
    (if negb (now <? expiry) then Err TExpired
     else if negb (bool_decide (tk_Op t = op)) then Err TOp
     else if negb (bool_decide (tk_NodeID t = node)) || negb (bool_decide (tk_FragmentID t = frag))
     then Err TBound
     else Ok (MkTicket op frag node (tk_SHA256 t) (tk_MaxBytes t) expiry (tk_Nonce s) (tk_Raw s))).
Proof.
  intros Hs -> Hf Hn Hm He expiry. unfold Verify.
  rewrite (Parse_signed _ _ _ _ _ _ Hs) by done. fold expiry. unfold mbind, result_bind.
  destruct (now <? expiry); [|done]. cbn [negb tk_Op tk_FragmentID tk_NodeID].
  destruct (bool_decide_reflect (tk_Op t = op)) as [<-|]; [|done]. cbn [negb].
  destruct (bool_decide_reflect (tk_NodeID t = node)) as [<-|]; [|done].
  destruct (bool_decide_reflect (tk_FragmentID t = frag)) as [<-|]; [|done]. done.
Qed.

(** Where a signed ticket's nonce, expiry and wire form come from. *)
Lemma Sign_fields priv now entropy t s :
  Sign priv now entropy t = Ok s →
  (tk_Nonce t = [] → entropy = Some (tk_Nonce s)) ∧
  tk_ExpiresAt s = (if is_zero (tk_ExpiresAt t) then now + DefaultTTL else tk_ExpiresAt t) ∧
  ∃ payload sig, tk_Raw s = encodeWire payload sig.
Proof.
  unfold Sign. destruct (negb _); [done|]. destruct (_ || _); [done|]. destruct (negb _); [done|].
  unfold mbind, result_bind.
  destruct (if bool_decide (tk_Nonce t = []) then _ else _) as [nonce|] eqn:Hn; [|done].
  destruct (negb _); [done|]. intros [= <-]. cbn [tk_Nonce tk_ExpiresAt tk_Raw]. split_and!; [|done|by do 2 eexists].
  intros He. rewrite bool_decide_eq_true_2 in Hn by done. destruct entropy; [by injection Hn as ->|done].
Qed.

Lemma Verify_inv pub now wire op node frag t :
  Verify pub now wire op node frag = Ok t →
  ∃ sig, decodeWire wire = Some (encode t, sig) ∧ ed_verify pub (encode t) sig = true ∧
    ticket_wf t ∧ tk_Op t = op ∧ tk_NodeID t = node ∧ tk_FragmentID t = frag ∧
    now < tk_ExpiresAt t ∧ tk_Raw t = wire.
Proof.
  unfold Verify, Parse, mbind, result_bind, of_option.
  destruct (decodeWire wire) as [[payload sig]|]; [|by intros [=]].
  destruct (ed_verify pub payload sig) eqn:Hv; cbn [negb]; [|by intros [=]].
  destruct (decode payload) as [t0|] eqn:Hd; [|by intros [=]].
  destruct (now <? tk_ExpiresAt t0) eqn:Hexp; cbn [negb tk_Op tk_FragmentID tk_NodeID];
    [|by intros [=]].
  destruct (bool_decide_reflect (tk_Op t0 = op)) as [Hop|]; cbn [negb]; [|by intros [=]].
  destruct (bool_decide_reflect (tk_NodeID t0 = node)) as [Hn|]; [|by intros [=]].
  destruct (bool_decide_reflect (tk_FragmentID t0 = frag)) as [Hf|]; cbn [negb orb]; [|by intros [=]].
  intros [= <-]. apply ticket_encode_decode in Hd as (Henc&Hwf&_).
  exists sig. destruct t0; simpl in *. rewrite <- Henc in Hv |- *. split_and!; try done.
  - by destruct Hwf; split.
  - lia.
Qed.
(** The same text is the same ticket whenever it is accepted. *)
Lemma Verify_same pub now1 now2 wire op1 op2 node1 node2 frag1 frag2 t1 t2 :
  Verify pub now1 wire op1 node1 frag1 = Ok t1 → Verify pub now2 wire op2 node2 frag2 = Ok t2 →
  t1 = t2.
Proof.
  unfold Verify, Parse, mbind, result_bind, of_option.
  destruct (decodeWire wire) as [[payload sig]|]; [|done].
  destruct (negb (ed_verify pub payload sig)); [done|].
  destruct (decode payload) as [t|]; [|done].
  destruct (negb (now1 <? _)); [done|]. destruct (negb (now2 <? _)); [done|].
  repeat (destruct (negb _); [done|]).
  repeat case_match; congruence.
Qed.

(** Whatever the bytes on the wire, a node accepts exactly the tickets that
    were signed for it: the payload is the encoding of the accepted fields, the
    signature over it is valid, and the fields name this operation, node and
    fragment and have not expired. *)
Theorem Verify_authentic pub now wire op node frag t :
  Verify pub now wire op node frag = Ok t ↔
  ∃ sig, decodeWire wire = Some (encode t, sig) ∧ ed_verify pub (encode t) sig = true ∧
    ticket_wf t ∧ tk_Op t = op ∧ tk_NodeID t = node ∧ tk_FragmentID t = frag ∧
    now < tk_ExpiresAt t ∧ tk_Raw t = wire.
Proof.
  split; [apply Verify_inv|]. intros (sig&Hw&Hs&Hwf&<-&<-&<-&He&Hraw).
  unfold Verify, Parse, mbind, result_bind. rewrite Hw. cbn [of_option].
  rewrite Hs, ticket_decode_encode by done.
  cbn [negb tk_Op tk_FragmentID tk_NodeID tk_SHA256 tk_MaxBytes tk_ExpiresAt tk_Nonce].
  rewrite (proj2 (Z.ltb_lt _ _) He). cbn [negb orb tk_Op tk_NodeID tk_FragmentID]. rewrite !bool_decide_eq_true_2 by done. cbn [negb orb].
  rewrite <- Hraw. by destruct t.
Qed.
End theorems.
