(* ===== verification/Receipts.v ===== *)
(** * Receipts: [src/internal/receipts/receipts.go]

    What a node signs when it has stored a fragment, or served it for one
    ticket (then the receipt carries the ticket's nonce). *)

From S2P Require Import Prelude Bytes Sha256 Tickets.

Record Receipt := MkReceipt {
  rc_NodeID : uuid; rc_FragmentID : uuid; rc_SHA256 : bytes; rc_Size : Z;
  rc_StoredAt : Z; rc_Nonce : bytes; rc_Raw : bytes }.

Inductive receipt_error := RInvalid | RSignature | RMismatch.
#[export] Instance receipt_error_eq_dec : EqDecision receipt_error.
Proof. solve_decision. Defined.

Definition encode (r : Receipt) : bytes :=
  uuid_bytes (rc_NodeID r) ++ uuid_bytes (rc_FragmentID r) ++ rc_SHA256 r ++
  be_bytes 8 (rc_Size r) ++ be_bytes 8 (unix (rc_StoredAt r)) ++
  (if (length (rc_Nonce r) =? 16)%nat then rc_Nonce r else []).

Definition base : nat := 16 + 16 + 32 + 8 + 8.

Definition decode (p : bytes) : result receipt_error Receipt :=
  if negb (length p =? base)%nat && negb (length p =? base + 16)%nat then Err RInvalid
  else
    Ok (MkReceipt (bytes_uuid (take 16 p)) (bytes_uuid (take 16 (drop 16 p)))
          (take 32 (drop 32 p)) (be_Z (take 8 (drop 64 p)))
          (wrap_s64 (be_Z (take 8 (drop 72 p))) * second)
          (if (length p =? base + 16)%nat then drop base p else []) []).

Section signing.
Context `{Ed25519}.

Definition sign (priv : bytes) (node frag : uuid) (sha : bytes) (size storedAt : Z)
    (nonce : bytes) : result receipt_error Receipt :=
  if negb (length priv =? 64)%nat || negb (length sha =? 32)%nat then Err RInvalid
  else if bool_decide (node = uuid_nil) || bool_decide (frag = uuid_nil) then Err RInvalid
  else
    let r := MkReceipt node frag sha size storedAt nonce [] in
    let payload := encode r in
    Ok (MkReceipt node frag sha size storedAt nonce (encodeWire payload (ed_sign priv payload))).

Definition Sign (priv : bytes) (node frag : uuid) (sha : bytes) (size storedAt : Z) :=
  sign priv node frag sha size storedAt [].

Definition SignEgress (priv : bytes) (node frag : uuid) (sha : bytes) (size storedAt : Z)
    (nonce : bytes) : result receipt_error Receipt :=
  if negb (length nonce =? 16)%nat then Err RInvalid
  else sign priv node frag sha size storedAt nonce.

Definition Parse (wire pub : bytes) : result receipt_error Receipt :=
  '(payload, sig) ← of_option RInvalid (decodeWire wire);
  if negb (length pub =? 32)%nat || negb (ed_verify pub payload sig) then Err RSignature
  else
    r ← decode payload;
    Ok (MkReceipt (rc_NodeID r) (rc_FragmentID r) (rc_SHA256 r) (rc_Size r)
          (rc_StoredAt r) (rc_Nonce r) wire).

Definition Verify (wire pub : bytes) (node frag : uuid) (wantSHA : bytes) (wantSize : Z) :
    result receipt_error Receipt :=
  r ← Parse wire pub;
  if negb (bool_decide (rc_NodeID r = node)) || negb (bool_decide (rc_FragmentID r = frag))
  then Err RMismatch
  else if negb (rc_Size r =? wantSize) then Err RMismatch
  else if negb (length wantSHA =? 32)%nat || negb (bool_decide (rc_SHA256 r = wantSHA))
  then Err RMismatch
  else Ok r.
End signing.

(** Reading the fields without the signature, to find out who claims to have
    signed. *)
Definition ParseUnsigned (wire : bytes) : result receipt_error Receipt :=
  '(payload, _) ← of_option RInvalid (decodeWire wire);
  r ← decode payload;
  Ok (MkReceipt (rc_NodeID r) (rc_FragmentID r) (rc_SHA256 r) (rc_Size r)
        (rc_StoredAt r) (rc_Nonce r) wire).

(** ** The codec *)

Record receipt_wf (r : Receipt) : Prop := {
  rwf_node : uuid_wf (rc_NodeID r);
  rwf_frag : uuid_wf (rc_FragmentID r);
  rwf_sha : length (rc_SHA256 r) = 32%nat;
  rwf_size : uint64_range (rc_Size r);
  rwf_stored : int64_range (unix (rc_StoredAt r));
  rwf_nonce : rc_Nonce r = [] ∨ length (rc_Nonce r) = 16%nat }.

(** The time a receipt keeps: whole seconds. *)
Definition to_seconds (r : Receipt) : Receipt :=
  MkReceipt (rc_NodeID r) (rc_FragmentID r) (rc_SHA256 r) (rc_Size r)
    (unix (rc_StoredAt r) * second) (rc_Nonce r) [].

Lemma encode_length r : receipt_wf r →
  length (encode r) = (base + length (rc_Nonce r))%nat.
Proof.
  intros [_ _ Hs _ _ Hn]. unfold encode, base.
  rewrite !length_app, !uuid_bytes_length, !be_bytes_length, Hs.
  destruct Hn as [-> | Hn]; [simpl; lia|]. rewrite Hn, Nat.eqb_refl, Hn. lia.
Qed.

Lemma receipt_decode_encode r : receipt_wf r → decode (encode r) = Ok (to_seconds r).
Proof.
  intros Hwf. pose proof (encode_length r Hwf) as Hl. destruct Hwf as [Hn Hf Hs Hz Ht Hnc].
  unfold decode. rewrite Hl.
  assert ((base + length (rc_Nonce r) =? base)%nat = bool_decide (rc_Nonce r = []) ∧
    (base + length (rc_Nonce r) =? base + 16)%nat = negb (bool_decide (rc_Nonce r = []))) as [E1 E2].
  { destruct Hnc as [-> | Hnc]; [done|]. rewrite Hnc.
    by rewrite bool_decide_eq_false_2 by (intros E; by rewrite E in Hnc). }
  rewrite E1, E2. rewrite <- negb_orb, orb_negb_r. cbn [negb].
  unfold to_seconds. f_equal. unfold encode.
  pose proof (uuid_bytes_length (rc_NodeID r)). pose proof (uuid_bytes_length (rc_FragmentID r)).
  pose proof (be_bytes_length 8 (rc_Size r)). pose proof (be_bytes_length 8 (unix (rc_StoredAt r))).
  set (tail := if (length (rc_Nonce r) =? 16)%nat then _ else _).
  rewrite (take_app_n 16), (drop_app_n 16), (take_app_n 16) by done.
  rewrite (app_assoc (uuid_bytes _)), (drop_app_n 32), (take_app_n 32) by (rewrite ?length_app; lia).
  rewrite (app_assoc _ (rc_SHA256 r)), (drop_app_n 64), (take_app_n 8) by (rewrite ?length_app; lia).
  rewrite (app_assoc _ (be_bytes 8 (rc_Size r))), (drop_app_n 72), (take_app_n 8)
    by (rewrite ?length_app; lia).
  rewrite (app_assoc _ (be_bytes 8 (unix _))), (drop_app_n base) by (rewrite ?length_app; unfold base; lia).
  f_equal; try by apply bytes_uuid_bytes.
  - rewrite be_Z_bytes. by apply Z.mod_small.
  - rewrite be_Z_bytes. f_equal. change (256 ^ Z.of_nat 8) with (2^64).
    fold (wrap_u64 (unix (rc_StoredAt r))). by rewrite wrap_s64_u64, wrap_s64_id.
  - subst tail. destruct Hnc as [-> | Hnc]; [done|]. rewrite Hnc. simpl.
    by rewrite bool_decide_eq_false_2 by (intros E; by rewrite E in Hnc).
Qed.

Lemma receipt_encode_decode p r :
  decode p = Ok r →
  encode r = p ∧ receipt_wf r ∧ rc_StoredAt r = unix (rc_StoredAt r) * second ∧ rc_Raw r = [].
Proof.
  unfold decode. destruct (negb _ && negb _) eqn:Hg; [done|]. intros [= <-].
  change (base + 16)%nat with 96%nat in *.
  apply andb_false_iff in Hg. rewrite !negb_false_iff, !Nat.eqb_eq in Hg.
  assert (base ≤ length p)%nat as Hb by (unfold base in *; lia).
  assert (∀ n m, (m + n ≤ base)%nat → length (take n (drop m p)) = n) as Hlen
    by (intros n m ?; rewrite length_take, length_drop; lia).
  assert (∀ n m, (m + n ≤ base)%nat → be_bytes n (be_Z (take n (drop m p))) = take n (drop m p)) as Hbe.
  { intros n m ?. rewrite <- (Hlen n m) at 1 by done. apply be_bytes_Z. }
  set (nonce := if (length p =? 96)%nat then drop base p else []).
  assert ((length nonce =? 16)%nat = (length p =? 96)%nat ∧
          (nonce = [] ∨ length nonce = 16%nat)) as [Hn16 Hn].
  { subst nonce. destruct (length p =? 96)%nat eqn:E; [|by auto].
    apply Nat.eqb_eq in E. rewrite length_drop, E. change (96 - base)%nat with 16%nat. auto. }
  unfold base in Hlen, Hbe. simpl Nat.add in Hlen, Hbe.
  split_and!; [|split; cbn [rc_NodeID rc_FragmentID rc_SHA256 rc_Size rc_StoredAt rc_Nonce]|cbn [rc_StoredAt]; by rewrite unix_seconds|done].
  - unfold encode. cbn [rc_NodeID rc_FragmentID rc_SHA256 rc_Size rc_StoredAt rc_Nonce].
    rewrite unix_seconds, be_bytes_wrap, !Hbe by lia.
    rewrite !uuid_bytes_bytes by (apply (Hlen 16%nat 0%nat) || apply Hlen; lia).
    fold nonce. rewrite Hn16. symmetry.
    rewrite <- (take_drop 16 p) at 1. apply (f_equal2 app); [done|].
    rewrite <- (take_drop 16 (drop 16 p)) at 1. rewrite drop_drop. cbn [Nat.add]. apply (f_equal2 app); [done|].
    rewrite <- (take_drop 32 (drop 32 p)) at 1. rewrite drop_drop. cbn [Nat.add]. apply (f_equal2 app); [done|].
    rewrite <- (take_drop 8 (drop 64 p)) at 1. rewrite drop_drop. cbn [Nat.add]. apply (f_equal2 app); [done|].
    rewrite <- (take_drop 8 (drop 72 p)) at 1. rewrite drop_drop. cbn [Nat.add]. apply (f_equal2 app); [done|].
    subst nonce. destruct (length p =? 96)%nat eqn:E; [done|].
    apply drop_ge. apply Nat.eqb_neq in E. unfold base in *. lia.
  - apply bytes_uuid_wf, (Hlen 16%nat 0%nat). lia.
  - apply bytes_uuid_wf, (Hlen 16%nat 16%nat). lia.
  - apply (Hlen 32%nat 32%nat). lia.
  - pose proof (be_Z_range (take 8 (drop 64 p))) as Hr. rewrite Hlen in Hr by lia. exact Hr.
  - rewrite unix_seconds. apply wrap_s64_range.
  - done.
Qed.

Section theorems.
Context `{!Ed25519, !Ed25519Laws}.

(** The receipt a node signs for the fragment it holds is the one the
    coordinator accepts for that node, fragment, hash and size, storage and
    egress alike; it names the second of storage and carries the nonce. *)
Theorem sign_Verify priv node frag sha size storedAt nonce r :
  sign priv node frag sha size storedAt nonce = Ok r →
  length (ed_public priv) = 32%nat →
  uuid_wf node → uuid_wf frag → uint64_range size → int64_range (unix storedAt) →
  nonce = [] ∨ length nonce = 16%nat →
  Verify (rc_Raw r) (ed_public priv) node frag sha size =
    Ok (MkReceipt node frag sha size (unix storedAt * second) nonce (rc_Raw r)).
Proof.
  intros Hs Hpub Hn Hf Hz Ht Hnc. unfold sign in Hs.
  destruct (_ || negb (length sha =? 32)%nat) eqn:Hl; [done|].
  apply orb_false_iff in Hl as [_ Hsha%negb_false_iff%Nat.eqb_eq].
  destruct (_ || _); [done|]. set (r0 := MkReceipt _ _ _ _ _ _ []) in Hs. injection Hs as <-.
  assert (receipt_wf r0) as Hwf by by split. cbn [rc_Raw].
  unfold Verify, Parse. rewrite decodeWire_encodeWire.
  - cbn [of_option mbind result_bind]. rewrite Hpub, ed_verify_sign. cbn [Nat.eqb negb orb].
    rewrite (receipt_decode_encode r0 Hwf). cbn [mbind result_bind to_seconds rc_NodeID rc_FragmentID
      rc_SHA256 rc_Size rc_StoredAt rc_Nonce r0].
    destruct (bool_decide_reflect (node = node)); [|done].
    destruct (bool_decide_reflect (frag = frag)); [|done].
    destruct (bool_decide_reflect (sha = sha)); [|done].
    rewrite Z.eqb_refl, Hsha. done.
  - intros E. pose proof (encode_length r0 Hwf) as Hlen. rewrite E in Hlen. done.
  - apply ed_sign_length.
Qed.

(** What an accepted receipt says. *)
Definition authentic (wire pub : bytes) (node frag : uuid) (sha : bytes) (size : Z) (r : Receipt) : Prop :=
  length pub = 32%nat ∧
  (∃ sig, decodeWire wire = Some (encode r, sig) ∧ ed_verify pub (encode r) sig = true) ∧
  receipt_wf r ∧ rc_StoredAt r = unix (rc_StoredAt r) * second ∧
  rc_NodeID r = node ∧ rc_FragmentID r = frag ∧ rc_SHA256 r = sha ∧ rc_Size r = size ∧ rc_Raw r = wire.

Lemma Verify_receipt_inv wire pub node frag sha size r :
  Verify wire pub node frag sha size = Ok r → authentic wire pub node frag sha size r.
Proof.
  unfold Verify, Parse, mbind, result_bind, of_option.
  destruct (decodeWire wire) as [[payload sig]|] eqn:Hw; [|by intros [=]].
  destruct (length pub =? 32)%nat eqn:Hl; [|by intros [=]]. apply Nat.eqb_eq in Hl.
  destruct (ed_verify pub payload sig) eqn:Hv; [|by intros [=]]. cbn [negb orb].
  destruct (decode payload) as [r0|] eqn:Hd; [|by intros [=]].
  cbn [rc_NodeID rc_FragmentID rc_SHA256 rc_Size].
  destruct (bool_decide_reflect (rc_NodeID r0 = node)) as [Hn|]; cbn [negb orb]; [|by intros [=]].
  destruct (bool_decide_reflect (rc_FragmentID r0 = frag)) as [Hf|]; cbn [negb]; [|by intros [=]].
  destruct (rc_Size r0 =? size) eqn:Hz; cbn [negb]; [|by intros [=]].
  destruct (negb (length sha =? 32)%nat); cbn [orb]; [by intros [=]|].
  destruct (bool_decide_reflect (rc_SHA256 r0 = sha)) as [Hs|]; cbn [negb]; [|by intros [=]].
  intros [= <-]. apply receipt_encode_decode in Hd as (Henc&Hwf&Ht&_).
  unfold authentic. rewrite Hw. destruct r0; simpl in *. rewrite <- Henc in Hv |- *.
  split_and!; try done; [by exists sig|by destruct Hwf; split|lia].
Qed.

(** Whatever the bytes on the wire, the coordinator accepts exactly the
    receipts signed under the node's key for this node, fragment, hash and
    size: the signature is valid over the encoding of the accepted fields. *)
Theorem Verify_receipt_authentic wire pub node frag sha size r :
  Verify wire pub node frag sha size = Ok r ↔ authentic wire pub node frag sha size r.
Proof.
  split; [apply Verify_receipt_inv|].
  intros (Hl&(sig&Hw&Hv)&Hwf&Ht&<-&<-&<-&<-&Hraw).
  unfold Verify, Parse, mbind, result_bind. rewrite Hw. cbn [of_option].
  rewrite Hl, Hv, receipt_decode_encode by done.
  cbn [negb orb Nat.eqb to_seconds rc_NodeID rc_FragmentID rc_SHA256 rc_Size rc_StoredAt rc_Nonce].
  destruct Hwf as [_ _ Hs _ _ _]. rewrite Z.eqb_refl, Hs, !bool_decide_eq_true_2 by done.
  cbn [negb orb Nat.eqb]. rewrite <- Ht, <- Hraw. by destruct r.
Qed.
End theorems.
