(* ===== verification/Agent.v ===== *)
(** * The storage agent: [src/internal/agent]

    The fragment directory with its index ([store.go]), the four fragment
    handlers ([fragments.go]) and the scrubber ([scrub.go]).  [os] and [bbolt]
    calls can fail: the flags of [put_faults] and the [fails] arguments say
    which do.  A handler's error is the HTTP status it answers. *)

From S2P Require Import Prelude Bytes Sha256 Tickets Receipts.

(** ** The store *)

Record FragMeta := MkMeta {
  fm_Size : Z; fm_SHA256 : bytes; fm_ExpiresAt : Z; fm_StoredAt : Z; fm_LastVerified : Z }.

(** The [.frag] files, the [fragments] bucket and the [nonces] bucket. *)
Record ChunkStore := MkChunkStore {
  cs_files : gmap uuid bytes; cs_meta : gmap uuid FragMeta; cs_nonces : gmap bytes Z }.
Definition upd_cs_files f s := MkChunkStore (f (cs_files s)) (cs_meta s) (cs_nonces s).
Definition upd_cs_meta f s := MkChunkStore (cs_files s) (f (cs_meta s)) (cs_nonces s).
Definition upd_cs_nonces f s := MkChunkStore (cs_files s) (cs_meta s) (f (cs_nonces s)).

Definition store_empty : ChunkStore := MkChunkStore ∅ ∅ ∅.

Inductive agent_error := ErrNotStored | ErrReplay | ErrHash | ErrTooLarge | ErrIO.
#[export] Instance agent_error_eq_dec : EqDecision agent_error.
Proof. solve_decision. Defined.

Abbreviation local A := (M ChunkStore agent_error A).

Record put_faults := MkPutFaults {
  tmp_fails : bool;      (* MkdirAll, CreateTemp *)
  read_fails : bool;     (* the request body *)
  sync_fails : bool;     (* Sync, Close *)
  rename_fails : bool;
  index_fails : bool }.
Definition no_put_faults : put_faults := MkPutFaults false false false false false.

Definition equalSHA (a b : bytes) : bool := bool_decide (a = b).

(** What [io.Copy] reads through [io.LimitReader(r, int64(maxBytes)+1)]. *)
Definition limited (maxBytes : Z) (body : bytes) : bytes :=
  take (Z.to_nat (add64 (wrap_s64 maxBytes) 1)) body.

Definition Put (now : Z) (fl : put_faults) (id : uuid) (body wantSHA : bytes)
    (maxBytes expires : Z) : local FragMeta :=
  guard_err (tmp_fails fl) ErrIO ≫= λ _,
  let data := limited maxBytes body in
  guard_err (read_fails fl) ErrIO ≫= λ _,
  let n := Z.of_nat (length data) in
  guard_err (maxBytes <? n) ErrTooLarge ≫= λ _,
  let sum := sha256 data in
  guard_err (negb (equalSHA wantSHA sum)) ErrHash ≫= λ _,
  guard_err (sync_fails fl) ErrIO ≫= λ _,
  guard_err (rename_fails fl) ErrIO ≫= λ _,
  modify (upd_cs_files <[id := data]>) ≫= λ _,
  let meta := MkMeta n sum expires now now in
  if index_fails fl
  then modify (upd_cs_files (delete id)) ≫= λ _, throw ErrIO
  else modify (upd_cs_meta <[id := meta]>) ≫= λ _, mret meta.

Definition Get (id : uuid) : local (bytes * FragMeta) := λ s,
  (meta ← of_option ErrNotStored (cs_meta s !! id);
   f ← of_option ErrIO (cs_files s !! id);
   Ok (f, meta), s).

Definition MaxChallengeRange : Z := 64 * 1024.

(** [ReadAt] fails when the file is shorter than the range. *)
Definition ReadRange (id : uuid) (offset len : Z) : local bytes :=
  guard_err ((len <=? 0) || (MaxChallengeRange <? len)) ErrTooLarge ≫= λ _,
  '(f, meta) ← Get id;
  guard_err ((offset <? 0) || (fm_Size meta <? offset) || (fm_Size meta <? add64 offset len))
    ErrTooLarge ≫= λ _,
  let buf := take (Z.to_nat len) (drop (Z.to_nat offset) f) in
  guard_err (negb (length buf =? Z.to_nat len)%nat) ErrIO ≫= λ _,
  mret buf.

Definition Delete (fails : bool) (id : uuid) : local unit :=
  modify (upd_cs_files (delete id)) ≫= λ _,
  if fails then throw ErrIO else modify (upd_cs_meta (delete id)).

(** [Each] visits the index in key order, the order of the id bytes. *)
Definition entries (s : ChunkStore) : list (uuid * FragMeta) :=
  order_by (λ e, [uuid_key e.1]) (map_to_list (cs_meta s)).

Definition UsedBytes (s : ChunkStore) : Z * Z :=
  (sum64 ((λ e, fm_Size e.2) <$> entries s), Z.of_nat (length (entries s))).

(** The bucket holds the expiry in seconds as eight bytes. *)
Definition ConsumeNonce (now : Z) (fails : bool) (nonce : bytes) (exp : Z) : local unit := λ s,
  match cs_nonces s !! nonce with
  | Some until => if unix now <? until then (Err ErrReplay, s)
                  else if fails then (Err ErrIO, s)
                  else (Ok tt, upd_cs_nonces <[nonce := wrap_s64 (unix exp)]> s)
  | None => if fails then (Err ErrIO, s)
            else (Ok tt, upd_cs_nonces <[nonce := wrap_s64 (unix exp)]> s)
  end.

(** ** Handlers *)

Abbreviation endpoint A := (M ChunkStore Z A).

Definition status_if {A} (f : agent_error → Z) (m : local A) : endpoint A := λ s,
  match m s with (Ok a, s') => (Ok a, s') | (Err e, s') => (Err (f e), s') end.

Definition or_status {E A} (code : Z) (r : result E A) : endpoint A := λ s,
  (match r with Ok a => Ok a | Err _ => Err code end, s).

Section handlers.
Context `{Ed25519} (self : uuid) (priv : bytes) (ticket_key : bytes).

(** Verify the ticket for this operation and burn its nonce. *)
Definition admit_ticket (now : Z) (db_fails : bool) (wire op : bytes) (id : uuid) : endpoint Ticket :=
  tk ← or_status 403 (Tickets.Verify ticket_key now wire op self id);
  status_if (λ _, 403) (ConsumeNonce now db_fails (tk_Nonce tk) (tk_ExpiresAt tk)) ≫= λ _,
  mret tk.

Definition handlePut (now : Z) (db_fails : bool) (fl : put_faults) (id : option uuid)
    (wire body : bytes) : endpoint bytes :=
  id ← lift (of_option 400 id);
  tk ← admit_ticket now db_fails wire OpPut id;
  meta ← status_if (λ e, match e with ErrHash | ErrTooLarge => 400 | _ => 500 end)
           (Put now fl id body (tk_SHA256 tk) (tk_MaxBytes tk) (tk_ExpiresAt tk));
  rec ← or_status 500 (Receipts.Sign priv self id (fm_SHA256 meta) (wrap_u64 (fm_Size meta)) (fm_StoredAt meta));
  mret (rc_Raw rec).

Definition allZero (b : bytes) : bool := forallb (λ x, bool_decide (x = Byte.x00)) b.

(** The receipt header and the body; a [Range] request gets part of the body. *)
Definition handleGet (now : Z) (db_fails : bool) (id : option uuid) (wire : bytes) :
    endpoint (bytes * bytes) :=
  id ← lift (of_option 400 id);
  tk ← admit_ticket now db_fails wire OpGet id;
  '(f, meta) ← status_if (λ _, 404) (Get id);
  guard_err ((length (tk_SHA256 tk) =? 32)%nat &&
             negb (bool_decide (tk_SHA256 tk = fm_SHA256 meta)) &&
             negb (allZero (tk_SHA256 tk))) 409 ≫= λ _,
  rec ← or_status 500 (Receipts.SignEgress priv self id (fm_SHA256 meta)
                         (wrap_u64 (fm_Size meta)) (fm_StoredAt meta) (tk_Nonce tk));
  mret (rc_Raw rec, f).

Definition handleDelete (now : Z) (db_fails del_fails : bool) (id : option uuid) (wire : bytes) :
    endpoint unit :=
  id ← lift (of_option 400 id);
  tk ← admit_ticket now db_fails wire OpDelete id;
  status_if (λ _, 500) (Delete del_fails id).

(** The query parameters are given parsed, [None] if they do not parse. *)
Definition handleChallenge (now : Z) (db_fails : bool) (id : option uuid)
    (offset len : option Z) (nonce : option bytes) (wire : bytes) : endpoint bytes :=
  id ← lift (of_option 400 id);
  offset ← lift (of_option 400 offset);
  guard_err (offset <? 0) 400 ≫= λ _,
  len ← lift (of_option 400 len);
  guard_err (len <=? 0) 400 ≫= λ _,
  guard_err (MaxChallengeRange <? len) 400 ≫= λ _,
  nonce ← lift (of_option 400 nonce);
  guard_err (bool_decide (nonce = [])) 400 ≫= λ _,
  tk ← or_status 403 (Tickets.Verify ticket_key now wire OpChallenge self id);
  guard_err ((0 <? tk_MaxBytes tk) && (tk_MaxBytes tk <? wrap_u64 len)) 400 ≫= λ _,
  status_if (λ _, 403) (ConsumeNonce now db_fails (tk_Nonce tk) (tk_ExpiresAt tk)) ≫= λ _,
  rng ← status_if (λ e, match e with ErrNotStored => 404 | ErrTooLarge => 400 | _ => 500 end)
          (ReadRange id offset len);
  mret (sha256 (nonce ++ rng)).
End handlers.

(** ** Scrubbing *)

Definition scrubBatch : nat := 8.

Definition fragmentHashOK (s : ChunkStore) (id : uuid) (meta : FragMeta) : bool :=
  match cs_files s !! id with
  | None => false
  | Some f => equalSHA (sha256 f) (fm_SHA256 meta)
  end.

(** The first [scrubBatch] entries are checked; the visit goes on without
    looking at the others. *)
Definition scrub_lost (s : ChunkStore) : list uuid :=
  fst <$> filter (λ e, fragmentHashOK s e.1 e.2 = false) (take scrubBatch (entries s)).

(** [report id] is whether healthmon took the report. *)
Definition scrubOnce (report : uuid → bool) : local unit := λ s,
  for_each (λ id, modify (upd_cs_files (delete id)) ≫= λ _,
                  modify (upd_cs_meta (delete id)) ≫= λ _,
                  guard_err (negb (report id)) ErrIO) (scrub_lost s) s.

(** ** Storing and reading *)

Lemma limited_fits maxBytes body :
  0 ≤ maxBytes < 2^63 - 1 →
  (Z.of_nat (length (limited maxBytes body)) ≤ maxBytes →
     limited maxBytes body = body ∧ Z.of_nat (length body) ≤ maxBytes) ∧
  (Z.of_nat (length body) ≤ maxBytes → limited maxBytes body = body).
Proof.
  intros Hm. unfold limited, add64. rewrite (wrap_s64_id maxBytes), (wrap_s64_id (maxBytes + 1)) by (unfold int64_range; lia).
  split.
  - rewrite length_take. intros Hl. rewrite take_ge by lia. split; [done|lia].
  - intros Hl. apply take_ge. lia.
Qed.

Lemma Put_run now fl id body want maxBytes expires s :
  0 ≤ maxBytes < 2^63 - 1 →
  match Put now fl id body want maxBytes expires s with
  | (Ok meta, s') =>
      sha256 body = want ∧ Z.of_nat (length body) ≤ maxBytes ∧
      fm_Size meta = Z.of_nat (length body) ∧ fm_SHA256 meta = want ∧
      s' = upd_cs_meta <[id := meta]> (upd_cs_files <[id := body]> s) ∧
      Get id s' = (Ok (body, meta), s')
  | (Err ErrIO, s') =>
      fl ≠ no_put_faults ∧ (s' = s ∨ index_fails fl = true ∧ s' = upd_cs_files (delete id) s)
  | (Err e, s') =>
      s' = s ∧ (e = ErrTooLarge ∧ maxBytes < Z.of_nat (length body) ∨
                e = ErrHash ∧ sha256 body ≠ want)
  end.
Proof.
  intros Hm. destruct (limited_fits maxBytes body Hm) as [Hfit Hfull].
  unfold Put, guard_err, mbind, M_bind.
  destruct (tmp_fails fl) eqn:E1; [split; [by intros ->|by left]|]. cbn [mret M_ret].
  destruct (read_fails fl) eqn:E2; [split; [by intros ->|by left]|]. cbn [mret M_ret].
  destruct (maxBytes <? Z.of_nat (length (limited maxBytes body))) eqn:E3.
  { split; [done|]. left. split; [done|]. destruct (Z.le_gt_cases (Z.of_nat (length body)) maxBytes) as [Hle|]; [|lia].
    rewrite (Hfull Hle) in E3. lia. }
  cbn [mret M_ret]. apply Z.ltb_ge in E3. destruct (Hfit E3) as [-> Hlen].
  unfold equalSHA. destruct (bool_decide_reflect (want = sha256 body)) as [Hw|Hw]; cbn [negb].
  2:{ split; [done|]. right. by split; [|congruence]. }
  cbn [mret M_ret].
  destruct (sync_fails fl) eqn:E4; [split; [by intros ->|by left]|]. cbn [mret M_ret].
  destruct (rename_fails fl) eqn:E5; [split; [by intros ->|by left]|]. cbn [mret M_ret].
  unfold modify. destruct (index_fails fl) eqn:E6.
  - split; [by intros ->|]. right. split; [done|]. unfold upd_cs_files. simpl.
    by rewrite delete_insert_eq.
  - simpl. split_and!; try done. unfold Get. simpl. by rewrite !lookup_insert_eq.
Qed.

(** C37: A fragment is stored exactly when it fits the ticket's bound and hashes
    to the ticket's hash, and then it reads back whole; a rejected or failed
    upload leaves the store as it was, except that a failing index write also
    removes the file. *)
Theorem Put_spec now fl id body want maxBytes expires s :
  0 ≤ maxBytes < 2^63 - 1 →
  match Put now fl id body want maxBytes expires s with
  | (Ok meta, s') =>
      sha256 body = want ∧ Z.of_nat (length body) ≤ maxBytes ∧
      fm_Size meta = Z.of_nat (length body) ∧ fm_SHA256 meta = want ∧
      s' = upd_cs_meta <[id := meta]> (upd_cs_files <[id := body]> s) ∧
      Get id s' = (Ok (body, meta), s')
  | (Err ErrIO, s') =>
      fl ≠ no_put_faults ∧ (s' = s ∨ index_fails fl = true ∧ s' = upd_cs_files (delete id) s)
  | (Err e, s') =>
      s' = s ∧ (e = ErrTooLarge ∧ maxBytes < Z.of_nat (length body) ∨
                e = ErrHash ∧ sha256 body ≠ want)
  end.
Proof. apply Put_run. Qed.

(** ** What an answer tells *)

Section answers.
Context `{Ed25519} (self : uuid) (priv ticket_key : bytes).

(** The fragment with its index entry. *)
Definition has_fragment (s : ChunkStore) (id : uuid) (data : bytes) (meta : FragMeta) : Prop :=
  cs_files s !! id = Some data ∧ cs_meta s !! id = Some meta.
Definition gone (s : ChunkStore) (id : uuid) : Prop := cs_files s !! id = None ∧ cs_meta s !! id = None.

Lemma status_if_ok {A} f (m : local A) s a s' : status_if f m s = (Ok a, s') → m s = (Ok a, s').
Proof. unfold status_if. by destruct (m s) as [[]]; intros [= <- <-]. Qed.

Lemma ConsumeNonce_keeps now f n e s :
  cs_files (ConsumeNonce now f n e s).2 = cs_files s ∧ cs_meta (ConsumeNonce now f n e s).2 = cs_meta s.
Proof. unfold ConsumeNonce. by repeat (case_match; try done). Qed.

Lemma admit_ok now f wire op id s tk s' :
  admit_ticket self ticket_key now f wire op id s = (Ok tk, s') →
  Tickets.Verify ticket_key now wire op self id = Ok tk ∧ cs_files s' = cs_files s ∧ cs_meta s' = cs_meta s.
Proof.
  unfold admit_ticket, or_status. intros (t&s1&Hv&Hx)%bind_ok. destruct (Tickets.Verify _ _ _ _ _ _); [|done].
  injection Hv as -> <-. apply bind_ok in Hx as ([]&s2&Hc%status_if_ok&Hx). injection Hx as -> <-.
  pose proof (ConsumeNonce_keeps now f (tk_Nonce tk) (tk_ExpiresAt tk) s) as Hk. rewrite Hc in Hk. by split.
Qed.

(** A receipt is given for what has been stored. *)
Lemma handlePut_ok now f fl id wire body s rec s' :
  handlePut self priv ticket_key now f fl id wire body s = (Ok rec, s') →
  ∃ i tk meta r, id = Some i ∧ Tickets.Verify ticket_key now wire OpPut self i = Ok tk ∧
    Receipts.Sign priv self i (fm_SHA256 meta) (wrap_u64 (fm_Size meta)) now = Ok r ∧ rec = rc_Raw r ∧
    (0 ≤ tk_MaxBytes tk < 2^63 - 1 →
       has_fragment s' i body meta ∧ fm_Size meta = Z.of_nat (length body) ∧ fm_SHA256 meta = sha256 body).
Proof.
  unfold handlePut. destruct id as [i|]; [|done]. intros (i'&s0&Hi&Hx)%bind_ok. injection Hi as <- <-.
  apply bind_ok in Hx as (tk&s1&(Hv&_&_)%admit_ok&Hx). apply bind_ok in Hx as (meta&s2&Hp%status_if_ok&Hx).
  apply bind_ok in Hx as (r&s3&Hs&Hx). injection Hx as <- <-. unfold or_status in Hs.
  destruct (Receipts.Sign _ _ _ _ _ _) as [r0|] eqn:Hsign; [|done]. injection Hs as <- <-.
  assert (fm_StoredAt meta = now) as Hnow.
  { revert Hp. unfold Put, guard_err, mbind, M_bind, modify. repeat case_match; try done; intros [= <- _]; done. }
  rewrite Hnow in Hsign. exists i, tk, meta, r0. split_and!; try done. intros Hm.
  pose proof (Put_run now fl i body (tk_SHA256 tk) (tk_MaxBytes tk) (tk_ExpiresAt tk) s1 Hm) as Hput.
  rewrite Hp in Hput. destruct Hput as (Hsha&_&Hz&Hw&->&_). unfold has_fragment. cbn.
  rewrite !lookup_insert_eq. split_and!; congruence.
Qed.

(** What is answered is on disk and in the index, and stays there. *)
Lemma handleGet_ok now f id wire s rec data s' :
  handleGet self priv ticket_key now f id wire s = (Ok (rec, data), s') →
  ∃ i meta, id = Some i ∧ has_fragment s i data meta ∧ has_fragment s' i data meta.
Proof.
  unfold handleGet. destruct id as [i|]; [|done]. intros (i'&s0&Hi&Hx)%bind_ok. injection Hi as <- <-.
  apply bind_ok in Hx as (tk&s1&(_&Hf&Hm)%admit_ok&Hx). apply bind_ok in Hx as ([d meta]&s2&Hg%status_if_ok&Hx).
  apply bind_ok in Hx as ([]&s3&Hgu&Hx). unfold guard_err in Hgu. destruct (_ && _); [done|]. injection Hgu as <-.
  apply bind_ok in Hx as (r&s4&Hs&Hx). injection Hx as <- -> <-. unfold or_status in Hs.
  destruct (Receipts.SignEgress _ _ _ _ _ _ _); [|done]. injection Hs as <- <-.
  unfold Get in Hg. destruct (cs_meta s1 !! i) as [m|] eqn:Hm1; [|done].
  destruct (cs_files s1 !! i) as [g|] eqn:Hf1; [|done]. injection Hg as -> -> <-.
  exists i, meta. unfold has_fragment. split_and!; congruence.
Qed.

(** Whatever a deletion answers, nothing but the fragment's entries go; after
    success they are gone, and it never answers that it does not know the
    fragment. *)
Lemma handleDelete_run now f df id wire s :
  let '(r, s') := handleDelete self ticket_key now f df id wire s in
  (∀ i, gone s i → gone s' i) ∧ r ≠ Err 404 ∧ (r = Ok tt → ∃ i, id = Some i ∧ gone s' i).
Proof.
  unfold handleDelete. destruct id as [i|]; [|by split_and!].
  unfold mbind at 1, M_bind at 1, lift. cbn [of_option]. unfold mbind, M_bind.
  destruct (admit_ticket self ticket_key now f wire OpDelete i s) as [[tk|e] s1] eqn:Ha.
  - apply admit_ok in Ha as (_&Hf&Hm).
    assert (∀ j, gone s j → gone s1 j) as Hk by (intros j; unfold gone; by rewrite Hf, Hm).
    unfold status_if, Delete, mbind, M_bind, modify. destruct df; cbn; split_and!; try done.
    + intros j [Hj1 Hj2]%Hk. split; [by apply lookup_delete_None; right|done].
    + intros j [Hj1 Hj2]%Hk. split; by apply lookup_delete_None; right.
    + intros _. exists i. split; [done|]. unfold gone. cbn. by rewrite !lookup_delete_eq.
  - split_and!; try done.
    + unfold admit_ticket, or_status, mbind, M_bind in Ha.
      destruct (Tickets.Verify _ _ _ _ _ _) as [tk|]; [|by injection Ha as _ <-].
      pose proof (ConsumeNonce_keeps now f (tk_Nonce tk) (tk_ExpiresAt tk) s) as [Hf Hm].
      unfold status_if in Ha. destruct (ConsumeNonce _ _ _ _ s) as [[[]|]]; cbn in *; [done|].
      injection Ha as _ <-. intros j. unfold gone. by rewrite Hf, Hm.
    + unfold admit_ticket, or_status, mbind, M_bind in Ha.
      destruct (Tickets.Verify _ _ _ _ _ _) as [tk|]; [|by injection Ha as <- _].
      unfold status_if in Ha. destruct (ConsumeNonce _ _ _ _ s) as [[[]|]]; [done|]. by injection Ha as <- _.
Qed.
End answers.

(** What the index says is what is on disk. *)
Definition store_ok (s : ChunkStore) : Prop :=
  ∀ id m, cs_meta s !! id = Some m →
    ∃ f, cs_files s !! id = Some f ∧ fm_Size m = Z.of_nat (length f) ∧ fm_SHA256 m = sha256 f.

Lemma Put_store_ok now fl id body want maxBytes expires s :
  index_fails fl = false → store_ok s → store_ok (Put now fl id body want maxBytes expires s).2.
Proof.
  intros Hi Hs. unfold Put, guard_err, mbind, M_bind, modify.
  repeat (case_if; [done|]; cbn [mret M_ret]). cbn [mret M_ret snd].
  intros id' m. simpl. destruct (decide (id = id')) as [<-|Hne].
  - rewrite !lookup_insert_eq. intros [= <-]. by eexists.
  - rewrite !lookup_insert_ne by done. apply Hs.
Qed.

Lemma Delete_store_ok id s : store_ok s → store_ok (Delete false id s).2.
Proof.
  intros Hs id' m. simpl. destruct (decide (id = id')) as [<-|Hne].
  - by rewrite !lookup_delete_eq.
  - rewrite !lookup_delete_ne by done. apply Hs.
Qed.

(** ** Single use of tickets *)

(** From [s] at time [t] to [s'] at time [t'], serving any requests and scrubs
    in between, as the clock moves forward. *)
Section single_use.
Context `{!Ed25519} (self : uuid) (priv ticket_key : bytes).

(** At most one nonce is written, and only over an expired entry. *)
Definition nonces_by (now : Z) (m m' : gmap bytes Z) : Prop :=
  m' = m ∨ ∃ n e, m' = <[n := e]> m ∧ ∀ u, m !! n = Some u → u ≤ unix now.

Inductive request : Z → ChunkStore → ChunkStore → Prop :=
  | rq_put now f fl id wire body s :
      request now s (handlePut self priv ticket_key now f fl id wire body s).2
  | rq_get now f id wire s : request now s (handleGet self priv ticket_key now f id wire s).2
  | rq_delete now f df id wire s : request now s (handleDelete self ticket_key now f df id wire s).2
  | rq_challenge now f id off len nonce wire s :
      request now s (handleChallenge self ticket_key now f id off len nonce wire s).2
  | rq_scrub now report s : request now s (scrubOnce report s).2.

Inductive serves : Z → ChunkStore → Z → ChunkStore → Prop :=
  | serves_refl t s : serves t s t s
  | serves_step t s t1 s1 t2 s2 :
      serves t s t1 s1 → t1 ≤ t2 → request t2 s1 s2 → serves t s t2 s2.

#[local] Instance frame_status_if {A} f (m : local A) :
  Frame cs_nonces m → Frame cs_nonces (status_if f m).
Proof. intros Hm s. unfold status_if. specialize (Hm s). by destruct (m s) as [[]]. Qed.
#[local] Instance frame_or_status {E A} c (r : result E A) : Frame cs_nonces (or_status c r).
Proof. done. Qed.
#[local] Instance frame_files f : Frame (E:=agent_error) cs_nonces (modify (upd_cs_files f)).
Proof. done. Qed.
#[local] Instance frame_meta f : Frame (E:=agent_error) cs_nonces (modify (upd_cs_meta f)).
Proof. done. Qed.
#[local] Instance frame_Get id : Frame cs_nonces (Get id).
Proof. done. Qed.
#[local] Instance frame_pair {A B C} (k : A → B → endpoint C) (p : A * B) :
  (∀ a b, Frame cs_nonces (k a b)) → Frame cs_nonces (let '(a, b) := p in k a b).
Proof. by destruct p. Qed.
#[local] Instance frame_pair_local {A B C} (k : A → B → local C) (p : A * B) :
  (∀ a b, Frame cs_nonces (k a b)) → Frame cs_nonces (let '(a, b) := p in k a b).
Proof. by destruct p. Qed.
#[local] Instance frame_Put now fl id body want max e : Frame cs_nonces (Put now fl id body want max e).
Proof. unfold Put. apply _. Qed.
#[local] Instance frame_Delete f id : Frame cs_nonces (Delete f id).
Proof. unfold Delete. apply _. Qed.
#[local] Instance frame_ReadRange id off len : Frame cs_nonces (ReadRange id off len).
Proof. unfold ReadRange. apply _. Qed.

Lemma ConsumeNonce_nonces now f n e s :
  nonces_by now (cs_nonces s) (cs_nonces (ConsumeNonce now f n e s).2).
Proof.
  unfold ConsumeNonce. destruct (cs_nonces s !! n) as [u|] eqn:Hu.
  - destruct (Z.ltb_spec (unix now) u); [by left|]. destruct f; [by left|].
    right. do 2 eexists. split; [done|]. intros u' Hu'. simplify_eq. lia.
  - destruct f; [by left|]. right. do 2 eexists. split; [done|]. congruence.
Qed.

(** A handler: framed steps, then one that writes a nonce, then framed steps. *)
Lemma nonces_before {E A B} now (m : M ChunkStore E A) (k : A → M ChunkStore E B) s :
  Frame cs_nonces m →
  (∀ a s, nonces_by now (cs_nonces s) (cs_nonces (k a s).2)) →
  nonces_by now (cs_nonces s) (cs_nonces ((m ≫= k) s).2).
Proof.
  intros Hm Hk. unfold mbind, M_bind. pose proof (Hm s) as Hs.
  destruct (m s) as [[a|e] s1]; simpl in Hs; [rewrite <- Hs; apply Hk|by left].
Qed.
Lemma nonces_after {E A B} now (m : M ChunkStore E A) (k : A → M ChunkStore E B) s :
  nonces_by now (cs_nonces s) (cs_nonces (m s).2) → (∀ a, Frame cs_nonces (k a)) →
  nonces_by now (cs_nonces s) (cs_nonces ((m ≫= k) s).2).
Proof.
  intros Hm Hk. unfold mbind, M_bind. destruct (m s) as [[a|e] s1]; [|done].
  by rewrite (Hk a s1).
Qed.

Lemma consume_nonces now f n e s :
  nonces_by now (cs_nonces s) (cs_nonces (status_if (λ _, 403) (ConsumeNonce now f n e) s).2).
Proof.
  pose proof (ConsumeNonce_nonces now f n e s). unfold status_if.
  by destruct (ConsumeNonce now f n e s) as [[]].
Qed.

Lemma admit_nonces now f wire op id s :
  nonces_by now (cs_nonces s) (cs_nonces (admit_ticket self ticket_key now f wire op id s).2).
Proof.
  unfold admit_ticket. apply nonces_before; try apply _. intros tk s1.
  apply nonces_after; try apply _. apply consume_nonces.
Qed.

Lemma request_nonces now s s' : request now s s' → nonces_by now (cs_nonces s) (cs_nonces s').
Proof.
  destruct 1.
  - unfold handlePut. apply nonces_before; try apply _. intros ??.
    apply nonces_after; try apply _. apply admit_nonces.
  - unfold handleGet. apply nonces_before; try apply _. intros ??.
    apply nonces_after; try apply _. apply admit_nonces.
  - unfold handleDelete. apply nonces_before; try apply _. intros ??.
    apply nonces_after; try apply _. apply admit_nonces.
  - unfold handleChallenge. repeat (apply nonces_before; try apply _; intros ??).
    apply nonces_after; try apply _. apply consume_nonces.
  - left. unfold scrubOnce. apply frame.
Qed.

(** Until it expires, a nonce that was consumed stays consumed. *)
Lemma serves_nonce t s t' s' n e :
  serves t s t' s' → cs_nonces s !! n = Some e ∨ e ≤ unix t →
  cs_nonces s' !! n = Some e ∨ e ≤ unix t'.
Proof.
  induction 1 as [|t s t1 s1 t2 s2 _ IH Ht Hr]; [done|]. intros H0.
  assert (unix t1 ≤ unix t2) by (apply Z.div_le_mono; unfold second; lia).
  destruct (IH H0) as [Hn|]; [|right; lia].
  destruct (request_nonces _ _ _ Hr) as [->|(n'&e'&->&Hold)]; [by left|].
  destruct (decide (n' = n)) as [->|]; [|left; by rewrite lookup_insert_ne].
  right. by apply Hold.
Qed.

End single_use.

(** ** Scrubbing *)

Lemma entries_NoDup s : NoDup (entries s).*1.
Proof. unfold entries. rewrite order_by_perm. apply NoDup_fst_map_to_list. Qed.

Lemma entries_lookup s id m : (id, m) ∈ entries s ↔ cs_meta s !! id = Some m.
Proof. unfold entries. by rewrite elem_of_order_by, elem_of_map_to_list. Qed.

Lemma scrub_lost_first s id :
  id ∈ scrub_lost s → id ∈ (take scrubBatch (entries s)).*1.
Proof.
  unfold scrub_lost. intros ([x m]&->&[_ Hin]%list_elem_of_filter)%list_elem_of_fmap.
  by apply (list_elem_of_fmap_2 fst).
Qed.

Lemma scrub_loop report ids s :
  (∀ id, report id = true) →
  for_each (λ id, modify (upd_cs_files (delete id)) ≫= λ _,
                  modify (upd_cs_meta (delete id)) ≫= λ _,
                  guard_err (negb (report id)) ErrIO) ids s =
  (Ok tt, MkChunkStore (foldr delete (cs_files s) (rev ids)) (foldr delete (cs_meta s) (rev ids))
            (cs_nonces s)).
Proof.
  intros Hr. revert s. induction ids as [|id ids IH]; intros s; simpl; [by destruct s|].
  unfold mbind, M_bind, modify, guard_err. rewrite Hr. simpl.
  rewrite IH, !foldr_app. done.
Qed.

Lemma foldr_delete {V} (m : gmap uuid V) ids id :
  foldr delete m ids !! id = if bool_decide (id ∈ ids) then None else m !! id.
Proof.
  induction ids as [|x ids IH]; simpl; [done|].
  destruct (decide (x = id)) as [->|Hne].
  - rewrite lookup_delete_eq, bool_decide_eq_true_2; [done|by left].
  - rewrite lookup_delete_ne, IH by done. erewrite bool_decide_ext; [done|].
    rewrite elem_of_cons. split; [by right|by intros [?|?]; [congruence|]].
Qed.

(** One scrub removes and reports exactly the corrupt fragments among the
    first eight of the index, in key order; it never looks at the ninth and
    later ones, and since every scrub starts from the beginning, a store whose
    first eight fragments are intact is never changed, however corrupt the rest
    is. *)
Theorem scrubOnce_spec report s :
  (∀ id, report id = true) →
  ∃ s', scrubOnce report s = (Ok tt, s') ∧
    (∀ id, cs_files s' !! id = if bool_decide (id ∈ scrub_lost s) then None else cs_files s !! id) ∧
    (∀ id, cs_meta s' !! id = if bool_decide (id ∈ scrub_lost s) then None else cs_meta s !! id) ∧
    (∀ id m, (id, m) ∈ take scrubBatch (entries s) → fragmentHashOK s id m = false → id ∈ scrub_lost s) ∧
    (∀ id m, (id, m) ∈ drop scrubBatch (entries s) → id ∉ scrub_lost s) ∧
    ((∀ id m, (id, m) ∈ take scrubBatch (entries s) → fragmentHashOK s id m = true) → s' = s).
Proof.
  intros Hr. eexists. split; [by apply scrub_loop|]. cbn [cs_files cs_meta]. split_and!.
  - intros id. rewrite foldr_delete. erewrite bool_decide_ext; [done|]. apply elem_of_rev.
  - intros id. rewrite foldr_delete. erewrite bool_decide_ext; [done|]. apply elem_of_rev.
  - intros id m Hin Hbad. apply list_elem_of_fmap. exists (id, m). split; [done|].
    by apply list_elem_of_filter.
  - intros id m Hin Hlost%scrub_lost_first. pose proof (entries_NoDup s) as Hnd.
    rewrite <- (take_drop scrubBatch (entries s)), fmap_app, NoDup_app in Hnd.
    destruct Hnd as (_&Hdisj&_). apply (Hdisj id Hlost). by apply (list_elem_of_fmap_2 fst _ (id, m)).
  - intros Hok. unfold scrub_lost. replace (filter _ _) with (@nil (uuid * FragMeta)); [by destruct s|].
    symmetry. apply filter_none. intros [id m] Hin. simpl. by rewrite (Hok id m Hin).
Qed.
