(* ===== verification/Challenges.v ===== *)
(** * Storage challenges: [src/internal/store/challenges.go] and
      [src/internal/healthmon/challenge.go]

    The challenge table, the choice of placements to audit, and pre-computed
    challenge sets, whose random numbers are the argument [rand]; that a node
    which still holds the fragment answers them.  [Auditing] has the audits. *)

From S2P Require Import Prelude GoFloat Bytes Sha256 Schema Nodes World Placements Health Agent.

(** ** The store *)

Definition of_placement (frag node : uuid) (c : Challenge) : bool :=
  bool_decide (ch_FragmentID c = frag) && bool_decide (ch_NodeID c = node).
Definition unspent (c : Challenge) : bool := bool_decide (ch_SpentAt c = None).

(** [INSERT … ON CONFLICT (fragment_id, node_id, seq) DO UPDATE], with the
    foreign keys of a row that is new. *)
Definition upsert_challenge (c : Challenge) : store unit := λ d,
  let fresh := MkChallenge (ch_FragmentID c) (ch_NodeID c) (ch_Seq c) (ch_Offset c)
                 (ch_Length c) (ch_Nonce c) (ch_Expected c) None in
  let same r := of_placement (ch_FragmentID c) (ch_NodeID c) r && (ch_Seq r =? ch_Seq c) in
  if existsb same (db_challenges d)
  then (Ok tt, upd_db_challenges (update_where same (λ _, fresh)) d)
  else if bool_decide (fragment_by d (ch_FragmentID c) = None) ||
          bool_decide (node_by d (ch_NodeID c) = None)
  then (Err (mapQueryErr PgOther), d)
  else (Ok tt, upd_db_challenges (λ t, t ++ [fresh]) d).

Definition InsertChallengeSet (set : list Challenge) : store unit :=
  match set with
  | [] => mret tt
  | c0 :: _ =>
      transaction (
        modify (upd_db_challenges
          (filter (λ c, of_placement (ch_FragmentID c0) (ch_NodeID c0) c && unspent c = false))) ≫= λ _,
        for_each upsert_challenge set)
  end.

Definition unspent_of (d : DB) (frag node : uuid) : list Challenge :=
  filter (λ c, of_placement frag node c && unspent c = true) (db_challenges d).

Definition CountRemainingChallenges (frag node : uuid) (d : DB) : Z :=
  Z.of_nat (length (unspent_of d frag node)).

Definition TakeNextUnspent (frag node : uuid) : store Challenge := λ d,
  (query_row (mapQueryErr PgNoRows) (order_by (λ c, [ch_Seq c]) (unspent_of d frag node)), d).

Definition MarkChallengeSpent (now : Z) (frag node : uuid) (seq : Z) : DB → DB :=
  upd_db_challenges
    (update_where (λ c, of_placement frag node c && (ch_Seq c =? seq) && unspent c)
       (upd_ch_SpentAt (λ _, Some now))).

Definition TouchLastAudit (now : Z) (frag node : uuid) : DB → DB :=
  upd_db_placements
    (update_where (λ p, bool_decide (pl_FragmentID p = frag) && bool_decide (pl_NodeID p = node))
       (upd_pl_LastAuditAt (λ _, Some now))).

Record AuditTarget := MkAuditTarget {
  at_PlacementID : Z; at_FragmentID : uuid; at_NodeID : uuid; at_ChunkID : uuid;
  at_SizeBytes : Z; at_SHA256 : bytes; at_Endpoint : string; at_Reputation : float;
  at_Remaining : Z }.

(** The order of [REAL] values, as integers; NaN sorts last. *)
Definition real_key (f : float) : Z :=
  match f with
  | S754_zero _ => 0
  | S754_finite s m e => cond_Zopp s (Z.shiftl (Zpos m) (e + 149))
  | S754_infinity s => if s then - 2^300 else 2^300
  | S754_nan => 2^301
  end.

Definition audit_row (d : DB) (p : Placement) : option (Placement * AuditTarget) :=
  fr ← fragment_by d (pl_FragmentID p);
  n ← node_by d (pl_NodeID p);
  if bool_decide (n_Status n = NOnline) then
    Some (p, MkAuditTarget (pl_ID p) (pl_FragmentID p) (pl_NodeID p) (fr_ChunkID fr)
      (fr_SizeBytes fr) (fr_SHA256 fr) (n_Endpoint n) (n_Reputation n)
      (CountRemainingChallenges (pl_FragmentID p) (pl_NodeID p) d))
  else None.

Definition audit_due (now secs : Z) (p : Placement) : bool :=
  bool_decide (pl_Status p = PStored) &&
  match pl_LastAuditAt p with None => true | Some t => t <? now - secs * second end.

Definition ListDueAudits (now minAge limit : Z) (d : DB) : list AuditTarget :=
  let limit := if limit <=? 0 then 16 else limit in
  let secs := Z.max 0 (whole_seconds minAge) in
  take (Z.to_nat limit)
    (snd <$> order_by (λ r, [real_key (at_Reputation r.2);
                             match pl_LastAuditAt r.1 with None => 0 | Some _ => 1 end;
                             default 0 (pl_LastAuditAt r.1); pl_ID r.1])
       (omap (audit_row d) (filter (λ p, audit_due now secs p = true) (db_placements d)))).

(** ** Challenge sets *)

Definition defaultChallengeSetSize : Z := 8.
Definition defaultChallengeMaxRange : Z := 4096.
Definition lowWater : Z := 2.

(** [1 + int(randUint64()%uint64(length))] and
    [int(randUint64() % uint64(maxOff+1))] *)
Definition challenge_range (maxRange size r1 r2 : Z) : Z * Z :=
  let length := if size <? maxRange then size else maxRange in
  let length := if 1 <? length then 1 + r1 `mod` length else length in
  let maxOff := size - length in
  (if 0 <? maxOff then r2 `mod` (maxOff + 1) else 0, length).

Definition one_challenge (data : bytes) (frag node : uuid) (maxRange : Z)
    (rand : Z → Z * Z * bytes) (i : Z) : Challenge :=
  let '(r1, r2, nonce) := rand i in
  let '(offset, len) := challenge_range maxRange (Z.of_nat (length data)) r1 r2 in
  MkChallenge frag node i offset len nonce
    (sha256 (nonce ++ take (Z.to_nat len) (drop (Z.to_nat offset) data))) None.

(** [rand i]: the two uint64s and the nonce of the i-th tuple. *)
Definition ComputeChallengeSet (data : bytes) (frag node : uuid) (n maxRange : Z)
    (rand : Z → Z * Z * bytes) : list Challenge :=
  let n := if n <=? 0 then defaultChallengeSetSize else n in
  let maxRange := if maxRange <=? 0 then defaultChallengeMaxRange else maxRange in
  let maxRange := if MaxChallengeRange <? maxRange then MaxChallengeRange else maxRange in
  if (length data =? 0)%nat then []
  else one_challenge data frag node maxRange rand <$> seqZ 0 n.

(** ** Challenge sets are answerable *)

Lemma challenge_range_bounds maxRange size r1 r2 :
  0 < maxRange → 0 < size → 0 ≤ r1 → 0 ≤ r2 →
  let '(offset, len) := challenge_range maxRange size r1 r2 in
  1 ≤ len ≤ maxRange ∧ 0 ≤ offset ∧ offset + len ≤ size.
Proof.
  intros Hm Hs H1 H2. unfold challenge_range.
  set (l0 := if size <? maxRange then size else maxRange).
  assert (1 ≤ l0 ≤ maxRange ∧ l0 ≤ size) as Hl0 by (subst l0; case_if; lia).
  set (l1 := if 1 <? l0 then 1 + r1 `mod` l0 else l0).
  assert (1 ≤ l1 ≤ l0) as Hl1.
  { subst l1. case_if; [|lia]. pose proof (Z.mod_pos_bound r1 l0). lia. }
  case_if; [|lia]. pose proof (Z.mod_pos_bound r2 (size - l1 + 1)). lia.
Qed.

Definition effective_range (maxRange : Z) : Z :=
  Z.min MaxChallengeRange (if maxRange <=? 0 then defaultChallengeMaxRange else maxRange).

Lemma effective_range_bounds m : 1 ≤ effective_range m ≤ MaxChallengeRange.
Proof. unfold effective_range, MaxChallengeRange, defaultChallengeMaxRange. case_if; lia. Qed.

(** What one tuple of a set promises. *)
Definition answerable (data : bytes) (frag node : uuid) (maxRange : Z) (c : Challenge) : Prop :=
  ch_FragmentID c = frag ∧ ch_NodeID c = node ∧ ch_SpentAt c = None ∧
  1 ≤ ch_Length c ≤ effective_range maxRange ∧ 0 ≤ ch_Offset c ∧
  ch_Offset c + ch_Length c ≤ Z.of_nat (length data) ∧
  ch_Expected c = sha256 (ch_Nonce c ++
    take (Z.to_nat (ch_Length c)) (drop (Z.to_nat (ch_Offset c)) data)).

Definition rand_ok (rand : Z → Z * Z * bytes) : Prop :=
  ∀ i, 0 ≤ (rand i).1.1 ∧ 0 ≤ (rand i).1.2 ∧ length (rand i).2 = 16%nat.

Lemma one_challenge_answerable data frag node m rand i :
  data ≠ [] → rand_ok rand →
  answerable data frag node m (one_challenge data frag node (effective_range m) rand i) ∧
  length (ch_Nonce (one_challenge data frag node (effective_range m) rand i)) = 16%nat.
Proof.
  intros Hd Hr. destruct (Hr i) as (H1&H2&Hn). unfold one_challenge.
  destruct (rand i) as [[r1 r2] nonce]. cbn [fst snd] in *.
  assert (0 < Z.of_nat (length data)) by (destruct data; simpl; [done|lia]).
  pose proof (effective_range_bounds m).
  pose proof (challenge_range_bounds (effective_range m) (Z.of_nat (length data)) r1 r2) as Hb.
  destruct (challenge_range _ _ r1 r2) as [o l]. unfold answerable. simpl in *.
  specialize (Hb ltac:(lia) ltac:(done) H1 H2). split_and!; (done || lia).
Qed.

Lemma ComputeChallengeSet_unfold data frag node n m rand :
  data ≠ [] →
  ComputeChallengeSet data frag node n m rand =
    one_challenge data frag node (effective_range m) rand <$>
      seqZ 0 (if n <=? 0 then defaultChallengeSetSize else n).
Proof.
  intros Hd. unfold ComputeChallengeSet. destruct data; [done|].
  replace (if MaxChallengeRange <? _ then _ else _) with (effective_range m); [done|].
  unfold effective_range. destruct (MaxChallengeRange <? _) eqn:E; lia.
Qed.

(** A challenge set over a fragment has as many tuples as asked for (eight by
    default), numbered from 0, and every tuple is answerable: a non-empty range
    inside the fragment, no longer than the node serves, with the digest of the
    nonce and those bytes. *)
Lemma ComputeChallengeSet_spec data frag node n m rand :
  data ≠ [] → rand_ok rand →
  let set := ComputeChallengeSet data frag node n m rand in
  ch_Seq <$> set = seqZ 0 (if n <=? 0 then defaultChallengeSetSize else n) ∧
  Forall (λ c, answerable data frag node m c ∧ length (ch_Nonce c) = 16%nat) set.
Proof.
  intros Hd Hr. cbv zeta. rewrite ComputeChallengeSet_unfold by done. split.
  - rewrite <- list_fmap_compose. rewrite (list_fmap_ext _ id); [by rewrite list_fmap_id|].
    intros _ i _. simpl. unfold one_challenge. by repeat case_match.
  - apply Forall_fmap, Forall_forall. intros i _. by apply one_challenge_answerable.
Qed.

(** ** Honest nodes pass *)

Lemma ReadRange_honest id data meta offset len s :
  cs_files s !! id = Some data → cs_meta s !! id = Some meta →
  fm_Size meta = Z.of_nat (length data) → Z.of_nat (length data) < 2^62 →
  1 ≤ len ≤ MaxChallengeRange → 0 ≤ offset → offset + len ≤ Z.of_nat (length data) →
  ReadRange id offset len s = (Ok (take (Z.to_nat len) (drop (Z.to_nat offset) data)), s).
Proof.
  intros Hf Hm Hz Hsmall Hl Ho Hol. unfold ReadRange, guard_err, mbind, M_bind.
  unfold MaxChallengeRange in *.
  replace ((len <=? 0) || (64 * 1024 <? len)) with false by lia. cbn [mret M_ret].
  unfold Get. rewrite Hm, Hf. cbn [of_option mbind result_bind]. rewrite Hz.
  unfold add64. rewrite wrap_s64_id by (unfold int64_range; lia).
  replace (_ || _ || _) with false by lia. cbn [mret M_ret].
  rewrite (proj2 (Nat.eqb_eq _ _)); [done|]. rewrite length_take, length_drop. lia.
Qed.

Lemma honest_answer `{!Tickets.Ed25519} self key now s id data meta wire tk ch n m rand :
  cs_files s !! id = Some data → cs_meta s !! id = Some meta →
  fm_Size meta = Z.of_nat (length data) → Z.of_nat (length data) < 2^62 →
  data ≠ [] → rand_ok rand →
  ch ∈ ComputeChallengeSet data id self n m rand →
  Tickets.Verify key now wire Tickets.OpChallenge self id = Ok tk →
  Tickets.tk_MaxBytes tk = 64 * 1024 →
  cs_nonces s !! Tickets.tk_Nonce tk = None →
  (handleChallenge self key now false (Some id) (Some (ch_Offset ch)) (Some (ch_Length ch))
     (Some (ch_Nonce ch)) wire s).1 = Ok (ch_Expected ch).
Proof.
  intros Hf Hm Hz Hsmall Hd Hr Hch Hv Hmax Hnonce.
  rewrite ComputeChallengeSet_unfold in Hch by done.
  apply list_elem_of_fmap in Hch as (i&->&_).
  set (ch := one_challenge _ _ _ _ _ _).
  assert (answerable data id self m ch ∧ length (ch_Nonce ch) = 16%nat)
    as [(_&_&_&Hl&Ho&Hol&->) Hn16] by by apply one_challenge_answerable.
  pose proof (effective_range_bounds m). unfold MaxChallengeRange in *.
  unfold handleChallenge, lift, or_status, guard_err, mbind, M_bind. cbn [of_option fst].
  replace (ch_Offset ch <? 0) with false by lia. cbn [mret M_ret].
  replace (ch_Length ch <=? 0) with false by lia. cbn [mret M_ret].
  unfold MaxChallengeRange. replace (64 * 1024 <? ch_Length ch) with false by lia. cbn [mret M_ret].
  destruct (bool_decide_reflect (ch_Nonce ch = [])) as [E|_]; [by rewrite E in Hn16|].
  cbn [mret M_ret]. rewrite Hv, Hmax. rewrite wrap_u64_id by (unfold uint64_range; lia).
  replace ((0 <? 64 * 1024) && (64 * 1024 <? ch_Length ch)) with false by lia. cbn [mret M_ret].
  unfold status_if, ConsumeNonce. cbv beta. rewrite Hnonce.
  set (s1 := upd_cs_nonces _ s).
  by rewrite (ReadRange_honest id data meta (ch_Offset ch) (ch_Length ch) s1)
    by (done || unfold MaxChallengeRange; lia).
Qed.

(** A node that still holds a fragment answers every challenge of a set
    computed over it with the expected digest, given the challenge ticket the
    metadata service mints (bound 64 KiB): storage challenges never fail an
    honest node. *)
Theorem honest_node_passes `{!Tickets.Ed25519} self key now s id data meta wire tk ch n m rand :
  cs_files s !! id = Some data → cs_meta s !! id = Some meta →
  fm_Size meta = Z.of_nat (length data) → Z.of_nat (length data) < 2^62 →
  data ≠ [] → rand_ok rand →
  ch ∈ ComputeChallengeSet data id self n m rand →
  Tickets.Verify key now wire Tickets.OpChallenge self id = Ok tk →
  Tickets.tk_MaxBytes tk = 64 * 1024 →
  cs_nonces s !! Tickets.tk_Nonce tk = None →
  (handleChallenge self key now false (Some id) (Some (ch_Offset ch)) (Some (ch_Length ch))
     (Some (ch_Nonce ch)) wire s).1 = Ok (ch_Expected ch).
Proof. apply honest_answer. Qed.
