(* ===== verification/Ledger.v ===== *)
(** * The billing ledger: [src/internal/store/ledger.go] and
      [src/internal/ledger/ledger.go]

    Double-entry transactions in integer micro-credits.  [SUM(amount)] is exact
    (Postgres sums bigint as numeric) and fails to scan when it leaves int64;
    the Go arithmetic wraps.  The deferred trigger [assert_txn_balanced] of
    [src/deploy/migrations/000009_ledger_m5.sql] runs at commit. *)

From S2P Require Import Prelude GoFloat Schema Nodes.

(** ** Accounts *)

Definition OwnerCustomer : string := "customer".
Definition OwnerProvider : string := "provider".
Definition OwnerPlatform : string := "platform".
Definition KindBalance : string := "customer_balance".
Definition KindEarnings : string := "provider_earnings".
Definition KindRevenue : string := "platform_revenue".
Definition TypeStorageCharge : string := "storage_charge".
Definition TypeEgressCharge : string := "egress_charge".
Definition TypeStorageEarning : string := "storage_earning".
Definition TypeEgressEarning : string := "egress_earning".
Definition TypeAdjustment : string := "adjustment".

Definition account_key (ownerType : string) (ownerID : option uuid) (kind : string)
    (a : LedgerAccount) : bool :=
  bool_decide (la_OwnerType a = ownerType) && bool_decide (la_OwnerID a = ownerID) &&
  bool_decide (la_Kind a = kind).

Definition LedgerAccountByKey (ownerType : string) (ownerID : option uuid) (kind : string) :
    store LedgerAccount := λ d,
  (of_option (mapQueryErr PgNoRows) (find_by (account_key ownerType ownerID kind) (db_accounts d)), d).

(** Insert or return the account.  Without an owner the look-up comes first,
    since NULLs never conflict; with one the [ON CONFLICT] returns the old row. *)
Definition EnsureLedgerAccount (ownerType : string) (ownerID : option uuid) (kind : string) :
    store LedgerAccount := λ d,
  match find_by (account_key ownerType ownerID kind) (db_accounts d) with
  | Some a => (Ok a, d)
  | None =>
      let '(id, d) := gen_uuid d in
      let a := MkLedgerAccount id ownerType ownerID kind "CRD" in
      (Ok a, upd_db_accounts (λ t, t ++ [a]) d)
  end.

Definition MustAccount (ownerType : string) (ownerID : option uuid) (kind : string) :
    store LedgerAccount := λ d,
  match LedgerAccountByKey ownerType ownerID kind d with
  | (Err ENotFound, d) => (Err ENoLedger, d)
  | r => r
  end.

(** ** Transactions *)

Definition txn_sum (txn : uuid) (es : list LedgerEntry) : Z :=
  sumZ (le_Amount <$> filter (λ e, le_TxnID e = txn) es).

Definition account_exists (d : DB) (id : uuid) : bool :=
  existsb (λ a, bool_decide (la_ID a = id)) (db_accounts d).

Definition insert_entry (e : LedgerEntry) : store unit := λ d,
  if account_exists d (le_AccountID e)
  then (Ok tt, upd_db_entries (λ t, t ++ [e]) d)
  else (Err (mapQueryErr PgOther), d).

(** The trigger, for every row inserted by the transaction. *)
Definition assert_txn_balanced (inserted : list LedgerEntry) (d : DB) : bool :=
  forallb (λ e, txn_sum (le_TxnID e) (db_entries d) =? 0) inserted.

(** [ON CONFLICT (txn_id) DO NOTHING] with no row affected is an early return. *)
Definition InsertLedgerTxn (txnID : uuid) (kind : string) (window : option Z)
    (entries : list LedgerEntry) : store unit :=
  match entries with
  | [] => mret tt
  | e0 :: _ =>
      let kind := if bool_decide (kind = EmptyString) then le_EntryType e0 else kind in
      transaction (
        dup ← gets (λ d, existsb (λ t, bool_decide (lt_TxnID t = txnID)) (db_txns d));
        if dup : bool then mret tt
        else
          modify (upd_db_txns (λ t, t ++ [MkLedgerTxn txnID kind window])) ≫= λ _,
          for_each insert_entry entries ≫= λ _,
          ok ← gets (assert_txn_balanced entries);
          guard_err (negb ok) EQuery)
  end.

(** A posting leg; the keys of its reference map are those of [Reference]. *)
Record Entry := MkEntry {
  e_AccountID : uuid; e_Amount : Z; e_Type : string; e_Reference : Reference }.

Definition SumZero (entries : list Entry) : result store_error unit :=
  match entries with
  | [] => Err EUnbalanced
  | _ => if sum64 (e_Amount <$> entries) =? 0 then Ok tt else Err EUnbalanced
  end.

Definition ledger_row (now : Z) (txnID : uuid) (e : Entry) : LedgerEntry :=
  MkLedgerEntry txnID (e_AccountID e) (e_Amount e) (e_Type e) (e_Reference e) now.

Definition PostTxn (now : Z) (txnID : uuid) (entries : list Entry) : store unit :=
  lift (SumZero entries) ≫= λ _,
  let kind := match entries with e :: _ => e_Type e | [] => EmptyString end in
  let window := match entries with e :: _ => rf_Window (e_Reference e) | [] => None end in
  InsertLedgerTxn txnID kind window (ledger_row now txnID <$> entries).

Definition PostAdjustment (now : Z) (debit credit : uuid) (amount : Z) (reason : string) :
    store unit :=
  guard_err (bool_decide (reason = EmptyString)) EInvalid ≫= λ _,
  guard_err (amount <=? 0) EInvalid ≫= λ _,
  id ← action (λ d, let '(id, d) := gen_uuid d in (Ok id, d));
  let ref := MkReference None None None None None (Some reason) in
  PostTxn now id [MkEntry debit (wrap_s64 (- amount)) TypeAdjustment ref;
                  MkEntry credit amount TypeAdjustment ref] ≫= λ _,
  modify (upd_db_audit (λ t, t ++ [MkAuditRow "service" None "ledger.adjustment" "ledger_account"
                                     (Some debit) now])).

(** ** Balances *)

(** A numeric that leaves int64 does not scan. *)
Definition scan_int64 (z : Z) : result store_error Z :=
  if bool_decide (int64_range z) then Ok z else Err EQuery.

Definition account_sum (p : LedgerEntry → bool) (acct : uuid) (d : DB) : Z :=
  sumZ (le_Amount <$> filter (λ e, le_AccountID e = acct ∧ p e = true) (db_entries d)).

Definition AccountBalance (acct : uuid) : store Z := λ d,
  (scan_int64 (account_sum (λ _, true) acct d), d).

Definition AccountBalanceAt (acct : uuid) (at_ : Z) : store Z := λ d,
  (scan_int64 (account_sum (λ e, le_CreatedAt e <? at_) acct d), d).

(** [CheckQuota] with the floor [CreditFloor()] read from the environment; a
    missing account is no obstacle. *)
Definition CheckQuota (floor : Z) (user : uuid) : store unit := λ d,
  match MustAccount OwnerCustomer (Some user) KindBalance d with
  | (Err ENoLedger, d) => (Ok tt, d)
  | (Err e, d) => (Err e, d)
  | (Ok acct, d) =>
      match AccountBalance (la_ID acct) d with
      | (Err e, d) => (Err e, d)
      | (Ok bal, d) => if bal <=? floor then (Err EQuota, d) else (Ok tt, d)
      end
  end.

(** ** Statements *)

Definition InsertStatement (st : Statement) : store unit := λ d,
  if existsb (λ s, bool_decide (st_AccountID s = st_AccountID st) &&
                   bool_decide (st_CycleStart s = st_CycleStart st)) (db_statements d)
  then (Ok tt, d)
  else if account_exists d (st_AccountID st)
  then (Ok tt, upd_db_statements (λ t, t ++ [st]) d)
  else (Err (mapQueryErr PgOther), d).

Definition close_account (start end_ : Z) (a : LedgerAccount) : store unit :=
  open ← AccountBalanceAt (la_ID a) start;
  closeBal ← AccountBalanceAt (la_ID a) end_;
  let charges := if bool_decide (la_Kind a = KindBalance) && (closeBal <? open)
                 then sub64 open closeBal else 0 in
  let earnings := if bool_decide (la_Kind a = KindEarnings) && (open <? closeBal)
                  then sub64 closeBal open else 0 in
  InsertStatement (MkStatement (la_ID a) start end_ open closeBal charges earnings).

Definition CloseCycle (start end_ : Z) : store unit :=
  accts ← gets db_accounts;
  for_each (close_account start end_) accts.

(** ** Prices *)

Definition MicroPerCRD : Z := 1000000.
Definition BytesPerGB : Z := 1000000000.
Definition HoursPerMonth : Z := 730.

Record Rates := MkRates {
  CustomerStoragePerGBMonth : Z; ProviderStoragePerGBMonth : Z;
  CustomerEgressPerGB : Z; ProviderEgressPerGB : Z }.

(** [DefaultRates] with no override in the environment. *)
Definition DefaultRates : Rates :=
  MkRates (3 * MicroPerCRD) (Z.quot (3 * MicroPerCRD) 2) MicroPerCRD (Z.quot MicroPerCRD 2).

Definition StorageCharge (sizeBytes : Z) (r : Rates) : Z :=
  if sizeBytes <=? 0 then 0
  else quot64 (quot64 (mul64 sizeBytes (CustomerStoragePerGBMonth r)) BytesPerGB) HoursPerMonth.

Definition StorageEarning (sizeBytes : Z) (r : Rates) (reliabilityBP : Z) : Z :=
  if sizeBytes <=? 0 then 0
  else
    let base := quot64 (quot64 (mul64 sizeBytes (ProviderStoragePerGBMonth r)) BytesPerGB) HoursPerMonth in
    quot64 (mul64 base reliabilityBP) 10000.

Definition EgressCharge (n : Z) (r : Rates) : Z :=
  if n <=? 0 then 0 else quot64 (mul64 n (CustomerEgressPerGB r)) BytesPerGB.

Definition EgressEarning (n : Z) (r : Rates) (reliabilityBP : Z) : Z :=
  if n <=? 0 then 0
  else quot64 (mul64 (quot64 (mul64 n (ProviderEgressPerGB r)) BytesPerGB) reliabilityBP) 10000.

Definition clamp01 (v : float) : float :=
  if flt v F32.zero then F32.zero else if fgt v F32.one then F32.one else v.

Definition reputationFactorBP (reputation : float) : Z :=
  add64 8000 (F64.to_int64 (F64.mul (F64.of_f32 (clamp01 reputation)) (F64.of_Z 4000))).

Definition ReliabilityBP (uptime audit reputation : float) : Z :=
  let up := F64.to_int64 (F64.mul (F64.of_f32 (clamp01 uptime)) (F64.of_Z 10000)) in
  let aud := F64.to_int64 (F64.mul (F64.of_f32 (clamp01 audit)) (F64.of_Z 10000)) in
  let fac := reputationFactorBP reputation in
  let r := quot64 (mul64 (quot64 (mul64 up aud) 10000) fac) 10000 in
  let r := if 12000 <? r then 12000 else r in
  if r <? 0 then 0 else r.

(** ** Balanced books *)

Definition balanced (d : DB) : Prop := ∀ txn, txn_sum txn (db_entries d) = 0.

Lemma txn_sum_app txn es es' : txn_sum txn (es ++ es') = txn_sum txn es + txn_sum txn es'.
Proof. unfold txn_sum. by rewrite filter_app, fmap_app, sumZ_app. Qed.

Lemma txn_sum_other txn es :
  (∀ e, e ∈ es → le_TxnID e ≠ txn) → txn_sum txn es = 0.
Proof. intros H. unfold txn_sum. by rewrite filter_none. Qed.

Lemma sum_split (P : LedgerEntry → Prop) `{!∀ e, Decision (P e)} es :
  sumZ (le_Amount <$> es) =
  sumZ (le_Amount <$> filter P es) + sumZ (le_Amount <$> filter (λ e, ¬ P e) es).
Proof.
  induction es as [|e es IH]; [done|]. rewrite !filter_cons, fmap_cons. simpl sumZ at 1.
  destruct (decide (P e)), (decide (¬ P e)); try tauto; rewrite fmap_cons; simpl; lia.
Qed.

(** Sums per transaction add up to the sum over all entries. *)
Lemma sum_by_txn es : (∀ txn, txn_sum txn es = 0) → sumZ (le_Amount <$> es) = 0.
Proof.
  remember (length es) as n eqn:Hn. assert (length es ≤ n)%nat as Hle by lia. clear Hn.
  revert es Hle. induction n as [|n IH]; intros es Hle H0.
  { by destruct es; simpl in Hle; [|lia]. }
  destruct es as [|e es]; [done|].
  rewrite (sum_split (λ x, le_TxnID x = le_TxnID e)).
  change (sumZ (le_Amount <$> filter _ (e :: es))) with (txn_sum (le_TxnID e) (e :: es)) at 1.
  rewrite H0. rewrite (filter_cons_False _ e) by tauto. rewrite IH; [done| |].
  - simpl in Hle. pose proof (length_filter (λ x, ¬ le_TxnID x = le_TxnID e) es). lia.
  - intros txn. unfold txn_sum. rewrite list_filter_filter.
    destruct (decide (txn = le_TxnID e)) as [->|Hne].
    + rewrite filter_none; [done|]. tauto.
    + rewrite <- (H0 txn). unfold txn_sum. rewrite (filter_cons_False _ e) by congruence.
      f_equal. f_equal. apply list_filter_iff. intros x. split; [tauto|]. intros ->. by split.
Qed.

Lemma insert_entries_ok es d d' :
  for_each insert_entry es d = (Ok tt, d') →
  d' = upd_db_entries (λ t, t ++ es) d ∧ ∀ e, e ∈ es → account_exists d (le_AccountID e) = true.
Proof.
  revert d. induction es as [|e es IH]; intros d; simpl.
  { intros [= <-]. split; [|by intros ? ?%not_elem_of_nil]. destruct d. unfold upd_db_entries. simpl. by rewrite app_nil_r. }
  intros ([]&d1&He&Hr)%bind_ok. unfold insert_entry in He.
  destruct (account_exists d (le_AccountID e)) eqn:Hacc; [|done]. injection He as <-.
  apply IH in Hr as [-> Hex]. unfold upd_db_entries. simpl. rewrite <- app_assoc. split; [done|].
  intros x [->|Hx]%elem_of_cons; [done|]. by apply (Hex x Hx).
Qed.

Lemma InsertLedgerTxn_ok txnID kind window es d d' :
  InsertLedgerTxn txnID kind window es d = (Ok tt, d') →
  d' = d ∨
  (existsb (λ t, bool_decide (lt_TxnID t = txnID)) (db_txns d) = false ∧
   (∃ k, d' = upd_db_entries (λ t, t ++ es) (upd_db_txns (λ t, t ++ [MkLedgerTxn txnID k window]) d)) ∧
   ∀ e, e ∈ es → txn_sum (le_TxnID e) (db_entries d ++ es) = 0).
Proof.
  unfold InsertLedgerTxn. destruct es as [|e0 es0]; [by intros [= <-]; left|]. set (es := e0 :: es0).
  rewrite transaction_ok. intros (dup&d1&[= <- <-]&H)%bind_ok.
  destruct (existsb _ (db_txns d)) eqn:Hdup; [by injection H as <-; left|]. right. split; [done|].
  apply bind_ok in H as (_&d1&[= _ <-]&H). apply bind_ok in H as ([]&d2&Hins&H).
  apply insert_entries_ok in Hins as [-> _]. apply bind_ok in H as (ok&d3&Hok&H).
  apply gets_ok in Hok as [Hbal ->]. apply guard_ok in H as [Hok%negb_false_iff ->].
  rewrite Hok in Hbal. symmetry in Hbal.
  split; [by eexists|]. intros e He. unfold assert_txn_balanced in Hbal.
  rewrite forallb_forall in Hbal. specialize (Hbal e (proj1 (list_elem_of_In _ _) He)).
  apply Z.eqb_eq in Hbal. exact Hbal.
Qed.

Lemma insert_entries_run es d :
  (∀ e, e ∈ es → account_exists d (le_AccountID e) = true) →
  for_each insert_entry es d = (Ok tt, upd_db_entries (λ t, t ++ es) d).
Proof.
  revert d. induction es as [|e es IH]; intros d Hex; cbn [for_each].
  { destruct d. unfold upd_db_entries. cbn. by rewrite app_nil_r. }
  unfold mbind, M_bind. unfold insert_entry at 1. rewrite (Hex e) by left.
  rewrite IH by (intros x Hx; apply (Hex x); by right).
  unfold upd_db_entries. cbn. by rewrite <- app_assoc.
Qed.

(** A new balanced transaction between existing accounts is inserted. *)
Lemma InsertLedgerTxn_posts txnID kind window es d :
  balanced d → es ≠ [] →
  existsb (λ t, bool_decide (lt_TxnID t = txnID)) (db_txns d) = false →
  (∀ e, e ∈ es → account_exists d (le_AccountID e) = true ∧ le_TxnID e = txnID ∧ le_EntryType e = kind) →
  sumZ (le_Amount <$> es) = 0 →
  InsertLedgerTxn txnID kind window es d =
    (Ok tt, upd_db_entries (λ t, t ++ es) (upd_db_txns (λ t, t ++ [MkLedgerTxn txnID kind window]) d)).
Proof.
  intros Hb Hne Hnew Hes Hz. unfold InsertLedgerTxn. destruct es as [|e0 es0]; [done|].
  set (es := e0 :: es0) in *. apply transaction_ok.
  assert ((if bool_decide (kind = EmptyString) then le_EntryType e0 else kind) = kind) as ->.
  { destruct (bool_decide _); [|done]. apply Hes. left. }
  unfold mbind, M_bind, gets, modify.
  rewrite Hnew, insert_entries_run by (intros e He; apply (Hes e He)).
  set (d' := upd_db_entries _ _). assert (assert_txn_balanced es d' = true) as Hok.
  { unfold assert_txn_balanced. apply forallb_forall. intros e He%list_elem_of_In.
    destruct (Hes e He) as (_&->&_). apply Z.eqb_eq. unfold d'. cbn [db_entries upd_db_entries upd_db_txns].
    rewrite txn_sum_app, Hb. unfold txn_sum. rewrite filter_all; [lia|]. intros x Hx. by apply Hes. }
  by rewrite Hok.
Qed.

Lemma InsertLedgerTxn_err txnID kind window es d e d' :
  InsertLedgerTxn txnID kind window es d = (Err e, d') → d' = d.
Proof.
  unfold InsertLedgerTxn. destruct es; [done|]. apply transaction_err.
Qed.

Lemma InsertLedgerTxn_balanced txnID kind window es d :
  balanced d → balanced (InsertLedgerTxn txnID kind window es d).2.
Proof.
  intros Hb. destruct (InsertLedgerTxn txnID kind window es d) as [[[]|e] d'] eqn:Hi;
    [|by apply InsertLedgerTxn_err in Hi as ->].
  apply InsertLedgerTxn_ok in Hi as [->|(_&[k ->]&Hsum)]; [done|]. intros txn. simpl.
  rewrite txn_sum_app, Hb. simpl.
  destruct (decide (txn ∈ le_TxnID <$> es)) as [(e&->&He)%list_elem_of_fmap|Hn].
  - specialize (Hsum e He). rewrite txn_sum_app, Hb in Hsum. exact Hsum.
  - apply txn_sum_other. intros e He <-. apply Hn. by apply list_elem_of_fmap_2.
Qed.

(** C36: Posting is all or nothing and happens once: a rejected transaction
    leaves the database unchanged, a repeated transaction id changes nothing
    and succeeds, and a new one adds its header and exactly its legs, whose
    exact sum is zero, whatever the int64 check said. *)
Theorem PostTxn_spec now txnID entries d :
  balanced d →
  match PostTxn now txnID entries d with
  | (Err _, d') => d' = d
  | (Ok _, d') =>
      entries ≠ [] ∧
      (d' = d ∨
       existsb (λ t, bool_decide (lt_TxnID t = txnID)) (db_txns d) = false ∧
       db_entries d' = db_entries d ++ (ledger_row now txnID <$> entries) ∧
       existsb (λ t, bool_decide (lt_TxnID t = txnID)) (db_txns d') = true ∧
       sumZ (e_Amount <$> entries) = 0 ∧ balanced d' ∧
       ∀ now2 entries2, sum64 (e_Amount <$> entries2) = 0 → entries2 ≠ [] →
         PostTxn now2 txnID entries2 d' = (Ok tt, d'))
  end.
Proof.
  intros Hb. unfold PostTxn at 1. unfold mbind, M_bind, lift.
  destruct entries as [|e0 es0]; [done|]. set (es := e0 :: es0).
  destruct (SumZero es) as [[]|e] eqn:Hz; [|done].
  set (kind := e_Type e0). set (win := rf_Window (e_Reference e0)). set (rows := ledger_row now txnID <$> es).
  pose proof (InsertLedgerTxn_balanced txnID kind win rows d Hb) as Hb'.
  destruct (InsertLedgerTxn txnID kind win rows d) as [[[]|e] d'] eqn:Hi;
    [|by apply InsertLedgerTxn_err in Hi].
  split; [done|]. apply InsertLedgerTxn_ok in Hi as [->|(Hnew&[k ->]&Hsum)]; [by left|]. right.
  assert (existsb (λ t, bool_decide (lt_TxnID t = txnID))
    (db_txns d ++ [MkLedgerTxn txnID k win]) = true) as Hdup.
  { rewrite existsb_app. simpl. rewrite bool_decide_eq_true_2 by done. by rewrite orb_true_r. }
  split_and!; try done.
  - specialize (Hsum (ledger_row now txnID e0) ltac:(left)). simpl in Hsum.
    rewrite txn_sum_app, Hb in Hsum. unfold txn_sum in Hsum.
    replace (filter _ rows) with rows in Hsum.
    + unfold rows in Hsum. rewrite <- list_fmap_compose in Hsum. exact Hsum.
    + symmetry. apply filter_all. intros r (x&->&_)%list_elem_of_fmap. done.
  - intros now2 es2 Hz2 Hne. unfold PostTxn, mbind, M_bind, lift, SumZero.
    destruct es2 as [|x es2]; [done|]. rewrite Hz2. change (0 =? 0) with true.
    unfold InsertLedgerTxn. cbn [fmap list_fmap].
    unfold transaction, mbind, M_bind, gets.
    cbn [db_txns upd_db_entries upd_db_txns]. by rewrite Hdup.
Qed.

(** ** Prices *)

Lemma quot64_div a b : 0 ≤ a → int64_range a → 0 < b → quot64 a b = a / b.
Proof.
  intros Ha Hr Hb. unfold quot64. rewrite Z.quot_div_nonneg by lia. apply wrap_s64_id.
  pose proof (Z.div_pos a b ltac:(lia) ltac:(lia)).
  pose proof (Z.div_le_upper_bound a b a ltac:(lia) ltac:(nia)).
  unfold int64_range in *. lia.
Qed.

(** [n * rate / unit], exact as long as the product fits int64. *)
Lemma priced n rate per :
  0 < n → 0 ≤ rate → n * rate < 2^63 → 0 < per →
  quot64 (mul64 n rate) per = n * rate / per ∧ 0 ≤ n * rate / per ∧ int64_range (n * rate / per).
Proof.
  intros Hn Hr Hlt Hper. assert (0 ≤ n * rate) by nia.
  unfold mul64. rewrite wrap_s64_id by (unfold int64_range; lia).
  rewrite quot64_div by (unfold int64_range; lia).
  pose proof (Z.div_pos (n * rate) per ltac:(lia) ltac:(lia)).
  pose proof (Z.div_le_upper_bound (n * rate) per (n * rate) ltac:(lia) ltac:(nia)).
  unfold int64_range. split_and!; try done; lia.
Qed.

(** As long as bytes times rate fits an int64 (up to 3.07 TB at the default
    rate), the hourly storage charge and the egress charge are the exact price
    rounded down, never negative, and monotone in the bytes; no bytes, no
    charge. *)
Theorem charges_exact r n m :
  0 ≤ CustomerStoragePerGBMonth r → 0 ≤ CustomerEgressPerGB r →
  0 ≤ n ≤ m → m * CustomerStoragePerGBMonth r < 2^63 → m * CustomerEgressPerGB r < 2^63 →
  StorageCharge n r = n * CustomerStoragePerGBMonth r / (BytesPerGB * HoursPerMonth) ∧
  EgressCharge n r = n * CustomerEgressPerGB r / BytesPerGB ∧
  0 ≤ StorageCharge n r ≤ StorageCharge m r ∧ 0 ≤ EgressCharge n r ≤ EgressCharge m r.
Proof.
  intros Hs He Hnm Hms Hme.
  assert (∀ k, 0 ≤ k ≤ m →
    StorageCharge k r = k * CustomerStoragePerGBMonth r / (BytesPerGB * HoursPerMonth) ∧
    EgressCharge k r = k * CustomerEgressPerGB r / BytesPerGB) as Hex.
  { intros k Hk. unfold StorageCharge, EgressCharge. destruct (Z.leb_spec k 0).
    - replace k with 0 by lia. by rewrite !Z.mul_0_l.
    - destruct (priced k (CustomerStoragePerGBMonth r) BytesPerGB) as (H1&H2&H3);
        [lia|lia|nia|done|].
      destruct (priced k (CustomerEgressPerGB r) BytesPerGB) as (H4&_&_); [lia|lia|nia|done|].
      rewrite H1, H4. split; [|done]. rewrite quot64_div by done. by rewrite Z.div_div. }
  destruct (Hex n ltac:(lia)) as [Hn1 Hn2]. destruct (Hex m ltac:(lia)) as [Hm1 Hm2].
  rewrite Hn1, Hn2, Hm1, Hm2. unfold BytesPerGB, HoursPerMonth.
  split_and!; try done; try (apply Z.div_pos; nia); apply Z.div_le_mono; nia.
Qed.

(** Beyond that bound the product wraps: the bill of a customer with 3.1 TB is
    negative, that is, the platform pays. *)
Example storage_charge_overflow :
  StorageCharge 3000000000000 DefaultRates = 12328767 ∧
  StorageCharge 3100000000000 DefaultRates = -12529786.
Proof. by vm_compute. Qed.

Lemma ReliabilityBP_range uptime audit reputation :
  0 ≤ ReliabilityBP uptime audit reputation ≤ 12000.
Proof.
  unfold ReliabilityBP. cbv zeta. set (r := quot64 _ _).
  destruct (Z.ltb_spec 12000 r); [by vm_compute|]. destruct (Z.ltb_spec r 0); lia.
Qed.

(** Whatever the measured reliability, a provider's hourly earning is the
    base price scaled by at most 1.2, and never negative, while the metered
    bytes are within the range the arithmetic covers. *)
Theorem earnings_bounded r n uptime audit reputation :
  0 ≤ ProviderStoragePerGBMonth r → 0 ≤ ProviderEgressPerGB r → 0 < n →
  n * ProviderStoragePerGBMonth r < 2^63 → n * ProviderEgressPerGB r < 2^63 →
  let bp := ReliabilityBP uptime audit reputation in
  let storage := n * ProviderStoragePerGBMonth r / (BytesPerGB * HoursPerMonth) in
  let egress := n * ProviderEgressPerGB r / BytesPerGB in
  StorageEarning n r bp = storage * bp / 10000 ∧ 0 ≤ StorageEarning n r bp ≤ storage * 12 / 10 ∧
  EgressEarning n r bp = egress * bp / 10000 ∧ 0 ≤ EgressEarning n r bp ≤ egress * 12 / 10.
Proof.
  intros Hs He Hn Hps Hpe bp storage egress.
  pose proof (ReliabilityBP_range uptime audit reputation) as Hbp. fold bp in Hbp.
  assert (∀ base, 0 ≤ base < 2^49 →
    quot64 (mul64 base bp) 10000 = base * bp / 10000 ∧ 0 ≤ base * bp / 10000 ≤ base * 12 / 10) as Hscale.
  { intros base Hb. assert (0 ≤ base * bp ≤ base * 12000) by nia.
    unfold mul64. rewrite wrap_s64_id by (unfold int64_range; lia).
    rewrite quot64_div by (unfold int64_range; lia). split; [done|]. split; [apply Z.div_pos; lia|].
    replace (base * 12 / 10) with (base * 12000 / 10000); [apply Z.div_le_mono; lia|].
    replace (base * 12000) with (base * 12 * 1000) by lia.
    by rewrite (Z.div_mul_cancel_r _ 10 1000). }
  unfold StorageEarning, EgressEarning. replace (n <=? 0) with false by lia.
  destruct (priced n (ProviderStoragePerGBMonth r) BytesPerGB) as (H1&H2&H3); [lia|lia|nia|done|].
  destruct (priced n (ProviderEgressPerGB r) BytesPerGB) as (H4&H5&_); [lia|lia|lia|done|].
  rewrite H1, H4. rewrite (quot64_div _ HoursPerMonth), Z.div_div by done. fold storage.
  fold egress. unfold BytesPerGB, HoursPerMonth in *.
  destruct (Hscale storage) as [-> ?].
  { unfold storage, BytesPerGB, HoursPerMonth. split; [apply Z.div_pos; nia|].
    apply Z.div_lt_upper_bound; lia. }
  destruct (Hscale egress) as [-> ?]; [|split_and!; (done || lia)].
  unfold egress, BytesPerGB. split; [apply Z.div_pos; nia|]. apply Z.div_lt_upper_bound; lia.
Qed.
