(* ===== verification/Accrual.v ===== *)
(** * Hourly accrual: [src/internal/ledger/accrue.go] and
      [src/internal/store/meters.go]

    The billing meters, the transactions one hour posts, and catching up from
    the watermark.  [DeterministicTxnID] hashes with a package outside the
    repository and is a parameter; [Meters] is the interface of the Go code and
    [StoreMeters] its production instance. *)

From S2P Require Import Prelude GoFloat Schema Nodes Ledger.

(** ** Meters *)

(** [GROUP BY … SUM]: the keys in order of first appearance. *)
Definition group_sum (rows : list (uuid * Z)) : list (uuid * Z) :=
  (λ k, (k, sumZ (snd <$> filter (λ r, r.1 = k) rows))) <$> distinct (rows.*1).

Definition live_file_owner (d : DB) (v : FileVersion) : option uuid :=
  f ← file_by d (v_FileID v);
  if bool_decide (f_DeletedAt f = None) then b ← bucket_by d (f_BucketID f); Some (b_OwnerID b)
  else None.

Definition ListCustomerStoredBytes (d : DB) : list (uuid * Z) :=
  group_sum (omap (λ v, if bool_decide (v_Status v = VCommitted)
                        then owner ← live_file_owner d v; Some (owner, v_SizeBytes v) else None)
               (db_versions d)).

Definition CustomerStoredBytes (owner : uuid) : store Z := λ d,
  (scan_int64 (sumZ (snd <$> filter (λ r, r.1 = owner)
     (omap (λ v, if bool_decide (v_Status v = VCommitted)
                 then owner ← live_file_owner d v; Some (owner, v_SizeBytes v) else None)
        (db_versions d)))), d).

Record NodeHeld := MkHeld { nh_NodeID : uuid; nh_OwnerID : uuid; nh_SizeBytes : Z; nh_Reputation : float }.

Definition ListNodeHeldBytes (d : DB) : list NodeHeld :=
  (λ n, MkHeld (n_ID n) (n_OwnerID n)
     (sumZ (omap (λ p, fr ← fragment_by d (pl_FragmentID p); Some (fr_SizeBytes fr))
        (filter (λ p, pl_NodeID p = n_ID n ∧ pl_Status p = PStored) (db_placements d))))
     (n_Reputation n)) <$> db_nodes d.

Definition in_hour (start t : Z) : bool := (start <=? t) && (t <? start + hour).

Definition ListCustomerEgressBytes (window : Z) (d : DB) : list (uuid * Z) :=
  let start := truncate_hour window in
  group_sum (omap (λ r, f ← file_by d (dr_FileID r);
                        b ← bucket_by d (f_BucketID f);
                        Some (b_OwnerID b, dr_Bytes r))
               (filter (λ r, in_hour start (dr_CreatedAt r) = true) (db_download_receipts d))).

Record NodeServed := MkServed { sv_NodeID : uuid; sv_OwnerID : uuid; sv_Bytes : Z }.

Definition ListNodeWindowServed (window : Z) (d : DB) : list NodeServed :=
  omap (λ s, n ← node_by d (ns_NodeID s); Some (MkServed (ns_NodeID s) (n_OwnerID n) (ns_BytesServed s)))
    (filter (λ s, ns_WindowStart s = truncate_hour window ∧ 0 < ns_BytesServed s) (db_node_stats d)).

(** [AVG(real)] accumulates in double precision; the pass rate divides two
    [real]s; both scan into float32. *)
Definition NodeReliability (now : Z) (node : uuid) (d : DB) : float * float :=
  let rows := filter (λ s, ns_NodeID s = node ∧ now - 30 * day < ns_WindowStart s) (db_node_stats d) in
  let uptime := match rows with
                | [] => F64.zero
                | _ => F64.div (foldl (λ acc s, F64.add acc (F64.of_f32 (ns_UptimeRatio s))) F64.zero rows)
                         (F64.of_Z (Z.of_nat (length rows)))
                end in
  let passed := sumZ (ns_AuditsPassed <$> rows) in
  let total := sumZ ((λ s, ns_AuditsPassed s + ns_AuditsFailed s) <$> rows) in
  (F32.of_f64 uptime,
   if total =? 0 then F32.one else F32.div (F32.of_Z passed) (F32.of_Z total)).

Record Meters := MkMeters {
  CustomerStored : DB → list (uuid * Z);
  MeterNodeHeld : DB → list NodeHeld;
  CustomerEgress : Z → DB → list (uuid * Z);
  MeterNodeServed : Z → DB → list NodeServed;
  Reliability : uuid → DB → float * float }.

Definition StoreMeters (now : Z) : Meters :=
  MkMeters ListCustomerStoredBytes ListNodeHeldBytes ListCustomerEgressBytes
    ListNodeWindowServed (NodeReliability now).

(** ** One hour *)

Section accrual.
Context (DeterministicTxnID : string → uuid → Z → uuid) (rates : Rates) (m : Meters).

(** The references the legs of an hour carry. *)
Definition window_ref (w : Z) : Reference := MkReference (Some w) None None None None None.
Definition bytes_ref (w n : Z) : Reference := MkReference (Some w) None None (Some n) None None.
Definition owner_ref (w : Z) (owner : uuid) : Reference :=
  MkReference (Some w) None (Some owner) None None None.
Definition node_ref (w : Z) (node : uuid) (bp : option Z) : Reference :=
  MkReference (Some w) (Some node) None None bp None.

(** A two-legged posting of the hour from [debit] to [credit], both [kind]. *)
Definition transfer (now : Z) (kind : string) (subject : uuid) (window : Z)
    (debit credit : uuid) (amount : Z) (debit_ref credit_ref : Reference) : store unit :=
  PostTxn now (DeterministicTxnID kind subject (unix window))
    [MkEntry debit (wrap_s64 (- amount)) kind debit_ref;
     MkEntry credit amount kind credit_ref].

Definition charge_customer (now window : Z) (platform : uuid) (kind : string)
    (price : Z → Z) (platform_ref : uuid → Reference) (c : uuid * Z) : store unit :=
  let charge := price c.2 in
  if charge =? 0 then mret tt
  else
    acct ← EnsureLedgerAccount OwnerCustomer (Some c.1) KindBalance;
    transfer now kind c.1 window (la_ID acct) platform charge (bytes_ref window c.2) (platform_ref c.1).

Definition pay_storage (now window : Z) (platform : uuid) (n : NodeHeld) : store unit :=
  if nh_SizeBytes n <=? 0 then mret tt
  else
    '(up, audit) ← gets (Reliability m (nh_NodeID n));
    let bp := ReliabilityBP up audit (nh_Reputation n) in
    let earn := StorageEarning (nh_SizeBytes n) rates bp in
    if earn =? 0 then mret tt
    else
      acct ← EnsureLedgerAccount OwnerProvider (Some (nh_OwnerID n)) KindEarnings;
      transfer now TypeStorageEarning (nh_NodeID n) window platform (la_ID acct) earn
        (node_ref window (nh_NodeID n) (Some bp)) (node_ref window (nh_NodeID n) None).

(** The reputation listed with the held bytes, 1 if the node is not listed. *)
Definition reputation_of (held : list NodeHeld) (node : uuid) : float :=
  match find_by (λ h, bool_decide (nh_NodeID h = node)) held with
  | Some h => nh_Reputation h
  | None => F32.one
  end.

Definition pay_egress (now window : Z) (platform : uuid) (held : list NodeHeld) (n : NodeServed) :
    store unit :=
  '(up, audit) ← gets (Reliability m (sv_NodeID n));
  let bp := ReliabilityBP up audit (reputation_of held (sv_NodeID n)) in
  let earn := EgressEarning (sv_Bytes n) rates bp in
  if earn =? 0 then mret tt
  else
    acct ← EnsureLedgerAccount OwnerProvider (Some (sv_OwnerID n)) KindEarnings;
    transfer now TypeEgressEarning (sv_NodeID n) window platform (la_ID acct) earn
      (node_ref window (sv_NodeID n) None) (node_ref window (sv_NodeID n) None).

Definition AccrueWindow (now window : Z) : store unit :=
  let window := truncate_hour window in
  platform ← EnsureLedgerAccount OwnerPlatform None KindRevenue;
  cust ← gets (CustomerStored m);
  for_each (charge_customer now window (la_ID platform) TypeStorageCharge
              (λ n, StorageCharge n rates) (owner_ref window)) cust ≫= λ _,
  held ← gets (MeterNodeHeld m);
  for_each (pay_storage now window (la_ID platform)) held ≫= λ _,
  eg ← gets (CustomerEgress m window);
  for_each (charge_customer now window (la_ID platform) TypeEgressCharge
              (λ n, EgressCharge n rates) (λ _, window_ref window)) eg ≫= λ _,
  served ← gets (MeterNodeServed m window);
  for_each (pay_egress now window (la_ID platform) held) served.

(** ** Catching up *)

Definition WatermarkAccrual : string := "accrual".
Definition maxCatchUpHours : nat := 48.

Definition watermark_name (name : string) : string :=
  if bool_decide (name = EmptyString) then WatermarkAccrual else name.

Definition AccrualWatermark (name : string) (d : DB) : option Z :=
  snd <$> find_by (λ w, bool_decide (w.1 = watermark_name name)) (db_watermarks d).

Definition SetAccrualWatermark (name : string) (window : Z) (d : DB) : DB :=
  let name := watermark_name name in
  let window := truncate_hour window in
  upd_db_watermarks
    (if existsb (λ w, bool_decide (w.1 = name)) (db_watermarks d)
     then update_where (λ w, bool_decide (w.1 = name)) (λ _, (name, window))
     else λ t, t ++ [(name, window)]) d.

(** The loop of [CatchUp] from [w]; at most [fuel] hours, as the counter [n]
    allows. *)
Fixpoint catch_up (fuel : nat) (name : string) (now w target : Z) : store unit :=
  match fuel with
  | O => mret tt
  | S fuel' =>
      if target <? w then mret tt
      else
        AccrueWindow now w ≫= λ _,
        modify (SetAccrualWatermark name w) ≫= λ _,
        catch_up fuel' name now (w + hour) target
  end.

Definition CatchUp (name : string) (now : Z) : store unit :=
  let target := truncate_hour now - hour in
  last ← gets (AccrualWatermark name);
  match last with
  | None => catch_up maxCatchUpHours name now target target
  | Some last =>
      let start := truncate_hour last + hour in
      if target <? start then mret tt
      else catch_up maxCatchUpHours name now start target
  end.
End accrual.

(** ** What accrual changes

    Accrual only appends accounts, transactions and entries (and draws
    identifiers). *)

Definition grows (d d' : DB) : Prop :=
  ∃ a t e g, d' = upd_db_next_uuid (λ _, g) (upd_db_accounts (λ l, l ++ a)
                    (upd_db_txns (λ l, l ++ t) (upd_db_entries (λ l, l ++ e) d))).

#[export] Instance grows_preorder : PreOrder grows.
Proof.
  split.
  - intros d. exists [], [], [], (db_next_uuid d). destruct d. cbv -[app]. by rewrite !app_nil_r.
  - intros d1 d2 d3 (a&t&e&g&->) (a'&t'&e'&g'&->). exists (a ++ a'), (t ++ t'), (e ++ e'), g'.
    destruct d1. cbv -[app]. by rewrite !app_assoc.
Qed.

Lemma grows_txn d ts es : grows d (upd_db_entries (λ t, t ++ es) (upd_db_txns (λ t, t ++ ts) d)).
Proof. exists [], ts, es, (db_next_uuid d). destruct d. cbv -[app]. by rewrite !app_nil_r. Qed.

(** Meters that do not read the ledger. *)
Class LedgerFree (m : Meters) := {
  stored_free d d' : grows d d' → CustomerStored m d' = CustomerStored m d;
  held_free d d' : grows d d' → MeterNodeHeld m d' = MeterNodeHeld m d;
  egress_free w d d' : grows d d' → CustomerEgress m w d' = CustomerEgress m w d;
  served_free w d d' : grows d d' → MeterNodeServed m w d' = MeterNodeServed m w d;
  reliability_free n d d' : grows d d' → Reliability m n d' = Reliability m n d }.

#[export] Instance StoreMeters_free now : LedgerFree (StoreMeters now).
Proof. split; intros; match goal with H : grows _ _ |- _ => by destruct H as (?&?&?&?&->) end. Qed.

Definition posted (txn : uuid) (d : DB) : bool :=
  existsb (λ t, bool_decide (lt_TxnID t = txn)) (db_txns d).

Lemma posted_grows txn d d' : grows d d' → posted txn d = true → posted txn d' = true.
Proof. intros (?&?&?&?&->) H. unfold posted in *. cbn. by rewrite existsb_app, H. Qed.

Lemma account_exists_grows id d d' :
  grows d d' → account_exists d id = true → account_exists d' id = true.
Proof. intros (?&?&?&?&->) H. unfold account_exists in *. cbn. by rewrite existsb_app, H. Qed.

Lemma find_by_app {A} (p : A → bool) l1 l2 :
  find_by p (l1 ++ l2) = match find_by p l1 with Some x => Some x | None => find_by p l2 end.
Proof. unfold find_by. rewrite filter_app. by destruct (filter _ l1). Qed.

(** [EnsureLedgerAccount] always answers, with an account that exists and
    that later calls return again. *)
Lemma EnsureLedgerAccount_ok ot oid kind d :
  ∃ a d', EnsureLedgerAccount ot oid kind d = (Ok a, d') ∧ grows d d' ∧
    (db_txns d', db_entries d') = (db_txns d, db_entries d) ∧ account_exists d' (la_ID a) = true ∧
    ∀ d2, grows d' d2 → EnsureLedgerAccount ot oid kind d2 = (Ok a, d2).
Proof.
  unfold EnsureLedgerAccount. destruct (find_by _ (db_accounts d)) as [a|] eqn:Hf.
  - exists a, d. split_and!; try done.
    + unfold account_exists. apply existsb_exists. exists a.
      apply find_by_spec in Hf as [Hin _]. split; [by apply list_elem_of_In|].
      by apply bool_decide_eq_true_2.
    + intros d2 (?&?&?&?&->). cbn. by rewrite find_by_app, Hf.
  - unfold gen_uuid. set (a := MkLedgerAccount _ _ _ _ _). eexists a, _. split; [done|].
    assert (account_key ot oid kind a = true) as Hk.
    { unfold account_key, a. cbn. by rewrite !bool_decide_eq_true_2 by done. }
    split_and!; try done.
    + exists [a], [], [], (N.succ (db_next_uuid d)). destruct d. cbv -[app]. by rewrite !app_nil_r.
    + unfold account_exists. cbn. rewrite existsb_app. cbn.
      rewrite bool_decide_eq_true_2 by done. by rewrite orb_true_r.
    + intros d2 (?&?&?&?&->). cbn. rewrite <- app_assoc, find_by_app, Hf.
      unfold find_by. cbn [app]. by rewrite filter_cons_True.
Qed.

(** ** The transactions an hour is due

    The abstract books are the headers and the entries; a transaction that is
    due is posted unless its identifier was posted before. *)

Record Due := MkDue {
  du_txn : uuid; du_kind : string; du_window : Z; du_debit : uuid; du_credit : uuid; du_amount : Z;
  du_debit_ref : Reference; du_credit_ref : Reference }.

Definition books (d : DB) : list LedgerTxn * list LedgerEntry := (db_txns d, db_entries d).

Definition legs (t : Due) : list Entry :=
  [MkEntry (du_debit t) (- du_amount t) (du_kind t) (du_debit_ref t);
   MkEntry (du_credit t) (du_amount t) (du_kind t) (du_credit_ref t)].

Definition post_due (now : Z) (b : list LedgerTxn * list LedgerEntry) (t : Due) :
    list LedgerTxn * list LedgerEntry :=
  if existsb (λ h, bool_decide (lt_TxnID h = du_txn t)) b.1 then b
  else (b.1 ++ [MkLedgerTxn (du_txn t) (du_kind t) (Some (du_window t))],
        b.2 ++ (ledger_row now (du_txn t) <$> legs t)).

Definition account_id (d : DB) (ot : string) (oid : option uuid) (kind : string) : option uuid :=
  la_ID <$> find_by (account_key ot oid kind) (db_accounts d).

Section due.
Context (DeterministicTxnID : string → uuid → Z → uuid) (rates : Rates) (m : Meters).

(** What [f] would have posted, with the account identifiers of [D]. *)
Definition due_charge (D : DB) (w : Z) (kind : string) (price : Z → Z) (ref : uuid → Reference)
    (c : uuid * Z) : list Due :=
  if price c.2 =? 0 then []
  else match account_id D OwnerCustomer (Some c.1) KindBalance,
             account_id D OwnerPlatform None KindRevenue with
       | Some cust, Some plat => [MkDue (DeterministicTxnID kind c.1 (unix w)) kind w cust plat (price c.2)
                                      (bytes_ref w c.2) (ref c.1)]
       | _, _ => []
       end.

Definition due_earning (D : DB) (w : Z) (kind : string) (node owner : uuid) (earn : Z) (bp : option Z) :
    list Due :=
  if earn =? 0 then []
  else match account_id D OwnerProvider (Some owner) KindEarnings,
             account_id D OwnerPlatform None KindRevenue with
       | Some prov, Some plat => [MkDue (DeterministicTxnID kind node (unix w)) kind w plat prov earn
                                      (node_ref w node bp) (node_ref w node None)]
       | _, _ => []
       end.

Definition node_bp (d : DB) (node : uuid) (rep : float) : Z :=
  let '(up, audit) := Reliability m node d in ReliabilityBP up audit rep.

Definition due_storage (d D : DB) (w : Z) (n : NodeHeld) : list Due :=
  let bp := node_bp d (nh_NodeID n) (nh_Reputation n) in
  due_earning D w TypeStorageEarning (nh_NodeID n) (nh_OwnerID n)
    (StorageEarning (nh_SizeBytes n) rates bp) (Some bp).

Definition due_egress (d D : DB) (w : Z) (held : list NodeHeld) (n : NodeServed) : list Due :=
  due_earning D w TypeEgressEarning (sv_NodeID n) (sv_OwnerID n)
    (EgressEarning (sv_Bytes n) rates (node_bp d (sv_NodeID n) (reputation_of held (sv_NodeID n)))) None.

(** Everything the hour [w] owes, metered at [d]. *)
Definition due_hour (d D : DB) (w : Z) : list Due :=
  ((CustomerStored m d ≫= due_charge D w TypeStorageCharge (λ n, StorageCharge n rates) (owner_ref w)) ++
   (MeterNodeHeld m d ≫= due_storage d D w) ++
   (CustomerEgress m w d ≫= due_charge D w TypeEgressCharge (λ n, EgressCharge n rates) (λ _, window_ref w)) ++
   (MeterNodeServed m w d ≫= due_egress d D w (MeterNodeHeld m d)))%list.
End due.

(** ** Steps that settle

    [f] succeeds, keeps the books balanced and posts exactly [due]; afterwards
    [g] changes nothing any more, however much the ledger has grown. *)
Definition settles (now : Z) (f g : store unit) (due : DB → list Due) (d : DB) : Prop :=
  ∃ d', f d = (Ok tt, d') ∧ grows d d' ∧ balanced d' ∧
    (∀ D, grows d' D → books d' = foldl (post_due now) (books d) (due D)) ∧
    ∀ d2, grows d' d2 → g d2 = (Ok tt, d2).

Lemma settles_ret now d : balanced d → settles now (mret tt) (mret tt) (λ _, []) d.
Proof. intros. by exists d. Qed.

Lemma settles_seq now (f f' g g' : store unit) due due' d :
  settles now f g due d →
  (∀ d1, grows d d1 → balanced d1 → settles now f' g' due' d1) →
  settles now (f ≫= λ _, f') (g ≫= λ _, g') (λ D, due D ++ due' D)%list d.
Proof.
  intros (d1&He1&Hg1&Hb1&Hd1&Hr1) H2. destruct (H2 d1 Hg1 Hb1) as (d2&He2&Hg2&Hb2&Hd2&Hr2).
  exists d2. split_and!; try done.
  - unfold mbind, M_bind. by rewrite He1.
  - etrans; eassumption.
  - intros D Hg. rewrite foldl_app, <- (Hd1 D) by (etrans; eassumption). by apply Hd2.
  - intros d3 Hg3. unfold mbind, M_bind. rewrite Hr1 by (etrans; eassumption). by apply Hr2.
Qed.

Lemma settles_for_each {X} now (f g : X → store unit) (due : X → DB → list Due) xs d :
  balanced d →
  (∀ x d1, x ∈ xs → grows d d1 → balanced d1 → settles now (f x) (g x) (due x) d1) →
  settles now (for_each f xs) (for_each g xs) (λ D, xs ≫= λ x, due x D) d.
Proof.
  revert d. induction xs as [|x xs IH]; intros d Hb Hf; cbn [for_each]; [by apply settles_ret|].
  change (λ D, (x :: xs) ≫= _) with (λ D, due x D ++ (xs ≫= λ x, due x D))%list.
  apply settles_seq.
  - by apply Hf; [left| |].
  - intros d1 Hg1 Hb1. apply IH; [done|]. intros y d2 Hy Hg2 Hb2.
    apply Hf; [by right| |done]. etrans; eassumption.
Qed.

(** Behind a read that the growth of the ledger does not change. *)
Lemma settles_gets {A} now (h : DB → A) a (k k' : A → store unit) due d :
  (∀ d2, grows d d2 → h d2 = a) →
  settles now (k a) (k' a) due d →
  settles now (gets h ≫= k) (gets h ≫= k') due d.
Proof.
  intros Hh (d'&He&Hg&Hb&HQ&Hr). exists d'. split_and!; try done.
  - unfold mbind, M_bind, gets. by rewrite Hh.
  - intros d2 Hg2. unfold mbind, M_bind, gets. rewrite Hh by (etrans; eassumption). by apply Hr.
Qed.

Definition account_is (d : DB) ot oid kind (a : LedgerAccount) : Prop :=
  account_exists d (la_ID a) = true ∧ ∀ D, grows d D → account_id D ot oid kind = Some (la_ID a).

Lemma settles_ensure now ot oid kind (k k' : LedgerAccount → store unit) due d :
  balanced d →
  (∀ a d1, grows d d1 → balanced d1 → account_is d1 ot oid kind a → settles now (k a) (k' a) due d1) →
  settles now (EnsureLedgerAccount ot oid kind ≫= k) (EnsureLedgerAccount ot oid kind ≫= k') due d.
Proof.
  intros Hb Hk. destruct (EnsureLedgerAccount_ok ot oid kind d) as (a&d1&He&Hg&Hbk&Hx&Hr).
  destruct (Hk a d1 Hg) as (d'&He'&Hg'&Hb'&HQ&Hr').
  - intros txn. injection Hbk as _ ->. apply Hb.
  - split; [done|]. intros D HD. specialize (Hr D HD). unfold account_id, EnsureLedgerAccount in *.
    destruct (find_by _ (db_accounts D)); [by injection Hr as ->|].
    unfold gen_uuid in Hr. exfalso. injection Hr as _ Hr. revert Hr. destruct D; cbv -[app].
    intros [= _ Hr]. by apply (N.neq_succ_diag_l _ Hr).
  - exists d'. split_and!; try done.
    + unfold mbind, M_bind. by rewrite He.
    + etrans; eassumption.
    + intros D HD. change (books d1 = books d) in Hbk. rewrite <- Hbk. by apply HQ.
    + intros d2 Hg2. unfold mbind, M_bind. rewrite Hr by (etrans; eassumption). by apply Hr'.
Qed.

(** ** The steps of an hour *)

Lemma quot64_inner a b : int64_range a → 2 ≤ b → - 2^63 < quot64 a b < 2^63.
Proof.
  intros Ha Hb. unfold int64_range in *.
  assert (- 2^62 ≤ Z.quot a b ≤ 2^62) as Hq.
  { split; [apply Z.quot_le_lower_bound|apply Z.quot_le_upper_bound]; nia. }
  unfold quot64. rewrite wrap_s64_id by (unfold int64_range; lia). lia.
Qed.

Lemma prices_inner rates n bp :
  - 2^63 < StorageCharge n rates < 2^63 ∧ - 2^63 < EgressCharge n rates < 2^63 ∧
  - 2^63 < StorageEarning n rates bp < 2^63 ∧ - 2^63 < EgressEarning n rates bp < 2^63.
Proof.
  unfold StorageCharge, EgressCharge, StorageEarning, EgressEarning.
  destruct (n <=? 0); [lia|].
  split_and!; apply quot64_inner; first [apply wrap_s64_range|done].
Qed.

Lemma legs_sum t : sumZ (e_Amount <$> legs t) = 0.
Proof. unfold legs. simpl. lia. Qed.

Section steps.
Context (DeterministicTxnID : string → uuid → Z → uuid) (rates : Rates) (m : Meters)
  `{!LedgerFree m}.

(** An amount that is not the least int64 posts between existing accounts. *)
Lemma transfer_settles now now2 kind subject w debit credit amount dref cref due d :
  - 2^63 < amount < 2^63 → rf_Window dref = Some w → balanced d →
  account_exists d debit = true → account_exists d credit = true →
  (∀ D, grows d D →
     due D = [MkDue (DeterministicTxnID kind subject (unix w)) kind w debit credit amount dref cref]) →
  settles now (transfer DeterministicTxnID now kind subject w debit credit amount dref cref)
    (transfer DeterministicTxnID now2 kind subject w debit credit amount dref cref) due d.
Proof.
  intros Hr Hw Hb Hd Hc Hdue. set (txn := DeterministicTxnID kind subject (unix w)) in *.
  set (t := MkDue txn kind w debit credit amount dref cref) in *.
  assert (∀ now, transfer DeterministicTxnID now kind subject w debit credit amount dref cref =
            InsertLedgerTxn txn kind (Some w) (ledger_row now txn <$> legs t)) as Htr.
  { intros n. unfold transfer. rewrite wrap_s64_id by (unfold int64_range; lia).
    unfold PostTxn, lift, SumZero. fold txn. change (fmap e_Amount [_; _]) with (e_Amount <$> legs t).
    rewrite sum64_sumZ, legs_sum. cbn [e_Reference]. by rewrite Hw. }
  rewrite !Htr.
  assert (∀ now d, posted txn d = true →
    InsertLedgerTxn txn kind (Some w) (ledger_row now txn <$> legs t) d = (Ok tt, d)) as Hdup.
  { intros n d0 Hp. unfold InsertLedgerTxn, posted in *. cbn [fmap list_fmap legs].
    unfold transaction, mbind, M_bind, gets. by rewrite Hp. }
  destruct (posted txn d) eqn:Hp.
  { exists d. split_and!; try done; [by apply Hdup| |].
    - intros D HD. rewrite Hdue by done. cbn [foldl]. unfold post_due. cbn. unfold posted in Hp. by rewrite Hp.
    - intros d2 Hg. apply Hdup. by eapply posted_grows. }
  assert (InsertLedgerTxn txn kind (Some w) (ledger_row now txn <$> legs t) d =
    (Ok tt, upd_db_entries (λ l, l ++ (ledger_row now txn <$> legs t))
              (upd_db_txns (λ l, l ++ [MkLedgerTxn txn kind (Some w)]) d))) as Hins.
  { apply InsertLedgerTxn_posts; try done.
    - intros e [x [-> Hx]]%list_elem_of_fmap.
      apply elem_of_cons in Hx as [->|[->|Hx%not_elem_of_nil]%elem_of_cons]; done.
    - rewrite <- (legs_sum t). by rewrite <- list_fmap_compose. }
  pose proof (InsertLedgerTxn_balanced txn kind (Some w) (ledger_row now txn <$> legs t) d Hb) as Hb'.
  unfold settles. rewrite Hins in Hb' |- *. eexists. split; [done|].
  split_and!; [apply grows_txn|done| |].
  - intros D HD. rewrite Hdue by (etrans; [apply grows_txn|exact HD]).
    cbn [foldl]. unfold post_due, books. cbn [db_txns db_entries upd_db_entries upd_db_txns fst snd].
    unfold posted in Hp. cbn [du_txn t]. by rewrite Hp.
  - intros d2 Hg. apply Hdup. eapply posted_grows; [exact Hg|]. unfold posted.
    cbn [db_txns upd_db_entries upd_db_txns]. rewrite existsb_app. cbn [existsb lt_TxnID].
    rewrite bool_decide_eq_true_2 by done. by rewrite orb_true_r.
Qed.

Lemma account_is_grows d d' ot oid kind a :
  grows d d' → account_is d ot oid kind a → account_is d' ot oid kind a.
Proof.
  intros Hg [Hx Ha]. split; [by eapply account_exists_grows|].
  intros D HD. apply Ha. etrans; eassumption.
Qed.

Lemma charge_customer_settles now now2 w plat kind price ref c d :
  (∀ n, - 2^63 < price n < 2^63) → balanced d →
  account_is d OwnerPlatform None KindRevenue plat →
  settles now (charge_customer DeterministicTxnID now w (la_ID plat) kind price ref c)
    (charge_customer DeterministicTxnID now2 w (la_ID plat) kind price ref c)
    (λ D, due_charge DeterministicTxnID D w kind price ref c) d.
Proof using.
  intros Hp Hb Hpl. unfold charge_customer, due_charge.
  destruct (price c.2 =? 0); [by apply settles_ret|].
  apply settles_ensure; [done|]. intros a d1 Hg Hb1 [Hx Ha].
  apply (account_is_grows _ _ _ _ _ _ Hg) in Hpl as [Hpx Hpa].
  apply transfer_settles; try done. intros D HD. by rewrite Ha, Hpa.
Qed.

(** Both earnings: pay the owner unless there is nothing to pay. *)
Lemma earning_settles now now2 w plat kind node owner earn bp d :
  - 2^63 < earn < 2^63 → balanced d →
  account_is d OwnerPlatform None KindRevenue plat →
  let pay n := if earn =? 0 then mret tt
    else acct ← EnsureLedgerAccount OwnerProvider (Some owner) KindEarnings;
         transfer DeterministicTxnID n kind node w (la_ID plat) (la_ID acct) earn
           (node_ref w node bp) (node_ref w node None) in
  settles now (pay now) (pay now2)
    (λ D, due_earning DeterministicTxnID D w kind node owner earn bp) d.
Proof using.
  intros Hp Hb Hpl pay. unfold pay, due_earning.
  destruct (earn =? 0); [by apply settles_ret|].
  apply settles_ensure; [done|]. intros a d1 Hg Hb1 [Hx Ha].
  apply (account_is_grows _ _ _ _ _ _ Hg) in Hpl as [Hpx Hpa].
  apply transfer_settles; try done. intros D HD. by rewrite Ha, Hpa.
Qed.

Lemma pay_storage_settles now now2 w plat n d0 d :
  grows d0 d → balanced d → account_is d OwnerPlatform None KindRevenue plat →
  settles now (pay_storage DeterministicTxnID rates m now w (la_ID plat) n)
    (pay_storage DeterministicTxnID rates m now2 w (la_ID plat) n)
    (λ D, due_storage DeterministicTxnID rates m d0 D w n) d.
Proof.
  intros Hg Hb Hpl. unfold pay_storage, due_storage. destruct (nh_SizeBytes n <=? 0) eqn:Hn.
  { unfold StorageEarning. rewrite Hn. unfold due_earning. by apply settles_ret. }
  apply (settles_gets now _ (Reliability m (nh_NodeID n) d0)).
  { intros d2 Hg2. apply reliability_free. etrans; eassumption. }
  unfold node_bp. destruct (Reliability m (nh_NodeID n) d0) as [up audit].
  apply earning_settles; [apply prices_inner|done..].
Qed.

Lemma pay_egress_settles now now2 w plat held n d0 d :
  grows d0 d → balanced d → account_is d OwnerPlatform None KindRevenue plat →
  settles now (pay_egress DeterministicTxnID rates m now w (la_ID plat) held n)
    (pay_egress DeterministicTxnID rates m now2 w (la_ID plat) held n)
    (λ D, due_egress DeterministicTxnID rates m d0 D w held n) d.
Proof.
  intros Hg Hb Hpl. unfold pay_egress, due_egress.
  apply (settles_gets now _ (Reliability m (sv_NodeID n) d0)).
  { intros d2 Hg2. apply reliability_free. etrans; eassumption. }
  unfold node_bp. destruct (Reliability m (sv_NodeID n) d0) as [up audit].
  apply earning_settles; [apply prices_inner|done..].
Qed.

Lemma AccrueWindow_settles now now2 window d :
  balanced d →
  settles now (AccrueWindow DeterministicTxnID rates m now window)
    (AccrueWindow DeterministicTxnID rates m now2 window)
    (λ D, due_hour DeterministicTxnID rates m d D (truncate_hour window)) d.
Proof.
  intros Hb. unfold AccrueWindow, due_hour. set (w := truncate_hour window).
  apply settles_ensure; [done|]. intros plat d1 Hg1 Hb1 Hp1.
  apply (settles_gets now _ (CustomerStored m d));
    [intros; apply stored_free; etrans; eassumption|].
  apply settles_seq.
  { apply settles_for_each; [done|]. intros c d2 _ Hg Hb2. apply charge_customer_settles; [|done|].
    - intros n. apply (prices_inner rates n 0).
    - by eapply account_is_grows. }
  intros d2 Hg2 Hb2. assert (grows d d2) as Hd2 by (etrans; eassumption).
  apply (settles_gets now _ (MeterNodeHeld m d)); [intros; apply held_free; etrans; eassumption|].
  apply settles_seq.
  { apply settles_for_each; [done|]. intros n d3 _ Hg Hb3. apply pay_storage_settles; [|done|].
    - etrans; eassumption.
    - eapply account_is_grows; [|done]. etrans; eassumption. }
  intros d3 Hg3 Hb3. assert (grows d d3) as Hd3 by (etrans; eassumption).
  assert (account_is d3 OwnerPlatform None KindRevenue plat) as Hp3
    by (eapply account_is_grows; [|done]; etrans; eassumption).
  apply (settles_gets now _ (CustomerEgress m w d)); [intros; apply egress_free; etrans; eassumption|].
  apply settles_seq.
  { apply settles_for_each; [done|]. intros c d4 _ Hg Hb4. apply charge_customer_settles; [|done|].
    - intros n. apply (prices_inner rates n 0).
    - by eapply account_is_grows. }
  intros d4 Hg4 Hb4. assert (grows d d4) as Hd4 by (etrans; eassumption).
  apply (settles_gets now _ (MeterNodeServed m w d)); [intros; apply served_free; etrans; eassumption|].
  apply settles_for_each; [done|]. intros n d5 _ Hg Hb5. apply pay_egress_settles; [|done|].
  - etrans; eassumption.
  - eapply account_is_grows; [|exact Hp3]. etrans; eassumption.
Qed.
End steps.


(** ** Catching up *)

(** The hours from [start] up to [target], at most [fuel] of them. *)
Definition hours (fuel : nat) (start target : Z) : list Z :=
  (λ i, start + Z.of_nat i * hour) <$> seq 0 (fuel `min` Z.to_nat ((target - start) / hour + 1)).

(** The complete hours not accrued yet at [now], after the last one. *)
Definition pending (now : Z) (last : option Z) : list Z :=
  let target := truncate_hour now - hour in
  hours maxCatchUpHours (match last with Some l => truncate_hour l + hour | None => target end) target.

Lemma hours_cons fuel w target :
  w ≤ target → hours (S fuel) w target = w :: hours fuel (w + hour) target.
Proof.
  intros Hw. unfold hours. assert (0 < hour) as Hh by done.
  replace ((target - w) / hour + 1) with (((target - (w + hour)) / hour + 1) + 1).
  2: { replace (target - (w + hour)) with (target - w + (-1) * hour) by lia.
       rewrite Z.div_add by lia. lia. }
  assert (0 ≤ (target - (w + hour)) / hour + 1).
  { assert (-1 ≤ (target - (w + hour)) / hour) by (apply Z.div_le_lower_bound; lia). lia. }
  rewrite Z2Nat.inj_add, Nat.add_1_r by lia. cbn [Nat.min seq fmap list_fmap].
  f_equal; [lia|]. rewrite <- seq_shift. rewrite <- list_fmap_compose.
  apply list_fmap_ext. intros i j _. simpl. lia.
Qed.

Lemma hours_nil fuel w target : target < w → hours fuel w target = [].
Proof.
  intros Hw. unfold hours. replace (Z.to_nat _) with 0%nat; [by rewrite Nat.min_0_r|].
  assert ((target - w) / hour ≤ -1); [|lia].
  assert ((target - w) / hour < 0) by (apply Z.div_lt_upper_bound; [done|lia]). lia.
Qed.

Lemma hours_bound fuel w target x :
  x ∈ hours fuel w target → w ≤ x ≤ target ∧ ∃ i, x = w + i * hour.
Proof.
  unfold hours. intros (i&->&Hi)%list_elem_of_fmap. apply elem_of_seq in Hi.
  assert (Z.of_nat i ≤ (target - w) / hour) as Hle by lia.
  assert (0 < hour) by done. pose proof (Z.mul_div_le (target - w) hour ltac:(lia)).
  split; [nia|by eexists].
Qed.

Lemma hours_last fuel w target x :
  list.last (hours fuel w target) = Some x → (length (hours fuel w target) < fuel)%nat →
  target < x + hour.
Proof.
  unfold hours. rewrite fmap_last, length_fmap, length_seq.
  set (n := Z.to_nat _). intros Hl Hn. rewrite Nat.min_r in Hl by lia.
  destruct n as [|k] eqn:Hk; [done|]. rewrite seq_S, last_snoc in Hl. injection Hl as <-.
  assert ((target - w) / hour = Z.of_nat k) as Hd by lia. assert (0 < hour) as Hh by done.
  pose proof (Z.mul_succ_div_gt (target - w) hour ltac:(lia)). rewrite Hd in *. nia.
Qed.

Lemma AccrualWatermark_set name w d :
  AccrualWatermark name (SetAccrualWatermark name w d) = Some (truncate_hour w).
Proof.
  unfold AccrualWatermark, SetAccrualWatermark. set (n := watermark_name name).
  cbn [db_watermarks upd_db_watermarks].
  destruct (existsb (λ w, bool_decide (w.1 = n)) (db_watermarks d)) eqn:Hex.
  - unfold update_where. induction (db_watermarks d) as [|[k t] l IH]; [done|].
    cbn [existsb fmap list_fmap] in *. unfold find_by in *. rewrite filter_cons. cbn [fst] in *.
    destruct (bool_decide (k = n)) eqn:Hk.
    + cbn [fst]. rewrite bool_decide_eq_true_2 by done. by rewrite decide_True.
    + cbn [fst]. rewrite Hk, decide_False by done. by apply IH.
  - rewrite find_by_app. assert (find_by (λ w, bool_decide (w.1 = n)) (db_watermarks d) = None) as ->.
    { apply find_by_none. intros x Hx. destruct (bool_decide (x.1 = n)) eqn:Hk; [|done].
      assert (existsb (λ w, bool_decide (w.1 = n)) (db_watermarks d) = true); [|congruence].
      apply existsb_exists. exists x. split; [by apply list_elem_of_In|done]. }
    unfold find_by. rewrite filter_cons_True; [done|]. by apply bool_decide_eq_true_2.
Qed.

Section catchup.
Context (DeterministicTxnID : string → uuid → Z → uuid) (rates : Rates) (m : Meters)
  `{!LedgerFree m} (name : string) (now : Z).

Definition accrue_hour (w : Z) : store unit :=
  AccrueWindow DeterministicTxnID rates m now w ≫= λ _, modify (SetAccrualWatermark name w).

Lemma accrue_hour_run w d :
  accrue_hour w d =
  match AccrueWindow DeterministicTxnID rates m now w d with
  | (Ok _, d1) => (Ok tt, SetAccrualWatermark name w d1)
  | (Err e, d1) => (Err e, d1)
  end.
Proof using. done. Qed.

Lemma catch_up_hours fuel w target d :
  catch_up DeterministicTxnID rates m fuel name now w target d =
  for_each accrue_hour (hours fuel w target) d.
Proof using.
  revert w d. induction fuel as [|fuel IH]; intros w d; cbn [catch_up]; [done|].
  destruct (Z.ltb_spec target w); [by rewrite hours_nil|].
  rewrite hours_cons by done. cbn [for_each]. unfold mbind, M_bind, modify. rewrite accrue_hour_run.
  destruct (AccrueWindow _ _ _ now w d) as [[[]|e] d1]; [apply IH|done].
Qed.

Lemma CatchUp_pending d :
  CatchUp DeterministicTxnID rates m name now d =
  for_each accrue_hour (pending now (AccrualWatermark name d)) d.
Proof using.
  unfold CatchUp, pending, mbind, M_bind, gets.
  destruct (AccrualWatermark name d) as [l|]; [|apply catch_up_hours].
  case_if; [|apply catch_up_hours]. by rewrite hours_nil by lia.
Qed.

(** Aligned hours are accrued to the end; the watermark is the last of them. *)
Lemma accrue_hours_ok ws d :
  balanced d → Forall (λ w, truncate_hour w = w) ws →
  ∃ d', for_each accrue_hour ws d = (Ok tt, d') ∧ balanced d' ∧
    AccrualWatermark name d' = match list.last ws with Some w => Some w | None => AccrualWatermark name d end.
Proof.
  intros Hb Hws. revert d Hb. induction Hws as [|w ws Hw _ IH]; intros d Hb; [by exists d|].
  destruct (AccrueWindow_settles DeterministicTxnID rates m now now w d Hb) as (d1&He&_&Hb1&_).
  destruct (IH (SetAccrualWatermark name w d1)) as (d'&He'&Hb'&Hw'); [done|].
  exists d'. split_and!; [|done|].
  - cbn [for_each]. unfold mbind, M_bind. by rewrite accrue_hour_run, He.
  - rewrite Hw', AccrualWatermark_set, Hw. rewrite last_cons. by destruct (list.last ws).
Qed.
End catchup.

Lemma aligned_add x i : truncate_hour x = x → truncate_hour (x + i * hour) = x + i * hour.
Proof. unfold truncate_hour, hour, minute, second. intros. Z.div_mod_to_equations. lia. Qed.

Lemma pending_aligned now last : Forall (λ w, truncate_hour w = w) (pending now last).
Proof.
  apply Forall_forall. intros w (_&i&->)%hours_bound. apply aligned_add.
  destruct last as [l|].
  - replace hour with (1 * hour) at 1 by lia. rewrite aligned_add by apply truncate_hour_idemp. lia.
  - replace (truncate_hour now - hour) with (truncate_hour now + (-1) * hour) by lia.
    apply aligned_add, truncate_hour_idemp.
Qed.

