(* ===== verification/Invariants.v ===== *)
(** * Platform invariants: [src/internal/invariants/invariants.go]

    The checks the harness runs against the database after every scenario, and
    what their answers mean for the data they look at.  The zero-knowledge scan
    of [zk.go] searches byte strings.  The archive of usage events is a
    table of its own ([Consumers]), so its events are an argument. *)

From S2P Require Import Prelude GoFloat Schema Nodes Placements Scheduler Ledger Accrual.

Inductive violation :=
  | VStore (e : store_error)
  | VDurability (n : nat) (first : uuid)
  | VCaps (n : nat) (first : uuid)
  | VUnbalanced (n : nat) (first : uuid)
  | VUnknownOwner (k : string)
  | VTotals (customer provider platform : Z)
  | VCustomerPositive (customer : Z)
  | VMargin (customer provider platform : Z)
  | VEgress (events receipts window : Z)
  | VNeedle (name : string).
#[export] Instance violation_eq_dec : EqDecision violation.
Proof. solve_decision. Defined.

Definition check := result violation unit.

Definition none_of (err : nat → uuid → violation) (ids : list uuid) : check :=
  match ids with [] => Ok tt | id :: _ => Err (err (length ids) id) end.

Definition minHealthy : Z := 12.

Definition CheckDurability (d : DB) : check :=
  none_of VDurability (UnderHealthyChunks minHealthy d).

Definition CheckCaps (d : DB) : check :=
  none_of VCaps (ChunkCapViolations RegionCap ASNCap OwnerCap d).

(** ** Ledger checks *)

Definition LedgerUnbalancedTxns (d : DB) : list uuid :=
  filter (λ t, txn_sum t (db_entries d) ≠ 0) (distinct (le_TxnID <$> db_entries d)).

(** [JOIN ledger_accounts … GROUP BY owner_type]: one row per joined entry. *)
Definition owner_row (d : DB) (e : LedgerEntry) : option (string * Z) :=
  a ← find_by (λ a, bool_decide (la_ID a = le_AccountID e)) (db_accounts d);
  Some (la_OwnerType a, le_Amount e).

Definition owner_total (d : DB) (k : string) : Z :=
  sumZ (snd <$> filter (λ r, r.1 = k) (omap (owner_row d) (db_entries d))).

Definition LedgerTotalsByOwner (d : DB) : result store_error (list (string * Z)) :=
  mapM (λ k, n ← scan_int64 (owner_total d k); Ok (k, n))
    (distinct ((omap (owner_row d) (db_entries d)).*1)).

(** The switch over the totals; the map has one entry per owner type. *)
Fixpoint totals (ts : list (string * Z)) (acc : Z * Z * Z) : result violation (Z * Z * Z) :=
  match ts with
  | [] => Ok acc
  | (k, v) :: ts =>
      let '(c, p, pl) := acc in
      if bool_decide (k = OwnerCustomer) then totals ts (v, p, pl)
      else if bool_decide (k = OwnerProvider) then totals ts (c, v, pl)
      else if bool_decide (k = OwnerPlatform) then totals ts (c, p, v)
      else Err (VUnknownOwner k)
  end.

(** An archived usage event: its kind, window and the bytes of its payload. *)
Record UsageEvent := MkUsage { ue_Kind : string; ue_WindowStart : Z; ue_Bytes : option Z }.

Definition UsageEgressBytes (usage : list UsageEvent) (window : Z) : result store_error Z :=
  let start := truncate_hour window in
  scan_int64 (sumZ (default 0 ∘ ue_Bytes <$>
    filter (λ u, ue_Kind u = "egress" ∧ in_hour start (ue_WindowStart u) = true) usage)).

Definition ReceiptBytes (d : DB) (window : Z) : result store_error Z :=
  let start := truncate_hour window in
  scan_int64 (sumZ (dr_Bytes <$>
    filter (λ r, in_hour start (dr_CreatedAt r) = true) (db_download_receipts d))).

Definition or_store {A} (r : result store_error A) : result violation A :=
  match r with Ok a => Ok a | Err e => Err (VStore e) end.

Definition reconcile (usage : list UsageEvent) (d : DB) (w : Z) : check :=
  events ← or_store (UsageEgressBytes usage w);
  receipts ← or_store (ReceiptBytes d w);
  if events =? 0 then Ok tt
  else if negb (events =? receipts) then Err (VEgress events receipts w) else Ok tt.

Definition CheckUsageReconcile (now : Z) (usage : list UsageEvent) (d : DB) : check :=
  let now := truncate_hour now in
  _ ← reconcile usage d (now - hour); reconcile usage d now.

Definition neg64 (a : Z) : Z := wrap_s64 (- a).

Definition CheckLedger (now : Z) (usage : list UsageEvent) (d : DB) : check :=
  _ ← none_of VUnbalanced (LedgerUnbalancedTxns d);
  ts ← or_store (LedgerTotalsByOwner d);
  '(customer, provider, platform) ← totals ts (0, 0, 0);
  if negb (add64 (add64 customer provider) platform =? 0)
  then Err (VTotals customer provider platform)
  else if 0 <? customer then Err (VCustomerPositive customer)
  else if negb (neg64 customer =? add64 provider platform)
  then Err (VMargin customer provider platform)
  else CheckUsageReconcile now usage d.

(** ** Zero knowledge *)

Fixpoint prefix_of (p s : bytes) : bool :=
  match p, s with
  | [], _ => true
  | x :: p, y :: s => bool_decide (x = y) && prefix_of p s
  | _ :: _, [] => false
  end.

(** [bytes.Contains] *)
Fixpoint contains (s p : bytes) : bool :=
  prefix_of p s || match s with [] => false | _ :: s => contains s p end.

Fixpoint scanBytes (name : string) (data : bytes) (needles : list bytes) : check :=
  match needles with
  | [] => Ok tt
  | n :: needles =>
      if bool_decide (n = []) then scanBytes name data needles
      else if contains data n then Err (VNeedle name) else scanBytes name data needles
  end.

(** The readable files below the roots, in the order of the walk, as [files];
    an unreadable one is skipped. *)
Fixpoint scan_all (blobs : list (string * bytes)) (needles : list bytes) : check :=
  match blobs with
  | [] => Ok tt
  | (name, b) :: blobs => _ ← scanBytes name b needles; scan_all blobs needles
  end.

Definition CheckZeroKnowledge (files : list (string * bytes)) (blobs : list bytes)
    (needles : list bytes) : check :=
  match needles with
  | [] => Ok tt
  | _ => _ ← scan_all (pair "blob"%string <$> blobs) needles; scan_all files needles
  end.

Definition CheckAll (now : Z) (usage : list UsageEvent) (files : list (string * bytes))
    (needles : list bytes) (d : DB) : check :=
  _ ← CheckDurability d;
  _ ← CheckCaps d;
  _ ← CheckLedger now usage d;
  CheckZeroKnowledge files [] needles.

(** ** What the checks say *)

Lemma none_of_ok err ids : none_of err ids = Ok tt ↔ ids = [].
Proof. by destruct ids. Qed.

Lemma bind_check {A} (r : result violation A) (k : A → check) :
  (r ≫= k) = Ok tt ↔ ∃ a, r = Ok a ∧ k a = Ok tt.
Proof.
  destruct r as [a|e]; cbn; split; [eauto|by intros (?&[= ->]&?)|done|by intros (?&?&?)].
Qed.

Lemma none_of_err err ids v :
  none_of err ids = Err v → ∃ c, c ∈ ids ∧ v = err (length ids) c.
Proof. destruct ids as [|c ids]; [done|]. intros [= <-]. exists c. split; [left|done]. Qed.

Lemma healthy_committed d c : 0 < healthy_copies d c → chunk_committed d c = true.
Proof.
  unfold healthy_copies. intros H.
  destruct (count_where_pos (λ p, bool_decide (healthy_row d p = Some c)) (db_placements d))
    as (p&_&Hp%bool_decide_eq_true); [lia|]. by apply healthy_row_spec in Hp as (_&_&?&_).
Qed.

Lemma nil_iff {A} (l : list A) : l = [] ↔ ∀ x, x ∉ l.
Proof.
  split; [intros -> x; apply not_elem_of_nil|]. destruct l as [|x l]; [done|].
  intros H. destruct (H x). left.
Qed.

(** The durability check passes exactly when every chunk of a committed
    version has either at least 12 healthy copies or none at all; when it fails
    it names a committed chunk with between 1 and 11. *)
Theorem CheckDurability_spec d :
  (CheckDurability d = Ok tt ↔
   ∀ c, chunk_committed d c = true → healthy_copies d c = 0 ∨ 12 ≤ healthy_copies d c) ∧
  ∀ v, CheckDurability d = Err v →
    ∃ n c, v = VDurability n c ∧ chunk_committed d c = true ∧ 0 < healthy_copies d c < 12.
Proof.
  unfold CheckDurability. rewrite none_of_ok, nil_iff.
  assert (∀ c, 0 ≤ healthy_copies d c) as Hpos by (intros; unfold healthy_copies; lia).
  split; [split; intros H c|intros v (c&Hc&->)%none_of_err].
  - intros _. specialize (H c). rewrite elem_of_UnderHealthyChunks in H.
    specialize (Hpos c). unfold minHealthy in H. lia.
  - rewrite elem_of_UnderHealthyChunks. intros Hh. unfold minHealthy in Hh.
    assert (chunk_committed d c = true) as Hc by (apply healthy_committed; lia).
    specialize (H c Hc). lia.
  - apply elem_of_UnderHealthyChunks in Hc. eexists _, c. split; [done|].
    split; [|exact Hc]. apply healthy_committed. lia.
Qed.

(** ** Caps *)

(** The copies of one chunk respect the caps of the scheduler. *)
Definition spread (ns : list Node) : Prop :=
  NoDup (n_ID <$> ns) ∧ ∀ n, n ∈ ns →
    (n_Region n ≠ EmptyString → count_region (n_Region n) ns ≤ RegionCap) ∧
    (∀ a, n_ASN n = Some a → count_asn a ns ≤ ASNCap) ∧
    count_owner (n_OwnerID n) ns ≤ OwnerCap.

Definition copies_of (d : DB) (c : uuid) : list Node :=
  nodes_of_chunk (omap (cap_row d) (db_placements d)) c.

Lemma over_cap_false {K} `{EqDecision K} (key : Node → option K) cap ns :
  over_cap key cap ns = false ↔
  ∀ n k, n ∈ ns → key n = Some k →
    Z.of_nat (count_where (λ m, bool_decide (key m = Some k)) ns) ≤ cap.
Proof.
  unfold over_cap. rewrite <- not_true_iff_false, existsb_exists. split.
  - intros H n k Hn Hk. apply Z.nlt_ge. intros Hlt. apply H. exists n.
    split; [by apply list_elem_of_In|]. rewrite Hk. lia.
  - intros H (n&Hn%list_elem_of_In&Hk). destruct (key n) as [k|] eqn:E; [|done].
    specialize (H n k Hn E). lia.
Qed.

Lemma count_key_NoDup {A K} `{EqDecision K} (key : A → K) l :
  (∀ x, x ∈ l → (count_where (λ y, bool_decide (key y = key x)) l ≤ 1)%nat) ↔ NoDup (key <$> l).
Proof.
  induction l as [|x l IH].
  { split; [constructor|by intros _ ? ?%not_elem_of_nil]. }
  rewrite fmap_cons, NoDup_cons, <- IH, list_elem_of_fmap. split.
  - intros H. split.
    + intros (y&Hxy&Hy). specialize (H x ltac:(left)). rewrite count_where_cons in H.
      rewrite bool_decide_eq_true_2 in H by done.
      assert (count_where (λ z, bool_decide (key z = key x)) l = 0%nat) as H0 by lia.
      apply count_where_zero with (r := y) in H0; [|done]. by apply bool_decide_eq_false in H0.
    + intros y Hy. specialize (H y ltac:(by right)). rewrite count_where_cons in H. lia.
  - intros [Hx H] y Hy. rewrite count_where_cons. apply elem_of_cons in Hy as [->|Hy].
    + rewrite bool_decide_eq_true_2 by done.
      assert (count_where (λ z, bool_decide (key z = key x)) l = 0%nat) as ->; [|lia].
      apply count_where_zero. intros z Hz. apply bool_decide_eq_false. intros Heq. apply Hx. eauto.
    + rewrite bool_decide_eq_false_2 by (intros Heq; apply Hx; eauto). by apply H.
Qed.

Lemma count_where_ext_in {A} (p q : A → bool) l :
  (∀ x, p x = q x) → count_where p l = count_where q l.
Proof. intros H. unfold count_where. f_equal. apply list_filter_iff. intros x. by rewrite H. Qed.

Lemma caps_violated_spread ns :
  caps_violated RegionCap ASNCap OwnerCap ns = false ↔ spread ns.
Proof.
  unfold caps_violated, spread. rewrite !orb_false_iff, !over_cap_false, <- count_key_NoDup.
  assert (∀ r m, r ≠ EmptyString →
    bool_decide (region_key m = Some r) = bool_decide (n_Region m = r)) as Hr.
  { intros r m Hne. apply bool_decide_ext. unfold region_key. case_bool_decide; split; congruence. }
  split.
  - intros [[[Hn Hreg] Hasn] Hown]. split.
    + intros n Hin. specialize (Hn n _ Hin eq_refl).
      rewrite (count_where_ext_in _ (λ y, bool_decide (n_ID y = n_ID n))) in Hn; [lia|].
      intros x. apply bool_decide_ext. split; congruence.
    + intros n Hin. split_and!.
      * intros Hne. specialize (Hreg n (n_Region n) Hin).
        unfold count_region. rewrite (count_where_ext_in _ (λ m, bool_decide (region_key m = Some (n_Region n))));
          [|intros; by rewrite Hr]. apply Hreg. unfold region_key. by rewrite bool_decide_eq_false_2.
      * intros a Ha. apply (Hasn n a Hin Ha).
      * specialize (Hown n _ Hin eq_refl). unfold count_owner.
        rewrite (count_where_ext_in _ (λ m, bool_decide (Some (n_OwnerID m) = Some (n_OwnerID n)))); [done|].
        intros x. apply bool_decide_ext. split; congruence.
  - intros [Hn Hcaps]. split_and!.
    + intros n k Hin [= <-]. specialize (Hn n Hin).
      rewrite (count_where_ext_in _ (λ y, bool_decide (n_ID y = n_ID n))); [lia|].
      intros x. apply bool_decide_ext. split; congruence.
    + intros n k Hin Hk. unfold region_key in Hk. case_bool_decide as He; [done|]. injection Hk as <-.
      rewrite (count_where_ext_in _ (λ m, bool_decide (n_Region m = n_Region n))); [by apply Hcaps|].
      intros; by apply Hr.
    + intros n k Hin Hk. by apply (Hcaps n Hin).
    + intros n k Hin [= <-].
      rewrite (count_where_ext_in _ (λ m, bool_decide (n_OwnerID m = n_OwnerID n))); [by apply Hcaps|].
      intros x. apply bool_decide_ext. split; congruence.
Qed.

(** The cap check passes exactly when, for every chunk stored on at least
    ten different nodes, the stored copies are on distinct nodes and respect
    the scheduler's region, network and owner caps. *)
Theorem CheckCaps_spec d :
  CheckCaps d = Ok tt ↔
  ∀ c, (10 ≤ length (distinct (n_ID <$> copies_of d c)))%nat → spread (copies_of d c).
Proof.
  unfold CheckCaps. rewrite none_of_ok, nil_iff. unfold ChunkCapViolations, copies_of.
  set (rows := omap (cap_row d) (db_placements d)). split.
  - intros H c Hw. apply caps_violated_spread. specialize (H c).
    rewrite list_elem_of_filter, elem_of_distinct, andb_true_iff in H. unfold wide in H.
    destruct (caps_violated _ _ _ _) eqn:Hv; [|done]. exfalso. apply H. split_and!; [by apply Nat.leb_le|done|].
    unfold nodes_of_chunk in Hw. apply list_elem_of_fmap.
    destruct (filter (λ r, r.1 = c) rows) as [|r l] eqn:Hf; [simpl in Hw; lia|].
    assert (r ∈ filter (λ r, r.1 = c) rows) as [<- Hr]%list_elem_of_filter by (rewrite Hf; left).
    by exists r.
  - intros H c. rewrite list_elem_of_filter, andb_true_iff. intros [[Hw Hv] _].
    unfold wide in Hw. apply Nat.leb_le in Hw. apply H, caps_violated_spread in Hw. congruence.
Qed.

(** ** The books *)

Lemma LedgerUnbalancedTxns_nil d : LedgerUnbalancedTxns d = [] ↔ balanced d.
Proof.
  rewrite nil_iff. unfold LedgerUnbalancedTxns, balanced. split.
  - intros H txn. specialize (H txn). rewrite list_elem_of_filter, elem_of_distinct in H.
    destruct (decide (txn ∈ le_TxnID <$> db_entries d)) as [Hin|Hn].
    + destruct (decide (txn_sum txn (db_entries d) = 0)); tauto.
    + apply txn_sum_other. intros e He <-. apply Hn. by apply list_elem_of_fmap_2.
  - intros H txn [Hne _]%list_elem_of_filter. by apply Hne.
Qed.

Definition owner_types : list string := [OwnerCustomer; OwnerProvider; OwnerPlatform].

(** Every entry belongs to an account of a known owner type. *)
Definition accounted (d : DB) : Prop :=
  ∀ e, e ∈ db_entries d → ∃ k, owner_row d e = Some (k, le_Amount e) ∧ k ∈ owner_types.

Definition sum_of (rows : list (string * Z)) (k : string) : Z :=
  sumZ (snd <$> filter (λ r, r.1 = k) rows).

Lemma sum_of_types rows :
  (∀ r, r ∈ rows → r.1 ∈ owner_types) →
  sumZ (snd <$> rows) = sum_of rows OwnerCustomer + sum_of rows OwnerProvider + sum_of rows OwnerPlatform.
Proof.
  unfold sum_of. induction rows as [|[k v] rows IH]; intros H; [done|].
  rewrite !filter_cons, fmap_cons. simpl sumZ at 1. rewrite IH by (intros; apply H; by right).
  specialize (H (k, v) ltac:(left)). cbn [fst] in *. unfold owner_types in H.
  rewrite !elem_of_cons, elem_of_nil in H. destruct H as [->|[->|[->|[]]]];
    repeat (case_decide; try done); unfold sumZ; cbn; lia.
Qed.

Lemma accounted_rows d (es : list LedgerEntry) :
  (∀ e, e ∈ es → ∃ k, owner_row d e = Some (k, le_Amount e) ∧ k ∈ owner_types) →
  snd <$> omap (owner_row d) es = le_Amount <$> es ∧
  ∀ r, r ∈ omap (owner_row d) es → r.1 ∈ owner_types.
Proof.
  induction es as [|e es IH]; intros H; [by split; [|intros ? ?%not_elem_of_nil]|].
  destruct IH as [IH1 IH2]; [intros; apply H; by right|].
  destruct (H e ltac:(left)) as (k&Hk&Hty). cbn [omap list_omap]. rewrite Hk. cbn. rewrite IH1.
  split; [done|]. intros r [->|Hr]%elem_of_cons; [done|by apply IH2].
Qed.

(** The switch assigns every owner type its total, whatever the order. *)
Lemma totals_of f ks acc :
  NoDup ks → (∀ k, k ∈ ks → k ∈ owner_types) →
  totals ((λ k, (k, f k)) <$> ks) acc =
  let pick k old := if bool_decide (k ∈ ks) then f k else old in
  Ok (pick OwnerCustomer acc.1.1, pick OwnerProvider acc.1.2, pick OwnerPlatform acc.2).
Proof.
  intros Hnd. revert acc. induction Hnd as [|k ks Hk _ IH]; intros [[c p] pl] Hty; [done|].
  cbn [fmap list_fmap totals]. specialize (Hty k ltac:(left)) as Hk'.
  assert (∀ k, k ∈ ks → k ∈ owner_types) as Hks by (intros; apply Hty; by right).
  assert (∀ x, x ≠ k → bool_decide (x ∈ k :: ks) = bool_decide (x ∈ ks)) as Hskip.
  { intros x Hx. apply bool_decide_ext. rewrite elem_of_cons. tauto. }
  assert (bool_decide (k ∈ k :: ks) = true) as Hhit by (apply bool_decide_eq_true_2; left).
  assert (bool_decide (k ∈ ks) = false) as Hmiss by by apply bool_decide_eq_false_2.
  unfold owner_types in Hk'. rewrite !elem_of_cons, elem_of_nil in Hk'.
  destruct Hk' as [->|[->|[->|[]]]];
    repeat first [rewrite (bool_decide_eq_true_2 (_ = _)) by done
                 |rewrite (bool_decide_eq_false_2 (_ = _)) by done];
    rewrite IH by done; cbv zeta; cbn [fst snd]; by rewrite Hhit, Hmiss, !Hskip.
Qed.

Lemma owner_total_absent d k :
  k ∉ (omap (owner_row d) (db_entries d)).*1 → owner_total d k = 0.
Proof.
  intros H. unfold owner_total. rewrite filter_none; [done|].
  intros r Hr <-. apply H. by apply list_elem_of_fmap_2.
Qed.

Lemma ok_bind {E A B} (a : A) (k : A → result E B) : (Ok a ≫= k) = k a.
Proof. done. Qed.

Lemma LedgerTotals_fit d :
  (∀ k, int64_range (owner_total d k)) →
  LedgerTotalsByOwner d =
  Ok ((λ k, (k, owner_total d k)) <$> distinct ((omap (owner_row d) (db_entries d)).*1)).
Proof.
  intros H. unfold LedgerTotalsByOwner. induction (distinct _) as [|k ks IH]; [done|].
  cbn [mapM fmap list_fmap].
  assert (scan_int64 (owner_total d k) = Ok (owner_total d k)) as ->
    by (unfold scan_int64; by rewrite bool_decide_eq_true_2).
  rewrite ok_bind. by rewrite IH.
Qed.

(** The ledger check can only pass on balanced books; and on balanced books
    whose entries belong to known accounts and whose totals fit an int64, the
    double-entry comparisons never fire: the check fails exactly when the
    customers together are in credit, and otherwise is the comparison of usage
    events and receipts. *)
Theorem CheckLedger_spec now usage d :
  (CheckLedger now usage d = Ok tt → balanced d) ∧
  (balanced d → accounted d → (∀ k, int64_range (owner_total d k)) →
   CheckLedger now usage d =
   if 0 <? owner_total d OwnerCustomer then Err (VCustomerPositive (owner_total d OwnerCustomer))
   else CheckUsageReconcile now usage d).
Proof.
  split.
  { unfold CheckLedger. intros ([]&H&_)%bind_check. by apply none_of_ok, LedgerUnbalancedTxns_nil in H. }
  intros Hb Hacc Hfit. unfold CheckLedger.
  apply LedgerUnbalancedTxns_nil in Hb as Hnil. rewrite Hnil, LedgerTotals_fit by done.
  destruct (accounted_rows d (db_entries d) Hacc) as [Hrows Hty].
  set (ks := distinct _). cbn [none_of or_store]. rewrite !ok_bind.
  assert (totals ((λ k, (k, owner_total d k)) <$> ks) (0, 0, 0) =
    Ok (owner_total d OwnerCustomer, owner_total d OwnerProvider, owner_total d OwnerPlatform)) as ->.
  { rewrite totals_of; [|apply NoDup_distinct|].
    - cbn [fst snd]. do 2 f_equal; [f_equal|]; case_bool_decide as Hin; try done; symmetry;
        apply owner_total_absent; intros Hx; apply Hin; by apply elem_of_distinct.
    - intros k (r&->&Hr)%elem_of_distinct%list_elem_of_fmap. by apply Hty. }
  assert (owner_total d OwnerCustomer + owner_total d OwnerProvider + owner_total d OwnerPlatform = 0) as Hz.
  { rewrite <- (sum_by_txn _ Hb), <- Hrows. symmetry. by apply sum_of_types. }
  rewrite ok_bind. unfold add64, neg64. rewrite wrap_add_l, Hz. cbn [negb Z.eqb wrap_s64].
  case_if; [done|]. replace (owner_total d OwnerProvider + _) with (- owner_total d OwnerCustomer) by lia.
  by rewrite Z.eqb_refl.
Qed.

(** With the default floor a customer may upload only while in credit, and
    that credit is what the check reports. *)
Module Prepaid.
Definition user := Uuid 7.
Definition credit : store unit :=
  platform ← EnsureLedgerAccount OwnerPlatform None KindRevenue;
  acct ← EnsureLedgerAccount OwnerCustomer (Some user) KindBalance;
  PostAdjustment 0 (la_ID platform) (la_ID acct) 5000000 "top-up".
Definition d : DB := (credit db_empty).2.

Example uploads_but_alarms :
  (CheckQuota 0 user d).1 = Ok tt ∧ CheckLedger 0 [] d = Err (VCustomerPositive 5000000).
Proof. by vm_compute. Qed.
End Prepaid.

(** ** Needles *)

Definition occurs (n b : bytes) : Prop := ∃ l r, b = (l ++ n ++ r)%list.

Lemma prefix_of_spec p s : prefix_of p s = true ↔ ∃ r, s = p ++ r.
Proof.
  revert s. induction p as [|x p IH]; intros s; cbn; [split; eauto|].
  destruct s as [|y s]; [by split; [|intros (?&?)]|].
  rewrite andb_true_iff, bool_decide_eq_true, IH. split.
  - intros [-> [r ->]]. by exists r.
  - intros [r [= -> ->]]. eauto.
Qed.

Lemma contains_spec s p : contains s p = true ↔ occurs p s.
Proof.
  unfold occurs. induction s as [|y s IH]; cbn; rewrite orb_true_iff, prefix_of_spec.
  - split; [intros [[r Hr]|]; [by exists [], r|done]|].
    intros ([|]&r&Hr); [left; eauto|done].
  - rewrite IH. split.
    + intros [[r Hr]|(l&r&->)]; [by exists [], r|by exists (y :: l), r].
    + intros ([|z l]&r&Hr); [left; eauto|]. injection Hr as -> ->. right. eauto.
Qed.

Lemma scanBytes_ok name b ns :
  scanBytes name b ns = Ok tt ↔ ∀ n, n ∈ ns → n ≠ [] → ¬ occurs n b.
Proof.
  induction ns as [|n ns IH]; cbn; [split; [by intros _ ? ?%not_elem_of_nil|done]|].
  case_bool_decide as Hn; [|destruct (contains b n) eqn:Hc].
  - rewrite IH. split; intros H x; [intros [->|Hx]%elem_of_cons; [done|by apply H]|].
    intros Hx. apply H. by right.
  - apply contains_spec in Hc. split; [done|]. intros H. by destruct (H n ltac:(left) Hn).
  - rewrite IH. assert (¬ occurs n b) by (rewrite <- contains_spec; congruence).
    split; intros H' x; [intros [->|Hx]%elem_of_cons; [done|by apply H']|].
    intros Hx. apply H'. by right.
Qed.

Lemma scan_all_ok bs ns :
  scan_all bs ns = Ok tt ↔ ∀ f n, f ∈ bs → n ∈ ns → n ≠ [] → ¬ occurs n f.2.
Proof.
  induction bs as [|[name b] bs IH]; cbn [scan_all]; [split; [by intros _ ? ? ?%not_elem_of_nil|done]|].
  rewrite bind_check. split.
  - intros ([]&Hb&Hr) f n [->|Hf]%elem_of_cons; [|by apply IH].
    by apply (proj1 (scanBytes_ok _ _ _) Hb).
  - intros H. exists tt. rewrite scanBytes_ok, IH. split.
    + intros n. apply (H (name, b)). left.
    + intros f n Hf. apply H. by right.
Qed.

(** The zero-knowledge check passes exactly when no non-empty needle occurs
    in any of the blobs or files. *)
Theorem CheckZeroKnowledge_spec files blobs needles :
  CheckZeroKnowledge files blobs needles = Ok tt ↔
  ∀ n b, n ∈ needles → n ≠ [] → b ∈ (blobs ++ files.*2)%list → ¬ occurs n b.
Proof.
  assert (CheckZeroKnowledge files blobs needles = Ok tt ↔
    scan_all (pair "blob"%string <$> blobs) needles = Ok tt ∧ scan_all files needles = Ok tt) as ->.
  { unfold CheckZeroKnowledge. destruct needles as [|n ns].
    - rewrite !scan_all_ok. split; [|done]. by split; intros ? ? _ ?%not_elem_of_nil.
    - rewrite bind_check. split; [by intros ([]&?&?)|intros []; by exists tt]. }
  rewrite !scan_all_ok. split.
  - intros [Hb Hf] n b Hn Hne [Hin|(f&->&Hin)%list_elem_of_fmap]%elem_of_app; [|by apply Hf].
    apply (Hb ("blob"%string, b)); [|done..]. by apply list_elem_of_fmap_2.
  - intros H. split.
    + intros f n (b&->&Hb)%list_elem_of_fmap Hn Hne. apply H; [done..|]. apply elem_of_app. by left.
    + intros f n Hf Hn Hne. apply H; [done..|]. apply elem_of_app. right. by apply list_elem_of_fmap_2.
Qed.
