(* ===== verification/Reports.v ===== *)
(** * Reports on files, health and the books

    The read-only queries for operators and tests:
    [FileHolders] to [AnyChunkHealth] of [src/internal/store/repair.go], the
    lookups at the end of [src/internal/store/ledger.go], [FileByPath] of
    [src/internal/store/uploads.go]. *)

From S2P Require Import Prelude GoFloat Bytes Schema Nodes Placements Files Scheduler Ledger Invariants.

(** ** Who holds a file *)

(** The file of a committed chunk. *)
Definition committed_file (d : DB) (c : Chunk) : option uuid :=
  v ← version_by d (c_VersionID c);
  f ← file_by d (v_FileID v);
  if bool_decide (v_Status v = VCommitted) then Some (f_ID f) else None.

(** A stored copy of a committed file: its chunk and its node. *)
Definition holder_row (d : DB) (file : uuid) (p : Placement) : option (uuid * Node) :=
  if bool_decide (pl_Status p = PStored) then
    id ← chunk_of d p;
    c ← chunk_by d id;
    n ← node_by d (pl_NodeID p);
    if bool_decide (committed_file d c = Some file) then Some (c_ID c, n) else None
  else None.
Definition holder_rows (file : uuid) (d : DB) : list (uuid * Node) := omap (holder_row d file) (db_placements d).

Definition FileHolders (file : uuid) (d : DB) : list Node := distinct (holder_rows file d).*2.

(** The chunks that count: of any committed version of the file. *)
Definition file_chunks (file : uuid) (d : DB) : list Chunk :=
  filter (λ c, (v ← version_by d (c_VersionID c);
                if bool_decide (v_Status v = VCommitted) then Some (v_FileID v) else None) = Some file) (db_chunks d).
Definition chunks_held (file : uuid) (d : DB) (n : Node) : list uuid :=
  distinct (filter (λ r, n_ID r.2 = n_ID n) (holder_rows file d)).*1.
Definition FileHoldersEveryChunk (file : uuid) (d : DB) : list Node :=
  order_by (λ n, [uuid_key (n_ID n)])
    (filter (λ n, node_up n = true ∧ chunks_held file d n ≠ [] ∧
                  length (chunks_held file d n) = length (file_chunks file d)) (db_nodes d)).

(** Left joins: a chunk without a healthy copy has a row with zero. *)
Definition up_row (d : DB) (p : Placement) : option uuid :=
  if bool_decide (pl_Status p = PStored) then
    c ← chunk_of d p; n ← node_by d (pl_NodeID p); if node_up n then Some c else None
  else None.
Definition ChunkHealthByFile (file : uuid) (d : DB) : list (uuid * Z) :=
  let rows := omap (up_row d) (db_placements d) in
  (λ c, (c_ID c, Z.of_nat (count_id (c_ID c) rows))) <$>
    filter (λ c, committed_file d c = Some file ∧ c_ID c ∈ fr_ChunkID <$> db_fragments d) (db_chunks d).

(** [LIMIT 1]: the first in the order of the table. *)
Definition current_version (d : DB) (f : File) : option (File * FileVersion) :=
  if bool_decide (f_DeletedAt f = None) then
    id ← f_CurrentVersion f;
    v ← version_by d id;
    if bool_decide (v_Status v = VCommitted) then Some (f, v) else None
  else None.
Definition AnyCommittedSize (d : DB) : result store_error Z :=
  query_row (mapQueryErr PgNoRows) ((λ r, v_SizeBytes r.2) <$> omap (current_version d) (db_files d)).
Definition AnyCommittedFileID (d : DB) : result store_error uuid :=
  query_row (mapQueryErr PgNoRows) ((λ r, f_ID r.1) <$> omap (current_version d) (db_files d)).
Definition AnyCommittedHolders (d : DB) : result store_error (list Node) :=
  id ← AnyCommittedFileID d; Ok (FileHolders id d).
Definition AnyChunkHealth (d : DB) : result store_error (list (uuid * Z)) :=
  id ← AnyCommittedFileID d; Ok (ChunkHealthByFile id d).

(** Test helpers. *)
Definition ForceNodeLastSeen (id : uuid) (at_ : Z) : DB → DB :=
  upd_db_nodes (update_where (λ n, bool_decide (n_ID n = id)) (upd_n_LastSeenAt (λ _, Some at_))).
Definition ForceNodeStatus (id : uuid) (status : node_status) : DB → DB :=
  upd_db_nodes (update_where (λ n, bool_decide (n_ID n = id)) (upd_n_Status (λ _, status))).

Definition FileByPath (ownerID bucketID : uuid) (path : string) (d : DB) : result store_error File :=
  p ← NormalizePath path;
  query_row (mapQueryErr PgNoRows)
    (filter (λ f, f_BucketID f = bucketID ∧ f_Path f = p ∧ f_DeletedAt f = None ∧
                  b_OwnerID <$> bucket_by d bucketID = Some ownerID) (db_files d)).

(** ** The books *)

Definition type_total (d : DB) (k : string) : Z :=
  sumZ (le_Amount <$> filter (λ e, le_EntryType e = k) (db_entries d)).
Definition LedgerTotalsByType (d : DB) : result store_error (list (string * Z)) :=
  mapM (λ k, n ← scan_int64 (type_total d k); Ok (k, n)) (distinct (le_EntryType <$> db_entries d)).

Definition OwnerNodes : uuid → DB → list Node := ListNodesByOwner.
Definition ListLedgerAccounts (d : DB) : list LedgerAccount := db_accounts d.

(** No row is no traffic. *)
Definition NodeStatsWindowBytes (node : uuid) (window : Z) (d : DB) : Z * Z :=
  match head (filter (λ s, ns_NodeID s = node ∧ ns_WindowStart s = window) (db_node_stats d)) with
  | Some s => (ns_BytesServed s, ns_BytesIngested s)
  | None => (0, 0)
  end.

Definition StatementByAccount (acct : uuid) (start : Z) (d : DB) : result store_error Statement :=
  query_row (mapQueryErr PgNoRows) (filter (λ s, st_AccountID s = acct ∧ st_CycleStart s = start) (db_statements d)).

(** ** What the reports say *)

Lemma holder_row_spec d file p c n :
  holder_row d file p = Some (c, n) ↔
  pl_Status p = PStored ∧ node_by d (pl_NodeID p) = Some n ∧
  ∃ ch, chunk_of d p = Some c ∧ chunk_by d c = Some ch ∧ committed_file d ch = Some file.
Proof.
  unfold holder_row. split.
  - case_bool_decide as Hs; [|done]. destruct (chunk_of d p) as [id|]; [|done]. cbn.
    destruct (chunk_by d id) as [ch|] eqn:Hc; [|done]. cbn. destruct (node_by d _) as [n'|] eqn:Hn; [|done]. cbn.
    case_bool_decide as Hf; [|done]. intros [= <- <-].
    assert (c_ID ch = id) as -> by (by apply find_by_spec in Hc as [_ ?%bool_decide_eq_true]). eauto 10.
  - intros (Hs&Hn&ch&Hc&Hch&Hf). rewrite bool_decide_eq_true_2, Hc by done. cbn. rewrite Hch. cbn. rewrite Hn. cbn.
    rewrite bool_decide_eq_true_2 by done. do 2 f_equal. by apply find_by_spec in Hch as [_ ?%bool_decide_eq_true].
Qed.

Lemma elem_of_FileHolders file d n :
  n ∈ FileHolders file d ↔ ∃ p c, p ∈ db_placements d ∧ holder_row d file p = Some (c, n).
Proof.
  unfold FileHolders, holder_rows. rewrite elem_of_distinct, list_elem_of_fmap. split.
  - intros ([c n']&->&(p&Hp&Hr)%list_elem_of_omap). by exists p, c.
  - intros (p&c&Hp&Hr). exists (c, n). split; [done|]. apply list_elem_of_omap. by exists p.
Qed.

Lemma chunks_held_spec file d n c :
  c ∈ chunks_held file d n ↔
  ∃ p n', p ∈ db_placements d ∧ holder_row d file p = Some (c, n') ∧ n_ID n' = n_ID n.
Proof.
  unfold chunks_held, holder_rows. rewrite elem_of_distinct, list_elem_of_fmap. split.
  - intros ([c' n']&->&[Hn (p&Hp&Hr)%list_elem_of_omap]%list_elem_of_filter). by exists p, n'.
  - intros (p&n'&Hp&Hr&Hn). exists (c, n'). split; [done|]. apply list_elem_of_filter. split; [done|].
    apply list_elem_of_omap. by exists p.
Qed.

(** The nodes [FileHoldersEveryChunk] lists are up, and each holds a stored copy
    of every committed chunk of the file: taking any of them away takes a copy
    of every chunk. *)
Theorem FileHoldersEveryChunk_spec file d n c :
  NoDup (c_ID <$> db_chunks d) → n ∈ FileHoldersEveryChunk file d → c ∈ file_chunks file d →
  node_up n = true ∧ ∃ p, p ∈ db_placements d ∧ pl_Status p = PStored ∧ pl_NodeID p = n_ID n ∧ chunk_of d p = Some (c_ID c).
Proof.
  intros Hnd Hn Hc. unfold FileHoldersEveryChunk in Hn.
  apply elem_of_order_by, list_elem_of_filter in Hn as [(Hup&_&Hlen) _]. split; [done|].
  assert (NoDup (c_ID <$> file_chunks file d)) as Hfc.
  { unfold file_chunks. revert Hnd. clear. generalize (db_chunks d) as l.
    induction l as [|c l IH]; [done|]. rewrite fmap_cons, NoDup_cons. intros [Hc Hl]. rewrite filter_cons. case_decide; cbn; [|auto]. apply NoDup_cons. split; [|auto].
    intros (x&Hx&[_ Hin]%list_elem_of_filter)%list_elem_of_fmap. apply Hc. rewrite Hx. by apply list_elem_of_fmap_2. }
  assert (chunks_held file d n ≡ₚ c_ID <$> file_chunks file d) as Hperm.
  { apply submseteq_length_Permutation; [|by rewrite length_fmap, Hlen].
    apply NoDup_submseteq; [apply NoDup_distinct|]. intros id (p&n'&Hp&Hr&_)%chunks_held_spec.
    apply holder_row_spec in Hr as (_&_&ch&_&Hch&Hf). apply find_by_spec in Hch as [Hin Hid%bool_decide_eq_true].
    rewrite <- Hid. apply list_elem_of_fmap_2, list_elem_of_filter. split; [|done].
    unfold committed_file in Hf. destruct (version_by d _) as [v|]; [|done]. cbn in Hf |- *.
    destruct (file_by d _) as [f|] eqn:Hfile; [|done]. cbn in Hf. case_bool_decide; [|done].
    injection Hf as <-. by apply find_by_spec in Hfile as [_ ->%bool_decide_eq_true]. }
  assert (c_ID c ∈ chunks_held file d n) as Hin by (rewrite Hperm; by apply list_elem_of_fmap_2).
  apply chunks_held_spec in Hin as (p&n'&Hp&(Hs&Hnode&ch&Hch&_)%holder_row_spec&Heq).
  exists p. split_and!; try done. apply find_by_spec in Hnode as [_ Hid%bool_decide_eq_true]. congruence.
Qed.
