(* ===== verification/Seed.v ===== *)
(** * The fixture of a committed file

    [src/internal/store/seed.go]: twenty-four nodes of twelve owners in eight
    regions and networks, and one committed file of sixteen fragments, put into
    the database through the calls of the store.  The random parts of names are an
    argument.  On an empty database the checks of [Invariants] accept what it
    leaves. *)

From S2P Require Import Prelude GoFloat Bytes Schema Nodes Placements Files Uploads Accounts Tickets Url.
From S2P Require Import Scheduler Ledger Accrual Invariants.

Record SeededFleet := MkSeededFleet {
  sf_User : User; sf_Owners : list User; sf_Bucket : Bucket; sf_File : File; sf_Version : FileVersion;
  sf_Nodes : list Node; sf_Planned : PlannedUpload; sf_ChunkID : uuid; sf_PlaceIDs : list uuid }.

Definition seedRegions : list string :=
  r ← ["us-east"; "us-west"; "eu-west"; "eu-central"; "ap-south"; "ap-northeast"; "sa-east"; "af-south"]%string;
  replicate 3 r.

Definition bytes32seed (seed : nat) : bytes := replicate 32 (byte_of_Z (Z.of_nat seed)).
Definition decimal (n : nat) : string := unchars (Itoa (Z.of_nat n)).

(** [{"algo":"aes-256-gcm"}] *)
Definition default_meta : bytes :=
  let quoted s := Byte.x22 :: text s ++ [Byte.x22] in
  text "{" ++ quoted "algo"%string ++ text ":" ++ quoted "aes-256-gcm"%string ++ text "}".

Section seed.
Context (now : Z) (fresh : nat → string).    (* the clock; [uuid.NewString] *)

Definition seed_owner (i : nat) : registry User :=
  CreateUser_row now ("owner-" ++ decimal i ++ "-" ++ fresh (S i) ++ "@example.com") (text "hash").

Definition seed_node (owners : list User) (i : nat) : registry Node :=
  let owner := from_option us_ID uuid_nil (owners !! (i / 2)%nat) in
  n ← on_db (CreateNode now
    (MkCreateNodeParams uuid_nil owner (text (fresh (13 + i)%nat)) (bytes32seed (S i)) "pem" (now + 24 * hour)
       "" "linux" "test" "US" (default ""%string (seedRegions !! i)) (Some (64501 + Z.of_nat (i mod 8)))
       ("127.0.0.1:" ++ decimal (19000 + i)) (2 ^ 30)));
  on_db (TouchNodeStatus now (n_ID n) 0 (2 ^ 30)) ≫= λ _,
  on_db (NodeByID (n_ID n)).

Definition seed_manifest (bucket : uuid) (encMeta contentSHA : bytes) (sizeBytes : Z) : UploadManifest :=
  MkManifest bucket ("/f-" ++ fresh 37) sizeBytes contentSHA encMeta (16 * 1024 * 1024) 10 6
    [MkManifestChunk 0 sizeBytes contentSHA
       ((λ i, MkManifestFragment (Z.of_nat i) 32 (bytes32seed (i + 3))) <$> seq 0 16)].

Definition SeedCommittedFleet (encMeta contentSHA : bytes) (sizeBytes : Z) : registry SeededFleet :=
  let contentSHA := if (length contentSHA =? 32)%nat then contentSHA else bytes32seed 1 in
  let sizeBytes := if sizeBytes <=? 0 then 100 else sizeBytes in
  let encMeta := if bool_decide (encMeta = []) then default_meta else encMeta in
  u ← CreateUser_row now ("fleet-" ++ fresh 0 ++ "@example.com") (text "hash");
  others ← mapM seed_owner (seq 0 11);
  let owners := u :: others in
  b ← on_db (CreateBucket (us_ID u) ("b-" ++ String.substring 0 8 (fresh 12)));
  nodes ← mapM (seed_node owners) (seq 0 24);
  planned ← on_db (BeginUpload now (us_ID u) (seed_manifest (b_ID b) encMeta contentSHA sizeBytes));
  let pending := take 16 (pu_Pending planned) in
  let ids := (λ pf, fr_ID (pf_Fragment pf)) <$> pending in
  on_db (InsertPlacements (zip ids (n_ID <$> nodes))) ≫= λ _,
  '(f, v) ← on_db (CommitUpload now (us_ID u) (v_ID (pu_Version planned)) ids);
  mret (MkSeededFleet u owners b f v nodes planned
          (from_option (λ pf, c_ID (pf_Chunk pf)) uuid_nil (last pending)) ids).
End seed.

(** The fixture is what it says: twenty-four nodes online, sixteen healthy copies
    on distinct nodes within every cap, and no check complains. *)
Example seeded_fleet_sound :
  let '(s, r) := SeedCommittedFleet second decimal [] [] 200 registry_empty in
  match s with
  | Ok s =>
      length (sf_Nodes s) = 24%nat ∧ forallb node_up (sf_Nodes s) = true ∧
      v_Status (sf_Version s) = VCommitted ∧ healthy_copies (r_db r) (sf_ChunkID s) = 16 ∧
      bool_decide (NoDup (pl_NodeID <$> db_placements (r_db r))) = true ∧
      CheckDurability (r_db r) = Ok tt ∧ CheckCaps (r_db r) = Ok tt ∧ CheckLedger second [] (r_db r) = Ok tt
  | Err _ => False
  end.
Proof. vm_compute. by split_and!. Qed.
