(* ===== verification/Metadata.v ===== *)
(** * Uploads and downloads: [src/internal/metadata/upload.go], with the
      download tickets of [src/internal/store/lifecycle.go]

    The operations the gateway calls: planning an upload (place every fragment,
    hand out signed PUT tickets), committing it against the nodes' receipts,
    planning a download (GET tickets) and metering it.

    The scheduler and the quota check are reached through interfaces;
    [scheduler_placer] is the production scheduler.  [SignTicket] is the
    ticket signer with its entropy: the [i]-th ticket of a call draws
    [entropy i].  Logged errors are dropped.  A [map] that is only ranged over
    is ranged over in the order of [map_to_list]; the theorems do not depend on
    it. *)

From S2P Require Import Prelude GoFloat Bytes Schema Nodes World Placements Files Uploads Scheduler.
From S2P Require Import Health Apierr Ledger Tickets Receipts.

(** ** Interfaces *)

(** [Place func(ctx, []PlaceNeed) ([]PlaceAssign, error)]: placing leaves the
    database alone and answers only what was asked, each need at most once. *)
Class Placer := place : list Need → service (list Assignment).
Class PlacerLaws `{Placer} : Prop := {
  place_db needs w : w_db (place needs w).2 = w_db w;
  place_asked needs w out w' : place needs w = (Ok out, w') →
    as_FragmentID <$> out `sublist_of` nd_FragmentID <$> needs }.

Lemma sublist_map {A B} (f : A → B) l l' : l `sublist_of` l' → f <$> l `sublist_of` f <$> l'.
Proof. induction 1; cbn; by constructor. Qed.

Definition scheduler_placer (now ttl : Z) (draw : nat → option Z) : Placer :=
  λ needs, Place now ttl draw needs.

Lemma scheduler_placer_laws now ttl draw : @PlacerLaws (scheduler_placer now ttl draw).
Proof.
  split; unfold place, scheduler_placer, Place; intros needs w.
  - by destruct (fleet _ _ _).
  - intros out w'. destruct (fleet _ _ _) as [|n ns]; [done|]. intros [= <- _].
    rewrite <- list_fmap_compose.
    erewrite (list_fmap_ext _ (nd_FragmentID ∘ fst)) by (by intros ? [??] _).
    rewrite list_fmap_compose. apply sublist_map, place_loop_needs.
Qed.

(** ** Download tickets in the store *)

Definition InsertDownloadTicket (nonce : bytes) (file frag node : uuid) (size exp : Z) :
    store unit := λ d,
  if existsb (λ t, bool_decide (dt_Nonce t = nonce)) (db_download_tickets d) then (Ok tt, d)
  else if bool_decide (file_by d file = None) || bool_decide (fragment_by d frag = None) ||
          bool_decide (node_by d node = None) then (Err (mapQueryErr PgOther), d)
  else (Ok tt, upd_db_download_tickets (λ t, t ++ [MkDownloadTicket nonce file frag node size exp]) d).

(** The issued ticket with the public key of its node. *)
Definition DownloadTicketByNonce (owner file : uuid) (nonce : bytes) :
    store (DownloadTicket * bytes) := λ d,
  (query_row (mapQueryErr PgNoRows)
     (omap (λ t, f ← file_by d (dt_FileID t);
                 b ← bucket_by d (f_BucketID f);
                 n ← node_by d (dt_NodeID t);
                 if bool_decide (dt_Nonce t = nonce) && bool_decide (dt_FileID t = file) &&
                    bool_decide (b_OwnerID b = owner) then Some (t, n_PublicKey n) else None)
        (db_download_tickets d)), d).

Definition ConsumeDownloadReceipt (now : Z) (nonce : bytes) (file frag node : uuid) (n : Z) :
    store unit := λ d,
  if existsb (λ r, bool_decide (dr_Nonce r = nonce)) (db_download_receipts d)
  then (Err (mapQueryErr PgUniqueViolation), d)
  else if bool_decide (file_by d file = None) || bool_decide (fragment_by d frag = None) ||
          bool_decide (node_by d node = None) then (Err (mapQueryErr PgOther), d)
  else (Ok tt, upd_db_download_receipts (λ t, t ++ [MkDownloadReceipt nonce file frag node n now]) d).

(** ** Shared pieces *)

(** [return ErrInvalid], [return ErrUnavailable] *)
Definition ErrInvalid : error := InvalidErr.
Definition ErrUnavailable : error := StoreErr EUnavailable.

(** [writeErr]: [store.ErrInvalid] has no case. *)
Definition writeErr (e : error) : code :=
  match e with
  | InvalidErr => CodeInvalidRequest
  | StoreErr ENotFound => CodeNotFound
  | StoreErr EConflict => CodeAlreadyExists
  | StoreErr ENotEmpty | StoreErr EIncomplete => CodeConflict
  | StoreErr EUnavailable => CodePlacementUnavailable
  | QuotaErr => CodeQuotaExceeded
  | _ => CodeInternal
  end.

(** [if err != nil { return …, e }]: every error of [m] becomes [e]. *)
Definition or_err {A} (e : error) (m : service A) : service A := λ w,
  match m w with
  | (Ok a, w') => (Ok a, w')
  | (Err _, w') => (Err e, w')
  end.

(** [SignTicketFromSigner]: the wire ticket and its expiry. *)
Definition SignTicketFromSigner `{Ed25519} (priv : bytes) (now : Z) (entropy : option bytes)
    (op : bytes) (frag node : uuid) (sha : bytes) (maxBytes : Z) : result error (bytes * Z) :=
  match Tickets.Sign priv now entropy (MkTicket op frag node sha maxBytes time_zero [] []) with
  | Ok t => Ok (tk_Raw t, tk_ExpiresAt t)
  | Err _ => Err TicketErr
  end.

(** The quota check [cmd/metadata/main.go] installs. *)
Definition ledger_quota (floor : Z) (user : uuid) : service unit := λ w,
  match Ledger.CheckQuota floor user (w_db w) with
  | (Ok tt, d) => (Ok tt, upd_w_db (λ _, d) w)
  | (Err EQuota, d) => (Err QuotaErr, upd_w_db (λ _, d) w)
  | (Err e, d) => (Err (StoreErr e), upd_w_db (λ _, d) w)
  end.

Record PlannedPlacement := MkPP {
  pp_ChunkSeq : Z; pp_ShardIndex : Z; pp_FragmentID : uuid; pp_NodeID : uuid;
  pp_Endpoint : string; pp_Ticket : bytes }.
Record PlanResult := MkPlanResult {
  pr_UploadID : uuid; pr_FileID : uuid; pr_ExpiresAt : Z; pr_Placements : list PlannedPlacement }.

Definition MaxPlanFragments : Z := 10000.

Record DownloadFragment := MkDF {
  df_ShardIndex : Z; df_FragmentID : uuid; df_SHA256 : bytes; df_SizeBytes : Z;
  df_NodeID : uuid; df_Endpoint : string; df_Ticket : bytes }.
Record DownloadChunk := MkDChunk {
  dch_Seq : Z; dch_SHA256 : bytes; dch_SizeBytes : Z; dch_Fragments : list DownloadFragment }.
Record DownloadResult := MkDownload {
  dl_FileID : uuid; dl_VersionNo : Z; dl_SizeBytes : Z; dl_ContentSHA256 : bytes;
  dl_EncryptionMeta : bytes; dl_Chunks : list DownloadChunk }.

(** Copies on revoked or quarantined nodes are left out; online nodes come
    first, and others are added only when those are too few. *)
Definition pickDownloadPlacements (all : list DownloadPlacement) (need : Z) :
    list DownloadPlacement :=
  let usable := filter (λ p, n_RevokedAt (dp_Node p) = None ∧ n_Status (dp_Node p) ≠ NQuarantined) all in
  let online := filter (λ p, n_Status (dp_Node p) = NOnline) usable in
  let rest := filter (λ p, n_Status (dp_Node p) ≠ NOnline) usable in
  if need <=? Z.of_nat (length online) then online else online ++ rest.

Section service.
Context `{Ed25519, Placer} (priv : bytes) (now : Z) (entropy : nat → option bytes)
  (QuotaCheck : option (uuid → service unit)).

Definition SignTicket (i : nat) (op : bytes) (frag node : uuid) (sha : bytes) (maxBytes : Z) :
    service (bytes * Z) :=
  lift (SignTicketFromSigner priv now (entropy i) op frag node sha maxBytes).

Definition admit_user (user : uuid) : service unit :=
  match QuotaCheck with Some check => check user | None => mret tt end.

(** *** Planning an upload *)

Definition needs_of (pending : list PlannedFragment) : list Need :=
  omap (λ pf, match pf_Placement pf with
              | Some _ => None
              | None => Some (MkNeed (fr_ID (pf_Fragment pf)) (c_ID (pf_Chunk pf))
                                (fr_SizeBytes (pf_Fragment pf)))
              end) pending.

Definition assign (needs : list Need) : service (list Assignment) :=
  if bool_decide (needs = []) then mret []
  else
    assigns ← or_err ErrUnavailable (place needs);
    with_store (InsertPlacements ((λ a, (as_FragmentID a, n_ID (as_Node a))) <$> assigns)) ≫= λ _,
    mret assigns.

Definition assigned (assigns : list Assignment) : gmap uuid Node :=
  foldl (λ m a, <[as_FragmentID a := as_Node a]> m) ∅ assigns.

(** A fragment with a live placement keeps its node. *)
Definition keep_node (m : gmap uuid Node) (pf : PlannedFragment) : service (gmap uuid Node) :=
  match pf_Placement pf with
  | None => mret m
  | Some p => n ← with_store (NodeByID (pl_NodeID p)); mret (<[fr_ID (pf_Fragment pf) := n]> m)
  end.

Definition in_chunk (c : uuid) (pf : PlannedFragment) : bool := bool_decide (c_ID (pf_Chunk pf) = c).

Definition perChunk (pu : PlannedUpload) (byFrag : gmap uuid Node) (c : uuid) : nat :=
  count_where (in_chunk c) (pu_Stored pu) +
  count_where (λ pf, in_chunk c pf && bool_decide (is_Some (byFrag !! fr_ID (pf_Fragment pf))))
    (pu_Pending pu).

Definition plan_chunks (pu : PlannedUpload) : list uuid :=
  distinct ((λ pf, c_ID (pf_Chunk pf)) <$> (pu_Stored pu ++ pu_Pending pu)).

(** One PUT ticket; the accumulator is the list so far and the least expiry. *)
Definition plan_ticket (byFrag : gmap uuid Node) (acc : list PlannedPlacement * Z)
    (pf : PlannedFragment) : service (list PlannedPlacement * Z) :=
  let '(out, exp) := acc in
  match byFrag !! fr_ID (pf_Fragment pf) with
  | None => mret acc
  | Some n =>
      '(wire, until) ← SignTicket (length out) OpPut (fr_ID (pf_Fragment pf)) (n_ID n)
                         (fr_SHA256 (pf_Fragment pf)) (wrap_u64 (fr_SizeBytes (pf_Fragment pf)));
      let exp := if is_zero exp || (until <? exp) then until else exp in
      mret (out ++ [MkPP (pf_ChunkSeq pf) (pf_ShardIndex pf) (fr_ID (pf_Fragment pf)) (n_ID n)
                      (n_Endpoint n) wire], exp)
  end.

(** Everything between [BeginUpload] and [committed = true]. *)
Definition plan_body (pu : PlannedUpload) : service (list PlannedPlacement * Z) :=
  assigns ← assign (needs_of (pu_Pending pu));
  byFrag ← for_fold keep_node (assigned assigns) (pu_Pending pu);
  guard_err (existsb (λ c, (perChunk pu byFrag c <? CommitThreshold)%nat) (plan_chunks pu))
    ErrUnavailable ≫= λ _,
  '(out, exp) ← for_fold (plan_ticket byFrag) ([], time_zero) (pu_Pending pu);
  guard_err (MaxPlanFragments <? Z.of_nat (length out)) ErrInvalid ≫= λ _,
  mret (out, exp).

(** The deferred [AbortUpload] of a failed fresh plan. *)
Definition or_abort {A} (pu : PlannedUpload) (m : service A) : service A := λ w,
  match m w with
  | (Ok a, w') => (Ok a, w')
  | (Err e, w') =>
      (Err e, if pu_Resume pu then w' else upd_w_db (AbortUpload (v_ID (pu_Version pu))) w')
  end.

Definition PlanUpload (user : uuid) (m : UploadManifest) : service PlanResult :=
  admit_user user ≫= λ _,
  pu ← with_store (BeginUpload now user m);
  '(out, exp) ← or_abort pu (plan_body pu);
  ignore_err (with_store (InsertAudit now "user" (Some user) "ticket.batch" "file"
                            (Some (f_ID (pu_File pu))))) ≫= λ _,
  mret (MkPlanResult (v_ID (pu_Version pu)) (f_ID (pu_File pu)) exp out).

(** *** Committing *)

(** [byFrag]: the last target listed for each fragment. *)
Definition by_frag (targets : list PlacementTarget) : gmap uuid PlacementTarget :=
  foldl (λ m t, <[fr_ID (t_Fragment t) := t]> m) ∅ targets.

Definition receipt_of (wire : bytes) (t : PlacementTarget) : bool :=
  is_ok (Receipts.Verify wire (n_PublicKey (t_Node t)) (n_ID (t_Node t)) (fr_ID (t_Fragment t))
           (fr_SHA256 (t_Fragment t)) (wrap_u64 (fr_SizeBytes (t_Fragment t)))).

(** The first unseen target the receipt verifies for. *)
Definition match_receipt (byFrag : gmap uuid PlacementTarget) (seen : list uuid) (wire : bytes) :
    option PlacementTarget :=
  snd <$> head (filter (λ x, x.1 ∉ seen ∧ receipt_of wire x.2 = true) (map_to_list byFrag)).

(** Every wire must match; the result lists the matched targets in order. *)
Fixpoint match_all (byFrag : gmap uuid PlacementTarget) (seen : list uuid) (wires : list bytes) :
    result error (list PlacementTarget) :=
  match wires with
  | [] => Ok []
  | w :: wires =>
      match match_receipt byFrag seen w with
      | None => Err ErrInvalid
      | Some t =>
          ts ← match_all byFrag (fr_ID (t_Fragment t) :: seen) wires;
          Ok (t :: ts)
      end
  end.

Definition ingested (ts : list PlacementTarget) : gmap uuid Z :=
  foldl (λ m t, let n := n_ID (t_Node t) in
                <[n := add64 (default 0 (m !! n)) (fr_SizeBytes (t_Fragment t))]> m) ∅ ts.

Definition stored_target (t : PlacementTarget) : bool :=
  bool_decide (pl_Status (t_Placement t) = PStored).

Definition CommitUpload (user upload : uuid) (wires : list bytes) : service (File * FileVersion) :=
  targets ← gets (λ w, PendingTargetsForVersion upload (w_db w));
  let already := (λ t, fr_ID (t_Fragment t)) <$> filter (λ t, stored_target t = true) targets in
  ts ← lift (match_all (by_frag targets) already wires);
  '(f, v) ← with_store (Uploads.CommitUpload now user upload
                          (already ++ ((λ t, fr_ID (t_Fragment t)) <$> ts)));
  for_each (λ '(node, n), ignore_err (with_store (BumpNodeBytes now node n 0)))
    (map_to_list (ingested ts)) ≫= λ _,
  ignore_err (PublishUsage now (MkUsageEvent UsageStorage user now [] (v_SizeBytes v))) ≫= λ _,
  mret (f, v).

(** *** Downloading *)

(** One GET ticket, recorded under its nonce. *)
Definition download_ticket (f : File) (acc : list DownloadFragment * nat) (p : DownloadPlacement) :
    service (list DownloadFragment * nat) :=
  let '(out, total) := acc in
  let fr := dp_Fragment p in
  guard_err (MaxPlanFragments <=? Z.of_nat total) ErrInvalid ≫= λ _,
  '(wire, until) ← SignTicket total OpGet (fr_ID fr) (n_ID (dp_Node p)) (fr_SHA256 fr)
                     (wrap_u64 (fr_SizeBytes fr));
  match Tickets.Decode wire with
  | Ok tk => with_store (InsertDownloadTicket (tk_Nonce tk) (f_ID f) (fr_ID fr) (n_ID (dp_Node p))
                           (fr_SizeBytes fr) until)
  | Err _ => mret tt
  end ≫= λ _,
  mret (out ++ [MkDF (fr_ShardIndex fr) (fr_ID fr) (fr_SHA256 fr) (fr_SizeBytes fr)
                  (n_ID (dp_Node p)) (n_Endpoint (dp_Node p)) wire], S total).

Definition download_chunk (f : File) (need : Z) (acc : list DownloadChunk * nat)
    (ch : Uploads.DownloadChunk) : service (list DownloadChunk * nat) :=
  let '(out, total) := acc in
  let picked := pickDownloadPlacements (dc_Placements ch) need in
  guard_err (Z.of_nat (length picked) <? need) ErrUnavailable ≫= λ _,
  '(frs, total) ← for_fold (download_ticket f) ([], total) picked;
  let c := dc_Chunk ch in
  mret (out ++ [MkDChunk (c_Seq c) (c_SHA256 c) (c_SizeBytes c) frs], total).

Definition PlanDownload (user file : uuid) : service DownloadResult :=
  '(f, v, chunks) ← with_store (LoadDownload user file);
  let need := if v_ECDataShards v <=? 0 then 10 else v_ECDataShards v in
  '(out, _) ← for_fold (download_chunk f need) ([], O) chunks;
  mret (MkDownload (f_ID f) (v_VersionNo v) (v_SizeBytes v) (v_ContentSHA256 v)
          (v_EncryptionMeta v) out).

(** *** Metering a download *)

Record egressRec := MkEgress { eg_nonce : bytes; eg_node : uuid; eg_bytes : Z }.

(** One receipt: it must name a nonce issued to this user for this file, be
    signed by that ticket's node and agree with the ticket; recording it
    fails on a nonce already recorded. *)
Definition report_one (user file : uuid) (recs : list egressRec) (wire : bytes) :
    service (list egressRec) :=
  rec ← or_err ErrInvalid (lift (match ParseUnsigned wire with Ok r => Ok r | Err _ => Err InvalidErr end));
  guard_err (negb (length (rc_Nonce rec) =? 16)%nat) ErrInvalid ≫= λ _,
  guard_err (bool_decide (rc_Nonce rec ∈ eg_nonce <$> recs)) ErrInvalid ≫= λ _,
  '(t, pub) ← or_err ErrInvalid (with_store (DownloadTicketByNonce user file (rc_Nonce rec)));
  got ← or_err ErrInvalid (lift (match Receipts.Parse wire pub with Ok r => Ok r | Err _ => Err InvalidErr end));
  guard_err (negb (bool_decide (rc_NodeID got = dt_NodeID t)) ||
             negb (bool_decide (rc_FragmentID got = dt_FragmentID t))) ErrInvalid ≫= λ _,
  guard_err (negb (rc_Size got =? wrap_u64 (dt_SizeBytes t))) ErrInvalid ≫= λ _,
  or_err ErrInvalid (with_store (ConsumeDownloadReceipt now (rc_Nonce rec) file (dt_FragmentID t)
                                   (dt_NodeID t) (wrap_s64 (rc_Size got)))) ≫= λ _,
  mret (recs ++ [MkEgress (rc_Nonce rec) (dt_NodeID t) (wrap_s64 (rc_Size got))]).

Definition per_node (recs : list egressRec) : gmap uuid Z :=
  foldl (λ m r, <[eg_node r := add64 (default 0 (m !! eg_node r)) (eg_bytes r)]> m) ∅ recs.

Definition ReportDownload (user file : uuid) (wires : list bytes) : service unit :=
  with_store (FileByID user file) ≫= λ _,
  recs ← for_fold (report_one user file) [] wires;
  for_each (λ '(node, n), ignore_err (with_store (BumpNodeBytes now node 0 n)))
    (map_to_list (per_node recs)) ≫= λ _,
  for_each (λ r, ignore_err (PublishUsage now
              (MkUsageEvent UsageEgress user now (eg_nonce r) (eg_bytes r)))) recs.
End service.

(** ** Failing without a trace *)

(** From [s], [m] fails only with the state unchanged. *)
Definition atomic {S E A} (m : M S E A) (s : S) : Prop := ∀ e s', m s = (Err e, s') → s' = s.

Lemma atomic_read {S E A B} (m : M S E A) (k : A → M S E B) s :
  (m s).2 = s → (∀ a, atomic (k a) s) → atomic (m ≫= k) s.
Proof.
  intros Hm Hk e s'. unfold mbind, M_bind. destruct (m s) as [[a|e'] s1]; cbn in Hm; subst.
  - apply Hk.
  - by intros [= _ <-].
Qed.

Lemma atomic_write {S E A B} (m : M S E A) (f : A → B) s :
  atomic m s → atomic (m ≫= λ a, mret (f a)) s.
Proof.
  intros Hm e s'. unfold mbind, M_bind. destruct (m s) as [[a|e'] s1] eqn:Hs; [done|].
  intros [= _ <-]. by eapply Hm.
Qed.

Lemma or_err_state {A} e (m : service A) w : (or_err e m w).2 = (m w).2.
Proof. unfold or_err. by destruct (m w) as [[]]. Qed.

Lemma with_store_read {A} (m : store A) w : (m (w_db w)).2 = w_db w → (with_store m w).2 = w.
Proof. unfold with_store. destruct (m (w_db w)) as [[] d]; cbn; intros ->; by destruct w. Qed.

Lemma upd_w_db_same w : upd_w_db (λ _, w_db w) w = w.
Proof. by destruct w. Qed.

(** A loop of logged calls runs to its end. *)
Lemma for_each_logged {X} (g : X → service unit) xs w :
  (∀ x w, is_ok (g x w).1) → ∃ w', for_each g xs w = (Ok tt, w').
Proof.
  intros Hg. pose proof (for_each_total g xs w ltac:(intros; apply Hg)) as Ht.
  destruct (for_each g xs w) as [[[]|e] w']; [eauto|done].
Qed.

Lemma guard_state {S E} b (e : E) (s : S) : (guard_err b e s).2 = s.
Proof. by destruct b. Qed.

(** ** Metering: each ticket once *)

(** The tables a report reads. *)
Definition issued (w : World) :=
  (db_download_tickets (w_db w), db_files (w_db w), db_buckets (w_db w), db_nodes (w_db w)).

Section metering.
Context {ed : Ed25519}.

(** What a metered row stands for: a ticket issued to [user] for [file], and
    a receipt among [wires] signed by the ticket's node for exactly it. *)
Definition metered (user file : uuid) (wires : list bytes) (d : DB) (r : DownloadReceipt) : Prop :=
  ∃ t f b n wire got,
    t ∈ db_download_tickets d ∧ dt_Nonce t = dr_Nonce r ∧ dt_FileID t = file ∧
    file_by d file = Some f ∧ bucket_by d (f_BucketID f) = Some b ∧ b_OwnerID b = user ∧
    node_by d (dt_NodeID t) = Some n ∧ wire ∈ wires ∧
    Receipts.Parse wire (n_PublicKey n) = Ok got ∧ rc_Nonce got = dr_Nonce r ∧
    rc_NodeID got = dt_NodeID t ∧ rc_FragmentID got = dt_FragmentID t ∧
    rc_Size got = wrap_u64 (dt_SizeBytes t) ∧
    dr_FileID r = file ∧ dr_NodeID r = dt_NodeID t ∧ dr_FragmentID r = dt_FragmentID t ∧
    dr_Bytes r = wrap_s64 (dt_SizeBytes t).

(** The state between two receipts of a report that started in [w0]. *)
Definition reporting (user file : uuid) (wires : list bytes) (w0 w : World) (n : nat) : Prop :=
  issued w = issued w0 ∧
  ∃ new, db_download_receipts (w_db w) = db_download_receipts (w_db w0) ++ new ∧
    length new = n ∧ NoDup (dr_Nonce <$> new) ∧
    (∀ r, r ∈ new → dr_Nonce r ∉ dr_Nonce <$> db_download_receipts (w_db w0)) ∧
    ∀ r, r ∈ new → metered user file wires (w_db w0) r.

Lemma or_err_ok {A} e (m : service A) w a w' : or_err e m w = (Ok a, w') ↔ m w = (Ok a, w').
Proof using. unfold or_err. destruct (m w) as [[x|x] s]; split; intros [=]; by subst. Qed.

Lemma with_store_ok {A} (m : store A) w a w' :
  with_store m w = (Ok a, w') ↔ ∃ d, m (w_db w) = (Ok a, d) ∧ w' = upd_w_db (λ _, d) w.
Proof using.
  unfold with_store. destruct (m (w_db w)) as [[x|e] d]; split; try done.
  - intros [= -> <-]. eauto.
  - by intros (?&[= -> ->]&->).
  - by intros (?&[= ]&_).
Qed.

Lemma ParseUnsigned_Parse wire pub r got :
  ParseUnsigned wire = Ok r → Receipts.Parse wire pub = Ok got → rc_Nonce got = rc_Nonce r.
Proof.
  unfold ParseUnsigned, Receipts.Parse, mbind, result_bind, of_option.
  destruct (decodeWire wire) as [[p sig]|]; [|done].
  destruct (Receipts.decode p) as [x|]; [|done]. intros [= <-]. case_if; [done|]. by intros [= <-].
Qed.

Lemma DownloadTicketByNonce_ok user file nonce d t pub d' :
  DownloadTicketByNonce user file nonce d = (Ok (t, pub), d') →
  d' = d ∧ t ∈ db_download_tickets d ∧ dt_Nonce t = nonce ∧ dt_FileID t = file ∧
  ∃ f b n, file_by d file = Some f ∧ bucket_by d (f_BucketID f) = Some b ∧ b_OwnerID b = user ∧
    node_by d (dt_NodeID t) = Some n ∧ pub = n_PublicKey n.
Proof using.
  unfold DownloadTicketByNonce, query_row. intros [= H <-]. split; [done|].
  destruct (omap _ _) as [|x l] eqn:Ho; [done|]. cbn in H. injection H as ->.
  assert ((t, pub) ∈ omap (λ t, f ← file_by d (dt_FileID t); b ← bucket_by d (f_BucketID f);
    n ← node_by d (dt_NodeID t);
    if bool_decide (dt_Nonce t = nonce) && bool_decide (dt_FileID t = file) &&
       bool_decide (b_OwnerID b = user) then Some (t, n_PublicKey n) else None)
    (db_download_tickets d)) as (t0&Ht&Hrow)%list_elem_of_omap by (rewrite Ho; left).
  destruct (file_by d (dt_FileID t0)) as [f|] eqn:Hf; [|done]. cbn in Hrow.
  destruct (bucket_by d (f_BucketID f)) as [b|] eqn:Hb; [|done]. cbn in Hrow.
  destruct (node_by d (dt_NodeID t0)) as [n|] eqn:Hn; [|done]. cbn in Hrow.
  case_if_in Hrow; [|done]. injection Hrow as -> <-.
  rewrite !andb_true_iff, !bool_decide_eq_true in Eif. destruct Eif as [[? <-] ?].
  split_and!; try done. by exists f, b, n.
Qed.

Lemma ConsumeDownloadReceipt_ok now nonce file frag node n d d' :
  ConsumeDownloadReceipt now nonce file frag node n d = (Ok tt, d') →
  nonce ∉ dr_Nonce <$> db_download_receipts d ∧
  d' = upd_db_download_receipts (λ t, t ++ [MkDownloadReceipt nonce file frag node n now]) d.
Proof using.
  unfold ConsumeDownloadReceipt. destruct (existsb _ _) eqn:He; [done|]. case_if; [done|].
  intros [= <-]. split; [|done]. intros (r&->&Hr)%list_elem_of_fmap.
  apply not_true_iff_false in He. apply He, existsb_exists. exists r.
  split; [by apply list_elem_of_In|by apply bool_decide_eq_true_2].
Qed.

Lemma report_one_ok now user file recs wire w recs' w' :
  report_one now user file recs wire w = (Ok recs', w') →
  ∃ r, w' = upd_w_db (upd_db_download_receipts (λ t, t ++ [r])) w ∧
    recs' = recs ++ [MkEgress (dr_Nonce r) (dr_NodeID r) (dr_Bytes r)] ∧
    dr_Nonce r ∉ dr_Nonce <$> db_download_receipts (w_db w) ∧
    metered user file [wire] (w_db w) r.
Proof.
  unfold report_one. intros (rec&w1&Hrec&H)%bind_ok. apply or_err_ok in Hrec. injection Hrec as Hrec <-.
  destruct (ParseUnsigned wire) as [rec0|] eqn:Hpu; [|done]. injection Hrec as ->.
  apply bind_ok in H as ([]&w1&Hg&H). apply guard_ok in Hg as [_ ->].
  apply bind_ok in H as ([]&w1&Hg&H). apply guard_ok in Hg as [_ ->].
  apply bind_ok in H as ([t pub]&w1&Ht&H). apply or_err_ok, with_store_ok in Ht as (d1&Ht&->).
  apply DownloadTicketByNonce_ok in Ht as (->&Htin&Hnonce&Hfile&f&b&n&Hf&Hb&Hu&Hn&->).
  apply bind_ok in H as (got&w1&Hgot&H). apply or_err_ok in Hgot. injection Hgot as Hgot <-.
  destruct (Receipts.Parse wire (n_PublicKey n)) as [got0|] eqn:Hp; [|done]. injection Hgot as ->.
  apply bind_ok in H as ([]&w1&Hg&H). apply guard_ok in Hg as [Hids ->].
  apply bind_ok in H as ([]&w1&Hg&H). apply guard_ok in Hg as [Hsize%negb_false_iff%Z.eqb_eq ->].
  apply bind_ok in H as ([]&w1&Hc&H). apply or_err_ok, with_store_ok in Hc as (d2&Hc&->).
  apply ConsumeDownloadReceipt_ok in Hc as [Hfresh ->]. cbn [w_db upd_w_db] in *.
  injection H as <- <-.
  apply orb_false_iff in Hids as [H1%negb_false_iff%bool_decide_eq_true H2%negb_false_iff%bool_decide_eq_true].
  eexists (MkDownloadReceipt _ _ _ _ _ _). split_and!; [done|done|done|].
  exists t, f, b, n, wire, got. cbn [dr_Nonce dr_FileID dr_NodeID dr_FragmentID dr_Bytes].
  split_and!; try done; [by left|by eapply ParseUnsigned_Parse|by rewrite Hsize, wrap_s64_u64].
Qed.

(** Every check comes before the only write. *)
Lemma report_one_err now user file recs wire w e w' :
  report_one now user file recs wire w = (Err e, w') → w' = w.
Proof.
  revert e w'. change (atomic (report_one now user file recs wire) w). unfold report_one.
  apply atomic_read; [by rewrite or_err_state|]. intros rec.
  apply atomic_read; [apply guard_state|]. intros _.
  apply atomic_read; [apply guard_state|]. intros _.
  apply atomic_read; [rewrite or_err_state; by apply with_store_read|]. intros [t pub].
  apply atomic_read; [by rewrite or_err_state|]. intros got.
  apply atomic_read; [apply guard_state|]. intros _.
  apply atomic_read; [apply guard_state|]. intros _.
  apply (atomic_write _ (λ _, recs ++ [MkEgress _ _ _])). intros e w'.
  intros H. assert (w' = (or_err ErrInvalid (with_store (ConsumeDownloadReceipt now (rc_Nonce rec)
    file (dt_FragmentID t) (dt_NodeID t) (wrap_s64 (rc_Size got)))) w).2) as -> by by rewrite H.
  rewrite or_err_state. apply with_store_read.
  unfold or_err, with_store in H. revert H. unfold ConsumeDownloadReceipt.
  repeat case_if; by intros [=] || done.
Qed.

Lemma reporting_step user file wires w0 w k r wire :
  reporting user file wires w0 w k → wire ∈ wires →
  dr_Nonce r ∉ dr_Nonce <$> db_download_receipts (w_db w) →
  metered user file [wire] (w_db w) r →
  reporting user file wires w0 (upd_w_db (upd_db_download_receipts (λ t, t ++ [r])) w) (S k).
Proof.
  intros (Hi&new&Hnew&Hlen&Hnd&Hfr&Hm) Hw Hfresh Hr. split; [exact Hi|].
  cbn [w_db upd_w_db db_download_receipts upd_db_download_receipts].
  rewrite Hnew in *. rewrite fmap_app, elem_of_app in Hfresh.
  exists (new ++ [r]). rewrite app_assoc, length_app, fmap_app. split_and!; [done|cbn; lia| | |].
  - apply NoDup_app. split; [done|]. split; [|apply NoDup_singleton].
    intros x Hx ->%list_elem_of_singleton. tauto.
  - intros x [Hx| ->%list_elem_of_singleton]%elem_of_app; [by apply Hfr|tauto].
  - intros x [Hx| ->%list_elem_of_singleton]%elem_of_app; [by apply Hm|].
    destruct Hr as (t&f&b&n&wi&got&Ht&Hn&Hfile&Hf&Hb&Hu&Hnd'&Hwi&Hrest).
    injection Hi as Hi1 Hi2 Hi3 Hi4. exists t, f, b, n, wi, got.
    unfold file_by, bucket_by, node_by in *. rewrite <- Hi1, <- Hi2, <- Hi3, <- Hi4.
    apply list_elem_of_singleton in Hwi as ->. split_and!; try done; apply Hrest.
Qed.

Lemma report_fold now user file wires w0 ws recs w k :
  (∀ x, x ∈ ws → x ∈ wires) → reporting user file wires w0 w k →
  match for_fold (report_one now user file) recs ws w with
  | (Ok _, w') => reporting user file wires w0 w' (k + length ws)
  | (Err _, w') => ∃ j, (j < length ws)%nat ∧ reporting user file wires w0 w' (k + j)
  end.
Proof.
  revert recs w k. induction ws as [|x ws IH]; intros recs w k Hws Hw; cbn [for_fold].
  { cbn. by rewrite Nat.add_0_r. }
  unfold mbind, M_bind. destruct (report_one now user file recs x w) as [[recs'|e] w1] eqn:Hx.
  - apply report_one_ok in Hx as (r&->&_&Hfresh&Hm).
    assert (reporting user file wires w0 (upd_w_db (upd_db_download_receipts (λ t, t ++ [r])) w) (S k))
      as Hs by (eapply reporting_step; [done| |done..]; apply Hws; left).
    specialize (IH recs' _ (S k) (λ y Hy, Hws y ltac:(by right)) Hs).
    destruct (for_fold _ recs' ws _) as [[l|e] w2].
    + cbn [length]. by rewrite Nat.add_succ_r.
    + destruct IH as (j&Hj&Hr). exists (S j). cbn [length]. rewrite Nat.add_succ_r. split; [lia|done].
  - apply report_one_err in Hx as ->. exists 0%nat. rewrite Nat.add_0_r. cbn. split; [lia|done].
Qed.

(** What the calls after the loop leave alone. *)
Lemma bump_frame now' node i n :
  Frame (λ w, (issued w, db_download_receipts (w_db w)))
    (ignore_err (with_store (BumpNodeBytes now' node i n)) : service unit).
Proof.
  intros w. unfold ignore_err, with_store, BumpNodeBytes, upsert_stats. cbn [snd].
  repeat case_if; try case_decide; done.
Qed.

Lemma usage_frame now' ev :
  Frame (λ w, (issued w, db_download_receipts (w_db w))) (ignore_err (PublishUsage now' ev) : service unit).
Proof. intros w. unfold ignore_err, PublishUsage, publish. cbn [snd]. by case_if. Qed.

Lemma reporting_frame user file wires w0 w w' k :
  (issued w', db_download_receipts (w_db w')) = (issued w, db_download_receipts (w_db w)) →
  reporting user file wires w0 w k → reporting user file wires w0 w' k.
Proof. unfold reporting, issued. by intros [= -> -> -> -> ->]. Qed.

(** C14: A download is metered exactly for what the nodes signed: every row a
    report adds has a nonce never recorded before, belongs to a ticket that
    was issued to this user for this file, and comes with a receipt signed by
    that ticket's node for the ticket's fragment and size; a successful
    report adds one row per receipt, and a failed one fewer. *)
Theorem ReportDownload_spec now user file wires w :
  let '(r, w') := ReportDownload now user file wires w in
  ∃ n, reporting user file wires w w' n ∧ (n ≤ length wires)%nat ∧
    (is_ok r = true → n = length wires).
Proof.
  unfold ReportDownload, mbind at 1, M_bind at 1.
  assert (reporting user file wires w w 0) as H0.
  { split; [done|]. exists []. rewrite app_nil_r. split_and!; try done; [constructor|..];
      by intros ? ?%not_elem_of_nil. }
  destruct (with_store (FileByID user file) w) as [r1 w1] eqn:Hf.
  assert (w1 = w) as ->.
  { change w1 with (r1, w1).2. rewrite <- Hf. by apply with_store_read. }
  destruct r1 as [f|e]; [|exists 0%nat; split_and!; [exact H0|lia|done]].
  pose proof (report_fold now user file wires w wires [] w 0 ltac:(done) H0) as Hfold.
  unfold mbind at 1, M_bind at 1.
  destruct (for_fold (report_one now user file) [] wires w) as [[recs|e] w2].
  2: { destruct Hfold as (j&Hj&Hr). exists j. split_and!; [done|lia|done]. }
  set (k := _ ≫= _). assert (Frame (λ w, (issued w, db_download_receipts (w_db w))) k) as Hk.
  { apply frame_bind; [apply frame_for_each; intros []; apply bump_frame|].
    intros _. apply frame_for_each. intros x. apply usage_frame. }
  specialize (Hk w2). destruct (k w2) as [r w3]. exists (length wires).
  split_and!; [|done|done]. by eapply reporting_frame.
Qed.
End metering.

(** ** Committing against receipts *)

Lemma by_frag_lookup targets id t :
  by_frag targets !! id = Some t → t ∈ targets ∧ fr_ID (t_Fragment t) = id.
Proof.
  unfold by_frag. induction targets as [|x targets IH] using rev_ind; [done|].
  rewrite foldl_snoc, elem_of_app, list_elem_of_singleton.
  destruct (decide (fr_ID (t_Fragment x) = id)) as [<-|Hne].
  - rewrite lookup_insert_eq. intros [= ->]. auto.
  - rewrite lookup_insert_ne by done. intros [??]%IH. auto.
Qed.

Section committing.
Context {ed : Ed25519}.

Lemma match_receipt_some byFrag seen wire t :
  match_receipt byFrag seen wire = Some t →
  ∃ id, byFrag !! id = Some t ∧ id ∉ seen ∧ receipt_of wire t = true.
Proof.
  unfold match_receipt. destruct (filter _ _) as [|[id t'] l] eqn:Hf; [done|]. intros [= ->].
  assert ((id, t) ∈ filter (λ x, x.1 ∉ seen ∧ receipt_of wire x.2 = true) (map_to_list byFrag))
    as [[Hs Hr] Hin]%list_elem_of_filter by (rewrite Hf; left).
  exists id. by rewrite <- elem_of_map_to_list.
Qed.

(** Each receipt is signed by the node of its own target, and no fragment is
    confirmed twice or was confirmed before. *)
Lemma match_all_ok targets seen wires ts :
  match_all (by_frag targets) seen wires = Ok ts →
  Forall2 (λ wire t, t ∈ targets ∧ receipt_of wire t = true) wires ts ∧
  NoDup ((λ t, fr_ID (t_Fragment t)) <$> ts) ∧
  ∀ t, t ∈ ts → fr_ID (t_Fragment t) ∉ seen.
Proof.
  revert seen ts. induction wires as [|w wires IH]; intros seen ts; cbn [match_all].
  { intros [= <-]. split_and!; [constructor..|by intros ? ?%not_elem_of_nil]. }
  destruct (match_receipt (by_frag targets) seen w) as [t|] eqn:Hm; [|done].
  apply match_receipt_some in Hm as (id&[Ht <-]%by_frag_lookup&Hseen&Hr).
  destruct (match_all _ (_ :: seen) wires) as [ts'|] eqn:Ha; [|done]. intros [= <-].
  apply IH in Ha as (HF&Hnd&Hs). split_and!.
  - by constructor.
  - rewrite fmap_cons. constructor; [|done]. intros (t'&Heq&Ht')%list_elem_of_fmap.
    apply (Hs t' Ht'). rewrite <- Heq. left.
  - intros t' [->|Ht']%elem_of_cons; [done|]. intros Hin. apply (Hs t' Ht'). by right.
Qed.

(** [wire] is a receipt of the target: signed under its node's key, for its
    fragment with the hash and size the database has. *)
Definition receipted (wire : bytes) (t : PlacementTarget) : Prop :=
  ∃ r, Receipts.authentic wire (n_PublicKey (t_Node t)) (n_ID (t_Node t)) (fr_ID (t_Fragment t))
         (fr_SHA256 (t_Fragment t)) (wrap_u64 (fr_SizeBytes (t_Fragment t))) r.

Lemma receipt_of_ok wire t : receipt_of wire t = true → receipted wire t.
Proof.
  unfold receipt_of. destruct (Receipts.Verify _ _ _ _ _ _) as [r|] eqn:Hv; [|done].
  intros _. exists r. by apply Receipts.Verify_receipt_inv.
Qed.

Lemma receipts_ok (targets : list PlacementTarget) wires ts :
  Forall2 (λ wire t, t ∈ targets ∧ receipt_of wire t = true) wires ts →
  Forall2 (λ wire t, t ∈ targets ∧ receipted wire t) wires ts.
Proof. intros H. eapply Forall2_impl; [exact H|]. intros x t [? ?]. split; [done|by apply receipt_of_ok]. Qed.

(** [frag] has a copy in the upload that was stored before, or whose node
    signed one of the receipts. *)
Definition confirmed (upload : uuid) (wires : list bytes) (d : DB) (frag : uuid) : Prop :=
  ∃ t, t ∈ PendingTargetsForVersion upload d ∧ fr_ID (t_Fragment t) = frag ∧
    (stored_target t = true ∨ ∃ wire, wire ∈ wires ∧ receipted wire t).

(** What follows the store's commit leaves the placements alone. *)
Lemma bump_placements now node i n :
  Frame (λ w, db_placements (w_db w)) (ignore_err (with_store (BumpNodeBytes now node i n)) : service unit).
Proof.
  intros w. unfold ignore_err, with_store, BumpNodeBytes, upsert_stats. cbn [snd].
  repeat case_if; try case_decide; done.
Qed.
Lemma usage_placements now ev :
  Frame (λ w, db_placements (w_db w)) (ignore_err (PublishUsage now ev) : service unit).
Proof. intros w. unfold ignore_err, PublishUsage, publish. cbn [snd]. by case_if. Qed.

End committing.

(** ** Planning *)

Section planning.
Context {ed : Ed25519} (priv : bytes) (now : Z) (entropy : nat → option bytes).

(** A PUT ticket for [pf] on the node [n], as signed by this service. *)
Definition put_ticket (pf : PlannedFragment) (n : Node) (pp : PlannedPlacement) : Prop :=
  pp_FragmentID pp = fr_ID (pf_Fragment pf) ∧ pp_NodeID pp = n_ID n ∧ pp_Endpoint pp = n_Endpoint n ∧
  ∃ i s, Tickets.Sign priv now (entropy i)
      (MkTicket OpPut (fr_ID (pf_Fragment pf)) (n_ID n) (fr_SHA256 (pf_Fragment pf))
         (wrap_u64 (fr_SizeBytes (pf_Fragment pf))) time_zero [] []) = Ok s ∧ pp_Ticket pp = tk_Raw s.

Lemma plan_ticket_ok byFrag acc pf w acc' w' :
  plan_ticket priv now entropy byFrag acc pf w = (Ok acc', w') →
  w' = w ∧
  ∃ new, acc'.1 = acc.1 ++ new ∧
    match byFrag !! fr_ID (pf_Fragment pf) with
    | None => new = []
    | Some n => ∃ pp, new = [pp] ∧ put_ticket pf n pp
    end.
Proof.
  unfold plan_ticket. destruct acc as [out exp].
  destruct (byFrag !! _) as [n|].
  2: { intros [= <- <-]. split; [done|]. exists []. by rewrite app_nil_r. }
  intros ([wire until]&w1&Hs&H)%bind_ok. unfold SignTicket, lift in Hs. injection Hs as Hs <-.
  injection H as <- <-. split; [done|]. eexists [_]. split; [done|]. eexists. split; [done|].
  unfold SignTicketFromSigner in Hs.
  destruct (Tickets.Sign _ _ _ _) as [s|] eqn:Hsign; [|done]. injection Hs as <- _.
  split_and!; [done..|]. by exists (length out), s.
Qed.

Lemma plan_tickets_ok byFrag pfs acc w acc' w' :
  for_fold (plan_ticket priv now entropy byFrag) acc pfs w = (Ok acc', w') →
  w' = w ∧
  (∀ pf, pf ∈ pfs → is_Some (byFrag !! fr_ID (pf_Fragment pf)) →
     fr_ID (pf_Fragment pf) ∈ pp_FragmentID <$> acc'.1) ∧
  (∀ pp, pp ∈ acc.1 → pp ∈ acc'.1) ∧
  ∀ pp, pp ∈ acc'.1 → pp ∈ acc.1 ∨
    ∃ pf n, pf ∈ pfs ∧ byFrag !! fr_ID (pf_Fragment pf) = Some n ∧ put_ticket pf n pp.
Proof.
  revert acc w. induction pfs as [|pf pfs IH]; intros acc w; cbn [for_fold].
  { intros [= <- <-]. split_and!; auto. by intros ? ?%not_elem_of_nil. }
  intros (acc1&w1&Hx&H)%bind_ok. apply plan_ticket_ok in Hx as (->&new&Hnew&Hpf).
  apply IH in H as (->&Hcov&Hkeep&Hfrom). split; [done|]. split_and!.
  - intros x [->|Hx]%elem_of_cons Hs; [|by apply Hcov]. destruct Hs as [n Hn]. rewrite Hn in Hpf.
    destruct Hpf as (pp&->&<-&_). apply list_elem_of_fmap_2, Hkeep. rewrite Hnew.
    apply elem_of_app. right. left.
  - intros pp Hpp. apply Hkeep. rewrite Hnew. apply elem_of_app. by left.
  - intros pp [Hpp|(x&n&Hx&?)]%Hfrom; [|right; exists x, n; by split; [right|]].
    rewrite Hnew in Hpp. apply elem_of_app in Hpp as [Hpp|Hpp]; [by left|right].
    destruct (byFrag !! fr_ID (pf_Fragment pf)) as [n|] eqn:Hn;
      [|subst; by apply not_elem_of_nil in Hpp].
    destruct Hpf as (pp'&->&Hput). apply list_elem_of_singleton in Hpp as ->.
    exists pf, n. by split; [left|].
Qed.

Context {pl : Placer} {pl_laws : PlacerLaws} (QuotaCheck : option (uuid → service unit)).

(** There is a placement row of [frag] on [node]. *)
Definition backed (d : DB) (frag node : uuid) : Prop :=
  ∃ p, p ∈ db_placements d ∧ pl_FragmentID p = frag ∧ pl_NodeID p = node.

Lemma assigned_lookup assigns frag n :
  assigned assigns !! frag = Some n → (frag, n_ID n) ∈ (λ a, (as_FragmentID a, n_ID (as_Node a))) <$> assigns.
Proof using.
  unfold assigned. induction assigns as [|a assigns IH] using rev_ind; [done|].
  rewrite foldl_snoc, fmap_app, elem_of_app. destruct (decide (as_FragmentID a = frag)) as [<-|Hne].
  - rewrite lookup_insert_eq. intros [= <-]. right. left.
  - rewrite lookup_insert_ne by done. intros ?%IH. by left.
Qed.

Lemma assign_ok needs w assigns w' :
  assign needs w = (Ok assigns, w') →
  (∀ p, p ∈ db_placements (w_db w) → p ∈ db_placements (w_db w')) ∧
  ∀ frag n, assigned assigns !! frag = Some n → backed (w_db w') frag (n_ID n).
Proof using pl_laws.
  unfold assign. case_bool_decide as Hn; [by intros [= <- <-]|].
  intros (as1&w1&Hp&H)%bind_ok. apply or_err_ok in Hp.
  apply bind_ok in H as ([]&w2&Hi&H). injection H as <- <-.
  apply with_store_ok in Hi as (d2&Hi&->). apply InsertPlacements_rows in Hi as [Hk Hr].
  pose proof (place_db needs w) as Hdb. rewrite Hp in Hdb. cbn in Hdb. rewrite Hdb in Hk.
  split; [done|]. intros frag n Ha%assigned_lookup. apply Hr, Ha.
Qed.

Lemma keep_nodes_ok m pfs w m' w' :
  for_fold keep_node m pfs w = (Ok m', w') →
  w' = w ∧ ∀ frag n, m' !! frag = Some n → m !! frag = Some n ∨
    ∃ pf p, pf ∈ pfs ∧ pf_Placement pf = Some p ∧ fr_ID (pf_Fragment pf) = frag ∧ n_ID n = pl_NodeID p.
Proof using.
  revert m w. induction pfs as [|pf pfs IH]; intros m w; cbn [for_fold].
  { intros [= <- <-]. auto. }
  intros (m1&w1&Hx&H)%bind_ok. apply IH in H as [-> H]. unfold keep_node in Hx.
  destruct (pf_Placement pf) as [p|] eqn:Hp.
  - apply bind_ok in Hx as (n&w2&Hn&Hx). injection Hx as <- <-.
    apply with_store_ok in Hn as (d&Hn&->). unfold NodeByID, query_row in Hn. injection Hn as Hn <-.
    rewrite upd_w_db_same. split; [done|]. intros frag n' [Hm|(x&q&Hx&Hq)]%H.
    + destruct (decide (fr_ID (pf_Fragment pf) = frag)) as [<-|Hne];
        [|left; by rewrite lookup_insert_ne in Hm].
      rewrite lookup_insert_eq in Hm. injection Hm as <-. right. exists pf, p.
      split_and!; [left|done|done|]. destruct (filter _ _) as [|y l] eqn:Hf; [done|]. injection Hn as ->.
      assert (n ∈ filter (λ n, n_ID n = pl_NodeID p) (db_nodes (w_db w))) as [? _]%list_elem_of_filter;
        [rewrite Hf; left|done].
    + right. exists x, q. by split; [right|].
  - injection Hx as <- <-. split; [done|]. intros frag n [?|(x&q&Hx&Hq)]%H; [by left|right].
    exists x, q. by split; [right|].
Qed.

(** What the planner may rely on once [plan_body] has succeeded. *)
Lemma plan_body_ok pu w out exp w' :
  plan_body priv now entropy pu w = (Ok (out, exp), w') →
  (∀ pf p, pf ∈ pu_Pending pu → pf_Placement pf = Some p →
     p ∈ db_placements (w_db w) ∧ pl_FragmentID p = fr_ID (pf_Fragment pf)) →
  Z.of_nat (length out) ≤ MaxPlanFragments ∧
  (∀ c, c ∈ plan_chunks pu →
     (CommitThreshold ≤ count_where (in_chunk c) (pu_Stored pu) +
        count_where (λ pf, in_chunk c pf &&
          bool_decide (fr_ID (pf_Fragment pf) ∈ pp_FragmentID <$> out)) (pu_Pending pu))%nat) ∧
  ∀ pp, pp ∈ out → backed (w_db w') (pp_FragmentID pp) (pp_NodeID pp) ∧
    ∃ pf n, pf ∈ pu_Pending pu ∧ put_ticket pf n pp.
Proof using pl_laws.
  intros H Hrows. unfold plan_body in H. apply bind_ok in H as (as1&w1&Ha&H).
  apply assign_ok in Ha as [Hkeep Hback].
  apply bind_ok in H as (byFrag&w2&Hk&H). apply keep_nodes_ok in Hk as [-> Hbf].
  apply bind_ok in H as ([]&w2&Hg&H). apply guard_ok in Hg as [Hth ->].
  apply bind_ok in H as ([o e]&w2&Ht&H). apply plan_tickets_ok in Ht as (->&Hcov&_&Hfrom).
  apply bind_ok in H as ([]&w2&Hg&H). apply guard_ok in Hg as [Hmax ->].
  injection H as <- <- <-. cbn [fst] in *. split_and!.
  - lia.
  - intros c Hc. apply Nat.nlt_ge. intros Hlt.
    apply not_true_iff_false in Hth. apply Hth, existsb_exists. exists c.
    split; [by apply list_elem_of_In|]. apply Nat.ltb_lt. eapply Nat.le_lt_trans; [|exact Hlt].
    unfold perChunk. apply Nat.add_le_mono_l, count_where_le. intros pf Hpf.
    rewrite !andb_true_iff, !bool_decide_eq_true. intros [? ?]. split; [done|]. by apply Hcov.
  - intros pp [Hpp|(pf&n&Hpf&Hn&Hput)]%Hfrom; [by apply not_elem_of_nil in Hpp|]. split; [|eauto].
    destruct Hput as (->&->&_). apply Hbf in Hn as [Hn|(x&p&Hx&Hp&Hid&Hnode)]; [by apply Hback|].
    destruct (Hrows x p Hx Hp) as [Hin Hfr]. exists p. split_and!; [by apply Hkeep|congruence|done].
Qed.

(** A node accepts the ticket until the second it expires. *)
Lemma put_ticket_accepted {laws : Ed25519Laws} pf n pp t :
  put_ticket pf n pp → uuid_wf (pp_FragmentID pp) → uuid_wf (pp_NodeID pp) →
  int64_range (unix (now + DefaultTTL)) → t < unix (now + DefaultTTL) * second →
  ∃ tk, Tickets.Verify (ed_public priv) t (pp_Ticket pp) OpPut (pp_NodeID pp) (pp_FragmentID pp) = Ok tk ∧
    tk_SHA256 tk = fr_SHA256 (pf_Fragment pf) ∧ tk_MaxBytes tk = wrap_u64 (fr_SizeBytes (pf_Fragment pf)).
Proof using.
  intros (->&->&_&i&s&Hs&->) Hf Hn He Ht.
  assert (tk_ExpiresAt s = now + DefaultTTL) as Hexp.
  { revert Hs. unfold Tickets.Sign. repeat (case_if; [done|]). unfold mbind, result_bind.
    destruct (if _ : bool then _ else _) as [nonce|]; [|done]. case_if; [done|]. by intros [= <-]. }
  unfold Tickets.Verify. rewrite (Parse_signed _ _ _ _ _ t Hs) by (done || rewrite ?Hexp; done || apply wrap_u64_range).
  rewrite Hexp. replace (t <? _) with true by lia. unfold mbind, result_bind.
  cbn [tk_Op tk_NodeID tk_FragmentID]. rewrite !bool_decide_eq_true_2 by done. cbn [negb orb].
  eexists. split; [done|]. done.
Qed.

End planning.

(** ** Downloading *)

Lemma pick_usable all need p :
  p ∈ pickDownloadPlacements all need →
  p ∈ all ∧ n_RevokedAt (dp_Node p) = None ∧ n_Status (dp_Node p) ≠ NQuarantined ∧
  (need ≤ Z.of_nat (length (filter (λ p, n_Status (dp_Node p) = NOnline)
       (filter (λ p, n_RevokedAt (dp_Node p) = None ∧ n_Status (dp_Node p) ≠ NQuarantined) all))) →
   n_Status (dp_Node p) = NOnline).
Proof.
  unfold pickDownloadPlacements. set (usable := filter _ all). destruct (Z.leb_spec need
    (Z.of_nat (length (filter (λ p, n_Status (dp_Node p) = NOnline) usable)))) as [Hle|Hlt].
  - intros [Hon [[Hr Hq] Hin]%list_elem_of_filter]%list_elem_of_filter. by split_and!.
  - rewrite elem_of_app, !list_elem_of_filter. unfold usable. rewrite !list_elem_of_filter.
    intros H. split_and!; [tauto..|]. intros Hle. exfalso. by apply (Z.lt_irrefl need), (Z.le_lt_trans _ _ _ Hle).
Qed.

Section downloading.
Context {ed : Ed25519} (priv : bytes) (now : Z) (entropy : nat → option bytes).

Definition recorded (d : DB) (nonce : bytes) : Prop := nonce ∈ dt_Nonce <$> db_download_tickets d.

(** [df] sends the client to the copy [p] with a signed GET ticket, whose
    nonce can be metered. *)
Definition served (d : DB) (p : DownloadPlacement) (df : DownloadFragment) : Prop :=
  df_FragmentID df = fr_ID (dp_Fragment p) ∧ df_ShardIndex df = fr_ShardIndex (dp_Fragment p) ∧
  df_SHA256 df = fr_SHA256 (dp_Fragment p) ∧ df_NodeID df = n_ID (dp_Node p) ∧
  (∃ i s, Tickets.Sign priv now (entropy i)
     (MkTicket OpGet (fr_ID (dp_Fragment p)) (n_ID (dp_Node p)) (fr_SHA256 (dp_Fragment p))
        (wrap_u64 (fr_SizeBytes (dp_Fragment p))) time_zero [] []) = Ok s ∧ df_Ticket df = tk_Raw s) ∧
  ∀ tk, Tickets.Decode (df_Ticket df) = Ok tk → recorded d (tk_Nonce tk).

Lemma InsertDownloadTicket_ok nonce file frag node size exp d d' :
  InsertDownloadTicket nonce file frag node size exp d = (Ok tt, d') →
  recorded d' nonce ∧ ∀ x, recorded d x → recorded d' x.
Proof using.
  unfold InsertDownloadTicket, recorded. case_if.
  - intros [= <-]. split; [|done]. apply existsb_exists in Eif as (t&Ht&<-%bool_decide_eq_true).
    by apply list_elem_of_fmap_2, list_elem_of_In.
  - case_if; [done|]. intros [= <-]. cbn. setoid_rewrite fmap_app.
    split; [|intros x Hx]; apply elem_of_app; [right; left|by left].
Qed.

Lemma served_mono d d' p df :
  (∀ x, recorded d x → recorded d' x) → served d p df → served d' p df.
Proof. intros Hm (?&?&?&?&?&Hr). split_and!; auto. Qed.

Lemma download_ticket_ok f out total p w out' total' w' :
  download_ticket priv now entropy f (out, total) p w = (Ok (out', total'), w') →
  (∀ x, recorded (w_db w) x → recorded (w_db w') x) ∧
  ∃ df, out' = out ++ [df] ∧ served (w_db w') p df.
Proof.
  unfold download_ticket. intros ([]&w1&Hg&H)%bind_ok. apply guard_ok in Hg as [_ ->].
  apply bind_ok in H as ([wire until]&w1&Hs&H). unfold SignTicket, lift in Hs. injection Hs as Hs <-.
  unfold SignTicketFromSigner in Hs.
  destruct (Tickets.Sign _ _ _ _) as [s|] eqn:Hsign; [|done]. injection Hs as <- <-.
  apply bind_ok in H as ([]&w1&Hi&H). injection H as <- <- <-.
  set (df := MkDF _ _ _ _ _ _ _).
  assert ((∀ x, recorded (w_db w) x → recorded (w_db w1) x) ∧
    ∀ tk, Tickets.Decode (tk_Raw s) = Ok tk → recorded (w_db w1) (tk_Nonce tk)) as [Hmono Hrec].
  { destruct (Tickets.Decode (tk_Raw s)) as [tk|e].
    - apply with_store_ok in Hi as (d&Hi&->). apply InsertDownloadTicket_ok in Hi as [Hr Hm].
      split; [done|]. by intros ? [= <-].
    - injection Hi as <-. by split. }
  split; [done|]. exists df. split; [done|]. split_and!; try done. by exists total, s.
Qed.

Lemma download_tickets_ok f ps out total w out' total' w' :
  for_fold (download_ticket priv now entropy f) (out, total) ps w = (Ok (out', total'), w') →
  (∀ x, recorded (w_db w) x → recorded (w_db w') x) ∧
  ∃ new, out' = out ++ new ∧ Forall2 (served (w_db w')) ps new.
Proof.
  revert out total w. induction ps as [|p ps IH]; intros out total w; cbn [for_fold].
  { intros [= <- <- <-]. split; [done|]. exists []. by rewrite app_nil_r. }
  intros ([out1 total1]&w1&Hp&H)%bind_ok. apply download_ticket_ok in Hp as (Hm1&df&->&Hs).
  apply IH in H as (Hm2&new&->&HF). split; [auto|]. exists (df :: new).
  rewrite <- app_assoc. split; [done|]. constructor; [|done]. by eapply served_mono.
Qed.

(** The answer for one chunk: tickets for enough usable copies. *)
Definition chunk_served (d : DB) (need : Z) (ch : Uploads.DownloadChunk) (dc : DownloadChunk) : Prop :=
  dch_Seq dc = c_Seq (dc_Chunk ch) ∧ dch_SHA256 dc = c_SHA256 (dc_Chunk ch) ∧
  dch_SizeBytes dc = c_SizeBytes (dc_Chunk ch) ∧ need ≤ Z.of_nat (length (dch_Fragments dc)) ∧
  Forall2 (served d) (pickDownloadPlacements (dc_Placements ch) need) (dch_Fragments dc).

Lemma download_chunks_ok f need chs out total w out' total' w' :
  for_fold (download_chunk priv now entropy f need) (out, total) chs w = (Ok (out', total'), w') →
  (∀ x, recorded (w_db w) x → recorded (w_db w') x) ∧
  ∃ new, out' = out ++ new ∧ Forall2 (chunk_served (w_db w') need) chs new.
Proof.
  revert out total w. induction chs as [|ch chs IH]; intros out total w; cbn [for_fold].
  { intros [= <- <- <-]. split; [done|]. exists []. by rewrite app_nil_r. }
  intros ([out1 total1]&w1&Hp&H)%bind_ok. unfold download_chunk in Hp.
  apply bind_ok in Hp as ([]&w2&Hg&Hp). apply guard_ok in Hg as [Hlen ->].
  apply bind_ok in Hp as ([frs t2]&w2&Hf&Hp). injection Hp as <- <- <-.
  apply download_tickets_ok in Hf as (Hm1&new1&->&HF1). cbn [app] in *.
  apply IH in H as (Hm2&new&->&HF). split; [auto|]. eexists (_ :: new).
  rewrite <- app_assoc. split; [done|]. constructor; [|done]. split_and!; try done; cbn [dch_Fragments].
  - rewrite <- (Forall2_length _ _ _ HF1). apply Z.ltb_ge in Hlen. exact Hlen.
  - eapply Forall2_impl; [exact HF1|]. intros p df. by apply served_mono.
Qed.

Lemma PlanDownload_ok user file w res w' :
  PlanDownload priv now entropy user file w = (Ok res, w') →
  ∃ f v chunks, (LoadDownload user file (w_db w)).1 = Ok (f, v, chunks) ∧
    dl_FileID res = f_ID f ∧ dl_ContentSHA256 res = v_ContentSHA256 v ∧
    dl_EncryptionMeta res = v_EncryptionMeta v ∧
    Forall2 (chunk_served (w_db w') (if v_ECDataShards v <=? 0 then 10 else v_ECDataShards v))
      chunks (dl_Chunks res).
Proof.
  unfold PlanDownload. intros ([[f v] chunks]&w1&Hl&H)%bind_ok.
  apply with_store_ok in Hl as (d1&Hl&->).
  apply bind_ok in H as ([out total]&w2&Hc&H). injection H as <- <-.
  apply download_chunks_ok in Hc as (_&new&->&HF). exists f, v, chunks. by rewrite Hl.
Qed.

End downloading.

(** ** What the answers leave out

    A concrete service: one customer, one file of two chunks coded 1 of 2 with
    one shard each, on two nodes. *)
Module Scene.
#[local] Existing Instance ToyEd25519.scheme.
Definition user := Uuid 7.
Definition bucket := Uuid 8.
Definition file := Uuid 9.
Definition version := Uuid 10.
Definition key (b : Byte.byte) : bytes := repeat b 64.
Definition sha : bytes := repeat Byte.x05 32.
Definition node (i : N) (b : Byte.byte) : Node :=
  MkNode (Uuid i) (Uuid 11) [] (ed_public (key b)) "" None "" "" "" "" "" None "http://n" 100 0 NOnline
    F32.one 0 None None None None F32.zero F32.zero F32.zero F32.zero 0.
Definition frag (i c : N) (shard : Z) : Fragment := MkFragment (Uuid i) (Uuid c) shard 4 sha.
Definition copy (id : Z) (f n : N) (s : placement_status) : Placement :=
  MkPlacement id (Uuid f) (Uuid n) s None None None.
Definition db (ec : Z) (pls : list Placement) : DB :=
  upd_db_buckets (λ _, [MkBucket bucket user "b"])
    (upd_db_files (λ _, [MkFile file bucket "/f" false (Some version) FActive 0 0 None])
       (upd_db_versions (λ _, [MkFileVersion version file 1 8 sha [] 4 ec 1 VCommitted 0 (Some 0)])
          (upd_db_chunks (λ _, [MkChunk (Uuid 20) version 0 4 sha; MkChunk (Uuid 21) version 1 4 sha])
             (upd_db_fragments (λ _, [frag 30 20 0; frag 31 21 0])
                (upd_db_nodes (λ _, [node 1 Byte.x01; node 2 Byte.x02])
                   (upd_db_placements (λ _, pls) db_empty)))))).
Definition world (d : DB) : World := MkWorld d redis_empty (MkBus true []).
Definition entropy (i : nat) : option bytes := Some (repeat Byte.x00 15 ++ [byte_of_Z (Z.of_nat i)]).
Definition plan_download (d : DB) : result error DownloadResult :=
  (PlanDownload (key Byte.x09) 0 entropy user file (world d)).1.

(** The second chunk has no stored copy: the answer simply has one chunk. *)
Example missing_chunk_not_reported :
  match plan_download (db 1 [copy 1 30 1 PStored; copy 2 31 2 PLost]) with
  | Ok res => dch_Seq <$> dl_Chunks res = [0]
  | Err _ => False
  end.
Proof. by vm_compute. Qed.

(** Two copies of one shard pass for the two shards the code needs. *)
Example copies_are_not_shards :
  match plan_download (db 2 [copy 1 30 1 PStored; copy 2 30 2 PStored]) with
  | Ok res => (λ c, df_ShardIndex <$> dch_Fragments c) <$> dl_Chunks res = [[0; 0]]
  | Err _ => False
  end.
Proof. by vm_compute. Qed.

(** A malformed manifest is the store's [ErrInvalid], which the HTTP layer
    answers with an internal error. *)
Example bad_manifest_is_internal_error :
  match (@PlanUpload _ (λ _, mret []) (key Byte.x09) 0 entropy None user
           (MkManifest bucket "no-slash" 4 sha [] 4 10 6 []) (world (db 1 []))).1 with
  | Err e => e = StoreErr EInvalid ∧ Status (writeErr e) = 500
  | Ok _ => False
  end.
Proof. by vm_compute. Qed.

Definition nonce : bytes := repeat Byte.x07 16.
Definition receipt : bytes :=
  match SignEgress (key Byte.x01) (Uuid 1) (Uuid 30) sha 4 0 nonce with Ok r => rc_Raw r | Err _ => [] end.
Definition reporting_db : DB :=
  upd_db_download_tickets (λ _, [MkDownloadTicket nonce file (Uuid 30) (Uuid 1) 4 100])
    (db 1 [copy 1 30 1 PStored; copy 2 31 2 PStored]).

(** A commit sent again with the receipts of the first one: the fragments are
    stored, so the receipts match no open target. *)
Definition stored_receipt : bytes :=
  match Receipts.Sign (key Byte.x01) (Uuid 1) (Uuid 30) sha 4 0 with Ok r => rc_Raw r | Err _ => [] end.
Example recommit_refused :
  (CommitUpload 5 user version [stored_receipt] (world (db 1 [copy 1 30 1 PStored; copy 2 31 2 PStored]))).1 =
    Err ErrInvalid ∧
  is_ok (Uploads.CommitUpload 5 user version [] (db 1 [copy 1 30 1 PStored; copy 2 31 2 PStored])).1 = true.
Proof. by vm_compute. Qed.

(** One bad receipt fails the report, but those before it are consumed: the
    bytes are in the receipts the customer is charged by, never in the node's
    statistics, and the retry is refused. *)
Example partial_report :
  let '(r, w1) := ReportDownload 5 user file [receipt; []] (world reporting_db) in
  let '(r', w2) := ReportDownload 6 user file [receipt] w1 in
  r = Err ErrInvalid ∧ r' = Err ErrInvalid ∧
  dr_Bytes <$> db_download_receipts (w_db w2) = [4] ∧ db_node_stats (w_db w2) = [].
Proof. by vm_compute. Qed.
End Scene.
