(* ===== verification/Contents.v ===== *)
(** * What the database holds of an uploaded file

    The chunk and fragment rows of a version against its manifest: planning a
    new file writes exactly the rows the manifest asks for, committing leaves
    them alone, and a download plan is read from them. *)

From S2P Require Import Prelude GoFloat Bytes Schema Nodes World Placements Files Listings Uploads Scheduler.
From S2P Require Import Health Tickets Receipts Metadata.

(** ** Well-formed databases *)

(** The generator has not given out this id yet. *)
Definition below (d : DB) (u : uuid) : Prop := (uuid_n u < db_next_uuid d)%N.

(** A placement's node exists. *)
Definition hosted (d : DB) : Prop := ∀ p, p ∈ db_placements d → pl_NodeID p ∈ n_ID <$> db_nodes d.

(** Generated ids are new. *)
Record db_ok (d : DB) : Prop := {
  ok_file f : f ∈ db_files d → below d (f_ID f);
  ok_version v : v ∈ db_versions d → below d (v_ID v);
  ok_chunk c : c ∈ db_chunks d → below d (c_ID c) ∧ below d (c_VersionID c);
  ok_fragment fr : fr ∈ db_fragments d → below d (fr_ChunkID fr);
  ok_hosted : hosted d }.

Lemma below_mono d d' u : (db_next_uuid d ≤ db_next_uuid d')%N → below d u → below d' u.
Proof. unfold below. lia. Qed.

(** ** The rows of a version *)

Definition chunk_rows (d : DB) (v : uuid) : list Chunk := filter (λ c, c_VersionID c = v) (db_chunks d).
Definition fragment_rows (d : DB) (c : uuid) : list Fragment := filter (λ fr, fr_ChunkID fr = c) (db_fragments d).

Definition fragment_row (mf : ManifestFragment) (fr : Fragment) : Prop :=
  fr_ShardIndex fr = mf_ShardIndex mf ∧ fr_SizeBytes fr = mf_SizeBytes mf ∧ fr_SHA256 fr = mf_SHA256 mf.
Definition chunk_row (d : DB) (mc : ManifestChunk) (c : Chunk) : Prop :=
  c_Seq c = mc_Seq mc ∧ c_SizeBytes c = mc_SizeBytes mc ∧ c_SHA256 c = mc_SHA256 mc ∧
  mc_Fragments mc ≠ [] ∧ Forall2 fragment_row (mc_Fragments mc) (fragment_rows d (c_ID c)).
Definition rows_match (d : DB) (v : uuid) (chunks : list ManifestChunk) : Prop :=
  Forall2 (chunk_row d) chunks (chunk_rows d v).

(** The other tables a plan reads. *)
Definition rest (d : DB) := (db_files d, db_versions d, db_placements d, db_nodes d).

Lemma insert_chunk_ok v ch d c d' :
  insert_chunk v ch d = (Ok c, d') →
  c = MkChunk (Uuid (db_next_uuid d)) v (mc_Seq ch) (mc_SizeBytes ch) (mc_SHA256 ch) ∧
  d' = upd_db_chunks (λ t, t ++ [c]) (upd_db_next_uuid N.succ d).
Proof. unfold insert_chunk. cbn [gen_uuid]. case_if; [done|]. by intros [= <- <-]. Qed.

Lemma insert_fragments_ok c mfs d d' :
  for_each (insert_fragment c) mfs d = (Ok tt, d') →
  ∃ frs, db_fragments d' = db_fragments d ++ frs ∧ Forall2 fragment_row mfs frs ∧
    Forall (λ fr, fr_ChunkID fr = c) frs ∧ db_chunks d' = db_chunks d ∧
    (db_next_uuid d ≤ db_next_uuid d')%N ∧ rest d' = rest d.
Proof.
  revert d. induction mfs as [|mf mfs IH]; intros d; cbn [for_each].
  { intros [= <-]. exists []. rewrite app_nil_r. by split_and!. }
  intros ([]&d1&H1&H)%bind_ok. revert H1. unfold insert_fragment. cbn [gen_uuid]. case_if; [done|].
  intros [= <-]. apply IH in H as (frs&Hf&HF&Hall&Hc&Hn&Hr). cbn in Hf, Hc, Hn.
  eexists (_ :: frs). rewrite Hf, <- app_assoc. split_and!; [done| | |done|lia|exact Hr].
  - constructor; [|done]. by split_and!.
  - by constructor.
Qed.

Lemma fragment_rows_app d' d c frs :
  db_fragments d' = db_fragments d ++ frs →
  fragment_rows d' c = fragment_rows d c ++ filter (λ fr, fr_ChunkID fr = c) frs.
Proof. intros Hf. unfold fragment_rows. by rewrite Hf, filter_app. Qed.

Lemma filter_Forall {A} (P : A → Prop) `{∀ x, Decision (P x)} l : Forall P l → filter P l = l.
Proof. rewrite Forall_forall. apply filter_all. Qed.
Lemma filter_Forall_not {A} (P : A → Prop) `{∀ x, Decision (P x)} l : Forall (λ x, ¬ P x) l → filter P l = [].
Proof. rewrite Forall_forall. apply filter_none. Qed.

(** Inserting the chunks of a manifest appends one matching row for each; what
    was there keeps its fragments. *)
Lemma insert_chunks_ok v chs d d' :
  (∀ fr, fr ∈ db_fragments d → below d (fr_ChunkID fr)) →
  for_each (insert_manifest_chunk v) chs d = (Ok tt, d') →
  ∃ cs, db_chunks d' = db_chunks d ++ cs ∧ Forall2 (chunk_row d') chs cs ∧
    Forall (λ c, c_VersionID c = v) cs ∧ (db_next_uuid d ≤ db_next_uuid d')%N ∧
    Forall (λ c, below d' (c_ID c)) cs ∧
    (∀ fr, fr ∈ db_fragments d' → below d' (fr_ChunkID fr)) ∧
    (∀ c, below d c → fragment_rows d' c = fragment_rows d c) ∧ rest d' = rest d.
Proof.
  revert d. induction chs as [|ch chs IH]; intros d Hb; cbn [for_each].
  { intros [= <-]. exists []. rewrite app_nil_r. by split_and!. }
  intros ([]&d3&H1&H)%bind_ok. unfold insert_manifest_chunk in H1.
  apply bind_ok in H1 as (c&d1&Hc&H1). apply insert_chunk_ok in Hc as [Hc Hd1].
  apply bind_ok in H1 as ([]&d2&Hg&H1). apply guard_ok in Hg as [Hg ->]. apply bool_decide_eq_false in Hg.
  apply insert_fragments_ok in H1 as (frs&Hf&HF&Hall&Hcs&Hn&Hr).
  assert (c_ID c = Uuid (db_next_uuid d)) as Hid by by rewrite Hc.
  assert (db_fragments d1 = db_fragments d ∧ db_chunks d1 = db_chunks d ++ [c] ∧
          db_next_uuid d1 = N.succ (db_next_uuid d) ∧ rest d1 = rest d) as (Hf1&Hc1&Hn1&Hr1) by by rewrite Hd1.
  rewrite Hf1 in Hf. rewrite Hc1 in Hcs. rewrite Hn1 in Hn.
  assert (below d3 (c_ID c)) as Hbc by (rewrite Hid; unfold below; cbn; lia).
  assert (∀ fr, fr ∈ db_fragments d3 → below d3 (fr_ChunkID fr)) as Hb3.
  { rewrite Hf. intros fr [Hin|Hin]%elem_of_app.
    - eapply below_mono, Hb, Hin. lia.
    - rewrite Forall_forall in Hall. by rewrite (Hall fr Hin). }
  apply IH in H as (cs&Hc3&HF3&Hv3&Hn3&Hb4&Hb5&Hkeep&Hr3); [|done].
  exists (c :: cs). rewrite Hc3, Hcs, <- app_assoc. split_and!; [done| | |lia| |done| |congruence].
  - constructor; [|done]. split_and!; [by rewrite Hc..|done|].
    rewrite Hkeep by done. rewrite (fragment_rows_app _ _ _ _ Hf), (filter_Forall _ frs) by done.
    unfold fragment_rows. rewrite filter_Forall_not; [done|]. apply Forall_forall. intros fr Hin Heq.
    apply Hb in Hin. rewrite Heq, Hid in Hin. unfold below in Hin. cbn in Hin. lia.
  - constructor; [by rewrite Hc|done].
  - constructor; [|done]. by eapply below_mono, Hbc.
  - intros x Hx. rewrite Hkeep by (eapply below_mono, Hx; lia).
    rewrite (fragment_rows_app _ _ _ _ Hf), (filter_Forall_not _ frs), app_nil_r; [done|].
    eapply Forall_impl; [exact Hall|]. intros fr -> Heq. rewrite <- Heq, Hid in Hx.
    unfold below in Hx. cbn in Hx. lia.
Qed.

(** ** What an upload leaves *)

(** [v] is the one version of the one live file at the manifest's place. *)
Record holds (d : DB) (file v : uuid) (path : string) (m : UploadManifest) : Prop := {
  hd_only x : x ∈ db_files d → live_file_at (m_BucketID m) path x = true → f_ID x = file;
  hd_version w : w ∈ db_versions d → v_ID w = v →
    v_FileID w = file ∧ v_ContentSHA256 w = m_ContentSHA256 m ∧ v_EncryptionMeta w = m_EncryptionMeta m;
  hd_rows : rows_match d v (m_Chunks m);
  hd_below : below d v ∧ below d file }.

(** The tables [holds] reads. *)
Definition holds_tables (d : DB) := (db_files d, db_versions d, db_chunks d, db_fragments d, db_next_uuid d).

Lemma holds_tables_eq d d' file v path m : holds_tables d' = holds_tables d → holds d file v path m → holds d' file v path m.
Proof.
  unfold holds_tables. intros [= Hf Hv Hc Hfr Hn] [H1 H2 H3 H4]. split.
  - by rewrite Hf.
  - by rewrite Hv.
  - unfold rows_match, chunk_row, chunk_rows, fragment_rows in *. by rewrite Hc, Hfr.
  - unfold below in *. by rewrite Hn.
Qed.

(** Planning a file at a free path. *)
Lemma BeginUpload_new now owner m d pu d1 path :
  db_ok d → NormalizePath (m_Path m) = Ok path → existsb (live_file_at (m_BucketID m) path) (db_files d) = false →
  BeginUpload now owner m d = (Ok pu, d1) →
  holds d1 (f_ID (pu_File pu)) (v_ID (pu_Version pu)) path m ∧
  (∀ w, w ∈ db_versions d1 → v_ID w = v_ID (pu_Version pu) → v_Status w = VPending) ∧
  db_placements d1 = db_placements d ∧ db_nodes d1 = db_nodes d ∧ (db_next_uuid d ≤ db_next_uuid d1)%N.
Proof.
  intros Hok Hpath Hfree. unfold BeginUpload. rewrite Hpath.
  intros (p&d2&[= <- <-]&H)%bind_ok. apply bind_ok in H as (b&d2&Hb&H).
  assert (d2 = d) as -> by (unfold BucketByID in Hb; congruence).
  apply bind_ok in H as ([]&d2&Hg&H). apply guard_ok in Hg as [_ ->].
  rewrite transaction_ok in H. apply bind_ok in H as (found&d2&Hf&H). apply gets_ok in Hf as [-> ->].
  assert (find_by (live_file_at (m_BucketID m) path) (db_files d) = None) as Hnone.
  { destruct (find_by _ _) as [x|] eqn:Hx; [|done]. apply find_by_spec in Hx as [Hin Hl].
    exfalso. apply not_true_iff_false in Hfree. apply Hfree, existsb_exists. exists x.
    split; [by apply list_elem_of_In|done]. }
  rewrite Hnone in H. apply bind_ok in H as (f&d2&Hi&H). unfold insert_file in Hi. cbn [gen_uuid] in Hi.
  cbn [db_files upd_db_next_uuid] in Hi. rewrite Hfree in Hi. injection Hi as Hfe <-.
  unfold insert_plan in H. apply bind_ok in H as (v&d3&Hv&H). unfold insert_version in Hv.
  cbn [gen_uuid] in Hv. injection Hv as Hve <-.
  apply bind_ok in H as ([]&d4&Hc&H). apply gets_ok in H as [-> ->]. cbn [loadPlanned pu_File pu_Version].
  apply insert_chunks_ok in Hc as (cs&Hcs&HF&Hver&Hn&_&_&_&Hr).
  2:{ intros fr Hfr. eapply below_mono, (ok_fragment d Hok), Hfr. cbn. lia. }
  unfold rest in Hr. cbn in Hcs, Hn, Hr. injection Hr as Hfs Hvs Hps Hns.
  set (n := db_next_uuid d) in *.
  assert (f_ID f = Uuid n) as Hfid by by rewrite <- Hfe.
  assert (v_ID v = Uuid (N.succ n)) as Hvid by by rewrite <- Hve.
  split_and!; [split| |done|done|lia].
  - rewrite Hfs. intros x [Hx|[->|[]%elem_of_nil]%elem_of_cons]%elem_of_app; [|done].
    intros Hl. exfalso. apply not_true_iff_false in Hfree. apply Hfree, existsb_exists. exists x.
    split; [by apply list_elem_of_In|done].
  - rewrite Hvs. intros w [Hw|[->|[]%elem_of_nil]%elem_of_cons]%elem_of_app; [|by rewrite <- Hve].
    intros Heq. apply (ok_version d Hok) in Hw. rewrite Heq, Hvid in Hw. unfold below in Hw. cbn in Hw. lia.
  - unfold rows_match, chunk_rows. rewrite Hcs, filter_app, (filter_Forall_not _ (db_chunks d)), (filter_Forall _ cs); [done|done|].
    apply Forall_forall. intros c Hc Heq. apply (ok_chunk d Hok) in Hc as [_ Hc]. rewrite Heq, Hvid in Hc.
    unfold below in Hc. cbn in Hc. lia.
  - unfold below. rewrite Hfid, Hvid. cbn. lia.
  - rewrite Hvs. intros w [Hw|[->|[]%elem_of_nil]%elem_of_cons]%elem_of_app; [|by rewrite <- Hve].
    intros Heq. apply (ok_version d Hok) in Hw. rewrite Heq, Hvid in Hw. unfold below in Hw. cbn in Hw. lia.
Qed.

Lemma hosted_same d d' :
  db_placements d' = db_placements d → db_nodes d' = db_nodes d → hosted d → hosted d'.
Proof. intros Hp Hn Hh p. rewrite Hp, Hn. apply Hh. Qed.

Lemma InsertPlacements_content pairs d d' :
  InsertPlacements pairs d = (Ok tt, d') →
  holds_tables d' = holds_tables d ∧ (hosted d → hosted d').
Proof.
  revert d. unfold InsertPlacements. induction pairs as [|[frag node] pairs IH]; intros d; cbn [for_each].
  { by intros [= <-]. }
  intros ([]&d1&H1&H2)%bind_ok. apply IH in H2 as [Hc Hh].
  assert (holds_tables d1 = holds_tables d ∧ (hosted d → hosted d1)) as [Hc1 Hh1]; [|by split; [congruence|auto]].
  revert H1. unfold insert_placement. case_if; [by intros [= <-]|]. case_if; [done|]. intros [= <-].
  split; [done|]. intros Ho p [Hp|[->|[]%elem_of_nil]%elem_of_cons]%elem_of_app; [by apply Ho|].
  cbn. apply orb_false_iff in Eif0 as [_ Hn%bool_decide_eq_false].
  destruct (node_by d node) as [n|] eqn:Hnode; [|done]. apply find_by_spec in Hnode as [Hin Hid%bool_decide_eq_true].
  apply list_elem_of_fmap. by exists n.
Qed.

Section planning.
Context {ed : Ed25519} (priv : bytes) (now : Z) (entropy : nat → option bytes).
Context {pl : Placer} {pl_laws : PlacerLaws} (QuotaCheck : option (uuid → service unit)).

(** The quota check only looks. *)
Definition quota_reads : Prop := ∀ check user w, QuotaCheck = Some check → w_db (check user w).2 = w_db w.

Lemma assign_content needs w assigns w' :
  assign needs w = (Ok assigns, w') →
  holds_tables (w_db w') = holds_tables (w_db w) ∧ (hosted (w_db w) → hosted (w_db w')).
Proof using pl_laws.
  unfold assign. case_bool_decide as Hn; [by intros [= <- <-]|].
  intros (as1&w1&Hp&H)%bind_ok. apply or_err_ok in Hp.
  apply bind_ok in H as ([]&w2&Hi&H). injection H as <- <-.
  apply with_store_ok in Hi as (d2&Hi&->). apply InsertPlacements_content in Hi as [Hc Hh].
  pose proof (place_db needs w) as Hdb. rewrite Hp in Hdb. cbn in Hdb. rewrite Hdb in Hc, Hh. by split.
Qed.

Lemma plan_body_content pu w r w' :
  plan_body priv now entropy pu w = (Ok r, w') →
  holds_tables (w_db w') = holds_tables (w_db w) ∧ (hosted (w_db w) → hosted (w_db w')).
Proof using pl_laws.
  unfold plan_body. intros (as1&w1&Ha&H)%bind_ok. apply assign_content in Ha.
  apply bind_ok in H as (byFrag&w2&Hk&H). apply keep_nodes_ok in Hk as [-> _].
  apply bind_ok in H as ([]&w2&Hg&H). apply guard_ok in Hg as [_ ->].
  apply bind_ok in H as ([o e]&w2&Ht&H). apply plan_tickets_ok in Ht as (->&_).
  apply bind_ok in H as ([]&w2&Hg&H). apply guard_ok in Hg as [_ ->]. by injection H as _ <-.
Qed.

(** An answered plan for a free path: the database holds the manifest under the
    upload and the file it names. *)
Lemma PlanUpload_new user m w res w' path :
  quota_reads → db_ok (w_db w) → NormalizePath (m_Path m) = Ok path →
  existsb (live_file_at (m_BucketID m) path) (db_files (w_db w)) = false →
  PlanUpload priv now entropy QuotaCheck user m w = (Ok res, w') →
  holds (w_db w') (pr_FileID res) (pr_UploadID res) path m ∧ hosted (w_db w') ∧
  ∀ v, v ∈ db_versions (w_db w') → v_ID v = pr_UploadID res → v_Status v = VPending.
Proof using pl_laws.
  intros Hq Hok Hpath Hfree. unfold PlanUpload. intros ([]&w1&Ha&H)%bind_ok.
  assert (w_db w1 = w_db w) as Hw1.
  { unfold admit_user in Ha. destruct QuotaCheck as [check|] eqn:Hc; [|by injection Ha as <-].
    specialize (Hq check user w Hc). by rewrite Ha in Hq. }
  apply bind_ok in H as (pu&w2&Hb&H). apply with_store_ok in Hb as (d1&Hb&->). rewrite Hw1 in Hb.
  pose proof Hb as (Hh&Hp&Hpl&Hns&_)%(BeginUpload_new _ _ _ _ _ _ path); [|done..].
  apply bind_ok in H as ([out exp]&w3&Hbody&H). unfold or_abort in Hbody.
  destruct (plan_body _ _ _ pu _) as [[x|e] w4] eqn:Hrun; [|done]. injection Hbody as -> <-.
  apply plan_body_content in Hrun as [Hc Hho]. cbn [w_db upd_w_db] in Hc, Hho.
  apply bind_ok in H as ([]&w5&Hi&H). injection H as <- <-. injection Hi as <-.
  unfold with_store, InsertAudit, modify. cbn [snd w_db upd_w_db pr_FileID pr_UploadID].
  split_and!.
  - eapply holds_tables_eq, Hh. exact Hc.
  - intros p Hp'. cbn. apply Hho; [|exact Hp']. eapply hosted_same, (ok_hosted _ Hok); done.
  - injection Hc as _ Hv _ _ _. cbn. rewrite Hv. exact Hp.
Qed.
End planning.

(** ** Committing *)

(** [v] is the current version of its file, with every chunk stored. *)
Record current (d : DB) (file v : uuid) : Prop := {
  cu_file x : x ∈ db_files d → f_ID x = file → f_CurrentVersion x = Some v;
  cu_version w : w ∈ db_versions d → v_ID w = v → v_Status w = VCommitted;
  cu_stored c : c ∈ chunk_rows d v → fragment_rows d (c_ID c) ≠ [] → (0 < stored_copies d (c_ID c))%nat }.

(** Everything a download plan is read from. *)
Definition sources (d : DB) := (holds_tables d, db_placements d, db_nodes d, db_buckets d).

Lemma current_sources d d' file v : sources d' = sources d → current d file v → current d' file v.
Proof.
  unfold sources, holds_tables. intros [= Hf Hv Hc Hfr _ Hp _ _] [H1 H2 H3]. split.
  - by rewrite Hf.
  - by rewrite Hv.
  - unfold chunk_rows, fragment_rows in *. rewrite Hc, Hfr. intros c Hin Hne.
    rewrite (stored_copies_ext d d') by done. auto.
Qed.

Lemma bump_sources now node i n :
  Frame (λ w, sources (w_db w)) (ignore_err (with_store (BumpNodeBytes now node i n)) : service unit).
Proof.
  intros w. unfold ignore_err, with_store, BumpNodeBytes, upsert_stats. cbn [snd].
  repeat case_if; try case_decide; done.
Qed.
Lemma usage_sources now ev : Frame (λ w, sources (w_db w)) (ignore_err (PublishUsage now ev) : service unit).
Proof. intros w. unfold ignore_err, PublishUsage, publish. cbn [snd]. by case_if. Qed.

Lemma mark_committed_holds now stored file v path m d :
  let d' := mark_committed now v file (foldl (λ d fid, store_pending now fid d) d stored) in
  holds d file v path m → holds d' file v path m ∧ db_nodes d' = db_nodes d ∧
  (hosted d → hosted d').
Proof.
  intros d' [H1 H2 H3 H4]. set (d1 := foldl _ d stored) in *.
  assert (holds_tables d1 = holds_tables d ∧ db_nodes d1 = db_nodes d) as [Ht Hn].
  { unfold d1. clear. revert d. induction stored as [|fid stored IH]; intros d; [done|]. cbn [foldl].
    by destruct (IH (store_pending now fid d)) as [-> ->]. }
  injection Ht as Hf Hv Hc Hfr Hnx. split_and!; [split| |].
  - intros x (y&Hy&->)%elem_of_update_where Hl. cbn in Hy. rewrite Hf in Hy. apply H1 in Hy; [by case_if|].
    by case_if_in Hl.
  - intros x (y&Hy&->)%elem_of_update_where Hl. cbn in Hy. rewrite Hv in Hy. apply H2 in Hy; [by case_if|]. by case_if_in Hl.
  - unfold rows_match, chunk_row, chunk_rows, fragment_rows, d', mark_committed in *. cbn. by rewrite Hc, Hfr.
  - unfold below in *. unfold d', mark_committed. cbn. by rewrite Hnx.
  - done.
  - intros Hh p. unfold d', mark_committed. cbn [db_placements db_nodes upd_db_files upd_db_versions].
    rewrite Hn. unfold d1. rewrite store_all_update. intros (y&Hy&->)%elem_of_update_where.
    apply Hh in Hy. by case_if.
Qed.

Lemma store_commit_current now owner v stored file path m d f w d' :
  holds d file v path m → (∀ x, x ∈ db_versions d → v_ID x = v → v_Status x = VPending) → hosted d →
  Uploads.CommitUpload now owner v stored d = (Ok (f, w), d') →
  holds d' file v path m ∧ hosted d' ∧ current d' file v.
Proof.
  intros Hh Hp Hho. unfold Uploads.CommitUpload. rewrite transaction_ok.
  intros ([f0 v0]&d0&Hv&H)%bind_ok. apply VersionByID_ok in Hv as (->&Hver&Hfile&_).
  apply find_by_spec in Hver as [Hin Hid%bool_decide_eq_true]. apply find_by_spec in Hfile as [_ Hfid%bool_decide_eq_true].
  rewrite (Hp v0 Hin Hid) in H. destruct (hd_version _ _ _ _ _ Hh v0 Hin Hid) as (Hvf&_&_).
  rewrite Hvf in Hfid. rewrite Hfid in H. clear Hvf Hfid.
  m_ok. apply negb_false_iff, bool_decide_eq_true in Hg.
  destruct (mark_committed_holds now stored file (v_ID v0) path m d Hh) as (Hh'&_&Hho').
  split_and!; [done|by apply Hho'|]. split.
  - intros x (y&_&->)%elem_of_update_where Hx. case_if; [done|]. by rewrite bool_decide_eq_true_2 in Eif.
  - intros x (y&_&->)%elem_of_update_where Hx. case_if; [done|]. by rewrite bool_decide_eq_true_2 in Eif.
  - intros c [Hcv Hc]%list_elem_of_filter Hne.
    destruct (fragment_rows _ (c_ID c)) as [|fr l] eqn:Hfr; [done|].
    assert (fr ∈ fragment_rows (mark_committed now (v_ID v0) file
      (foldl (λ d fid, store_pending now fid d) d stored)) (c_ID c)) as [Hch Hin']%list_elem_of_filter
      by (rewrite Hfr; left).
    rewrite (stored_copies_ext (foldl (λ d fid, store_pending now fid d) d stored)) by done.
    eapply Nat.lt_le_trans, short_chunks_nil; [|exact Hg|exact Hc|done|exact Hin'|done].
    unfold CommitThreshold. lia.
Qed.

(** A commit against receipts is the store's commit, with meters. *)
Lemma CommitUpload_store {ed : Ed25519} now user v wires w r w' :
  CommitUpload now user v wires w = (Ok r, w') →
  ∃ stored f x d', Uploads.CommitUpload now user v stored (w_db w) = (Ok (f, x), d') ∧ sources (w_db w') = sources d'.
Proof.
  unfold CommitUpload. intros (targets&w1&Hg&H)%bind_ok. apply gets_ok in Hg as [-> ->].
  apply bind_ok in H as (ts&w1&Hm&H). injection Hm as Hm <-.
  apply bind_ok in H as ([f x]&w1&Hc&H). apply with_store_ok in Hc as (d'&Hc&->).
  apply bind_ok in H as ([]&w2&Hl&H). apply bind_ok in H as ([]&w3&Hu&H). injection H as _ <-.
  eexists _, f, x, d'. split; [exact Hc|].
  pose proof (usage_sources now (MkUsageEvent UsageStorage user now [] (v_SizeBytes x)) w2) as Hf.
  rewrite Hu in Hf. cbn [snd] in Hf. rewrite Hf.
  pose proof (frame_for_each (λ w, sources (w_db w)) (λ '(node, n),
    ignore_err (with_store (BumpNodeBytes now node n 0))) (map_to_list (ingested ts))) as Hall.
  specialize (Hall (λ y, match y with (a, b) => bump_sources now a b 0 end) (upd_w_db (λ _, d') w)).
  by rewrite Hl in Hall.
Qed.

Lemma CommitUpload_current {ed : Ed25519} now user v wires file path m w r w' :
  holds (w_db w) file v path m → (∀ x, x ∈ db_versions (w_db w) → v_ID x = v → v_Status x = VPending) →
  hosted (w_db w) → CommitUpload now user v wires w = (Ok r, w') →
  holds (w_db w') file v path m ∧ hosted (w_db w') ∧ current (w_db w') file v.
Proof.
  intros Hh Hp Hho (stored&f&x&d'&Hc&Hs)%CommitUpload_store.
  eapply store_commit_current in Hc as (Hh'&Hho'&Hcur); [|done..]. split_and!.
  - eapply holds_tables_eq, Hh'. exact (f_equal (λ x, x.1.1.1) Hs).
  - injection Hs as _ _ _ _ _ Hps Hns _. by eapply hosted_same.
  - by eapply current_sources.
Qed.

(** No id is generated by a commit. *)
Lemma CommitUpload_next {ed : Ed25519} now user v wires w r w' :
  CommitUpload now user v wires w = (Ok r, w') → db_next_uuid (w_db w') = db_next_uuid (w_db w).
Proof.
  intros (stored&f&x&d'&Hc&Hs)%CommitUpload_store. injection Hs as _ _ _ _ -> _ _ _.
  unfold Uploads.CommitUpload in Hc. rewrite transaction_ok in Hc.
  apply bind_ok in Hc as ([f0 v0]&d0&Hv&H). apply VersionByID_ok in Hv as (->&_).
  destruct (v_Status v0); [|by injection H as _ _ <-|done..]. m_ok. clear.
  unfold mark_committed. cbn [db_next_uuid upd_db_files upd_db_versions].
  generalize (w_db w). induction stored as [|fid stored IH]; intros d; [done|]. cbn [foldl]. by rewrite IH.
Qed.

(** ** Downloading *)

Lemma order_by_increasing {A} (key : A → Z) l :
  StronglySorted (λ x y, key x < key y) l → order_by (λ x, [key x]) l = l.
Proof.
  intros Hs. apply order_by_unique; [done| |].
  - intros x y Hx Hy [= Heq]. induction Hs as [|z l Hs IH Hall]; [by apply not_elem_of_nil in Hx|].
    rewrite Forall_forall in Hall.
    apply elem_of_cons in Hx as [->|Hx], Hy as [->|Hy]; [done| | |auto].
    + apply Hall in Hy. lia.
    + apply Hall in Hx. lia.
  - induction Hs as [|z l Hs IH Hall]; [constructor|]. constructor; [done|].
    eapply Forall_impl; [exact Hall|]. intros y Hy. unfold key_le. cbn.
    rewrite orb_true_iff, Z.ltb_lt. by left.
Qed.

Lemma StronglySorted_Forall2 {A B} (f : A → Z) (g : B → Z) l k :
  Forall2 (λ a b, g b = f a) l k → StronglySorted (λ x y, f x < f y) l → StronglySorted (λ x y, g x < g y) k.
Proof.
  induction 1 as [|a b l k Hab Hlk IH]; [constructor|]. intros Hs. inversion Hs as [|? ? Hs' Hall]. subst.
  constructor; [auto|]. rewrite Forall_forall in Hall. apply Forall_forall. intros y (i&Hi)%list_elem_of_lookup.
  destruct (Forall2_lookup_r _ _ _ _ _ Hlk Hi) as (x&Hx&->). rewrite Hab. by apply Hall, (list_elem_of_lookup_2 _ i).
Qed.

(** A chunk with a stored copy has a placement to offer. *)
Lemma stored_chunk_offered d c :
  hosted d → (0 < stored_copies d (c_ID c))%nat → dc_Placements (Uploads.download_chunk d c) ≠ [].
Proof.
  intros Hho Hst Hnil. assert (stored_copies d (c_ID c) = 0%nat); [|lia].
  apply count_where_zero. intros p Hp. apply not_true_is_false. intros Hin.
  unfold stored_in in Hin. apply andb_true_iff in Hin as [Hc%bool_decide_eq_true Hs%bool_decide_eq_true].
  unfold chunk_of in Hc. destruct (fragment_by d (pl_FragmentID p)) as [fr|] eqn:Hfr; [|done].
  injection Hc as Hc. apply find_by_spec in Hfr as [Hfr Hid%bool_decide_eq_true].
  assert (∃ n, node_by d (pl_NodeID p) = Some n) as [n Hn].
  { apply Hho, list_elem_of_fmap in Hp as (n&Hid'&Hn). destruct (node_by d (pl_NodeID p)) as [n'|] eqn:E; [by exists n'|].
    eapply find_by_none in E; [|exact Hn]. by rewrite bool_decide_eq_true_2 in E. }
  apply (not_elem_of_nil (MkDP fr n)). rewrite <- Hnil. cbn [Uploads.download_chunk dc_Placements].
  apply list_elem_of_bind. exists fr. split.
  - apply list_elem_of_omap. exists p. rewrite Hn. split; [|done]. by apply list_elem_of_filter.
  - apply elem_of_order_by, list_elem_of_filter. by split.
Qed.

Lemma offered_fragment d c p :
  p ∈ dc_Placements (Uploads.download_chunk d c) → dp_Fragment p ∈ fragment_rows d (c_ID c).
Proof.
  cbn [Uploads.download_chunk dc_Placements]. intros (fr&Hp&Hfr)%list_elem_of_bind.
  apply list_elem_of_omap in Hp as (pl&_&Hp). destruct (node_by d (pl_NodeID pl)); [|done]. injection Hp as <-.
  by apply elem_of_order_by in Hfr.
Qed.

(** The chunks a download lists are the version's, in order. *)
Lemma LoadDownload_current owner d file v path m f w chunks :
  holds d file v path m → hosted d → current d file v →
  StronglySorted (λ x y, mc_Seq x < mc_Seq y) (m_Chunks m) →
  (LoadDownload owner file d).1 = Ok (f, w, chunks) →
  v_ContentSHA256 w = m_ContentSHA256 m ∧ v_EncryptionMeta w = m_EncryptionMeta m ∧
  chunks = Uploads.download_chunk d <$> chunk_rows d v.
Proof.
  intros Hh Hho Hcur Hsort Hl. destruct (LoadDownload owner file d) as [r d'] eqn:Hrun. cbn in Hl. subst r.
  unfold LoadDownload in Hrun. apply bind_ok in Hrun as (f0&d0&Hf&H). apply FileByID_ok in Hf as (->&Hin&Hid&_).
  rewrite (cu_file _ _ _ Hcur f0 Hin Hid) in H. apply bind_ok in H as (w0&d0&Hv&H).
  unfold action, query_row in Hv. injection Hv as Hv <-.
  destruct (filter _ (db_versions d)) as [|w1 ws] eqn:Hws; [done|]. injection Hv as ->.
  assert (w0 ∈ db_versions d ∧ v_ID w0 = v) as [Hw Hwid].
  { assert (w0 ∈ filter (λ x, v_ID x = v ∧ v_Status x = VCommitted) (db_versions d)) as Hx by (rewrite Hws; left).
    apply list_elem_of_filter in Hx. tauto. }
  destruct (hd_version _ _ _ _ _ Hh w0 Hw Hwid) as (_&Hsha&Hmeta).
  apply bind_ok in H as (cs&d0&Hc&H). apply gets_ok in Hc as [-> ->]. injection H as <- <- <-. rewrite Hwid.
  split_and!; [done..|]. pose proof (hd_rows _ _ _ _ _ Hh) as Hrows. unfold rows_match in Hrows.
  fold (chunk_rows d v). rewrite order_by_increasing.
  - apply filter_Forall, Forall_fmap, Forall_forall. intros c Hc. cbn. apply stored_chunk_offered; [done|].
    apply (cu_stored _ _ _ Hcur c Hc). apply list_elem_of_lookup in Hc as [i Hi].
    destruct (Forall2_lookup_r _ _ _ _ _ Hrows Hi) as (mc&_&_&_&_&Hne&HF).
    intros Hnil. rewrite Hnil in HF. by apply Forall2_nil_inv_r in HF.
  - eapply StronglySorted_Forall2, Hsort. eapply Forall2_impl; [exact Hrows|]. by intros mc c [? _].
Qed.

(** A download entry for a chunk of the manifest: its hash and size, and
    fragments that are fragments of it. *)
Definition offers (mc : ManifestChunk) (dch : DownloadChunk) : Prop :=
  dch_SHA256 dch = mc_SHA256 mc ∧ dch_SizeBytes dch = mc_SizeBytes mc ∧
  ∀ df, df ∈ dch_Fragments dch → ∃ mf, mf ∈ mc_Fragments mc ∧
    df_ShardIndex df = mf_ShardIndex mf ∧ df_SHA256 df = mf_SHA256 mf.

(** A download plan of a current file is one of its manifest. *)
Lemma PlanDownload_offers {ed : Ed25519} priv now entropy user file v path m w res w' :
  holds (w_db w) file v path m → hosted (w_db w) → current (w_db w) file v →
  StronglySorted (λ x y, mc_Seq x < mc_Seq y) (m_Chunks m) →
  PlanDownload priv now entropy user file w = (Ok res, w') →
  dl_ContentSHA256 res = m_ContentSHA256 m ∧ dl_EncryptionMeta res = m_EncryptionMeta m ∧
  Forall2 offers (m_Chunks m) (dl_Chunks res).
Proof.
  intros Hh Hho Hcur Hsort (f&x&chunks&Hl&_&Hsha&Hmeta&HF)%PlanDownload_ok.
  eapply LoadDownload_current in Hl as (Hs&Hm&Hch); [|done..]. subst chunks. rewrite Hsha, Hmeta. split_and!; [done..|].
  pose proof (hd_rows _ _ _ _ _ Hh) as Hrows. apply (Forall2_fmap_l (Uploads.download_chunk (w_db w))) in HF.
  apply Forall2_same_length_lookup. split; [by rewrite (Forall2_length _ _ _ Hrows), (Forall2_length _ _ _ HF)|].
  intros i mc dch Hmc Hdch. destruct (Forall2_lookup_l _ _ _ _ _ Hrows Hmc) as (c&Hc&Hrow).
  destruct (Forall2_lookup_l _ _ _ _ _ HF Hc) as (dch'&Hdch'&Hserved). rewrite Hdch in Hdch'. injection Hdch' as <-.
  destruct Hrow as (_&Hsize&Hcsha&_&Hfrs). destruct Hserved as (_&Hsha'&Hsize'&_&Hs').
  cbn [Uploads.download_chunk dc_Chunk] in Hsha', Hsize'. split_and!; [congruence..|].
  intros df (j&Hj)%list_elem_of_lookup. destruct (Forall2_lookup_r _ _ _ _ _ Hs' Hj) as (p&Hp&_&Hidx&Hdsha&_).
  apply list_elem_of_lookup_2, pick_usable in Hp as (Hp&_). apply offered_fragment in Hp.
  apply list_elem_of_lookup in Hp as [k Hk]. destruct (Forall2_lookup_r _ _ _ _ _ Hfrs Hk) as (mf&Hmf&Hi&_&Hfsha).
  exists mf. split_and!; [by eapply list_elem_of_lookup_2|congruence..].
Qed.
