(* ===== verification/Evolution.v ===== *)
(** * How the node table evolves under customers' requests

    [Evolves R m]: however [m] ends, the state it leaves is [R]-related to the
    one it found.  With [Accounts.db_evolves] for [R]: no statement behind the
    customers' operations ([src/internal/store/files.go], [buckets.go],
    [uploads.go], [lifecycle.go], [src/internal/metadata/upload.go]) removes a
    node, breaks the unique columns of the node table or reuses an id. *)

From S2P Require Import Prelude GoFloat Bytes Schema Nodes World Placements Files Listings Uploads.
From S2P Require Import Health Apierr Accounts Ledger Tickets Receipts Metadata.

Class Evolves {S E A} (R : S → S → Prop) (m : M S E A) : Prop := evolves : ∀ s, R s (m s).2.

Section evolves.
Context {S E : Type} (R : S → S → Prop) `{!PreOrder R}.

#[export] Instance evolves_ret {A} (a : A) : Evolves R (mret a : M S E A).
Proof. by intros s. Qed.
#[export] Instance evolves_throw {A} (e : E) : Evolves R (throw e : M S E A).
Proof. by intros s. Qed.
#[export] Instance evolves_lift {A} (r : result E A) : Evolves R (lift r : M S E A).
Proof. by intros s. Qed.
#[export] Instance evolves_gets {A} (g : S → A) : Evolves R (gets g : M S E A).
Proof. by intros s. Qed.
#[export] Instance evolves_guard b (e : E) : Evolves R (guard_err b e : M S E unit).
Proof. by intros s; destruct b. Qed.
#[export] Instance evolves_bind {A C} (m : M S E A) (k : A → M S E C) :
  Evolves R m → (∀ a, Evolves R (k a)) → Evolves R (m ≫= k).
Proof.
  intros Hm Hk s. unfold mbind, M_bind. specialize (Hm s).
  destruct (m s) as [[a|e] s1]; [|done]. etrans; [exact Hm|]. apply Hk.
Qed.
#[export] Instance evolves_transaction {A} (m : M S E A) : Evolves R m → Evolves R (transaction m).
Proof. intros Hm s. unfold transaction. specialize (Hm s). by destruct (m s) as [[a|e] s1]. Qed.
#[export] Instance evolves_ignore {A} (m : M S E A) : Evolves R m → Evolves R (ignore_err m).
Proof. intros Hm s. apply (Hm s). Qed.
#[export] Instance evolves_for_each {X} (g : X → M S E unit) xs :
  (∀ x, Evolves R (g x)) → Evolves R (for_each g xs).
Proof. intros Hg. induction xs as [|x xs IH]; simpl; apply _. Qed.
#[export] Instance evolves_for_fold {X L} (g : L → X → M S E L) l xs :
  (∀ l x, Evolves R (g l x)) → Evolves R (for_fold g l xs).
Proof. intros Hg. revert l. induction xs as [|x xs IH]; intros l; simpl; apply _. Qed.
Lemma evolves_modify (f : S → S) : (∀ s, R s (f s)) → Evolves R (modify f : M S E unit).
Proof. intros Hf s. apply Hf. Qed.
End evolves.

(** Steps and branches, down to single statements. *)
Ltac evolve :=
  repeat first
    [ apply _
    | apply evolves_bind; [apply _| |intros ?]
    | match goal with
      | |- Evolves _ (match ?x with _ => _ end) => destruct x
      | |- Evolves _ (transaction _) => apply evolves_transaction; [apply _|]
      | |- Evolves _ (for_each _ _) => apply evolves_for_each; [apply _|intros ?]
      | |- Evolves _ (for_fold _ _ _) => apply evolves_for_fold; [apply _|intros ? ?]
      end ].

#[export] Instance db_evolves_preorder : PreOrder db_evolves.
Proof.
  split; [intros d; split_and!; [done|done|lia]|].
  intros d1 d2 d3 (?&?&?) (?&?&?). split_and!; [by etrans|auto|lia].
Qed.

(** A statement that leaves the node table alone and may draw ids. *)
Ltac same_nodes :=
  intros d; apply db_evolves_same; [reflexivity|cbn; lia].

(** ** Files and buckets *)

#[export] Instance evolves_CreateBucket owner name : Evolves db_evolves (CreateBucket owner name).
Proof. intros d. unfold CreateBucket, gen_uuid. destruct (existsb _ _); revert d; same_nodes. Qed.
#[export] Instance evolves_BucketByID owner id : Evolves db_evolves (BucketByID owner id).
Proof. by intros d. Qed.
#[export] Instance evolves_delete_dead_files bucket : Evolves db_evolves (delete_dead_files bucket).
Proof. intros d. unfold delete_dead_files. destruct (existsb _ _); [done|]. revert d. same_nodes. Qed.
#[export] Instance evolves_DeleteBucket owner id : Evolves db_evolves (DeleteBucket owner id).
Proof. unfold DeleteBucket. evolve. apply evolves_modify. same_nodes. Qed.

#[export] Instance evolves_FileByID owner id : Evolves db_evolves (FileByID owner id).
Proof. by intros d. Qed.
#[export] Instance evolves_CreateFolder now owner bucket path : Evolves db_evolves (CreateFolder now owner bucket path).
Proof.
  unfold CreateFolder. evolve. intros d. unfold action, gen_uuid. destruct (path_taken _ _ _); revert d; same_nodes.
Qed.
#[export] Instance evolves_set_path now bucket id path : Evolves db_evolves (set_path now bucket id path).
Proof. intros d. unfold set_path. destruct (existsb _ _); [done|]. revert d. same_nodes. Qed.
#[export] Instance evolves_RenameFile now owner id path : Evolves db_evolves (RenameFile now owner id path).
Proof. unfold RenameFile. evolve. by intros d. Qed.
#[export] Instance evolves_SoftDeleteFile now owner id : Evolves db_evolves (SoftDeleteFile now owner id).
Proof. unfold SoftDeleteFile. evolve; apply evolves_modify; same_nodes. Qed.
#[export] Instance evolves_ListFiles owner bucket prefix cursor limit :
  Evolves db_evolves (ListFiles owner bucket prefix cursor limit).
Proof. unfold ListFiles. evolve. Qed.
#[export] Instance evolves_InsertAudit now t a x y i : Evolves db_evolves (InsertAudit now t a x y i).
Proof. same_nodes. Qed.
#[export] Instance evolves_NodeByID id : Evolves db_evolves (NodeByID id).
Proof. by intros d. Qed.

(** ** Uploads in the store *)

#[export] Instance evolves_insert_fragment chunk fr : Evolves db_evolves (insert_fragment chunk fr).
Proof. intros d. unfold insert_fragment, gen_uuid. destruct (existsb _ _); revert d; same_nodes. Qed.
#[export] Instance evolves_insert_chunk version ch : Evolves db_evolves (insert_chunk version ch).
Proof. intros d. unfold insert_chunk, gen_uuid. destruct (existsb _ _); revert d; same_nodes. Qed.
#[export] Instance evolves_insert_version now m ec file : Evolves db_evolves (insert_version now m ec file).
Proof. unfold insert_version, gen_uuid. same_nodes. Qed.
#[export] Instance evolves_insert_file now bucket path : Evolves db_evolves (insert_file now bucket path).
Proof. intros d. unfold insert_file, gen_uuid. destruct (existsb _ _); revert d; same_nodes. Qed.
#[export] Instance evolves_insert_plan now m ec f : Evolves db_evolves (insert_plan now m ec f).
Proof. unfold insert_plan, insert_manifest_chunk. evolve. Qed.
#[export] Instance evolves_BeginUpload now owner m : Evolves db_evolves (BeginUpload now owner m).
Proof. unfold BeginUpload. evolve. Qed.
#[export] Instance evolves_insert_placement frag node : Evolves db_evolves (insert_placement frag node).
Proof.
  intros d. unfold insert_placement. destruct (existsb _ _); [|destruct (_ || _)]; revert d; same_nodes.
Qed.
#[export] Instance evolves_InsertPlacements pairs : Evolves db_evolves (InsertPlacements pairs).
Proof. unfold InsertPlacements. evolve. Qed.

Lemma AbortUpload_evolves version d : db_evolves d (AbortUpload version d).
Proof. unfold AbortUpload. destruct (_ <? _)%nat; revert d; same_nodes. Qed.

Lemma store_pending_evolves now frag d : db_evolves d (store_pending now frag d).
Proof. unfold store_pending. revert d. same_nodes. Qed.

#[export] Instance evolves_CommitUpload now owner version stored :
  Evolves db_evolves (Uploads.CommitUpload now owner version stored).
Proof.
  unfold Uploads.CommitUpload. evolve; try (apply evolves_modify).
  - by intros d.
  - intros d. revert d. induction stored as [|x xs IH]; intros d; cbn [foldl]; [done|].
    etrans; [apply (store_pending_evolves now x)|apply IH].
  - same_nodes.
Qed.
#[export] Instance evolves_LoadDownload owner file : Evolves db_evolves (LoadDownload owner file).
Proof. unfold LoadDownload. evolve. by intros d. Qed.
#[export] Instance evolves_upsert_stats r f : Evolves db_evolves (upsert_stats r f).
Proof. intros d. unfold upsert_stats. by repeat case_match. Qed.
#[export] Instance evolves_BumpNodeBytes now node a b : Evolves db_evolves (BumpNodeBytes now node a b).
Proof. unfold BumpNodeBytes. evolve. Qed.
#[export] Instance evolves_InsertDownloadTicket nonce file frag node size exp :
  Evolves db_evolves (InsertDownloadTicket nonce file frag node size exp).
Proof. intros d. unfold InsertDownloadTicket. by repeat case_match. Qed.
#[export] Instance evolves_DownloadTicketByNonce owner file nonce :
  Evolves db_evolves (DownloadTicketByNonce owner file nonce).
Proof. by intros d. Qed.
#[export] Instance evolves_ConsumeDownloadReceipt now nonce file frag node n :
  Evolves db_evolves (ConsumeDownloadReceipt now nonce file frag node n).
Proof. intros d. unfold ConsumeDownloadReceipt. by repeat case_match. Qed.

(** ** The services *)

Definition w_evolves (w w' : World) : Prop := db_evolves (w_db w) (w_db w').

#[export] Instance w_evolves_preorder : PreOrder w_evolves.
Proof. split; [intros w; red; done|]. intros w1 w2 w3. unfold w_evolves. by etrans. Qed.

#[export] Instance evolves_with_store {A} (m : store A) :
  Evolves db_evolves m → Evolves w_evolves (with_store m).
Proof. intros Hm w. unfold w_evolves. rewrite with_store_db. apply Hm. Qed.
Lemma evolves_frame {A} (m : service A) : Frame w_db m → Evolves w_evolves m.
Proof. intros Hm w. unfold w_evolves. by rewrite (Hm w). Qed.
#[export] Instance evolves_or_err {A} e (m : service A) : Evolves w_evolves m → Evolves w_evolves (or_err e m).
Proof. intros Hm w. specialize (Hm w). unfold or_err. by destruct (m w) as [[]]. Qed.
#[export] Instance evolves_PublishUsage now ev : Evolves w_evolves (PublishUsage now ev).
Proof. apply evolves_frame. intros w. unfold PublishUsage. apply publish_db. Qed.

(** What the quota check may do to the database: nothing. *)
Class QuotaLaws (quota : option (uuid → service unit)) : Prop :=
  quota_reads check user : quota = Some check → Evolves w_evolves (check user).

Lemma CheckQuota_reads floor user d : (Ledger.CheckQuota floor user d).2 = d.
Proof.
  unfold Ledger.CheckQuota, Ledger.MustAccount, Ledger.LedgerAccountByKey.
  destruct (find_by _ _) as [a|]; [|done]. cbn [of_option]. unfold AccountBalance.
  destruct (scan_int64 _); [|done]. by case_match.
Qed.

#[export] Instance ledger_quota_laws floor : QuotaLaws (Some (ledger_quota floor)).
Proof.
  intros check user [= <-]. apply evolves_frame. intros w. unfold ledger_quota.
  pose proof (CheckQuota_reads floor user (w_db w)) as Hd.
  destruct (Ledger.CheckQuota floor user (w_db w)) as [[[]|[]] d]; cbn in Hd |- *; by subst d.
Qed.

Section services.
Context `{Ed25519, Placer, !PlacerLaws} (priv : bytes) (now : Z) (entropy : nat → option bytes)
  (quota : option (uuid → service unit)) `{!QuotaLaws quota}.

#[export] Instance evolves_place needs : Evolves w_evolves (place needs).
Proof. apply evolves_frame. intros w. apply place_db. Qed.

#[export] Instance evolves_admit user : Evolves w_evolves (admit_user quota user).
Proof. unfold admit_user. destruct quota eqn:Hq; [|apply _]. by eapply quota_reads. Qed.

#[export] Instance evolves_plan_body pu : Evolves w_evolves (plan_body priv now entropy pu).
Proof. unfold plan_body, assign, keep_node, plan_ticket, SignTicket. evolve. Qed.

#[export] Instance evolves_or_abort {A} pu (m : service A) : Evolves w_evolves m → Evolves w_evolves (or_abort pu m).
Proof.
  intros Hm w. specialize (Hm w). unfold or_abort. destruct (m w) as [[a|e] w']; [done|].
  destruct (pu_Resume pu); [done|]. etrans; [exact Hm|]. apply AbortUpload_evolves.
Qed.

#[export] Instance evolves_PlanUpload user m : Evolves w_evolves (PlanUpload priv now entropy quota user m).
Proof. unfold PlanUpload. evolve. Qed.

#[export] Instance evolves_CommitUpload' user upload wires :
  Evolves w_evolves (CommitUpload now user upload wires).
Proof. unfold CommitUpload. evolve. Qed.

#[export] Instance evolves_PlanDownload user file : Evolves w_evolves (PlanDownload priv now entropy user file).
Proof. unfold PlanDownload, download_chunk, download_ticket, SignTicket. evolve. Qed.

#[export] Instance evolves_ReportDownload user file wires :
  Evolves w_evolves (ReportDownload now user file wires).
Proof. unfold ReportDownload, report_one. evolve. Qed.
End services.
