(* ===== verification/Service.v ===== *)
(** * The metadata service's HTTP interface: [src/internal/metadata/http.go],
      [client.go] and the store-backed implementation ([service.go], [nodes.go])

    [Service] is the Go interface the gateway programs against.  It has two
    implementations: [StoreService], which runs the operations of [Accounts],
    [Files], [Listings] and [Metadata] on the shared platform state, and
    [Client], which sends them to the HTTP handlers ([h_…]) of another
    [Service].  A body is the struct [encoding/json] makes of it ([None] when it
    refuses it), a path element is text; what comes back is the value after the
    trip through JSON ([userJSON], …): hidden fields are gone and times formatted
    as RFC 3339 have whole seconds.  A request or its answer may be lost. *)

From S2P Require Import Prelude GoFloat Bytes Sha256 Crypto Pipeline Schema Nodes World Files Listings Uploads Wire Auth.
From S2P Require Import Apierr Health Accounts Tickets Receipts Metadata.

(** ** Errors of a call *)

(** A [CallError] of the client; a sentinel or other error of the service
    itself; a request that got no answer. *)
Inductive call_error :=
  | CallError (status : Z) (c : code)
  | FromMeta (e : World.error)
  | FromAcct (e : acct_error)
  | NoAnswer.
#[export] Instance call_error_eq_dec : EqDecision call_error.
Proof. solve_decision. Defined.

(** [writeErr] of http.go. *)
Definition writeErr (e : call_error) : code :=
  match e with
  | FromMeta e => Metadata.writeErr e
  | FromAcct e => acct_code e
  | CallError _ _ | NoAnswer => CodeInternal
  end.

(** ** The interface *)

(** What is read of [CommitUpload]'s file and version. *)
Record Committed := MkCommitted { cm_FileID : uuid; cm_VersionNo : Z; cm_Status : version_status }.
Record Registered := MkRegistered { rn_NodeID : uuid; rn_Endpoint : string; rn_CertPEM : string }.
Record NodeRequest := MkNodeRequest {
  nr_Code : bytes; nr_CSR : bytes; nr_OS : string; nr_Version : string; nr_Label : string;
  nr_Capacity : Z }.

Record Service (S : Type) := MkService {
  sv_CreateUser : string → bytes → M S call_error User;
  sv_VerifyPassword : string → bytes → M S call_error User;
  sv_LookupAPIKey : bytes → M S call_error (APIKey * User);
  sv_CreateAPIKey : uuid → bytes → string → list string → option Z → M S call_error APIKey;
  sv_ListAPIKeys : uuid → M S call_error (list APIKey);
  sv_RevokeAPIKey : uuid → uuid → M S call_error unit;
  sv_CreateBucket : uuid → string → M S call_error Bucket;
  sv_ListBuckets : uuid → M S call_error (list Bucket);
  sv_DeleteBucket : uuid → uuid → M S call_error unit;
  sv_CreateFolder : uuid → uuid → string → M S call_error File;
  sv_ListFiles : uuid → uuid → string → string → Z → M S call_error (list File * string);
  sv_GetFile : uuid → uuid → M S call_error File;
  sv_RenameFile : uuid → uuid → string → M S call_error File;
  sv_DeleteFile : uuid → uuid → M S call_error unit;
  sv_MintRegistrationCode : uuid → string → string → string → option Z →
    M S call_error (RegistrationCode * bytes);
  sv_ListNodes : uuid → M S call_error (list Node);
  sv_RegisterNode : NodeRequest → M S call_error Registered;
  sv_HeartbeatNode : uuid → Z → Z → M S call_error unit;
  sv_PlanUpload : uuid → UploadManifest → M S call_error PlanResult;
  sv_CommitUpload : uuid → uuid → list bytes → M S call_error Committed;
  sv_PlanDownload : uuid → uuid → M S call_error DownloadResult;
  sv_ReportDownload : uuid → uuid → list bytes → M S call_error unit;
  sv_ListNodeStats : uuid → uuid → Z → Z → M S call_error (list NodeStats) }.

#[global] Arguments sv_CreateUser {S} _.
#[global] Arguments sv_VerifyPassword {S} _.
#[global] Arguments sv_LookupAPIKey {S} _.
#[global] Arguments sv_CreateAPIKey {S} _.
#[global] Arguments sv_ListAPIKeys {S} _.
#[global] Arguments sv_RevokeAPIKey {S} _.
#[global] Arguments sv_CreateBucket {S} _.
#[global] Arguments sv_ListBuckets {S} _.
#[global] Arguments sv_DeleteBucket {S} _.
#[global] Arguments sv_CreateFolder {S} _.
#[global] Arguments sv_ListFiles {S} _.
#[global] Arguments sv_GetFile {S} _.
#[global] Arguments sv_RenameFile {S} _.
#[global] Arguments sv_DeleteFile {S} _.
#[global] Arguments sv_MintRegistrationCode {S} _.
#[global] Arguments sv_ListNodes {S} _.
#[global] Arguments sv_RegisterNode {S} _.
#[global] Arguments sv_HeartbeatNode {S} _.
#[global] Arguments sv_PlanUpload {S} _.
#[global] Arguments sv_CommitUpload {S} _.
#[global] Arguments sv_PlanDownload {S} _.
#[global] Arguments sv_ReportDownload {S} _.
#[global] Arguments sv_ListNodeStats {S} _.

(** ** What the trip through JSON leaves of a value *)

(** [t.UTC().Format(time.RFC3339)], parsed back. *)
Definition rfc3339 (t : Z) : Z := Z.div t second * second.

Definition userJSON (u : User) : User :=
  MkUser (us_ID u) (us_Email u) [] (us_Role u) (us_Status u) (rfc3339 (us_CreatedAt u)) time_zero.

Definition apiKeyJSON (k : APIKey) : APIKey :=
  MkAPIKey (ak_ID k) (ak_UserID k) [] (ak_Label k) (ak_Scopes k) (rfc3339 <$> ak_ExpiresAt k) None
    (rfc3339 (ak_CreatedAt k)).

(** [fileJSON]: the current version is not sent. *)
Definition fileJSON (f : File) : File :=
  MkFile (f_ID f) (f_BucketID f) (f_Path f) (f_IsFolder f) None (f_Status f)
    (rfc3339 (f_CreatedAt f)) (rfc3339 (f_UpdatedAt f)) None.

(** The answer to a minted code names no owner; the client knows whom it asked for. *)
Definition codeJSON (c : RegistrationCode) : RegistrationCode :=
  MkCode (rg_ID c) uuid_nil [] (rg_Endpoint c) (rg_Country c) (rg_Region c) (rg_ASN c)
    (rfc3339 (rg_ExpiresAt c)) None None time_zero.
Definition own_code (owner : uuid) (c : RegistrationCode) : RegistrationCode :=
  MkCode (rg_ID c) owner [] (rg_Endpoint c) (rg_Country c) (rg_Region c) (rg_ASN c)
    (rg_ExpiresAt c) None None time_zero.

(** [store.Node] by its field tags. *)
Definition nodeJSON (n : Node) : Node :=
  MkNode (n_ID n) (n_OwnerID n) (n_CertFingerprint n) [] "" (n_CertExpiresAt n)
    (n_HostnameLabel n) (n_OS n) (n_AgentVersion n) (n_Country n) (n_Region n) (n_ASN n) (n_Endpoint n)
    (n_CapacityBytes n) (n_UsedBytes n) (n_Status n) (n_Reputation n) (n_RegisteredAt n)
    (n_LastSeenAt n) (n_ProbationUntil n) (n_ReputationUpdatedAt n) (n_RevokedAt n)
    F32.zero F32.zero F32.zero F32.zero 0.

(** ** The handlers *)

Section handlers.
Context {S : Type} `{UuidText} (svc : Service S).

Abbreviation http A := (M S code A).

(** [if writeErr(w, r, err) { return }] *)
Definition answer {A} (m : M S call_error A) : http A := λ s,
  match m s with
  | (Ok a, s') => (Ok a, s')
  | (Err e, s') => (Err (writeErr e), s')
  end.

Definition invalid {A} (o : option A) : http A := lift (of_option CodeInvalidRequest o).
Definition decode {R} (body : option R) : http R := invalid body.
Definition parseUser (t : bytes) : http uuid := invalid (uuid_Parse t).
Definition parse_id (t : bytes) : http uuid := invalid (uuid_Parse t).

Definition h_CreateUser (body : option (string * bytes)) : http User :=
  '(email, password) ← decode body;
  u ← answer (sv_CreateUser svc email password);
  mret (userJSON u).

Definition h_VerifyPassword (body : option (string * bytes)) : http User :=
  '(email, password) ← decode body;
  u ← answer (sv_VerifyPassword svc email password);
  mret (userJSON u).

Definition h_LookupAPIKey (hash : bytes) : http (APIKey * User) :=
  '(k, u) ← answer (sv_LookupAPIKey svc hash);
  mret (apiKeyJSON k, userJSON u).

Definition h_CreateAPIKey (user : bytes) (body : option (bytes * string * list string * option Z)) :
    http APIKey :=
  user ← parseUser user;
  '(hash, label, scopes, expires) ← decode body;
  k ← answer (sv_CreateAPIKey svc user hash label scopes expires);
  mret (apiKeyJSON k).

Definition h_ListAPIKeys (user : bytes) : http (list APIKey) :=
  user ← parseUser user;
  keys ← answer (sv_ListAPIKeys svc user);
  mret (apiKeyJSON <$> keys).

Definition h_RevokeAPIKey (user key : bytes) : http unit :=
  user ← parseUser user;
  key ← parse_id key;
  answer (sv_RevokeAPIKey svc user key).

Definition h_CreateBucket (user : bytes) (body : option string) : http Bucket :=
  user ← parseUser user;
  name ← decode body;
  answer (sv_CreateBucket svc user name).

Definition h_ListBuckets (user : bytes) : http (list Bucket) :=
  user ← parseUser user;
  answer (sv_ListBuckets svc user).

Definition h_DeleteBucket (user id : bytes) : http unit :=
  user ← parseUser user;
  id ← parse_id id;
  answer (sv_DeleteBucket svc user id).

Definition h_CreateFolder (user : bytes) (body : option (bytes * string)) : http File :=
  user ← parseUser user;
  '(bucket, path) ← decode body;
  bucket ← parse_id bucket;
  f ← answer (sv_CreateFolder svc user bucket path);
  mret (fileJSON f).

(** A query parameter that is missing is empty; [limit] is 0 when it is no number. *)
Definition h_ListFiles (user bucket : bytes) (prefix cursor : string) (limit : option Z) :
    http (list File * string) :=
  user ← parseUser user;
  bucket ← parse_id bucket;
  '(files, next) ← answer (sv_ListFiles svc user bucket prefix cursor (default 0 limit));
  mret (fileJSON <$> files, next).

Definition h_GetFile (user id : bytes) : http File :=
  user ← parseUser user;
  id ← parse_id id;
  f ← answer (sv_GetFile svc user id);
  mret (fileJSON f).

Definition h_RenameFile (user : bytes) (body : option (bytes * string)) : http File :=
  user ← parseUser user;
  '(id, path) ← decode body;
  id ← parse_id id;
  f ← answer (sv_RenameFile svc user id path);
  mret (fileJSON f).

Definition h_DeleteFile (user id : bytes) : http unit :=
  user ← parseUser user;
  id ← parse_id id;
  answer (sv_DeleteFile svc user id).

Definition h_MintRegistrationCode (user : bytes) (body : option (string * string * string * option Z)) :
    http (RegistrationCode * bytes) :=
  user ← parseUser user;
  '(endpoint, country, region, asn) ← decode body;
  '(c, secret) ← answer (sv_MintRegistrationCode svc user endpoint country region asn);
  mret (codeJSON c, secret).

Definition h_ListNodes (user : bytes) : http (list Node) :=
  user ← parseUser user;
  nodes ← answer (sv_ListNodes svc user);
  mret (nodeJSON <$> nodes).

Definition h_HeartbeatNode (id : bytes) (body : option (Z * Z)) : http unit :=
  id ← parse_id id;
  '(used, capacity) ← decode body;
  answer (sv_HeartbeatNode svc id used capacity).

(** The certificate request is base64 text. *)
Definition h_RegisterNode (body : option NodeRequest) : http Registered :=
  req ← decode body;
  csr ← invalid (padded_decode (nr_CSR req));
  answer (sv_RegisterNode svc (MkNodeRequest (nr_Code req) csr (nr_OS req) (nr_Version req)
    (nr_Label req) (nr_Capacity req))).

Definition h_PlanUpload (user : bytes) (body : option JManifest) : http PlanResult :=
  user ← parseUser user;
  m ← invalid (decodeManifest body);
  answer (sv_PlanUpload svc user m).

Definition h_CommitUpload (user id : bytes) (body : option (list bytes)) : http Committed :=
  user ← parseUser user;
  id ← parse_id id;
  recs ← decode body;
  answer (sv_CommitUpload svc user id recs).

Definition h_PlanDownload (user id : bytes) : http DownloadResult :=
  user ← parseUser user;
  id ← parse_id id;
  answer (sv_PlanDownload svc user id).

Definition h_ReportDownload (user id : bytes) (body : option (list bytes)) : http unit :=
  user ← parseUser user;
  id ← parse_id id;
  recs ← decode body;
  answer (sv_ReportDownload svc user id recs).

(** A time that is missing or no RFC 3339 text is the zero time. *)
Definition h_ListNodeStats (user id : bytes) (from to : option Z) : http (list NodeStats) :=
  user ← parseUser user;
  id ← parse_id id;
  answer (sv_ListNodeStats svc user id (default time_zero from) (default time_zero to)).
End handlers.

(** ** The client *)

(** What the network does to one exchange. *)
Inductive Delivery := Delivered | RequestLost | ResponseLost.

Section client.
Context {S : Type} `{UuidText} (net : Delivery) (svc : Service S).

(** [Client.do]: the error envelope becomes a [CallError]. *)
Definition do {A} (h : M S code A) : M S call_error A := λ s,
  match net with
  | RequestLost => (Err NoAnswer, s)
  | ResponseLost => (Err NoAnswer, (h s).2)
  | Delivered =>
      match h s with
      | (Ok a, s') => (Ok a, s')
      | (Err c, s') => (Err (CallError (Status c) c), s')
      end
  end.

(** A query parameter that is only set when it says something. *)
Definition positive (z : Z) : option Z := if 0 <? z then Some z else None.
Definition nonzero_time (t : Z) : option Z := if is_zero t then None else Some (rfc3339 t).

Definition c_CreateUser (email : string) (password : bytes) : M S call_error User :=
  do (h_CreateUser svc (Some (email, password))).
Definition c_VerifyPassword (email : string) (password : bytes) : M S call_error User :=
  do (h_VerifyPassword svc (Some (email, password))).
Definition c_LookupAPIKey (hash : bytes) : M S call_error (APIKey * User) :=
  do (h_LookupAPIKey svc hash).
Definition c_CreateAPIKey (user : uuid) (hash : bytes) (label : string) (scopes : list string) (expires : option Z) : M S call_error APIKey :=
  do (h_CreateAPIKey svc (uuid_String user) (Some (hash, label, scopes, rfc3339 <$> expires))).
Definition c_ListAPIKeys (user : uuid) : M S call_error (list APIKey) :=
  do (h_ListAPIKeys svc (uuid_String user)).
Definition c_RevokeAPIKey (user : uuid) (key : uuid) : M S call_error unit :=
  do (h_RevokeAPIKey svc (uuid_String user) (uuid_String key)).
Definition c_CreateBucket (user : uuid) (name : string) : M S call_error Bucket :=
  do (h_CreateBucket svc (uuid_String user) (Some name)).
Definition c_ListBuckets (user : uuid) : M S call_error (list Bucket) :=
  do (h_ListBuckets svc (uuid_String user)).
Definition c_DeleteBucket (user : uuid) (id : uuid) : M S call_error unit :=
  do (h_DeleteBucket svc (uuid_String user) (uuid_String id)).
Definition c_CreateFolder (user : uuid) (bucket : uuid) (path : string) : M S call_error File :=
  do (h_CreateFolder svc (uuid_String user) (Some (uuid_String bucket, path))).
Definition c_ListFiles (user : uuid) (bucket : uuid) (prefix : string) (cursor : string) (limit : Z) : M S call_error (list File * string) :=
  do (h_ListFiles svc (uuid_String user) (uuid_String bucket) prefix cursor (positive limit)).
Definition c_GetFile (user : uuid) (id : uuid) : M S call_error File :=
  do (h_GetFile svc (uuid_String user) (uuid_String id)).
Definition c_RenameFile (user : uuid) (id : uuid) (path : string) : M S call_error File :=
  do (h_RenameFile svc (uuid_String user) (Some (uuid_String id, path))).
Definition c_DeleteFile (user : uuid) (id : uuid) : M S call_error unit :=
  do (h_DeleteFile svc (uuid_String user) (uuid_String id)).
Definition c_MintRegistrationCode (user : uuid) (endpoint : string) (country : string) (region : string) (asn : option Z) : M S call_error (RegistrationCode * bytes) :=
  '(c, secret) ← do (h_MintRegistrationCode svc (uuid_String user) (Some (endpoint, country, region, asn)));
    mret (own_code user c, secret).
Definition c_ListNodes (user : uuid) : M S call_error (list Node) :=
  do (h_ListNodes svc (uuid_String user)).
Definition c_RegisterNode (req : NodeRequest) : M S call_error Registered :=
  do (h_RegisterNode svc (Some (MkNodeRequest (nr_Code req) (padded_encode (nr_CSR req)) (nr_OS req)
    (nr_Version req) (nr_Label req) (nr_Capacity req)))).
Definition c_HeartbeatNode (id : uuid) (used : Z) (capacity : Z) : M S call_error unit :=
  do (h_HeartbeatNode svc (uuid_String id) (Some (used, capacity))).
Definition c_PlanUpload (user : uuid) (m : UploadManifest) : M S call_error PlanResult :=
  do (h_PlanUpload svc (uuid_String user) (Some (manifestJSON m))).
Definition c_CommitUpload (user : uuid) (id : uuid) (recs : list bytes) : M S call_error Committed :=
  do (h_CommitUpload svc (uuid_String user) (uuid_String id) (Some recs)).
Definition c_PlanDownload (user : uuid) (id : uuid) : M S call_error DownloadResult :=
  do (h_PlanDownload svc (uuid_String user) (uuid_String id)).
Definition c_ReportDownload (user : uuid) (id : uuid) (recs : list bytes) : M S call_error unit :=
  do (h_ReportDownload svc (uuid_String user) (uuid_String id) (Some recs)).
Definition c_ListNodeStats (user : uuid) (id : uuid) (from : Z) (to : Z) : M S call_error (list NodeStats) :=
  do (h_ListNodeStats svc (uuid_String user) (uuid_String id) (nonzero_time from) (nonzero_time to)).

Definition Client : Service S := {|
  sv_CreateUser := c_CreateUser;
  sv_VerifyPassword := c_VerifyPassword;
  sv_LookupAPIKey := c_LookupAPIKey;
  sv_CreateAPIKey := c_CreateAPIKey;
  sv_ListAPIKeys := c_ListAPIKeys;
  sv_RevokeAPIKey := c_RevokeAPIKey;
  sv_CreateBucket := c_CreateBucket;
  sv_ListBuckets := c_ListBuckets;
  sv_DeleteBucket := c_DeleteBucket;
  sv_CreateFolder := c_CreateFolder;
  sv_ListFiles := c_ListFiles;
  sv_GetFile := c_GetFile;
  sv_RenameFile := c_RenameFile;
  sv_DeleteFile := c_DeleteFile;
  sv_MintRegistrationCode := c_MintRegistrationCode;
  sv_ListNodes := c_ListNodes;
  sv_RegisterNode := c_RegisterNode;
  sv_HeartbeatNode := c_HeartbeatNode;
  sv_PlanUpload := c_PlanUpload;
  sv_CommitUpload := c_CommitUpload;
  sv_PlanDownload := c_PlanDownload;
  sv_ReportDownload := c_ReportDownload;
  sv_ListNodeStats := c_ListNodeStats |}.
End client.

(** ** The store-backed service *)

Record Platform := MkPlatform { pf_reg : Registry; pf_redis : Redis; pf_bus : Bus }.
Definition pf_db (p : Platform) : DB := r_db (pf_reg p).
Definition pf_world (p : Platform) : World := MkWorld (pf_db p) (pf_redis p) (pf_bus p).
Definition set_world (p : Platform) (w : World) : Platform :=
  MkPlatform (upd_r_db (λ _, w_db w) (pf_reg p)) (w_redis w) (w_bus w).

Abbreviation platform A := (M Platform call_error A).

Definition on_registry {A} (m : registry A) : platform A := λ p,
  let '(x, r) := m (pf_reg p) in
  (match x with Ok a => Ok a | Err e => Err (FromAcct e) end, MkPlatform r (pf_redis p) (pf_bus p)).

Definition on_world {A} (m : service A) : platform A := λ p,
  let '(x, w) := m (pf_world p) in
  (match x with Ok a => Ok a | Err e => Err (FromMeta e) end, set_world p w).

Definition on_store {A} (m : store A) : platform A := on_registry (on_db m).

(** [if errors.Is(err, store.ErrInvalid) { return ErrInvalid }] *)
Definition or_invalid {A} (m : platform A) : platform A := λ p,
  match m p with
  | (Err (FromAcct (EStore EInvalid)), p') => (Err (FromAcct EInvalidReq), p')
  | x => x
  end.

Section store_service.
Context `{Argon2, Ed25519, Placer} (now : Z) (priv : bytes) (random : nat → option bytes)
  (QuotaCheck : option (uuid → service unit))
  (IssueNode : option (bytes → uuid → string → option Issued)).

Definition svc_CreateBucket (user : uuid) (name : string) : platform Bucket :=
  let name := TrimSpace name in
  if bool_decide (name = ""%string) then throw (FromAcct EInvalidReq) else on_store (CreateBucket user name).

Definition svc_CreateFolder (user bucket : uuid) (path : string) : platform File :=
  or_invalid (on_store (CreateFolder now user bucket path)).

Definition svc_RenameFile (user id : uuid) (path : string) : platform File :=
  or_invalid (on_store (RenameFile now user id path)).

Definition svc_DeleteFile (user id : uuid) : platform unit :=
  on_store (SoftDeleteFile now user id) ≫= λ _,
  on_registry (audit_log now "user" (Some user) "file.delete" "file" (Some id)).

Definition svc_ListNodeStats (user node : uuid) (from to : Z) : platform (list NodeStats) :=
  n ← on_store (NodeByID node);
  guard_err (negb (bool_decide (n_OwnerID n = user))) (FromAcct EForbidden) ≫= λ _,
  let from := if is_zero from then now - day else from in
  let to := if is_zero to then now else to in
  on_store (gets (ListNodeStats node from to)).

Definition svc_RegisterNode (req : NodeRequest) : platform Registered :=
  '(n, pem) ← on_registry (RegisterNode now IssueNode (nr_Code req) (nr_CSR req) (nr_OS req)
                             (nr_Version req) (nr_Label req) (nr_Capacity req));
  mret (MkRegistered (n_ID n) (n_Endpoint n) pem).

Definition svc_CommitUpload (user upload : uuid) (recs : list bytes) : platform Committed :=
  '(f, v) ← on_world (Metadata.CommitUpload now user upload recs);
  mret (MkCommitted (f_ID f) (v_VersionNo v) (v_Status v)).

Definition StoreService : Service Platform := {|
  sv_CreateUser email password := on_registry (CreateUser now email password (random 0));
  sv_VerifyPassword email password := on_registry (Accounts.VerifyPassword email password);
  sv_LookupAPIKey hash := on_registry (LookupAPIKey now hash);
  sv_CreateAPIKey user hash label scopes expires :=
    on_registry (CreateAPIKey now user hash label scopes expires);
  sv_ListAPIKeys user := on_registry (gets (ListAPIKeys user));
  sv_RevokeAPIKey user key := on_registry (RevokeAPIKey now user key);
  sv_CreateBucket := svc_CreateBucket;
  sv_ListBuckets user := on_store (gets (ListBuckets user));
  sv_DeleteBucket user id := on_store (DeleteBucket user id);
  sv_CreateFolder := svc_CreateFolder;
  sv_ListFiles user bucket prefix cursor limit := on_store (ListFiles user bucket prefix cursor limit);
  sv_GetFile user id := on_store (FileByID user id);
  sv_RenameFile := svc_RenameFile;
  sv_DeleteFile := svc_DeleteFile;
  sv_MintRegistrationCode user endpoint country region asn :=
    on_registry (MintRegistrationCode now user endpoint country region asn (random 0));
  sv_ListNodes user := on_store (gets (ListNodesByOwner user));
  sv_RegisterNode := svc_RegisterNode;
  sv_HeartbeatNode id used capacity := on_registry (HeartbeatNode now id used capacity);
  sv_PlanUpload user m := on_world (PlanUpload priv now random QuotaCheck user m);
  sv_CommitUpload := svc_CommitUpload;
  sv_PlanDownload user id := on_world (PlanDownload priv now random user id);
  sv_ReportDownload user id recs := on_world (ReportDownload now user id recs);
  sv_ListNodeStats := svc_ListNodeStats |}.
End store_service.

(** ** The client speaks for the service *)

(** [m] with its answer sent through JSON and its error through the envelope. *)
Definition called {S A B} (view : A → B) (m : M S call_error A) : M S call_error B := λ s,
  match m s with
  | (Ok a, s') => (Ok (view a), s')
  | (Err e, s') => (Err (CallError (Status (writeErr e)) (writeErr e)), s')
  end.

Definition keysJSON (ku : APIKey * User) : APIKey * User := (apiKeyJSON ku.1, userJSON ku.2).

(** Every operation of [c] is the operation of [svc] at the same arguments: the
    same effect, the same answer up to [called], the same error code. *)
Record speaks_for {S} (c svc : Service S) : Prop := {
  sf_CreateUser email password s :
    sv_CreateUser c email password s = called userJSON (sv_CreateUser svc email password) s;
  sf_VerifyPassword email password s :
    sv_VerifyPassword c email password s = called userJSON (sv_VerifyPassword svc email password) s;
  sf_LookupAPIKey hash s : sv_LookupAPIKey c hash s = called keysJSON (sv_LookupAPIKey svc hash) s;
  sf_CreateAPIKey user hash label scopes expires s : uuid_wf user →
    sv_CreateAPIKey c user hash label scopes expires s =
    called apiKeyJSON (sv_CreateAPIKey svc user hash label scopes (rfc3339 <$> expires)) s;
  sf_ListAPIKeys user s : uuid_wf user →
    sv_ListAPIKeys c user s = called (fmap apiKeyJSON) (sv_ListAPIKeys svc user) s;
  sf_RevokeAPIKey user key s : uuid_wf user → uuid_wf key →
    sv_RevokeAPIKey c user key s = called id (sv_RevokeAPIKey svc user key) s;
  sf_CreateBucket user name s : uuid_wf user →
    sv_CreateBucket c user name s = called id (sv_CreateBucket svc user name) s;
  sf_ListBuckets user s : uuid_wf user → sv_ListBuckets c user s = called id (sv_ListBuckets svc user) s;
  sf_DeleteBucket user bucket s : uuid_wf user → uuid_wf bucket →
    sv_DeleteBucket c user bucket s = called id (sv_DeleteBucket svc user bucket) s;
  sf_CreateFolder user bucket path s : uuid_wf user → uuid_wf bucket →
    sv_CreateFolder c user bucket path s = called fileJSON (sv_CreateFolder svc user bucket path) s;
  sf_ListFiles user bucket prefix cursor limit s : uuid_wf user → uuid_wf bucket →
    sv_ListFiles c user bucket prefix cursor limit s =
    called (λ '(fs, next), (fileJSON <$> fs, next))
      (sv_ListFiles svc user bucket prefix cursor (Z.max 0 limit)) s;
  sf_GetFile user file s : uuid_wf user → uuid_wf file →
    sv_GetFile c user file s = called fileJSON (sv_GetFile svc user file) s;
  sf_RenameFile user file path s : uuid_wf user → uuid_wf file →
    sv_RenameFile c user file path s = called fileJSON (sv_RenameFile svc user file path) s;
  sf_DeleteFile user file s : uuid_wf user → uuid_wf file →
    sv_DeleteFile c user file s = called id (sv_DeleteFile svc user file) s;
  sf_MintRegistrationCode user endpoint country region asn s : uuid_wf user →
    sv_MintRegistrationCode c user endpoint country region asn s =
    called (λ '(rc, secret), (own_code user (codeJSON rc), secret))
      (sv_MintRegistrationCode svc user endpoint country region asn) s;
  sf_ListNodes user s : uuid_wf user →
    sv_ListNodes c user s = called (fmap nodeJSON) (sv_ListNodes svc user) s;
  sf_RegisterNode req s : sv_RegisterNode c req s = called id (sv_RegisterNode svc req) s;
  sf_HeartbeatNode node used capacity s : uuid_wf node →
    sv_HeartbeatNode c node used capacity s = called id (sv_HeartbeatNode svc node used capacity) s;
  sf_PlanUpload user m s : uuid_wf user → uuid_wf (m_BucketID m) → manifest_ranges m →
    sv_PlanUpload c user m s = called id (sv_PlanUpload svc user m) s;
  sf_CommitUpload user upload recs s : uuid_wf user → uuid_wf upload →
    sv_CommitUpload c user upload recs s = called id (sv_CommitUpload svc user upload recs) s;
  sf_PlanDownload user file s : uuid_wf user → uuid_wf file →
    sv_PlanDownload c user file s = called id (sv_PlanDownload svc user file) s;
  sf_ReportDownload user file recs s : uuid_wf user → uuid_wf file →
    sv_ReportDownload c user file recs s = called id (sv_ReportDownload svc user file recs) s;
  sf_ListNodeStats user node from to s : uuid_wf user → uuid_wf node →
    sv_ListNodeStats c user node from to s =
    called id (sv_ListNodeStats svc user node (default time_zero (nonzero_time from))
                 (default time_zero (nonzero_time to))) s }.

Lemma positive_max limit : default 0 (positive limit) = Z.max 0 limit.
Proof. unfold positive. destruct (Z.ltb_spec 0 limit); cbn; lia. Qed.

Section wire.
Context {S : Type}.

Lemma do_answer {A} (m : M S call_error A) s : do Delivered (answer m) s = called id m s.
Proof. unfold do, answer, called. by destruct (m s) as [[]]. Qed.

Lemma do_view {A B} (f : A → M S code B) (g : A → B) (m : M S call_error A) s :
  (∀ a s', f a s' = (Ok (g a), s')) → do Delivered (answer m ≫= f) s = called g m s.
Proof. intros Hf. unfold do, answer, called, mbind, M_bind. destruct (m s) as [[]]; [by rewrite Hf|done]. Qed.

Lemma do_invalid {A B} (o : option A) a (k : A → M S code B) net s :
  o = Some a → do net (invalid o ≫= k) s = do net (k a) s.
Proof. by intros ->. Qed.
End wire.

(** The parts of a request the handler parses are the ones the client wrote. *)
Ltac parsed :=
  repeat (erewrite do_invalid; [|first [apply uuid_Parse_String; assumption | apply padded_decode_encode
    | apply decodeManifest_json; assumption | reflexivity]]; cbv beta iota).

