(* ===== verification/CA.v ===== *)
(** * The platform's certificate authority: [src/internal/ca/ca.go]

    The private CA that signs the certificates of nodes and services, its two
    files, and [IssueNodeFromCA] of [src/internal/metadata/nodes.go], by which
    the registry ([Accounts]) issues certificates.

    X.509, PKCS#8 and PEM are Go's; [X509] is what is used of them, with laws:
    a certificate parses back to the template it was made from (times in whole
    seconds) and verifies under the key that signed it, a request and a key parse
    back, and a PEM text holds the block it was made from.  The key a call
    generates and the serial it draws are arguments, [None] when randomness
    fails; so is what becomes of every file that is written. *)

From S2P Require Import Prelude Bytes Sha256 Crypto Pipeline Schema Files Net Wire Tickets Auth Accounts.
From Stdlib Require Import Ascii.

(** ** Certificates *)

Inductive usage := DigitalSignature | CertSign | CRLSign.
Inductive ext_usage := ClientAuth | ServerAuth.
#[export] Instance usage_eq_dec : EqDecision usage.
Proof. solve_decision. Defined.
#[export] Instance ext_usage_eq_dec : EqDecision ext_usage.
Proof. solve_decision. Defined.

(** The fields of [x509.Certificate] that are set. *)
Record Template := MkTemplate {
  tm_Serial : Z;
  tm_CommonName : bytes;
  tm_Organization : list string;
  tm_NotBefore : Z;
  tm_NotAfter : Z;
  tm_KeyUsage : list usage;
  tm_ExtKeyUsage : list ext_usage;
  tm_IsCA : bool;
  tm_MaxPathLen : option Z;
  tm_DNSNames : list (list ascii);
  tm_IPAddresses : list (list Z) }.

(** What a parsed certificate shows; the key when it is an Ed25519 one. *)
Record Certificate := MkCertificate {
  ct_Raw : bytes; ct_Template : Template; ct_PublicKey : option bytes }.

(** A parsed request: whether its signature checks, and its Ed25519 key. *)
Record CSR := MkCSR { cr_Signed : bool; cr_PublicKey : option bytes }.

Class X509 := {
  CreateCertificate : Template → Template → bytes → bytes → option bytes;  (* template, parent, public key, signing key *)
  ParseCertificate : bytes → option Certificate;
  SignedBy : bytes → bytes → bool;                                         (* certificate, public key *)
  CreateCertificateRequest : bytes → bytes → option bytes;                 (* common name, key *)
  ParseCertificateRequest : bytes → option CSR;
  MarshalPKCS8 : bytes → option bytes;
  ParsePKCS8 : bytes → option (option bytes);                              (* [Some None]: another kind of key *)
  pem_encode : bytes → bytes → bytes;                                      (* type, contents *)
  pem_blocks : bytes → list (bytes * bytes);
  X509KeyPair : bytes → bytes → option (bytes * bytes) }.                  (* PEM texts; leaf and key *)

(** Times are encoded in seconds. *)
Definition der_time (t : Z) : Z := t `div` second * second.

Definition whole_times (t : Template) : Template :=
  MkTemplate (tm_Serial t) (tm_CommonName t) (tm_Organization t) (der_time (tm_NotBefore t))
    (der_time (tm_NotAfter t)) (tm_KeyUsage t) (tm_ExtKeyUsage t) (tm_IsCA t) (tm_MaxPathLen t)
    (tm_DNSNames t) (tm_IPAddresses t).

Definition CERTIFICATE : bytes := ascii_bytes "CERTIFICATE".
Definition PRIVATE_KEY : bytes := ascii_bytes "PRIVATE KEY".

Class X509Laws `{Ed25519, X509} : Prop := {
  parse_created t parent pub k der : CreateCertificate t parent pub k = Some der →
    ParseCertificate der = Some (MkCertificate der (whole_times t) (Some pub)) ∧ SignedBy der (ed_public k) = true;
  parse_requested cn k der : CreateCertificateRequest cn k = Some der →
    der ≠ [] ∧ ParseCertificateRequest der = Some (MkCSR true (Some (ed_public k)));
  parse_marshalled k der : MarshalPKCS8 k = Some der → ParsePKCS8 der = Some (Some k);
  blocks_encoded t b : pem_blocks (pem_encode t b) = [(t, b)];
  blocks_empty : pem_blocks [] = [];
  pair_matching cert key der c kd k :
    pem_blocks cert = [(CERTIFICATE, der)] → ParseCertificate der = Some c →
    pem_blocks key = [(PRIVATE_KEY, kd)] → ParsePKCS8 kd = Some (Some k) →
    ct_PublicKey c = Some (ed_public k) → X509KeyPair cert key = Some (der, k) }.

(** ** Files *)

(** [os.WriteFile] truncates before it writes: a failure may leave a part. *)
Inductive write_outcome := Written | NotOpened | Torn (kept : nat).

Abbreviation FS := (gmap string bytes).

Section files.
Context {E : Type}.
Definition WriteFile (o : write_outcome) (path : string) (data : bytes) (e : E) : M FS E unit :=
  match o with
  | Written => modify <[path := data]>
  | NotOpened => throw e
  | Torn n => modify <[path := take n data]> ≫= λ _, throw e
  end.
Definition ReadFile (path : string) : M FS E (option bytes) := gets (λ fs, fs !! path).
End files.

(** ** The authority *)

Inductive ca_error := ErrInvalidCSR | ErrSANClamp | ECA.
#[export] Instance ca_error_eq_dec : EqDecision ca_error.
Proof. solve_decision. Defined.

Record CA := MkCA { ca_Cert : Certificate; ca_Key : bytes; ca_DER : bytes }.

Definition caTTL : Z := 10 * 365 * 24 * hour.
Definition NodeTTL : Z := 30 * 24 * hour.

Definition is_alnum (c : ascii) : bool :=
  let z := ascii_Z c in
  ((97 <=? z) && (z <=? 122)) || ((65 <=? z) && (z <=? 90)) || ((48 <=? z) && (z <=? 57)).

Definition validDNS (host : list ascii) : bool :=
  bool_decide (host = chars "localhost") ||
  (negb (bool_decide (host = [])) && (length host <=? 253)%nat &&
   forallb (λ c, is_alnum c || bool_decide (c = "-"%char) || bool_decide (c = "."%char)) host).

Definition sansFromEndpoint (endpoint : string) : result ca_error (list (list ascii) * list (list Z)) :=
  let host := default (chars endpoint) (SplitHostPort (chars endpoint)) in
  if bool_decide (host = []) then Err ErrSANClamp
  else match ParseIP host with
       | Some ip => Ok ([], [ip])
       | None => if validDNS host then Ok ([host], []) else Err ErrSANClamp
       end.

Section authority.
Context `{Ed25519, X509}.

Abbreviation fs A := (M FS ca_error A).

Definition parseCertPEM (raw : bytes) : option (Certificate * bytes) :=
  '(type, der) ← head (pem_blocks raw);
  guard (type = CERTIFICATE);;
  cert ← ParseCertificate der; Some (cert, der).

Definition parseKeyPEM (raw : bytes) : option bytes :=
  '(_, der) ← head (pem_blocks raw); mjoin (ParsePKCS8 der).

Definition EncodeKeyPEM (priv : bytes) : option bytes :=
  der ← MarshalPKCS8 priv; Some (pem_encode PRIVATE_KEY der).

Definition writeCertPEM (o : write_outcome) (path : string) (der : bytes) : fs unit :=
  WriteFile o path (pem_encode CERTIFICATE der) ECA.

Definition writeKeyPEM (o : write_outcome) (path : string) (priv : bytes) : fs unit :=
  pem ← lift (of_option ECA (EncodeKeyPEM priv));
  WriteFile o path pem ECA.

Definition Load (certPath keyPath : string) : fs CA :=
  certPEM ← ReadFile certPath;
  certPEM ← lift (of_option ECA certPEM);
  keyPEM ← ReadFile keyPath;
  keyPEM ← lift (of_option ECA keyPEM);
  '(cert, der) ← lift (of_option ECA (parseCertPEM certPEM));
  key ← lift (of_option ECA (parseKeyPEM keyPEM));
  mret (MkCA cert key der).

(** Both files are there. *)
Definition stored (certPath keyPath : string) (s : FS) : bool :=
  bool_decide (is_Some (s !! certPath)) && bool_decide (is_Some (s !! keyPath)).

Definition ca_template (now serial : Z) : Template :=
  let now := now - minute in
  MkTemplate serial (ascii_bytes "DSP Node CA") ["dsp"%string] now (now + caTTL)
    [CertSign; CRLSign; DigitalSignature] [] true (Some 1) [] [].

Definition EnsureCA (now : Z) (key : option bytes) (serial : option Z) (out : string → write_outcome) : fs CA :=
  have ← gets (stored "ca.crt" "ca.key");
  if have : bool then Load "ca.crt" "ca.key"
  else
    priv ← lift (of_option ECA key);
    serial ← lift (of_option ECA serial);
    let tmpl := ca_template now serial in
    der ← lift (of_option ECA (CreateCertificate tmpl tmpl (ed_public priv) priv));
    cert ← lift (of_option ECA (ParseCertificate der));
    writeCertPEM (out "ca.crt"%string) "ca.crt" der ≫= λ _,
    writeKeyPEM (out "ca.key"%string) "ca.key" priv ≫= λ _,
    mret (MkCA cert priv der).

Definition node_template (now serial : Z) (id : bytes) (dns : list (list ascii)) (ips : list (list Z)) (ttl : Z) :
    Template :=
  let now := now - minute in
  MkTemplate serial id [] now (now + ttl) [DigitalSignature] [ClientAuth; ServerAuth] false None dns ips.

Context `{UuidText}.

Definition IssueNode (c : CA) (now : Z) (serial : option Z) (csrDER : bytes) (nodeID : uuid)
    (endpoint : string) (ttl : Z) : result ca_error (bytes * Certificate) :=
  csr ← of_option ErrInvalidCSR (ParseCertificateRequest csrDER);
  (if cr_Signed csr then Ok tt else Err ErrInvalidCSR) ≫= λ _,
  pub ← of_option ErrInvalidCSR (cr_PublicKey csr);
  '(dns, ips) ← sansFromEndpoint endpoint;
  let ttl := if ttl <=? 0 then NodeTTL else ttl in
  serial ← of_option ECA serial;
  let tmpl := node_template now serial (uuid_String nodeID) dns ips ttl in
  der ← of_option ECA (CreateCertificate tmpl (ct_Template (ca_Cert c)) pub (ca_Key c));
  parsed ← of_option ECA (ParseCertificate der);
  Ok (pem_encode CERTIFICATE der, parsed).

Definition service_template (now serial : Z) (name : string) : Template :=
  let now := now - minute in
  MkTemplate serial (ascii_bytes name) [] now (now + NodeTTL) [DigitalSignature] [ServerAuth; ClientAuth]
    false None [chars name; chars "localhost"]
    [replicate 10 0 ++ [255; 255; 127; 0; 0; 1]; replicate 15 0 ++ [1]].

Definition LoadX509KeyPair (certPath keyPath : string) : fs (bytes * bytes) :=
  certPEM ← ReadFile certPath;
  certPEM ← lift (of_option ECA certPEM);
  keyPEM ← ReadFile keyPath;
  keyPEM ← lift (of_option ECA keyPEM);
  lift (of_option ECA (X509KeyPair certPEM keyPEM)).

Definition EnsureServiceCert (c : CA) (name : string) (now : Z) (key : option bytes) (serial : option Z)
    (out : string → write_outcome) : fs (bytes * bytes) :=
  let certPath := (name +:+ ".crt")%string in
  let keyPath := (name +:+ ".key")%string in
  have ← gets (stored certPath keyPath);
  if have : bool then LoadX509KeyPair certPath keyPath
  else
    priv ← lift (of_option ECA key);
    serial ← lift (of_option ECA serial);
    der ← lift (of_option ECA (CreateCertificate (service_template now serial name)
             (ct_Template (ca_Cert c)) (ed_public priv) (ca_Key c)));
    writeCertPEM (out certPath) certPath der ≫= λ _,
    writeKeyPEM (out keyPath) keyPath priv ≫= λ _,
    LoadX509KeyPair certPath keyPath.

Definition Fingerprint (cert : Certificate) : bytes := sha256 (ct_Raw cert).

Definition CreateCSR (priv : bytes) : option bytes := CreateCertificateRequest (ascii_bytes "pending") priv.

Definition ParseNodeID (cert : Certificate) : option uuid := uuid_Parse (tm_CommonName (ct_Template cert)).

(** ** What the registry asks of it *)

(** The PEM text as the registry keeps it. *)
Definition IssueNodeFromCA (c : CA) (now : Z) (serial : option Z) (csr : bytes) (nodeID : uuid)
    (endpoint : string) : option Issued :=
  match IssueNode c now serial csr nodeID endpoint NodeTTL with
  | Ok (pem, cert) =>
      pub ← ct_PublicKey cert;
      Some (MkIssued (String.string_of_list_byte pem) pub (Fingerprint cert) (tm_NotAfter (ct_Template cert)))
  | Err _ => None
  end.
End authority.

(** ** What a node certificate says *)

Section issued.
Context `{X509Laws} {text : UuidText} {text_laws : UuidTextLaws}.

Lemma sans_one endpoint dns ips :
  sansFromEndpoint endpoint = Ok (dns, ips) →
  let host := default (chars endpoint) (SplitHostPort (chars endpoint)) in
  (dns = [] ∧ ∃ ip, ParseIP host = Some ip ∧ ips = [ip]) ∨
  (ips = [] ∧ dns = [host] ∧ ParseIP host = None ∧ validDNS host = true).
Proof.
  intros Hs host. unfold sansFromEndpoint in Hs. fold host in Hs. case_bool_decide; [done|].
  destruct (ParseIP host) as [ip|] eqn:Hip; [injection Hs as <- <-; left; by eauto|].
  destruct (validDNS host) eqn:Hv; [|done]. injection Hs as <- <-. by right.
Qed.

Lemma IssueNode_ok c now serial csr id endpoint ttl pem cert :
  IssueNode c now serial csr id endpoint ttl = Ok (pem, cert) →
  ∃ pub dns ips s der,
    ParseCertificateRequest csr = Some (MkCSR true (Some pub)) ∧ sansFromEndpoint endpoint = Ok (dns, ips) ∧
    serial = Some s ∧ pem = pem_encode CERTIFICATE der ∧ SignedBy der (ed_public (ca_Key c)) = true ∧
    ParseCertificate der = Some cert ∧
    cert = MkCertificate der
      (whole_times (node_template now s (uuid_String id) dns ips (if ttl <=? 0 then NodeTTL else ttl))) (Some pub).
Proof.
  intros Hi. unfold IssueNode in Hi. destruct (ParseCertificateRequest csr) as [[signed key]|] eqn:Hr; [|done].
  cbn [of_option] in Hi. destruct signed; [|done]. destruct key as [pub|]; [|done]. cbn in Hi.
  destruct (sansFromEndpoint endpoint) as [[dns ips]|e]; [|done]. destruct serial as [s|]; [|done]. cbn in Hi.
  destruct (CreateCertificate _ _ pub _) as [der|] eqn:Hc; [|done]. cbn in Hi.
  apply parse_created in Hc as [Hp Hs]. rewrite Hp in Hi. injection Hi as <- <-.
  exists pub, dns, ips, s, der. by split_and!.
Qed.

Lemma parseCertPEM_encoded der cert :
  ParseCertificate der = Some cert → parseCertPEM (pem_encode CERTIFICATE der) = Some (cert, der).
Proof.
  intros Hp. unfold parseCertPEM. rewrite blocks_encoded. cbn [head mbind option_bind].
  rewrite option_guard_True by done. by rewrite Hp.
Qed.

Lemma encoded_not_empty t b : pem_encode t b ≠ [].
Proof. intros Hn. pose proof (blocks_encoded t b) as Hb. by rewrite Hn, blocks_empty in Hb. Qed.

Lemma parseKeyPEM_encoded k pem : EncodeKeyPEM k = Some pem → parseKeyPEM pem = Some k.
Proof.
  unfold EncodeKeyPEM, parseKeyPEM. destruct (MarshalPKCS8 k) as [der|] eqn:Hm; [|done]. intros [= <-].
  rewrite blocks_encoded. cbn [head mbind option_bind]. by rewrite (parse_marshalled _ _ Hm).
Qed.

(** What a key pair made of a fresh certificate loads as. *)
Lemma pair_loads der cert k pem :
  ParseCertificate der = Some cert → ct_PublicKey cert = Some (ed_public k) → EncodeKeyPEM k = Some pem →
  X509KeyPair (pem_encode CERTIFICATE der) pem = Some (der, k).
Proof.
  unfold EncodeKeyPEM. intros Hp Hpub Hk. destruct (MarshalPKCS8 k) as [kd|] eqn:Hm; [|done]. injection Hk as <-.
  eapply pair_matching; try apply blocks_encoded; [done| |done]. by apply parse_marshalled.
Qed.

(** C27: The authority issues only against a request that proves possession of
    an Ed25519 key, and what it issues is what the registry decided and nothing
    the request says: the certificate names the node, holds the request's key,
    has as its one alternative name the host of the registered endpoint, verifies
    under the authority's key, cannot sign others and is valid for the given
    time, 30 days by default, from a minute ago; its PEM text reads back as it,
    and with the node's key it makes a TLS key pair. *)
Theorem IssueNode_spec c now serial csr id endpoint ttl pem cert :
  uuid_wf id → IssueNode c now serial csr id endpoint ttl = Ok (pem, cert) →
  ParseNodeID cert = Some id ∧
  SignedBy (ct_Raw cert) (ed_public (ca_Key c)) = true ∧
  (∃ pub, ct_PublicKey cert = Some pub ∧ ParseCertificateRequest csr = Some (MkCSR true (Some pub))) ∧
  (let t := ct_Template cert in
   sansFromEndpoint endpoint = Ok (tm_DNSNames t, tm_IPAddresses t) ∧
   (length (tm_DNSNames t) + length (tm_IPAddresses t) = 1)%nat ∧
   tm_IsCA t = false ∧ CertSign ∉ tm_KeyUsage t ∧ ClientAuth ∈ tm_ExtKeyUsage t ∧ ServerAuth ∈ tm_ExtKeyUsage t ∧
   tm_NotAfter t = der_time (now - minute + (if ttl <=? 0 then NodeTTL else ttl)) ∧
   tm_NotBefore t ≤ now) ∧
  parseCertPEM pem = Some (cert, ct_Raw cert) ∧
  ∀ k kpem, ct_PublicKey cert = Some (ed_public k) → EncodeKeyPEM k = Some kpem →
    X509KeyPair pem kpem = Some (ct_Raw cert, k).
Proof.
  intros Hid (pub&dns&ips&s&der&Hr&Hs&->&->&Hsig&Hp&Hcert)%IssueNode_ok.
  assert (ct_Raw cert = der) as Hraw by by rewrite Hcert.
  split_and!.
  - unfold ParseNodeID. rewrite Hcert. by apply uuid_Parse_String.
  - by rewrite Hraw.
  - exists pub. by rewrite Hcert.
  - rewrite Hcert. cbn [ct_Template whole_times node_template tm_DNSNames tm_IPAddresses tm_IsCA tm_KeyUsage
      tm_ExtKeyUsage tm_NotAfter tm_NotBefore]. split_and!; try done; try set_solver.
    + destruct (sans_one _ _ _ Hs) as [(->&ip&_&->)|(->&->&_)]; done.
    + unfold der_time, minute, second. Z.div_mod_to_equations. lia.
  - rewrite Hraw. by apply parseCertPEM_encoded.
  - intros k kpem Hk Hke. rewrite Hraw. by eapply pair_loads.
Qed.
End issued.

(** ** The authority's files *)

Section restart.
Context `{X509Laws}.

Lemma written {E} (o : write_outcome) path data (e : E) fs s s' :
  WriteFile o path data e fs = (Ok s, s') → s' = <[path := data]> fs.
Proof. destruct o; [by intros [= <-]|done|done]. Qed.

Lemma Load_run crt key fs c cert der k :
  fs !! "ca.crt"%string = Some crt → fs !! "ca.key"%string = Some key →
  parseCertPEM crt = Some (cert, der) → parseKeyPEM key = Some k → c = MkCA cert k der →
  Load "ca.crt" "ca.key" fs = (Ok c, fs).
Proof.
  intros Hc Hk Hpc Hpk ->. unfold Load, ReadFile, mbind, M_bind, gets, lift. rewrite Hc, Hk. cbn.
  by rewrite Hpc, Hpk.
Qed.

Lemma Load_state a b fs : (Load a b fs).2 = fs.
Proof.
  unfold Load, ReadFile, mbind, M_bind, gets, lift. destruct (fs !! a); cbn; [|done]. destruct (fs !! b); cbn; [|done].
  destruct (parseCertPEM _) as [[]|]; cbn; [|done]. by destruct (parseKeyPEM _).
Qed.

(** A certificate and its key, once both are written. *)
Definition pair_files (certPath keyPath : string) (der pem : bytes) (fs : FS) : FS :=
  <[keyPath := pem]> (<[certPath := pem_encode CERTIFICATE der]> fs).

Lemma write_pair {A} o1 o2 certPath keyPath der priv (k : M FS ca_error A) fs a fs' :
  (writeCertPEM o1 certPath der ≫= λ _, writeKeyPEM o2 keyPath priv ≫= λ _, k) fs = (Ok a, fs') →
  ∃ pem, EncodeKeyPEM priv = Some pem ∧ k (pair_files certPath keyPath der pem fs) = (Ok a, fs').
Proof.
  intros ([]&fs1&Hw1%written&Hk)%bind_ok. apply bind_ok in Hk as ([]&fs2&Hw2&Hk).
  unfold writeKeyPEM in Hw2. apply bind_ok in Hw2 as (pem&fs3&Hpem&Hw2%written).
  destruct (EncodeKeyPEM priv) as [pem0|]; [|done]. injection Hpem as <- <-. subst. by exists pem0.
Qed.

Lemma pair_stored certPath keyPath der pem fs :
  certPath ≠ keyPath →
  pair_files certPath keyPath der pem fs !! certPath = Some (pem_encode CERTIFICATE der) ∧
  pair_files certPath keyPath der pem fs !! keyPath = Some pem ∧
  stored certPath keyPath (pair_files certPath keyPath der pem fs) = true.
Proof.
  intros Hne. unfold stored, pair_files.
  rewrite lookup_insert_eq, lookup_insert_ne, lookup_insert_eq by done. by rewrite !bool_decide_eq_true_2.
Qed.

(** The authority is created once: whatever a successful start leaves on
    disk, every later start finds the same certificate and key there and writes
    nothing. *)
Theorem EnsureCA_once now key serial out fs c fs' :
  EnsureCA now key serial out fs = (Ok c, fs') →
  ∀ now2 key2 serial2 out2, EnsureCA now2 key2 serial2 out2 fs' = (Ok c, fs').
Proof.
  intros He now2 key2 serial2 out2. unfold EnsureCA in He |- *. apply bind_ok in He as (have&fs1&Hh&He).
  apply gets_ok in Hh as [-> ->]. unfold mbind at 1, M_bind at 1, gets.
  destruct (stored _ _ fs) eqn:Hs.
  { pose proof (Load_state "ca.crt" "ca.key" fs) as Hst. rewrite He in Hst. cbn in Hst. subst fs'.
    by rewrite Hs. }
  destruct key as [priv|]; [|done]. destruct serial as [n|]; [|done]. cbn [of_option] in He.
  apply bind_ok in He as (p&fs1&[= <- <-]&He). apply bind_ok in He as (n'&fs1&[= <- <-]&He).
  apply bind_ok in He as (der&fs1&Hder&He). apply bind_ok in He as (cert&fs2&Hcert&He).
  destruct (CreateCertificate _ _ _ _) as [der0|]; [|done]. injection Hder as <- <-.
  destruct (ParseCertificate der0) as [cert0|] eqn:Hparse; [|done]. injection Hcert as <- <-.
  apply write_pair in He as (pem&Hk&[= <- <-]).
  destruct (pair_stored "ca.crt" "ca.key" der0 pem fs) as (Hcrt&Hkey&->); [done|].
  eapply Load_run; [exact Hcrt|exact Hkey| | |done].
  - by apply parseCertPEM_encoded.
  - by apply parseKeyPEM_encoded.
Qed.

Lemma LoadX509KeyPair_run certPath keyPath fs :
  LoadX509KeyPair certPath keyPath fs =
  (of_option ECA (crt ← fs !! certPath; key ← fs !! keyPath; X509KeyPair crt key), fs).
Proof.
  unfold LoadX509KeyPair, ReadFile, mbind, M_bind, gets, lift.
  destruct (fs !! certPath); cbn; [|done]. by destruct (fs !! keyPath).
Qed.

(** The certificate of a service is made for thirty days and then kept:
    every later start serves the same one and writes nothing, expired or not. *)
Theorem EnsureServiceCert_kept c name now key serial out fs pair fs' :
  EnsureServiceCert c name now key serial out fs = (Ok pair, fs') →
  (∀ now2 key2 serial2 out2, EnsureServiceCert c name now2 key2 serial2 out2 fs' = (Ok pair, fs')) ∧
  (stored (name +:+ ".crt") (name +:+ ".key") fs = false →
   ∃ cert, ParseCertificate pair.1 = Some cert ∧ SignedBy pair.1 (ed_public (ca_Key c)) = true ∧
     tm_NotAfter (ct_Template cert) = der_time (now - minute + NodeTTL)).
Proof.
  intros He. unfold EnsureServiceCert in He |- *. apply bind_ok in He as (have&fs1&Hh&He).
  apply gets_ok in Hh as [-> ->]. unfold mbind at 1, M_bind at 1, gets.
  set (crt := (name +:+ ".crt")%string) in *. set (kp := (name +:+ ".key")%string) in *.
  assert (crt ≠ kp) as Hne. { unfold crt, kp. intros E%(inj (λ x, name +:+ x)). discriminate E. }
  destruct (stored crt kp fs) eqn:Hs.
  { assert (fs' = fs) as -> by (rewrite LoadX509KeyPair_run in He; by injection He).
    split; [|done]. intros. by rewrite Hs. }
  destruct key as [priv|]; [|done]. destruct serial as [n|]; [|done]. cbn [of_option] in He.
  apply bind_ok in He as (p&fs1&[= <- <-]&He). apply bind_ok in He as (n'&fs1&[= <- <-]&He).
  apply bind_ok in He as (der&fs1&Hder&He).
  destruct (CreateCertificate _ _ _ _) as [der0|] eqn:Hcreate; [|done]. injection Hder as <- <-.
  apply write_pair in He as (pem&Hk&He). destruct (pair_stored crt kp der0 pem fs Hne) as (Hcrt&Hkey&Hst).
  assert (fs' = pair_files crt kp der0 pem fs) as -> by (rewrite LoadX509KeyPair_run in He; by injection He).
  split; [intros; by rewrite Hst|]. intros _. apply parse_created in Hcreate as [Hp Hsig].
  rewrite LoadX509KeyPair_run, Hcrt, Hkey in He. cbn [mbind option_bind] in He.
  rewrite (pair_loads _ _ _ _ Hp eq_refl Hk) in He. injection He as <-. eexists. by split_and!.
Qed.
End restart.

(** ** An instance

    DER is the bits of the value; a PEM text holds its one block. *)
Module ToyX509.
Definition bit (b : bool) : Byte.byte := if b then Byte.x01 else Byte.x00.
Fixpoint pos_bytes (p : positive) : bytes :=
  match p with xI p => bit true :: pos_bytes p | xO p => bit false :: pos_bytes p | xH => [] end.
Fixpoint bytes_pos (l : bytes) : option positive :=
  match l with
  | [] => Some xH
  | b :: l => p ← bytes_pos l;
              if bool_decide (b = bit true) then Some (xI p)
              else if bool_decide (b = bit false) then Some (xO p) else None
  end.

Lemma bytes_pos_bytes p : bytes_pos (pos_bytes p) = Some p.
Proof. induction p as [p IH|p IH|]; cbn; [by rewrite IH..|done]. Qed.

Definition dump {A} `{Countable A} (x : A) : bytes := bit true :: pos_bytes (countable.encode x).
Definition undump {A} `{Countable A} (l : bytes) : option A :=
  match l with _ :: l => p ← bytes_pos l; countable.decode p | [] => None end.

Lemma undump_dump {A} `{Countable A} (x : A) : undump (dump x) = Some x.
Proof. unfold undump, dump. cbn. rewrite bytes_pos_bytes. apply countable.decode_encode. Qed.

Definition usage_code (u : usage) : Z := match u with DigitalSignature => 0 | CertSign => 1 | CRLSign => 2 end.
Definition code_usage (z : Z) : usage :=
  if z =? 0 then DigitalSignature else if z =? 1 then CertSign else CRLSign.
Definition ext_code (u : ext_usage) : bool := match u with ClientAuth => true | ServerAuth => false end.
Definition code_ext (b : bool) : ext_usage := if b then ClientAuth else ServerAuth.

(** The fields one by one. *)
Definition template_fields (t : Template) : list positive :=
  [countable.encode (tm_Serial t); countable.encode (tm_CommonName t); countable.encode (tm_Organization t);
   countable.encode (tm_NotBefore t); countable.encode (tm_NotAfter t);
   countable.encode (usage_code <$> tm_KeyUsage t); countable.encode (ext_code <$> tm_ExtKeyUsage t);
   countable.encode (tm_IsCA t); countable.encode (tm_MaxPathLen t); countable.encode (tm_DNSNames t);
   countable.encode (tm_IPAddresses t)].

Definition fields_template (f : list positive) : option Template :=
  match f with
  | [n; cn; org; nb; na; ku; eku; ca; mpl; dns; ips] =>
      n ← countable.decode n; cn ← countable.decode cn; org ← countable.decode org; nb ← countable.decode nb;
      na ← countable.decode na; ku ← countable.decode ku; eku ← countable.decode eku; ca ← countable.decode ca;
      mpl ← countable.decode mpl; dns ← countable.decode dns; ips ← countable.decode ips;
      Some (MkTemplate n cn org nb na (code_usage <$> ku) (code_ext <$> eku) ca mpl dns ips)
  | _ => None
  end.

Lemma fields_back t : fields_template (template_fields t) = Some t.
Proof.
  destruct t. unfold fields_template, template_fields. cbv beta iota.
  repeat (rewrite countable.decode_encode; cbn [mbind option_bind]).
  cbn. rewrite <- !list_fmap_compose. do 2 f_equal.
  - rewrite <- (list_fmap_id tm_KeyUsage0) at 2. apply list_fmap_ext. by intros ? [] _.
  - rewrite <- (list_fmap_id tm_ExtKeyUsage0) at 2. apply list_fmap_ext. by intros ? [] _.
Qed.

(** A certificate is its template, its key and its signer's key. *)
Definition make_cert (t : Template) (pub by_ : bytes) : bytes :=
  dump (countable.encode pub :: countable.encode by_ :: template_fields t).
Definition read_cert (der : bytes) : option (Template * bytes * bytes) :=
  l ← undump (A := list positive) der;
  match l with
  | pub :: by_ :: f => pub ← countable.decode pub; by_ ← countable.decode by_; t ← fields_template f; Some (t, pub, by_)
  | _ => None
  end.

Lemma read_made t pub by_ : read_cert (make_cert t pub by_) = Some (t, pub, by_).
Proof.
  unfold read_cert, make_cert. rewrite undump_dump. cbn [mbind option_bind].
  repeat (rewrite countable.decode_encode; cbn [mbind option_bind]). by rewrite fields_back.
Qed.

(** PEM: the type with every byte marked, the contents after an unmarked one. *)
Fixpoint make_pem (t b : bytes) : bytes :=
  match t with [] => bit false :: b | x :: t => bit true :: x :: make_pem t b end.
Fixpoint read_pem (text : bytes) : option (bytes * bytes) :=
  match text with
  | [] => None
  | m :: b =>
      if bool_decide (m = bit false) then Some ([], b)
      else match b with [] => None | x :: b => '(t, b) ← read_pem b; Some (x :: t, b) end
  end.

Lemma read_made_pem t b : read_pem (make_pem t b) = Some (t, b).
Proof. induction t as [|x t IH]; [done|]. cbn [make_pem read_pem]. rewrite bool_decide_eq_false_2 by done. by rewrite IH. Qed.

Section toy.
Context `{Ed25519}.

Definition toy_parse (der : bytes) : option Certificate :=
  '(t, pub, _) ← read_cert der; Some (MkCertificate der t (Some pub)).

Definition toy_pair (cert key : bytes) : option (bytes * bytes) :=
  '(t1, der) ← read_pem cert;
  '(_, kd) ← read_pem key;
  guard (t1 = CERTIFICATE);;
  c ← toy_parse der;
  k ← undump (A := bytes) kd;
  guard (ct_PublicKey c = Some (ed_public k));;
  Some (der, k).

Definition x509 : X509 := {|
  CreateCertificate t _ pub k := Some (make_cert (whole_times t) pub (ed_public k));
  ParseCertificate := toy_parse;
  SignedBy der pub := match read_cert der with Some (_, _, by_) => bool_decide (by_ = pub) | None => false end;
  CreateCertificateRequest _ k := Some (dump (ed_public k));
  ParseCertificateRequest der := pub ← undump der; Some (MkCSR true (Some pub));
  MarshalPKCS8 k := Some (dump k);
  ParsePKCS8 der := Some <$> undump der;
  pem_encode := make_pem;
  pem_blocks text := match read_pem text with Some p => [p] | None => [] end;
  X509KeyPair := toy_pair |}.

Lemma blocks_one text t b :
  pem_blocks (X509 := x509) text = [(t, b)] → read_pem text = Some (t, b).
Proof. cbn. destruct (read_pem text) as [[]|]; by intros [= -> ->]. Qed.

Lemma laws : @X509Laws _ x509.
Proof.
  split.
  - intros t parent pub k der [= <-]. cbn [ParseCertificate SignedBy x509]. unfold toy_parse.
    rewrite read_made. by rewrite bool_decide_eq_true_2.
  - intros cn k der [= <-]. split; [done|]. cbn [ParseCertificateRequest x509]. by rewrite undump_dump.
  - intros k der [= <-]. cbn [ParsePKCS8 x509]. by rewrite undump_dump.
  - intros t b. cbn [pem_blocks pem_encode x509]. by rewrite read_made_pem.
  - done.
  - intros cert key der c kd k Hc%blocks_one Hp Hk%blocks_one Hkd Hpub. cbn [X509KeyPair x509]. unfold toy_pair.
    rewrite Hc, Hk. cbn [mbind option_bind]. rewrite option_guard_True by done. cbn in Hp, Hkd. rewrite Hp.
    cbn. destruct (undump kd) as [k0|]; [|done]. injection Hkd as ->. cbn. by rewrite option_guard_True.
Qed.
End toy.
End ToyX509.
