(* ===== verification/NodeAgent.v ===== *)
(** * A node over its life: [src/internal/agent/agent.go], [config.go],
      [identity.go], [renew.go], [heartbeat.go], and the reports of [scrub.go]

    A node's configuration, its identity on disk, registration, start-up,
    heartbeats and the renewal of its certificate.  The control plane is an
    interface ([ControlPlane]): what a request does to its state, and the answer,
    [None] when there is none.  Each call is told what its disk does and what
    the clock, the runtime and the random source say.  Paths are joined for
    clean directory names; texts are ASCII. *)

From S2P Require Import Prelude GoFloat Bytes Sha256 Crypto Pipeline Schema Nodes World Files Net Wire Auth Tickets Agent.
From S2P Require Import Health Accounts Service CA.
From Stdlib Require Import Ascii.

Definition text_bytes (s : string) : bytes := String.list_byte_of_string s.
Definition bytes_text (b : bytes) : string := String.string_of_list_byte b.
#[global] Arguments text_bytes : simpl never.
#[global] Arguments bytes_text : simpl never.

Lemma bytes_text_bytes b : text_bytes (bytes_text b) = b.
Proof. apply String.list_byte_of_string_of_list_byte. Qed.

(** ** Configuration *)

Record Config := MkConfig {
  cfg_DataDir : string; cfg_MaxStorageGB : Z; cfg_MinFreeDiskGB : Z; cfg_Endpoint : string;
  cfg_RegisterURL : string; cfg_HealthmonURL : string; cfg_TicketPublicKey : string;
  cfg_RegistrationCode : string; cfg_HealthAddr : string; cfg_FragmentAddr : string; cfg_CAFile : string;
  cfg_OS : string; cfg_AgentVersion : string; cfg_HostnameLabel : string }.

Inductive life_error :=
  | LFile                    (* a file or directory *)
  | LParse                   (* a key, a certificate, an id or an answer *)
  | LConfig                  (* a setting is missing or of no use *)
  | LKey                     (* randomness, marshalling *)
  | LNoAnswer
  | LStatus (status : Z)
  | LTLS.                    (* certificate and key do not make a pair *)
#[export] Instance life_error_eq_dec : EqDecision life_error.
Proof. solve_decision. Defined.

(** [strconv.ParseInt(s, 10, 64)] with its error dropped: zero for what is no
    number, the nearest bound for what is out of range. *)
Fixpoint parse_uint (acc : Z) (s : list ascii) : option Z :=
  match s with
  | [] => Some acc
  | c :: s =>
      d ← digit c;
      let n := acc * 10 + d in
      if 2^64 - 1 <? n then Some (2^64 - 1) else parse_uint n s
  end.

Definition ParseInt (s : list ascii) : Z :=
  let '(neg, ds) := match s with
                    | "+"%char :: s => (false, s) | "-"%char :: s => (true, s) | _ => (false, s) end in
  match ds with
  | [] => 0
  | _ => match parse_uint 0 ds with
         | None => 0
         | Some n => if neg : bool then Z.max (- 2^63) (- n) else Z.min (2^63 - 1) n
         end
  end.

(** What the disk does during a call. *)
Record Disk := MkDisk {
  dk_mkdir : bool;                        (* MkdirAll fails *)
  dk_read : string → bool;                (* this file cannot be read *)
  dk_write : string → write_outcome;
  dk_open : bool }.                       (* the index cannot be opened *)
Definition sound : Disk := MkDisk false (λ _, false) (λ _, Written) false.

Definition read (dk : Disk) (fs : FS) (path : string) : option bytes :=
  if dk_read dk path then None else fs !! path.

Definition default_config (goos : string) : Config :=
  MkConfig "/var/lib/storage-agent" 10 1 "" "" "" "" "" ":9000" ":7443" "" goos "m2" "".

(** A variable that is set wins. *)
Definition override (v old : string) : string := if bool_decide (v = ""%string) then old else v.

Definition override_storage (v : string) (old : Z) : Z :=
  if bool_decide (v = ""%string) then old
  else let n := ParseInt (chars v) in if 0 <? n then n else old.

(** The file, if there is one: [yaml] sets what it mentions. *)
Definition config_file (yaml : bytes → Config → option Config) (dk : Disk) (fs : FS) (path : string)
    (cfg : Config) : result life_error Config :=
  if bool_decide (path = ""%string) then Ok cfg
  else match fs !! path with
       | None => Ok cfg
       | Some _ => b ← of_option LFile (read dk fs path); of_option LParse (yaml b cfg)
       end.

Definition ticket_key_setting (dk : Disk) (fs : FS) (env : string → string) (old : string) :
    result life_error string :=
  let key := override (env "TICKET_PUBLIC_KEY") old in
  if bool_decide (env "TICKET_PUBLIC_KEY_FILE" = ""%string) then Ok key
  else b ← of_option LFile (read dk fs (env "TICKET_PUBLIC_KEY_FILE")); Ok (TrimSpace (bytes_text b)).

Definition LoadConfig (yaml : bytes → Config → option Config) (goos : string) (env : string → string)
    (dk : Disk) (fs : FS) (yamlPath : string) : result life_error Config :=
  c ← config_file yaml dk fs yamlPath (default_config goos);
  key ← ticket_key_setting dk fs env (cfg_TicketPublicKey c);
  let c := MkConfig (override (env "DATA_DIR") (cfg_DataDir c))
             (override_storage (env "MAX_STORAGE_GB") (cfg_MaxStorageGB c)) (cfg_MinFreeDiskGB c)
             (override (env "ENDPOINT") (cfg_Endpoint c)) (override (env "REGISTER_URL") (cfg_RegisterURL c))
             (override (env "HEALTHMON_URL") (cfg_HealthmonURL c)) key
             (override (env "REGISTRATION_CODE") (cfg_RegistrationCode c))
             (override (env "HTTP_ADDR") (cfg_HealthAddr c)) (override (env "FRAGMENT_ADDR") (cfg_FragmentAddr c))
             (override (env "CA_FILE") (cfg_CAFile c)) (cfg_OS c) (cfg_AgentVersion c) (cfg_HostnameLabel c) in
  if bool_decide (cfg_Endpoint c = ""%string) || bool_decide (cfg_RegisterURL c = ""%string) ||
     bool_decide (cfg_TicketPublicKey c = ""%string) then Err LConfig
  else Ok c.

Definition capacityBytes (cfg : Config) : Z :=
  mul64 (mul64 (mul64 (cfg_MaxStorageGB cfg) 1024) 1024) 1024.

(** ** Ticket keys ([src/internal/tickets/tickets.go]) *)

Definition seedHexLen : nat := 64.

Definition ParseSeed (s : string) : option bytes :=
  let t := text_bytes (TrimSpace s) in
  if bool_decide (t = []) then None
  else match (if (length t =? seedHexLen)%nat then hex_decode t else None) with
       | Some b => if (length b =? 32)%nat then Some b else Some (sha256 t)
       | None => Some (sha256 t)
       end.

Definition PublicKeyHex (pub : bytes) : string := bytes_text (hex_encode pub).

Definition NewVerifierFromHex (h : string) : option bytes :=
  b ← hex_decode (text_bytes (TrimSpace h));
  if (length b =? 32)%nat then Some b else None.

Definition loadVerifier (hexKey : string) : result life_error bytes := of_option LParse (NewVerifierFromHex hexKey).

Definition Join (dir name : string) : string := (dir +:+ "/" +:+ name)%string.
Definition identityDir (dataDir : string) : string := Join dataDir "identity".
Definition key_path (dataDir : string) : string := Join (identityDir dataDir) "node.key".
Definition cert_path (dataDir : string) : string := Join (identityDir dataDir) "node.crt".
Definition id_path (dataDir : string) : string := Join (identityDir dataDir) "node.id".

Definition no_space (s : string) : Prop := Forall (λ c, is_space c = false) (String.list_ascii_of_string s).

Lemma rev_onto_spec acc s :
  String.list_ascii_of_string (rev_onto acc s) =
  rev (String.list_ascii_of_string s) ++ String.list_ascii_of_string acc.
Proof. revert acc. induction s as [|c s IH]; intros acc; [done|]. cbn. by rewrite IH, <- app_assoc. Qed.

Lemma trim_left_id s : no_space s → trim_left s = s.
Proof. destruct s as [|c s]; [done|]. intros [Hc _]%Forall_cons. cbn. by rewrite Hc. Qed.

Lemma TrimSpace_id s : no_space s → TrimSpace s = s.
Proof.
  intros Hs. unfold TrimSpace. rewrite (trim_left_id s) by done.
  assert (String.list_ascii_of_string (rev_onto "" s) = rev (String.list_ascii_of_string s)) as Hr
    by by rewrite rev_onto_spec, app_nil_r.
  rewrite trim_left_id by (unfold no_space; rewrite Hr; by apply List.Forall_rev).
  rewrite <- (String.string_of_list_ascii_of_string (rev_onto _ _)), rev_onto_spec, Hr, rev_involutive, app_nil_r.
  apply String.string_of_list_ascii_of_string.
Qed.

Lemma hex_no_space b : no_space (bytes_text (hex_encode b)).
Proof.
  assert (∀ i, 0 ≤ i < 16 → is_space (Ascii.ascii_of_byte (hex_digit i)) = false) as Hd.
  { intros i Hi. assert (forallb (λ i, negb (is_space (Ascii.ascii_of_byte (hex_digit i)))) (seqZ 0 16) = true)
      as Hall by by vm_compute. rewrite forallb_forall in Hall.
    specialize (Hall i (proj1 (list_elem_of_In _ _) (proj2 (elem_of_seqZ _ _ _) Hi))).
    by apply negb_true_iff in Hall. }
  unfold no_space, bytes_text. induction b as [|x b IH]; [constructor|]. pose proof (byte_Z_range x).
  cbn [hex_encode String.string_of_list_byte String.list_ascii_of_string].
  repeat apply Forall_cons_2; [apply Hd; Z.div_mod_to_equations; lia..|exact IH].
Qed.

(** A node configured with the key a signer publishes verifies with it. *)
Lemma published_key_loads pub : length pub = 32%nat → NewVerifierFromHex (PublicKeyHex pub) = Some pub.
Proof.
  intros Hl. unfold NewVerifierFromHex, PublicKeyHex.
  rewrite TrimSpace_id by apply hex_no_space. rewrite bytes_text_bytes, hex_decode_encode. cbn [mbind option_bind].
  by rewrite Hl.
Qed.

(** ** Waiting for a registration code *)

Definition poll_pause : Z := 500 * (second / 1000).

(** The [i]-th look at the file, and the clock after it; [None] out of fuel. *)
Fixpoint waitForCode (fuel : nat) (reads : nat → option bytes) (clock : nat → Z) (deadline : Z) (i : nat) :
    option (result life_error string) :=
  match fuel with
  | O => None
  | S fuel =>
      let code := TrimSpace (bytes_text (default [] (reads i))) in
      if negb (bool_decide (code = ""%string)) then Some (Ok code)
      else if deadline <? clock i then Some (Err LConfig)
      else waitForCode fuel reads clock deadline (S i)
  end.

(** Two minutes, a look every half second. *)
Definition code_polls : nat := 242.
Definition code_timeout : Z := 2 * minute.

(** ** The control plane as a node sees it *)

(** A TLS client certificate: the leaf and its key. *)
Abbreviation TLSCert := (bytes * bytes)%type.

(** An HTTP answer to a registration or a renewal: the status, and the node id
    and certificate in the body, [None] if that does not decode. *)
Record Reply := MkReply { rp_Status : Z; rp_Body : option (bytes * bytes) }.

Record heartbeatBody := MkHeartbeatBody {
  hbb_NodeID : bytes; hbb_Metrics : Metrics; hbb_AgentVersion : string }.

(** A message of a heartbeat's answer: its type, [None] if it does not decode. *)
Abbreviation hb_message := (option string).

Class ControlPlane (S : Type) := {
  cp_register : NodeRequest → S → option Reply * S;
  cp_renew : TLSCert → bytes → S → option Reply * S;      (* certificate, request in base64 *)
  cp_heartbeat : TLSCert → heartbeatBody → S → option (Z * option (list hb_message)) * S;
  cp_scrub : TLSCert → uuid → S → option Z * S }.

Record identity := MkIdentity { id_ID : uuid; id_Priv : bytes; id_Cert : bytes }.

Record Agent := MkAgent {
  ag_cfg : Config; ag_id : identity; ag_tickets : bytes; ag_caCert : option Certificate;
  ag_tlsCert : TLSCert; ag_mtls : option TLSCert; ag_healthmon : string }.

(** The host's disk and the control plane. *)
Record Machine (S : Type) := MkMachine { mc_fs : FS; mc_store : ChunkStore; mc_cp : S }.
Arguments MkMachine {S} _ _ _.
Arguments mc_fs {S} _.
Arguments mc_store {S} _.
Arguments mc_cp {S} _.

Section agent.
Context {S : Type} `{ControlPlane S, Ed25519, X509, UuidText} (dk : Disk).

Abbreviation machine A := (M (Machine S) life_error A).

(** Calls on the files, the store and the control plane. *)
Definition on_fs {A} (m : M FS life_error A) : machine A := λ s,
  let '(r, fs) := m (mc_fs s) in (r, MkMachine fs (mc_store s) (mc_cp s)).
Definition on_chunks (f : ChunkStore → ChunkStore) : machine unit := λ s,
  (Ok tt, MkMachine (mc_fs s) (f (mc_store s)) (mc_cp s)).
Definition ask {A} (f : S → option A * S) : machine A := λ s,
  let '(r, cp) := f (mc_cp s) in (of_option LNoAnswer r, MkMachine (mc_fs s) (mc_store s) cp).

Definition ReadFile (path : string) : machine (option bytes) := gets (λ s, read dk (mc_fs s) path).
Definition WriteFile (path : string) (data : bytes) : machine unit :=
  on_fs (CA.WriteFile (dk_write dk path) path data LFile).

(** A file that cannot be read counts as absent: a new key replaces it. *)
Definition loadOrCreateKey (key : option bytes) (dataDir : string) : machine bytes :=
  guard_err (dk_mkdir dk) LFile ≫= λ _,
  b ← ReadFile (key_path dataDir);
  match b with
  | Some b => lift (of_option LParse (parseKeyPEM b))
  | None =>
      priv ← lift (of_option LKey key);
      pem ← lift (of_option LKey (EncodeKeyPEM priv));
      WriteFile (key_path dataDir) pem ≫= λ _, mret priv
  end.

Definition parseNodeIDFile (dataDir : string) : machine uuid :=
  b ← ReadFile (id_path dataDir);
  b ← lift (of_option LFile b);
  lift (of_option LParse (uuid_Parse b)).

(** The identity, and whether the node is registered. *)
Definition loadIdentity (key : option bytes) (dataDir : string) : machine (identity * bool) :=
  priv ← loadOrCreateKey key dataDir;
  certPEM ← ReadFile (cert_path dataDir);
  match certPEM with
  | None => mret (MkIdentity uuid_nil priv [], false)
  | Some cert => id ← parseNodeIDFile dataDir; mret (MkIdentity id priv cert, true)
  end.

Definition persistIdentity (dataDir : string) (id : uuid) (certPEM : bytes) : machine unit :=
  WriteFile (cert_path dataDir) certPEM ≫= λ _, WriteFile (id_path dataDir) (uuid_String id).

Definition loadCACert (path : string) : machine Certificate :=
  b ← ReadFile path;
  b ← lift (of_option LFile b);
  '(cert, _) ← lift (of_option LParse (parseCertPEM b));
  mret cert.

Definition registerClient (cfg : Config) : machine unit :=
  guard_err (negb (bool_decide (url_Scheme (cfg_RegisterURL cfg) = Some (chars "https")))) LConfig ≫= λ _,
  guard_err (bool_decide (cfg_CAFile cfg = ""%string)) LConfig ≫= λ _,
  loadCACert (cfg_CAFile cfg) ≫= λ _, mret tt.

(** The control plane ignores the endpoint the node sends. *)
Definition register_request (cfg : Config) (csr : bytes) : NodeRequest :=
  MkNodeRequest (text_bytes (cfg_RegistrationCode cfg)) (padded_encode csr) (cfg_OS cfg)
    (cfg_AgentVersion cfg) (cfg_HostnameLabel cfg) (capacityBytes cfg).

Definition register (cfg : Config) (priv : bytes) : machine identity :=
  csr ← lift (of_option LKey (CreateCSR priv));
  registerClient cfg ≫= λ _,
  rp ← ask (cp_register (register_request cfg csr));
  guard_err (negb (bool_decide (rp_Status rp = 201)) && negb (bool_decide (rp_Status rp = 200)))
    (LStatus (rp_Status rp)) ≫= λ _,
  '(node, certPEM) ← lift (of_option LParse (rp_Body rp));
  id ← lift (of_option LParse (uuid_Parse node));
  persistIdentity (cfg_DataDir cfg) id certPEM ≫= λ _,
  mret (MkIdentity id priv certPEM).

Definition tlsCert (priv certPEM : bytes) : result life_error TLSCert :=
  keyPEM ← of_option LKey (EncodeKeyPEM priv);
  of_option LTLS (X509KeyPair certPEM keyPEM).

(** The code: from the configuration, or from the file it comes in. *)
Definition with_code (codeFile : string) (reads : nat → option bytes) (clock : nat → Z) (now : Z) (cfg : Config) :
    result life_error Config :=
  if negb (bool_decide (cfg_RegistrationCode cfg = ""%string)) || bool_decide (codeFile = ""%string) then Ok cfg
  else
    code ← default (Err LConfig) (waitForCode code_polls reads clock (now + code_timeout) 0);
    Ok (MkConfig (cfg_DataDir cfg) (cfg_MaxStorageGB cfg) (cfg_MinFreeDiskGB cfg) (cfg_Endpoint cfg)
          (cfg_RegisterURL cfg) (cfg_HealthmonURL cfg) (cfg_TicketPublicKey cfg) code (cfg_HealthAddr cfg)
          (cfg_FragmentAddr cfg) (cfg_CAFile cfg) (cfg_OS cfg) (cfg_AgentVersion cfg) (cfg_HostnameLabel cfg)).

(** From the identity on. *)
Definition open_with (cfg : Config) (ver : bytes) (id : identity) : machine Agent :=
  guard_err (dk_open dk) LFile ≫= λ _,
  tlsC ← lift (tlsCert (id_Priv id) (id_Cert id));
  if bool_decide (cfg_CAFile cfg = ""%string)
  then mret (MkAgent cfg id ver None tlsC None (cfg_HealthmonURL cfg))
  else
    ca ← loadCACert (cfg_CAFile cfg);
    mret (MkAgent cfg id ver (Some ca) tlsC (Some tlsC) (cfg_HealthmonURL cfg)).

Definition Open (codeFile : string) (reads : nat → option bytes) (clock : nat → Z) (now : Z) (key : option bytes)
    (cfg : Config) : machine Agent :=
  guard_err (dk_mkdir dk) LFile ≫= λ _,
  cfg ← lift (with_code codeFile reads clock now cfg);
  ver ← lift (loadVerifier (cfg_TicketPublicKey cfg));
  '(id, ready) ← loadIdentity key (cfg_DataDir cfg);
  id ← (if ready : bool then mret id else register cfg (id_Priv id));
  open_with cfg ver id.

(** ** Renewal *)

Definition renewLead : Z := 7 * 24 * hour.

(** The new certificate is on disk before it is tried; the agent changes last. *)
Definition renewed (a : Agent) (certPEM : bytes) (tlsC : TLSCert) : Agent :=
  MkAgent (ag_cfg a) (MkIdentity (id_ID (ag_id a)) (id_Priv (ag_id a)) certPEM) (ag_tickets a) (ag_caCert a) tlsC
    (if bool_decide (ag_mtls a ≠ None) && bool_decide (ag_caCert a ≠ None) then Some tlsC else ag_mtls a)
    (ag_healthmon a).

Definition renewCert (a : Agent) : machine Agent :=
  csr ← lift (of_option LKey (CreateCSR (id_Priv (ag_id a))));
  guard_err (bool_decide (url_Scheme (cfg_RegisterURL (ag_cfg a)) = None)) LConfig ≫= λ _,
  guard_err (bool_decide (ag_caCert a = None)) LConfig ≫= λ _,
  rp ← ask (cp_renew (ag_tlsCert a) (padded_encode csr));
  guard_err (300 <=? rp_Status rp) (LStatus (rp_Status rp)) ≫= λ _,
  '(_, certPEM) ← lift (of_option LParse (rp_Body rp));
  persistIdentity (cfg_DataDir (ag_cfg a)) (id_ID (ag_id a)) certPEM ≫= λ _,
  tlsC ← lift (tlsCert (id_Priv (ag_id a)) certPEM);
  mret (renewed a certPEM tlsC).

Definition maybeRenew (now : Z) (a : Agent) : machine Agent :=
  if bool_decide (id_Cert (ag_id a) = []) || bool_decide (cfg_RegisterURL (ag_cfg a) = ""%string) then mret a
  else
    '(cert, _) ← lift (of_option LParse (parseCertPEM (id_Cert (ag_id a))));
    if renewLead <? time_sub (tm_NotAfter (ct_Template cert)) now then mret a else renewCert a.

(** [_ = m] of a call that changes the agent last. *)
Definition or_keep (a : Agent) (m : machine Agent) : machine Agent := λ s,
  match m s with (Ok a', s') => (Ok a', s') | (Err _, s') => (Ok a, s') end.

(** ** Scrub reports *)

Definition reportScrub (a : Agent) (id : uuid) : machine unit :=
  match ag_mtls a with
  | Some tlsC =>
      if bool_decide (ag_healthmon a = ""%string) then mret tt
      else st ← ask (cp_scrub tlsC id); guard_err (300 <=? st) (LStatus st)
  | None => mret tt
  end.

Definition scrubOnce (a : Agent) : machine unit :=
  lost ← gets (λ s, scrub_lost (mc_store s));
  for_each (λ id, on_chunks (λ st, upd_cs_meta (delete id) (upd_cs_files (delete id) st)) ≫= λ _,
                  reportScrub a id) lost.

(** ** Heartbeats *)

Definition handleMessages (msgs : list hb_message) (a : Agent) : machine Agent :=
  for_fold (λ a m,
    if bool_decide (m = Some "renew"%string) then or_keep a (renewCert a)
    else if bool_decide (m = Some "scrub"%string) then or_keep a (scrubOnce a ≫= λ _, mret a)
    else mret a) a msgs.

(** What [runtime] and the store measure. *)
Record Gauges := MkGauges {
  gg_Goroutines : Z; gg_Procs : Z; gg_Alloc : Z; gg_Sys : Z; gg_ReadLatencyMS : float }.

Definition at_most_one (v : float) : float := if fgt v (F64.of_Z 1) then F64.of_Z 1 else v.
Definition memRatio (g : Gauges) : float :=
  if gg_Sys g =? 0 then F64.zero else at_most_one (F64.div (F64.of_Z (gg_Alloc g)) (F64.of_Z (gg_Sys g))).
Definition cpuLoad (g : Gauges) : float :=
  if gg_Procs g <=? 0 then F64.zero
  else at_most_one (F64.div (F64.div (F64.of_Z (gg_Goroutines g)) (F64.of_Z (gg_Procs g))) (F64.of_Z 8)).

Definition heartbeat_body (g : Gauges) (a : Agent) (s : ChunkStore) : heartbeatBody :=
  let '(used, n) := UsedBytes s in
  let free := Z.max 0 (sub64 (capacityBytes (ag_cfg a)) used) in
  MkHeartbeatBody (uuid_String (id_ID (ag_id a)))
    (MkMetrics free used (cpuLoad g) (memRatio g) (gg_ReadLatencyMS g) (n `mod` 2^32))
    (cfg_AgentVersion (ag_cfg a)).

(** The agent after the heartbeat; an error leaves it as it was. *)
Definition sendHeartbeat (now : Z) (g : Gauges) (a : Agent) : machine Agent :=
  match ag_mtls a with
  | Some tlsC =>
      if bool_decide (ag_healthmon a = ""%string) then mret a
      else
        body ← gets (λ s, heartbeat_body g a (mc_store s));
        '(status, msgs) ← ask (cp_heartbeat tlsC body);
        guard_err (300 <=? status) (LStatus status) ≫= λ _,
        a ← handleMessages (default [] msgs) a;
        or_keep a (maybeRenew now a)
  | None => mret a
  end.
End agent.

(** ** Waiting ends *)

(** With half a second between looks, 242 of them outlast the two minutes. *)
Lemma waitForCode_fuel reads clock deadline n i :
  (∀ j, clock j + poll_pause ≤ clock (S j)) → deadline - clock i < Z.of_nat n * poll_pause →
  waitForCode (S n) reads clock deadline i ≠ None.
Proof.
  intros Hc. revert i. induction n as [|n IH]; intros i Hn.
  - cbn [waitForCode]. case_match; [done|]. assert (deadline <? clock i = true) as ->; [|done].
    apply Z.ltb_lt. lia.
  - remember (S n) as m eqn:Hm. cbn [waitForCode]. case_match; [done|]. destruct (deadline <? clock i); [done|].
    subst m. apply IH. specialize (Hc i). unfold poll_pause, second in *. lia.
Qed.

(** The wait for a registration code comes to an end: with the code of the first
    look that finds one, or without one once the two minutes are over. *)
Lemma waitForCode_ends reads clock now :
  (∀ j, clock j + poll_pause ≤ clock (S j)) → now ≤ clock O →
  ∃ r, waitForCode code_polls reads clock (now + code_timeout) O = Some r.
Proof.
  intros Hc Hn. destruct (waitForCode code_polls reads clock (now + code_timeout) O) eqn:Hw; [by eexists|].
  exfalso. revert Hw. apply (waitForCode_fuel _ _ _ 241); [done|].
  change (Z.of_nat 241 * poll_pause) with 120500000000. unfold code_timeout, minute, second. lia.
Qed.

Lemma waitForCode_result fuel reads clock deadline i r :
  waitForCode fuel reads clock deadline i = Some r →
  let code j := TrimSpace (bytes_text (default [] (reads j))) in
  match r with
  | Ok c => ∃ j, (i ≤ j)%nat ∧ code j = c ∧ c ≠ ""%string ∧
              ∀ k, (i ≤ k < j)%nat → code k = ""%string ∧ clock k ≤ deadline
  | Err e => e = LConfig ∧ ∃ j, (i ≤ j)%nat ∧ deadline < clock j ∧ ∀ k, (i ≤ k ≤ j)%nat → code k = ""%string
  end.
Proof.
  revert i. induction fuel as [|fuel IH]; intros i; [done|]. cbn [waitForCode].
  destruct (bool_decide_reflect (TrimSpace (bytes_text (default [] (reads i))) = ""%string)) as [He|He]; cbn [negb].
  - destruct (Z.ltb_spec deadline (clock i)) as [Hd|Hd].
    + intros [= <-]. cbn. split; [done|]. exists i. split_and!; [done..|]. intros k Hk.
      by replace k with i by lia.
    + intros Hr%IH. cbn in Hr |- *. destruct r as [c|e].
      * destruct Hr as (j&Hj&Hc&Hne&Hk). exists j. split_and!; [lia|done..|]. intros k Hki.
        destruct (decide (k = i)) as [->|]; [done|apply Hk; lia].
      * destruct Hr as (->&j&Hj&Hd'&Hk). split; [done|]. exists j. split_and!; [lia|done|]. intros k Hki.
        destruct (decide (k = i)) as [->|]; [done|apply Hk; lia].
  - intros [= <-]. cbn. exists i. split_and!; [done..|]. intros k Hk. lia.
Qed.

(** ** The identity on disk *)

Lemma Join_inj dir a b : Join dir a = Join dir b → a = b.
Proof. unfold Join. intros H%(inj (λ x, dir +:+ x)). by apply (inj (λ x, "/" +:+ x)) in H. Qed.

Lemma identity_paths dir :
  key_path dir ≠ cert_path dir ∧ key_path dir ≠ id_path dir ∧ cert_path dir ≠ id_path dir.
Proof. unfold key_path, cert_path, id_path. split_and!; by intros ?%Join_inj. Qed.

Section disk.
Context {S : Type} `{ControlPlane S, X509Laws} `{!UuidText} {text_laws : UuidTextLaws}.

(** What an agent would find if it were started now. *)
Record on_disk (a : Agent) (fs : FS) : Prop := {
  od_key : ∃ b, fs !! key_path (cfg_DataDir (ag_cfg a)) = Some b ∧ parseKeyPEM b = Some (id_Priv (ag_id a));
  od_cert : fs !! cert_path (cfg_DataDir (ag_cfg a)) = Some (id_Cert (ag_id a));
  od_id : ∃ b, fs !! id_path (cfg_DataDir (ag_cfg a)) = Some b ∧ uuid_Parse b = Some (id_ID (ag_id a));
  od_pair : tlsCert (id_Priv (ag_id a)) (id_Cert (ag_id a)) = Ok (ag_tlsCert a);
  od_tickets : loadVerifier (cfg_TicketPublicKey (ag_cfg a)) = Ok (ag_tickets a);
  od_healthmon : ag_healthmon a = cfg_HealthmonURL (ag_cfg a);
  od_ca : if bool_decide (cfg_CAFile (ag_cfg a) = ""%string) then ag_caCert a = None ∧ ag_mtls a = None
          else ag_mtls a = Some (ag_tlsCert a) ∧
               ∃ b c der, fs !! cfg_CAFile (ag_cfg a) = Some b ∧ parseCertPEM b = Some (c, der) ∧ ag_caCert a = Some c }.

Definition readable (dk : Disk) : Prop :=
  dk_mkdir dk = false ∧ (∀ p, dk_read dk p = false) ∧ dk_open dk = false.
Definition writable (dk : Disk) : Prop := ∀ p, dk_write dk p = Written.

Lemma ReadFile_run dk path (s : Machine S) :
  readable dk → ReadFile dk path s = (Ok (mc_fs s !! path), s).
Proof. intros (_&Hr&_). unfold ReadFile, gets, read. by rewrite Hr. Qed.

Lemma loadCACert_run dk path (s : Machine S) b c der :
  readable dk → mc_fs s !! path = Some b → parseCertPEM b = Some (c, der) → loadCACert dk path s = (Ok c, s).
Proof.
  intros Hdk Hb Hp. unfold loadCACert. rewrite (bind_run _ _ _ _ _ (ReadFile_run dk path s Hdk)), Hb.
  unfold mbind, M_bind, lift. cbn. by rewrite Hp.
Qed.

(** A start that finds an identity asks nobody and writes nothing. *)
Lemma Open_kept dk codeFile reads clock now key cfg a (s : Machine S) :
  readable dk → on_disk a (mc_fs s) → with_code codeFile reads clock now cfg = Ok (ag_cfg a) →
  Open dk codeFile reads clock now key cfg s = (Ok a, s).
Proof.
  intros Hdk [(kb&Hk&Hkp) Hc (ib&Hi&Hip) Hpair Htk Hhm Hca] Hcode. unfold Open.
  destruct Hdk as (Hmk&Hrd&Hop). assert (readable dk) as Hdk by done.
  rewrite Hmk, (bind_run _ _ s tt s) by done. rewrite Hcode, (bind_run _ _ s (ag_cfg a) s) by done.
  rewrite Htk, (bind_run _ _ s (ag_tickets a) s) by done.
  assert (loadIdentity dk key (cfg_DataDir (ag_cfg a)) s = (Ok (ag_id a, true), s)) as Hl.
  { unfold loadIdentity, loadOrCreateKey, parseNodeIDFile. rewrite Hmk.
    rewrite (bind_run _ _ s (id_Priv (ag_id a)) s).
    2:{ rewrite (bind_run _ _ s tt s) by done. rewrite (bind_run _ _ _ _ _ (ReadFile_run dk _ s Hdk)), Hk. unfold lift. by rewrite Hkp. }
    rewrite (bind_run _ _ _ _ _ (ReadFile_run dk _ s Hdk)), Hc.
    rewrite (bind_run _ _ s (id_ID (ag_id a)) s); [by destruct (ag_id a)|].
    rewrite (bind_run _ _ _ _ _ (ReadFile_run dk _ s Hdk)), Hi. unfold mbind, M_bind, lift. cbn. by rewrite Hip. }
  rewrite (bind_run _ _ _ _ _ Hl). rewrite ret_bind. unfold open_with.
  rewrite Hop, (bind_run _ _ s tt s) by done. rewrite Hpair, (bind_run _ _ s (ag_tlsCert a) s) by done.
  destruct a as [c i t ca tls mtls hm]. cbn in *. case_bool_decide.
  - destruct Hca as [-> ->]. by subst.
  - destruct Hca as (->&b&cert&der&Hb&Hp&->). rewrite (bind_run _ _ _ _ _ (loadCACert_run dk _ s b cert der Hdk Hb Hp)).
    by subst.
Qed.

Lemma ReadFile_ok dk path (s : Machine S) b s' :
  ReadFile dk path s = (Ok b, s') → s' = s ∧ (∀ x, b = Some x → mc_fs s !! path = Some x).
Proof.
  unfold ReadFile. intros [-> ->]%gets_ok. split; [done|]. intros x. unfold read. by destruct (dk_read dk path).
Qed.

Definition set_fs (f : FS → FS) (s : Machine S) : Machine S := MkMachine (f (mc_fs s)) (mc_store s) (mc_cp s).

Lemma WriteFile_ok dk path data (s : Machine S) u s' :
  WriteFile dk path data s = (Ok u, s') → s' = set_fs <[path := data]> s.
Proof.
  unfold WriteFile, on_fs. destruct (CA.WriteFile _ _ _ _ _) as [r fs] eqn:Hw. intros [= -> <-].
  by apply written in Hw as ->.
Qed.

Lemma persistIdentity_ok dk dir id cert (s : Machine S) u s' :
  persistIdentity dk dir id cert s = (Ok u, s') →
  s' = set_fs (λ fs, <[id_path dir := uuid_String id]> (<[cert_path dir := cert]> fs)) s.
Proof. intros ([]&s1&Hw%WriteFile_ok&Hw2%WriteFile_ok)%bind_ok. by subst. Qed.

(** The files of an identity. *)
Definition key_file (dir : string) (priv : bytes) (fs : FS) : Prop :=
  ∃ b, fs !! key_path dir = Some b ∧ parseKeyPEM b = Some priv.
Definition cert_files (dir : string) (id : uuid) (cert : bytes) (fs : FS) : Prop :=
  fs !! cert_path dir = Some cert ∧ ∃ b, fs !! id_path dir = Some b ∧ uuid_Parse b = Some id.

Lemma persisted_files dir id cert fs :
  uuid_wf id → cert_files dir id cert (<[id_path dir := uuid_String id]> (<[cert_path dir := cert]> fs)).
Proof.
  intros Hid. destruct (identity_paths dir) as (_&_&Hne). unfold cert_files.
  rewrite lookup_insert_ne, lookup_insert_eq by done. split; [done|]. exists (uuid_String id).
  split; [by rewrite lookup_insert_eq|]. by apply uuid_Parse_String.
Qed.

Lemma key_file_kept dir priv id cert fs :
  key_file dir priv fs → key_file dir priv (<[id_path dir := uuid_String id]> (<[cert_path dir := cert]> fs)).
Proof.
  intros (b&Hb&Hp). destruct (identity_paths dir) as (?&?&_). exists b. by rewrite !lookup_insert_ne.
Qed.

Lemma loadOrCreateKey_ok dk key dir (s : Machine S) priv s' :
  loadOrCreateKey dk key dir s = (Ok priv, s') →
  key_file dir priv (mc_fs s') ∧ mc_cp s' = mc_cp s ∧
  ∀ p, p ≠ key_path dir → mc_fs s' !! p = mc_fs s !! p.
Proof.
  unfold loadOrCreateKey. intros ([]&s1&[_ ->]%guard_ok&Hl)%bind_ok.
  apply bind_ok in Hl as (b&s1&[-> Hb]%ReadFile_ok&Hl). destruct b as [b|].
  - destruct (parseKeyPEM b) as [k|] eqn:Hp; [|done]. injection Hl as -> <-.
    split; [|done]. exists b. by split; [apply Hb|].
  - destruct key as [k|]; [|done]. apply bind_ok in Hl as (k0&s1&[= <- <-]&Hl).
    apply bind_ok in Hl as (pem&s1&Hpem&Hl). destruct (EncodeKeyPEM k) as [pem0|] eqn:He; [|done].
    injection Hpem as <- <-. apply bind_ok in Hl as ([]&s1&->%WriteFile_ok&[= -> <-]).
    split_and!; [|done|intros p Hp; cbn; by rewrite lookup_insert_ne]. exists pem0. cbn. rewrite lookup_insert_eq.
    split; [done|]. by apply parseKeyPEM_encoded.
Qed.

(** A host without a certificate file is not registered. *)
Lemma loadIdentity_new dk key dir (s : Machine S) id ready s' :
  mc_fs s !! cert_path dir = None → loadIdentity dk key dir s = (Ok (id, ready), s') → ready = false.
Proof.
  intros Hn. unfold loadIdentity. intros (priv&s1&(_&_&Hp)%loadOrCreateKey_ok&Hl)%bind_ok.
  apply bind_ok in Hl as (c&s2&[-> Hc]%ReadFile_ok&Hl). destruct c as [c|]; [|by injection Hl as _ <- _].
  specialize (Hc c eq_refl). rewrite Hp, Hn in Hc; [done|]. destruct (identity_paths dir) as (?&?&?). congruence.
Qed.

Lemma loadIdentity_ok dk key dir (s : Machine S) id ready s' :
  loadIdentity dk key dir s = (Ok (id, ready), s') →
  key_file dir (id_Priv id) (mc_fs s') ∧ mc_cp s' = mc_cp s ∧
  (ready = true → cert_files dir (id_ID id) (id_Cert id) (mc_fs s')).
Proof.
  unfold loadIdentity. intros (priv&s1&(Hk&Hcp&_)%loadOrCreateKey_ok&Hl)%bind_ok.
  apply bind_ok in Hl as (c&s2&[-> Hc]%ReadFile_ok&Hl). destruct c as [c|]; [|by injection Hl as <- <- <-].
  apply bind_ok in Hl as (i&s2&Hi&[= <- <- <-]). unfold parseNodeIDFile in Hi.
  apply bind_ok in Hi as (b&s3&[-> Hb]%ReadFile_ok&Hi). destruct b as [b|]; [|done].
  apply bind_ok in Hi as (b0&s3&[= <- <-]&Hi). destruct (uuid_Parse b) as [u|] eqn:Hu; [|done]. injection Hi as -> <-.
  split_and!; [done..|]. intros _. split; [by apply Hc|]. exists b. by split; [apply Hb|].
Qed.

(** What a successful registration asked, got and kept. *)
Lemma register_ok dk cfg priv (s : Machine S) id s' :
  register dk cfg priv s = (Ok id, s') →
  ∃ csr rp node, CreateCSR priv = Some csr ∧
    cp_register (register_request cfg csr) (mc_cp s) = (Some rp, mc_cp s') ∧
    (rp_Status rp = 200 ∨ rp_Status rp = 201) ∧ rp_Body rp = Some (node, id_Cert id) ∧
    uuid_Parse node = Some (id_ID id) ∧ id_Priv id = priv ∧
    mc_fs s' = <[id_path (cfg_DataDir cfg) := uuid_String (id_ID id)]>
                 (<[cert_path (cfg_DataDir cfg) := id_Cert id]> (mc_fs s)).
Proof.
  unfold register. intros (csr&s1&Hcsr&Hr)%bind_ok. destruct (CreateCSR priv) as [csr0|] eqn:He; [|done].
  injection Hcsr as <- <-. apply bind_ok in Hr as ([]&s1&Hcl&Hr).
  assert (s1 = s) as ->.
  { unfold registerClient in Hcl. apply bind_ok in Hcl as ([]&s2&[_ ->]%guard_ok&Hcl).
    apply bind_ok in Hcl as ([]&s2&[_ ->]%guard_ok&Hcl). apply bind_ok in Hcl as (c&s2&Hc&[= <-]).
    unfold loadCACert in Hc. apply bind_ok in Hc as (b&s3&[-> _]%ReadFile_ok&Hc).
    apply bind_ok in Hc as (b0&s3&Hb&Hc). destruct b; [|done]. injection Hb as <- <-.
    apply bind_ok in Hc as ([c0 d]&s3&Hp&[= _ <-]). destruct (parseCertPEM _) as [[]|]; [|done]. by injection Hp as _ _ <-. }
  apply bind_ok in Hr as (rp&s1&Ha&Hr). unfold ask in Ha.
  destruct (cp_register _ _) as [[rp0|] cp] eqn:Hcp; [|done]. injection Ha as <- <-.
  apply bind_ok in Hr as ([]&s1&[Hst ->]%guard_ok&Hr). apply bind_ok in Hr as ([node pem]&s1&Hb&Hr).
  destruct (rp_Body rp0) as [[node0 pem0]|] eqn:Hbody; [|done]. injection Hb as <- <- <-.
  apply bind_ok in Hr as (u&s1&Hu&Hr). destruct (uuid_Parse node0) as [u0|] eqn:Hp; [|done]. injection Hu as <- <-.
  apply bind_ok in Hr as ([]&s1&->%persistIdentity_ok&[= <- <-]).
  exists csr0, rp0, node0. cbn. split_and!; try done.
  apply andb_false_iff in Hst. rewrite !negb_false_iff, !bool_decide_eq_true in Hst. by destruct Hst; [right|left].
Qed.

Lemma open_with_ok dk cfg ver id (s : Machine S) a s' :
  open_with dk cfg ver id s = (Ok a, s') →
  s' = s ∧ ag_cfg a = cfg ∧ ag_id a = id ∧ ag_tickets a = ver ∧ ag_healthmon a = cfg_HealthmonURL cfg ∧
  tlsCert (id_Priv id) (id_Cert id) = Ok (ag_tlsCert a) ∧
  if bool_decide (cfg_CAFile cfg = ""%string) then ag_caCert a = None ∧ ag_mtls a = None
  else ag_mtls a = Some (ag_tlsCert a) ∧
       ∃ b c der, mc_fs s !! cfg_CAFile cfg = Some b ∧ parseCertPEM b = Some (c, der) ∧ ag_caCert a = Some c.
Proof.
  unfold open_with. intros ([]&s1&[_ ->]%guard_ok&Ho)%bind_ok. apply bind_ok in Ho as (t&s1&Ht&Ho).
  unfold lift in Ht. injection Ht as Ht <-. case_bool_decide.
  - injection Ho as <- <-. by split_and!.
  - apply bind_ok in Ho as (c&s1&Hc&[= <- <-]). unfold loadCACert in Hc.
    apply bind_ok in Hc as (b&s2&[-> Hb]%ReadFile_ok&Hc). destruct b as [b|]; [|done].
    apply bind_ok in Hc as (b0&s2&[= <- <-]&Hc). apply bind_ok in Hc as ([c0 d]&s2&Hp&[= <- <-]).
    destruct (parseCertPEM b) as [[c1 d1]|] eqn:Hpc; [|done]. injection Hp as <- <- <-. cbn.
    split_and!; try done. exists b, c1, d1. split_and!; auto.
Qed.

(** Whatever the disk did, a start that succeeded left its identity on it. *)
Lemma Open_on_disk dk codeFile reads clock now key cfg (s : Machine S) a s' :
  Open dk codeFile reads clock now key cfg s = (Ok a, s') →
  on_disk a (mc_fs s') ∧ with_code codeFile reads clock now cfg = Ok (ag_cfg a).
Proof.
  unfold Open. intros ([]&s1&[_ ->]%guard_ok&Ho)%bind_ok. apply bind_ok in Ho as (c&s1&Hc&Ho).
  unfold lift in Hc. injection Hc as Hc <-. apply bind_ok in Ho as (ver&s1&Hv&Ho).
  unfold lift in Hv. injection Hv as Hv <-. apply bind_ok in Ho as ([id ready]&s1&(Hk&_&Hf)%loadIdentity_ok&Ho).
  apply bind_ok in Ho as (id'&s2&Hid&Ho). apply open_with_ok in Ho as (->&Hcfg&Hai&Htk&Hhm&Hpair&Hca).
  assert (key_file (cfg_DataDir c) (id_Priv id') (mc_fs s2) ∧
          cert_files (cfg_DataDir c) (id_ID id') (id_Cert id') (mc_fs s2)) as [Hkey (Hcert&b&Hb&Hp)].
  { destruct ready; [injection Hid as <- <-; by auto|].
    apply register_ok in Hid as (csr&rp&node&_&_&_&_&Hu&Hpr&Hfs). rewrite Hfs, Hpr.
    split; [by apply key_file_kept|]. apply persisted_files. by eapply uuid_Parse_wf. }
  split; [|by rewrite Hcfg]. split; rewrite ?Hcfg, ?Hai, ?Htk; try done. by exists b.
Qed.

Lemma with_code_dir codeFile reads clock now cfg c :
  with_code codeFile reads clock now cfg = Ok c → cfg_DataDir c = cfg_DataDir cfg.
Proof.
  unfold with_code. destruct (_ || _); [by intros [= <-]|].
  destruct (default _ _) as [code|]; [|done]. by intros [= <-].
Qed.

(** A start on such a host registers. *)
Lemma Open_registers dk codeFile reads clock now key cfg (s : Machine S) a s' :
  mc_fs s !! cert_path (cfg_DataDir cfg) = None →
  Open dk codeFile reads clock now key cfg s = (Ok a, s') →
  ∃ s1, register dk (ag_cfg a) (id_Priv (ag_id a)) s1 = (Ok (ag_id a), s') ∧ mc_cp s1 = mc_cp s.
Proof.
  intros Hn. unfold Open. intros ([]&s1&[_ ->]%guard_ok&Ho)%bind_ok. apply bind_ok in Ho as (c&s1&Hc&Ho).
  unfold lift in Hc. injection Hc as Hc <-. apply with_code_dir in Hc. rewrite <- Hc in Hn.
  apply bind_ok in Ho as (ver&s1&Hv&Ho). unfold lift in Hv. injection Hv as Hv <-.
  apply bind_ok in Ho as ([id ready]&s1&Hl&Ho). pose proof (loadIdentity_new _ _ _ _ _ _ _ Hn Hl) as ->.
  apply loadIdentity_ok in Hl as (_&Hcp&_). apply bind_ok in Ho as (id'&s2&Hid&Ho).
  apply open_with_ok in Ho as (->&Hcfg&Hai&_). exists s1. split; [|done].
  rewrite Hcfg, Hai. pose proof Hid as Hr. apply register_ok in Hr as (csr&rp&node&_&_&_&_&_&Hp&_).
  by rewrite Hp.
Qed.

(** ** Heartbeats *)

(** The agent after a call that may have failed. *)
Definition agent_of (a : Agent) (r : result life_error Agent) : Agent :=
  match r with Ok a' => a' | Err _ => a end.

Definition with_cp (cp : S) (s : Machine S) : Machine S := MkMachine (mc_fs s) (mc_store s) cp.

(** What the parts of a heartbeat keep, the heartbeat keeps. *)
Section kept.
Context (dk : Disk) (P : Agent → Machine S → Prop).
Hypothesis renew_kept : ∀ a s, P a s → P (agent_of a (renewCert dk a s).1) (renewCert dk a s).2.
Hypothesis scrub_kept : ∀ a s, P a s → P a (scrubOnce a s).2.
Hypothesis beat_kept : ∀ a s tlsC body, P a s → P a (with_cp (cp_heartbeat tlsC body (mc_cp s)).2 s).

Lemma or_keep_kept a m s :
  P (agent_of a (m s).1) (m s).2 → ∃ a' s', or_keep a m s = (Ok a', s') ∧ P a' s'.
Proof. unfold or_keep. destruct (m s) as [[a'|e] s']; by eauto. Qed.

Lemma handleMessages_kept msgs a s :
  P a s → ∃ a' s', handleMessages dk msgs a s = (Ok a', s') ∧ P a' s'.
Proof.
  revert a s. induction msgs as [|m msgs IH]; intros a s Hp; [by eexists _, _|].
  unfold handleMessages. cbn [for_fold].
  assert (∃ a1 s1, (if bool_decide (m = Some "renew"%string) then or_keep a (renewCert dk a)
    else if bool_decide (m = Some "scrub"%string) then or_keep a (scrubOnce a ≫= λ _, mret a)
    else mret a) s = (Ok a1, s1) ∧ P a1 s1) as (a1&s1&Hm&Hp1).
  { case_bool_decide; [|case_bool_decide; [|by eexists _, _]].
    - by apply or_keep_kept, renew_kept.
    - apply or_keep_kept. unfold mbind, M_bind. specialize (scrub_kept a s Hp).
      by destruct (scrubOnce a s) as [[[]|e] s1]. }
  rewrite (bind_run _ _ _ _ _ Hm). by apply IH.
Qed.

Lemma maybeRenew_kept now a s :
  P a s → P (agent_of a (maybeRenew dk now a s).1) (maybeRenew dk now a s).2.
Proof.
  intros Hp. unfold maybeRenew. destruct (_ || _); [done|]. unfold mbind, M_bind, lift.
  destruct (parseCertPEM _) as [[c d]|]; cbn; [|done]. destruct (_ <? _); [done|]. by apply renew_kept.
Qed.

Lemma sendHeartbeat_kept now g a s :
  P a s → P (agent_of a (sendHeartbeat dk now g a s).1) (sendHeartbeat dk now g a s).2.
Proof.
  intros Hp. unfold sendHeartbeat. destruct (ag_mtls a) as [t|]; [|done]. case_bool_decide; [done|].
  rewrite (bind_run _ _ s (heartbeat_body g a (mc_store s)) s) by done.
  specialize (beat_kept a s t (heartbeat_body g a (mc_store s)) Hp).
  destruct (ask (cp_heartbeat t (heartbeat_body g a (mc_store s))) s) as [[[st msgs]|e] s1] eqn:Hask.
  all: assert (s1 = with_cp (cp_heartbeat t (heartbeat_body g a (mc_store s)) (mc_cp s)).2 s) as ->
    by (unfold ask in Hask; destruct (cp_heartbeat _ _ _); by injection Hask as _ <-).
  2: { by rewrite (bind_err _ _ _ _ _ Hask). }
  rewrite (bind_run _ _ _ _ _ Hask).
  unfold guard_err. destruct (300 <=? st); [exact beat_kept|]. rewrite ret_bind.
  destruct (handleMessages_kept (default [] msgs) a _ beat_kept) as (a1&s1&Hm&Hp1).
  rewrite (bind_run _ _ _ _ _ Hm).
  destruct (or_keep_kept a1 (maybeRenew dk now a1) s1) as (a2&s2&->&Hp2); [|done].
  by apply maybeRenew_kept.
Qed.
End kept.

Lemma scrubOnce_fs a s : mc_fs (scrubOnce a s).2 = mc_fs s.
Proof.
  unfold scrubOnce. rewrite (bind_run _ _ s (scrub_lost (mc_store s)) s) by done.
  apply (for_each_inv (λ s1, mc_fs s1 = mc_fs s)); [|done]. intros id s1 _ Hs. unfold mbind, M_bind, on_chunks.
  cbn. unfold reportScrub. destruct (ag_mtls a); [|done]. case_bool_decide; [done|].
  unfold mbind, M_bind, ask. cbn. destruct (cp_scrub _ _ _) as [[st|] cp]; [|done]. cbn. unfold guard_err.
  by destruct (300 <=? st).
Qed.

(** A certificate the control plane answers a renewal with makes a pair with
    the key of the request. *)
Class ControlPlaneLaws : Prop := {
  renew_usable tls k csr kpem s rp s' node pem :
    CreateCSR k = Some csr → EncodeKeyPEM k = Some kpem →
    cp_renew tls (padded_encode csr) s = (Some rp, s') → rp_Status rp < 300 → rp_Body rp = Some (node, pem) →
    is_Some (X509KeyPair pem kpem) }.

Lemma renewCert_cases dk a (s : Machine S) :
  writable dk →
  match renewCert dk a s with
  | (Ok a', s') => ∃ csr rp node pem tlsC, CreateCSR (id_Priv (ag_id a)) = Some csr ∧
      cp_renew (ag_tlsCert a) (padded_encode csr) (mc_cp s) = (Some rp, mc_cp s') ∧ rp_Status rp < 300 ∧
      rp_Body rp = Some (node, pem) ∧ tlsCert (id_Priv (ag_id a)) pem = Ok tlsC ∧ a' = renewed a pem tlsC ∧
      mc_store s' = mc_store s ∧ ag_caCert a ≠ None ∧
      mc_fs s' = <[id_path (cfg_DataDir (ag_cfg a)) := uuid_String (id_ID (ag_id a))]>
                   (<[cert_path (cfg_DataDir (ag_cfg a)) := pem]> (mc_fs s))
  | (Err e, s') =>
      mc_store s' = mc_store s ∧
      (s' = s ∨ ∃ csr r, CreateCSR (id_Priv (ag_id a)) = Some csr ∧
        cp_renew (ag_tlsCert a) (padded_encode csr) (mc_cp s) = (r, mc_cp s') ∧
        (mc_fs s' = mc_fs s ∧ (∀ rp, r = Some rp → 300 ≤ rp_Status rp ∨ rp_Body rp = None) ∨
         ∃ rp node pem e', r = Some rp ∧ rp_Status rp < 300 ∧ rp_Body rp = Some (node, pem) ∧
           tlsCert (id_Priv (ag_id a)) pem = Err e'))
  end.
Proof.
  intros Hw. unfold renewCert. unfold mbind at 1, M_bind at 1, lift.
  destruct (CreateCSR _) as [csr|] eqn:Hcsr; cbn [of_option]; [|by split; [|left]].
  unfold guard_err. destruct (bool_decide (url_Scheme _ = None)); [by split; [|left]|]. rewrite ret_bind.
  destruct (bool_decide_reflect (ag_caCert a = None)) as [|Hca]; [by split; [|left]|]. rewrite ret_bind.
  unfold mbind at 1, M_bind at 1, ask. destruct (cp_renew _ _ _) as [[rp|] cp] eqn:Hcp; cbn [of_option].
  2:{ split; [done|]. right. exists csr, None. split_and!; [done|done|by left]. }
  destruct (Z.leb_spec 300 (rp_Status rp)) as [Hst|Hst].
  { split; [done|]. right. exists csr, (Some rp). split_and!; [done|done|]. left. split; [done|].
    intros ? [= <-]. by left. }
  rewrite ret_bind. unfold mbind at 1, M_bind at 1. destruct (rp_Body rp) as [[node pem]|] eqn:Hb; cbn [of_option].
  2:{ split; [done|]. right. exists csr, (Some rp). split_and!; [done|done|]. left. split; [done|].
      intros ? [= <-]. by right. }
  assert (∀ d i c t, persistIdentity dk d i c t =
    (Ok tt, set_fs (λ fs, <[id_path d := uuid_String i]> (<[cert_path d := c]> fs)) t)) as Hpersist.
  { intros. unfold persistIdentity, WriteFile, on_fs, mbind, M_bind, CA.WriteFile. by rewrite !Hw. }
  rewrite (bind_run _ _ _ _ _ (Hpersist _ _ _ _)). unfold mbind, M_bind.
  destruct (tlsCert _ pem) as [tlsC|e] eqn:Ht.
  - exists csr, rp, node, pem, tlsC. by split_and!.
  - split; [done|]. right. exists csr, (Some rp). split_and!; [done|done|]. right. by exists rp, node, pem, e.
Qed.

(** The agent's settings do not change, and the authority's certificate is not
    one of its identity's files. *)
Definition apart (cfg : Config) : Prop :=
  cfg_CAFile cfg ≠ cert_path (cfg_DataDir cfg) ∧ cfg_CAFile cfg ≠ id_path (cfg_DataDir cfg).

Lemma renewed_on_disk a pem tlsC fs :
  on_disk a fs → apart (ag_cfg a) → tlsCert (id_Priv (ag_id a)) pem = Ok tlsC →
  on_disk (renewed a pem tlsC)
    (<[id_path (cfg_DataDir (ag_cfg a)) := uuid_String (id_ID (ag_id a))]>
       (<[cert_path (cfg_DataDir (ag_cfg a)) := pem]> fs)).
Proof.
  intros [Hk Hc (ib&Hi&Hip) Hp Ht Hh Hca] [Hne1 Hne2] Hpair.
  destruct (persisted_files (cfg_DataDir (ag_cfg a)) (id_ID (ag_id a)) pem fs) as [Hcert Hid];
    [by eapply uuid_Parse_wf|].
  split; cbn; try done; [by apply key_file_kept|]. case_bool_decide.
  - destruct Hca as [-> ->]. done.
  - destruct Hca as (->&b&c&der&Hb&Hpc&->). split; [done|]. exists b, c, der.
    by rewrite !lookup_insert_ne by congruence.
Qed.

Context {cp_laws : ControlPlaneLaws}.

Lemma renewCert_on_disk dk a (s : Machine S) :
  writable dk → on_disk a (mc_fs s) → apart (ag_cfg a) →
  let a' := agent_of a (renewCert dk a s).1 in
  on_disk a' (mc_fs (renewCert dk a s).2) ∧ ag_cfg a' = ag_cfg a ∧ id_ID (ag_id a') = id_ID (ag_id a).
Proof.
  intros Hw Hd Ha. pose proof (renewCert_cases dk a s Hw) as Hc.
  destruct (renewCert dk a s) as [[a'|e] s']; cbn.
  - destruct Hc as (csr&rp&node&pem&tlsC&_&_&_&_&Ht&->&_&_&->). split_and!; [by apply renewed_on_disk|done..].
  - destruct Hc as (_&[-> |(csr&r&Hcsr&Hcp&[[-> _]|(rp&node&pem&e'&->&Hst&Hb&Ht)])]); [done..|]. exfalso.
    unfold tlsCert in Ht. destruct Hd as [_ _ _ Hpair _ _ _]. unfold tlsCert in Hpair.
    destruct (EncodeKeyPEM (id_Priv (ag_id a))) as [kpem|] eqn:He; [|done]. cbn in Ht.
    destruct (renew_usable _ _ _ _ _ _ _ _ _ Hcsr He Hcp Hst Hb) as [p Hp]. by rewrite Hp in Ht.
Qed.

End disk.

Arguments ControlPlaneLaws _ {_ _}.

(** ** A life *)

Section life.
Context {S : Type} `{X509Laws} `{!UuidText} {text_laws : UuidTextLaws}.

(** Heartbeats at different times over a lawful control plane, on a disk that
    takes writes, while the state of the control plane and the fragments change
    as they will. *)
Inductive lives : Agent → Machine S → Agent → Machine S → Prop :=
  | lives_refl a s : lives a s a s
  | lives_beat a s a1 s1 (cp : ControlPlane S) dk now g :
      lives a s a1 s1 → ControlPlaneLaws S → writable dk →
      lives a s (agent_of a1 (sendHeartbeat dk now g a1 s1).1) (sendHeartbeat dk now g a1 s1).2
  | lives_other a s a1 s1 store cp : lives a s a1 s1 → lives a s a1 (MkMachine (mc_fs s1) store cp).

Lemma lives_on_disk a s a1 s1 :
  lives a s a1 s1 → on_disk a (mc_fs s) → apart (ag_cfg a) →
  on_disk a1 (mc_fs s1) ∧ ag_cfg a1 = ag_cfg a ∧ id_ID (ag_id a1) = id_ID (ag_id a).
Proof.
  induction 1 as [|a s a1 s1 cp dk now g _ IH Hlaws Hw|a s a1 s1 store cp _ IH]; intros Hd Ha; [done| |by apply IH].
  specialize (IH Hd Ha).
  apply (sendHeartbeat_kept dk (λ x t, on_disk x (mc_fs t) ∧ ag_cfg x = ag_cfg a ∧ id_ID (ag_id x) = id_ID (ag_id a)));
    [| |done|done].
  - intros x t (Hx&Hcx&Hix). destruct (renewCert_on_disk dk x t Hw Hx) as (?&?&?); [by rewrite Hcx|].
    split_and!; [done|congruence..].
  - intros x t. by rewrite scrubOnce_fs.
Qed.

End life.

(** ** The listener *)

(** [TLSConfig] copies the certificate, and [ServeFragments] listens with it. *)
Definition TLSConfig (a : Agent) : TLSCert * option Certificate := (ag_tlsCert a, ag_caCert a).

Record Serving := MkServing { sv_agent : Agent; sv_listener : TLSCert * option Certificate }.
Definition ServeFragments (a : Agent) : Serving := MkServing a (TLSConfig a).

Section serving.
Context {S : Type} `{X509Laws} `{!UuidText}.

(** A turn of [heartbeatLoop]: the error is dropped. *)
Definition heartbeat_turn {cp : ControlPlane S} (dk : Disk) (now : Z) (g : Gauges) (sv : Serving) (s : Machine S) :
    Serving * Machine S :=
  let '(r, s') := sendHeartbeat dk now g (sv_agent sv) s in
  (MkServing (agent_of (sv_agent sv) r) (sv_listener sv), s').

(** The clients of [ClientTLS]: a leaf that names the node. *)
Definition ClientTLS (nodeID : uuid) (raw : list bytes) : bool :=
  match head raw with
  | Some der => match ParseCertificate der with
                | Some cert => bool_decide (ParseNodeID cert = Some nodeID)
                | None => false
                end
  | None => false
  end.
End serving.
