(* ===== verification/NodeLife.v ===== *)
(** * A node and the platform over the node's life

    The control plane a node talks to: the registration and renewal routes of
    [src/internal/metadata/http.go] ([MountNode]) over the registry and the
    certificate authority, and the heartbeat and scrub routes of
    [src/internal/healthmon/healthmon.go] behind mutual TLS, all over the
    platform's state.  With it the node of [NodeAgent] and the registry of
    [Accounts] are run together, while answers get lost. *)

From S2P Require Import Prelude GoFloat Bytes Sha256 Crypto Pipeline Schema Nodes World Placements Files Net Wire Auth Tickets.
From S2P Require Import Agent Apierr Health Accounts Metadata Service CA NodeAgent.

(** ** The routes *)

Section renew.
Context `{Ed25519, X509, UuidText} (IssueNode : option (bytes → uuid → string → option Issued)).

(** The first peer certificate, if there is one; the request in base64. *)
Definition h_Renew (now : Z) (peer : option Certificate) (body : option bytes) : M Platform code (uuid * string) :=
  cert ← lift (of_option CodeUnauthenticated peer);
  nodeID ← lift (of_option CodeUnauthenticated (ParseNodeID cert));
  text ← decode body;
  csr ← invalid (padded_decode text);
  pem ← answer (on_registry (RenewCertificate now IssueNode nodeID csr (Fingerprint cert)));
  mret (nodeID, pem).
End renew.

(** ** TLS *)

Section tls.
Context `{Ed25519, X509}.

(** The leaf a client presents, with the key it proves to hold. *)
Definition presented (t : TLSCert) : option Certificate :=
  cert ← ParseCertificate t.1;
  guard (ct_PublicKey cert = Some (ed_public t.2));;
  Some cert.

(** [RequireAndVerifyClientCert] against the platform's authority. *)
Definition verified (c : CA) (now : Z) (cert : Certificate) : bool :=
  let t := ct_Template cert in
  SignedBy (ct_Raw cert) (ed_public (ca_Key c)) &&
  (tm_NotBefore t <=? now) && (now <=? tm_NotAfter t) &&
  bool_decide (ClientAuth ∈ tm_ExtKeyUsage t).
End tls.

(** ** The platform as a control plane *)

Record Links := MkLinks {
  ln_register : Delivery; ln_renew : Delivery; ln_heartbeat : Delivery; ln_scrub : Delivery }.
Definition delivered : Links := MkLinks Delivered Delivered Delivered Delivered.

(** One exchange; nobody reads the body of an error. *)
Definition exchange {A B} (net : Delivery) (ok : A → B) (error : code → B) (h : M Platform code A) (p : Platform) :
    option B * Platform :=
  match net with
  | RequestLost => (None, p)
  | ResponseLost => (None, (h p).2)
  | Delivered => match h p with
                 | (Ok a, p') => (Some (ok a), p')
                 | (Err c, p') => (Some (error c), p')
                 end
  end.

(** A handler of the health monitor, on the platform's world. *)
Definition on_monitor {A} (m : handler A) : M Platform code A := λ p,
  let '(r, w) := m (pf_world p) in (r, set_world p w).

Section plane.
Context `{Argon2, Ed25519, Placer, X509, UuidText} (c : CA).

(** When, over which links, with what the authority draws, with what Redis does. *)
Record Moment := MkMoment { mo_now : Z; mo_links : Links; mo_serial : option Z; mo_redis : Faults }.

Definition issuer (mo : Moment) : bytes → uuid → string → option Issued :=
  IssueNodeFromCA c (mo_now mo) (mo_serial mo).

Definition registrar (mo : Moment) : Service Platform :=
  StoreService (mo_now mo) [] (λ _, None) None (Some (issuer mo)).

Definition plane_register (mo : Moment) (req : NodeRequest) : Platform → option Reply * Platform :=
  exchange (ln_register (mo_links mo))
    (λ rn, MkReply 201 (Some (uuid_String (rn_NodeID rn), text_bytes (rn_CertPEM rn))))
    (λ e, MkReply (Status e) None) (h_RegisterNode (registrar mo) (Some req)).

Definition plane_renew (mo : Moment) (t : TLSCert) (csr : bytes) (p : Platform) : option Reply * Platform :=
  match presented t with
  | None => (None, p)
  | Some cert =>
      exchange (ln_renew (mo_links mo)) (λ '(id, pem), MkReply 200 (Some (uuid_String id, text_bytes pem)))
        (λ e, MkReply (Status e) None) (h_Renew (Some (issuer mo)) (mo_now mo) (Some cert) (Some csr)) p
  end.

Definition heartbeat_req (b : heartbeatBody) : HeartbeatReq :=
  MkHeartbeat (if bool_decide (hbb_NodeID b = []) then None else Some (uuid_Parse (hbb_NodeID b)))
    (hbb_Metrics b).

(** Mutual TLS first: without a certificate that verifies there is no request. *)
Definition mtls {B} (mo : Moment) (t : TLSCert) (k : bytes → Platform → option B * Platform) (p : Platform) :
    option B * Platform :=
  match presented t with
  | Some cert => if verified c (mo_now mo) cert then k (Fingerprint cert) p else (None, p)
  | None => (None, p)
  end.

Definition plane_heartbeat (mo : Moment) (t : TLSCert) (b : heartbeatBody) :
    Platform → option (Z * option (list hb_message)) * Platform :=
  mtls mo t (λ fp, exchange (ln_heartbeat (mo_links mo))
    (λ renew, (200, Some (if renew : bool then [Some "renew"%string] else [])))
    (λ e, (Status e, None))
    (on_monitor (handleHeartbeat (mo_now mo) (mo_redis mo) (Some fp) (heartbeat_req b)))).

Definition plane_scrub (mo : Moment) (t : TLSCert) (id : uuid) : Platform → option Z * Platform :=
  mtls mo t (λ fp, exchange (ln_scrub (mo_links mo)) (λ _, 200) Status
    (on_monitor (handleScrubReport (mo_now mo) (Some fp) (uuid_Parse (uuid_String id))))).

Definition plane (mo : Moment) : ControlPlane Platform := {|
  cp_register := plane_register mo;
  cp_renew := plane_renew mo;
  cp_heartbeat := plane_heartbeat mo;
  cp_scrub := plane_scrub mo |}.
End plane.

(** ** What the authority gives a node *)

Section issued.
Context `{X509Laws} `{!UuidText} {text_laws : UuidTextLaws} (c : CA).

(** A certificate of the node [id] for the key [k]. *)
Record node_cert (cert : Certificate) (id : uuid) (k : bytes) : Prop := {
  nc_parse : ParseCertificate (ct_Raw cert) = Some cert;
  nc_key : ct_PublicKey cert = Some (ed_public k);
  nc_signed : SignedBy (ct_Raw cert) (ed_public (ca_Key c)) = true;
  nc_id : ParseNodeID cert = Some id;
  nc_client : ClientAuth ∈ tm_ExtKeyUsage (ct_Template cert) }.

Lemma CreateCSR_ok k csr :
  CreateCSR k = Some csr → csr ≠ [] ∧ ParseCertificateRequest csr = Some (MkCSR true (Some (ed_public k))).
Proof. apply parse_requested. Qed.

Lemma issued_certificate mo csr k id ep i :
  CreateCSR k = Some csr → uuid_wf id → issuer c mo csr id ep = Some i →
  ∃ cert, node_cert cert id k ∧ text_bytes (is_PEM i) = pem_encode CERTIFICATE (ct_Raw cert) ∧
    is_Pub i = ed_public k ∧ is_FP i = Fingerprint cert ∧ is_Expires i = tm_NotAfter (ct_Template cert) ∧
    tm_NotAfter (ct_Template cert) = der_time (mo_now mo - minute + NodeTTL) ∧
    tm_NotBefore (ct_Template cert) ≤ mo_now mo.
Proof.
  intros [_ Hcsr]%CreateCSR_ok Hid Hi. unfold issuer, IssueNodeFromCA in Hi.
  destruct (IssueNode _ _ _ _ _ _ _) as [[pem cert]|] eqn:Hn; [|done].
  apply IssueNode_ok in Hn as (pub&dns&ips&s&der&Hr&_&_&->&Hsig&Hp&Hcert).
  rewrite Hcsr in Hr. injection Hr as <-. rewrite Hcert in Hi. cbn in Hi. injection Hi as <-.
  assert (ct_Raw cert = der) as Hraw by by rewrite Hcert.
  exists cert. cbn [is_PEM is_Pub is_FP is_Expires]. rewrite (bytes_text_bytes (pem_encode _ _)), Hraw.
  split_and!; try done; try by rewrite Hcert.
  - split; rewrite ?Hraw; try done; rewrite Hcert; [done| |].
    + unfold ParseNodeID. by apply uuid_Parse_String.
    + cbn. left.
  - rewrite Hcert. cbn. unfold der_time, minute, second. Z.div_mod_to_equations. lia.
Qed.

Lemma issued_pair cert id k t :
  node_cert cert id k → tlsCert k (pem_encode CERTIFICATE (ct_Raw cert)) = Ok t → t = (ct_Raw cert, k).
Proof.
  intros Hc. unfold tlsCert. destruct (EncodeKeyPEM k) as [kp|] eqn:Hk; [|done].
  pose proof (pair_loads _ _ _ _ (nc_parse _ _ _ Hc) (nc_key _ _ _ Hc) Hk) as Hp.
  unfold mbind, result_bind. cbn [of_option]. rewrite Hp. by intros [= <-].
Qed.

Lemma presented_cert cert id k : node_cert cert id k → presented (ct_Raw cert, k) = Some cert.
Proof.
  intros Hc. unfold presented. cbn. rewrite (nc_parse _ _ _ Hc). cbn. by rewrite option_guard_True by apply Hc.
Qed.

Lemma presented_raw t cert : presented t = Some cert → ParseCertificate t.1 = Some cert.
Proof. unfold presented. destruct (ParseCertificate t.1); [|done]. cbn. case_guard; [|done]. by intros [= ->]. Qed.
End issued.

(** ** Exchanges *)

Lemma exchange_cases {A B} net (ok : A → B) error h p r p' :
  exchange net ok error h p = (r, p') →
  (net = RequestLost ∧ r = None ∧ p' = p) ∨
  (net ≠ RequestLost ∧ p' = (h p).2 ∧ (net = ResponseLost → r = None) ∧
   (net = Delivered → r = Some (match (h p).1 with Ok a => ok a | Err e => error e end))).
Proof.
  unfold exchange. destruct net.
  - destruct (h p) as [[a|e] q]; intros [= <- <-]; right; by split_and!.
  - intros [= <- <-]. by left.
  - intros [= <- <-]. right. by split_and!.
Qed.

Lemma Status_error e : 400 ≤ Status e.
Proof. by destruct e. Qed.

(** What other parties know a node by: its id, the fingerprint of its
    certificate, its key and the time its certificate expires. *)
Definition cred (n : Node) : uuid * bytes * bytes * option Z :=
  (n_ID n, n_CertFingerprint n, n_PublicKey n, n_CertExpiresAt n).
Definition creds (p : Platform) : list (uuid * bytes * bytes * option Z) := cred <$> db_nodes (pf_db p).

Lemma creds_update q f d :
  (∀ n, cred (f n) = cred n) → cred <$> db_nodes (upd_db_nodes (update_where q f) d) = cred <$> db_nodes d.
Proof. intros Hf. cbn. by apply update_where_fmap. Qed.

Section monitor.
Context (mo : Moment).

Lemma heartbeat_creds peer req w :
  cred <$> db_nodes (w_db (handleHeartbeat (mo_now mo) (mo_redis mo) peer req w).2) = cred <$> db_nodes (w_db w).
Proof.
  pose proof (handleHeartbeat_spec (mo_now mo) (mo_redis mo) peer req w) as Hs.
  destruct (handleHeartbeat _ _ _ _ _) as [[renew|e] w']; cbn.
  - destruct Hs as (n&_&_&_&_&_&->&_). by apply creds_update.
  - by destruct Hs as [-> _].
Qed.

Lemma scrub_creds peer id w :
  cred <$> db_nodes (w_db (handleScrubReport (mo_now mo) peer id w).2) = cred <$> db_nodes (w_db w).
Proof.
  pose proof (handleScrubReport_spec (mo_now mo) peer id w) as Hs.
  destruct (handleScrubReport _ _ _ _) as [[u|e] w']; cbn; [|by rewrite Hs].
  destruct Hs as (n&fid&lp&d1&_&_&_&_&Hm&->&_). cbn.
  assert (db_nodes d1 = db_nodes (w_db w)) as Hd.
  { unfold MarkPlacementLost in Hm. destruct (omap _ _); [done|]. by injection Hm as _ <-. }
  rewrite <- Hd. unfold ApplyReputationEvent. destruct (find_by _ _); [|done]. by apply creds_update.
Qed.

Lemma on_monitor_creds {A} (m : handler A) p :
  (∀ w, cred <$> db_nodes (w_db (m w).2) = cred <$> db_nodes (w_db w)) → creds (on_monitor m p).2 = creds p.
Proof.
  intros Hm. unfold on_monitor. specialize (Hm (pf_world p)). destruct (m (pf_world p)) as [r w]. exact Hm.
Qed.
End monitor.

(** ** One renewal *)

Section step.
Context `{Argon2, Placer} `{X509Laws} `{!UuidText} {text_laws : UuidTextLaws} (c : CA).

(** A renewal is refused and leaves the credentials of all nodes alone, or it
    gives the node of the presented certificate a new one. *)
Lemma plane_renew_cases mo t cert csr p r p' :
  presented t = Some cert → plane_renew c mo t (padded_encode csr) p = (r, p') →
  (creds p' = creds p ∧ ∀ rp, r = Some rp → 400 ≤ rp_Status rp) ∨
  (ln_renew (mo_links mo) ≠ RequestLost ∧ ∃ node n i, ParseNodeID cert = Some node ∧ n ∈ db_nodes (pf_db p) ∧
     n_ID n = node ∧ AdmitNodeRenew n = Ok tt ∧ Fingerprint cert = n_CertFingerprint n ∧
     issuer c mo csr node (n_Endpoint n) = Some i ∧ is_Pub i = n_PublicKey n ∧
     db_nodes (pf_db p') = update_where (live_with_id node) (rotated i) (db_nodes (pf_db p)) ∧
     (ln_renew (mo_links mo) = ResponseLost → r = None) ∧
     (ln_renew (mo_links mo) = Delivered → r = Some (MkReply 200 (Some (uuid_String node, text_bytes (is_PEM i)))))).
Proof.
  intros Hpres. unfold plane_renew. rewrite Hpres.
  intros [(_&->&->)|(Hnet&->&Hlost&Hdel)]%exchange_cases; [by left|].
  revert Hlost Hdel. unfold h_Renew, decode, invalid. cbn [of_option].
  rewrite (bind_run _ _ p cert p) by done.
  destruct (ParseNodeID cert) as [node|] eqn:Hnode; cbn [of_option].
  2:{ intros Hlost Hdel. left. split; [done|]. intros rp ->. destruct (ln_renew _); [|done|by specialize (Hlost eq_refl)].
      injection (Hdel eq_refl) as ->. cbn. lia. }
  rewrite (bind_run _ _ p node p) by done. rewrite (bind_run _ _ p (padded_encode csr) p) by done.
  rewrite padded_decode_encode, (bind_run _ _ p csr p) by done.
  unfold answer, on_registry, mbind, M_bind.
  destruct (RenewCertificate _ _ _ _ _ _) as [[pem|e] reg'] eqn:Hr; cbn.
  - apply RenewCertificate_ok in Hr as (n&f&i&[= <-]&Hn&Hid&Hadm&Hfp&Hi&Hpub&->&Hrows&_).
    intros Hlost Hdel. right. split; [done|]. exists node, n, i. by split_and!.
  - apply RenewCertificate_err in Hr as (_&_&_&Hrows). intros Hlost Hdel. left.
    split; [unfold creds, pf_db; cbn; by rewrite Hrows|]. intros rp ->.
    destruct (ln_renew _); [|done|by specialize (Hlost eq_refl)]. injection (Hdel eq_refl) as ->. apply Status_error.
Qed.

(** A renewal's certificate is of use to who asked for it. *)
#[export] Instance plane_laws mo : ControlPlaneLaws (H := plane c mo) Platform.
Proof.
  split. intros t k csr kpem p rp p' node pem Hcsr Hk Hcp Hst Hb.
  change (plane_renew c mo t (padded_encode csr) p = (Some rp, p')) in Hcp.
  destruct (presented t) as [cert|] eqn:Ht; [|unfold plane_renew in Hcp; by rewrite Ht in Hcp].
  apply (plane_renew_cases _ _ cert) in Hcp; [|done].
  destruct Hcp as [[_ He]|(Hnet&node'&n&i&_&_&_&_&_&Hi&_&_&Hlost&Hdel)].
  { specialize (He rp eq_refl). lia. }
  destruct (ln_renew _); [|done|by specialize (Hlost eq_refl)]. injection (Hdel eq_refl) as ->. injection Hb as <- <-.
  apply CreateCSR_ok in Hcsr as [_ Hcsr]. unfold issuer, IssueNodeFromCA in Hi.
  destruct (IssueNode _ _ _ _ _ _ _) as [[pem cert']|] eqn:Hn; [|done].
  apply IssueNode_ok in Hn as (pub&dns&ips&s&der&Hr&_&_&->&_&Hp&Hcert). rewrite Hcsr in Hr. injection Hr as <-.
  rewrite Hcert in Hi. injection Hi as <-. cbn [is_PEM]. rewrite (bytes_text_bytes (pem_encode _ _)).
  eexists. eapply pair_loads; [exact Hp| |exact Hk]. by rewrite Hcert.
Qed.

(** ** Agent and registry in step *)

(** The agent's certificate is the one the registry knows it by. *)
Record in_step (cert : Certificate) (a : Agent) (p : Platform) : Prop := {
  st_wf : uuid_wf (id_ID (ag_id a));
  st_key : is_Some (EncodeKeyPEM (id_Priv (ag_id a)));
  st_cert : node_cert c cert (id_ID (ag_id a)) (id_Priv (ag_id a));
  st_pem : id_Cert (ag_id a) = pem_encode CERTIFICATE (ct_Raw cert);
  st_tls : ag_tlsCert a = (ct_Raw cert, id_Priv (ag_id a));
  st_mtls : ag_mtls a = None ∨ ag_mtls a = Some (ag_tlsCert a) ∧ ag_caCert a ≠ None;
  st_row : (id_ID (ag_id a), Fingerprint cert, ed_public (id_Priv (ag_id a)),
            Some (tm_NotAfter (ct_Template cert))) ∈ creds p }.

Lemma in_step_creds cert a p p' : in_step cert a p → creds p ⊆ creds p' → in_step cert a p'.
Proof. intros [] Hc. split; try done. by apply Hc. Qed.

Lemma in_step_presented cert a p : in_step cert a p → presented (ag_tlsCert a) = Some cert.
Proof. intros Hs. rewrite (st_tls _ _ _ Hs). by eapply presented_cert, Hs. Qed.

(** A renewal that came through, with its answer. *)
Lemma renewed_in_step mo cert a p p' csr n i tlsC :
  in_step cert a p → CreateCSR (id_Priv (ag_id a)) = Some csr → n ∈ db_nodes (pf_db p) → n_ID n = id_ID (ag_id a) →
  n_RevokedAt n = None → issuer c mo csr (id_ID (ag_id a)) (n_Endpoint n) = Some i → is_Pub i = n_PublicKey n →
  db_nodes (pf_db p') = update_where (live_with_id (id_ID (ag_id a))) (rotated i) (db_nodes (pf_db p)) →
  tlsCert (id_Priv (ag_id a)) (text_bytes (is_PEM i)) = Ok tlsC →
  ∃ cert', in_step cert' (renewed a (text_bytes (is_PEM i)) tlsC) p' ∧
    tm_NotAfter (ct_Template cert') = der_time (mo_now mo - minute + NodeTTL).
Proof.
  intros Hs Hcsr Hn Hid Hrev Hi Hpub Hrows Htls.
  destruct (issued_certificate c mo csr _ _ _ i Hcsr (st_wf _ _ _ Hs) Hi) as (cert'&Hc&Hpem&Hkey&Hfp&Hexp&Hna&_).
  rewrite Hpem in Htls. apply (issued_pair c cert' (id_ID (ag_id a))) in Htls as ->; [|done].
  exists cert'. split; [|done]. split; cbn; try done; [apply Hs|apply Hs| |].
  - destruct (st_mtls _ _ _ Hs) as [-> |[-> Hca]]; [by left|]. right. by rewrite !bool_decide_eq_true_2.
  - unfold creds. rewrite Hrows. apply list_elem_of_fmap. exists (rotated i n). split.
    + unfold cred. cbn. by rewrite Hid, <- Hpub, Hkey, Hfp, Hexp.
    + apply elem_of_update_where. exists n. split; [done|]. unfold live_with_id.
      by rewrite !bool_decide_eq_true_2.
Qed.

Lemma live_node n : AdmitNodeRenew n = Ok tt → n_RevokedAt n = None.
Proof.
  unfold AdmitNodeRenew. destruct (bool_decide_reflect (n_RevokedAt n ≠ None)) as [|Hr]; [done|].
  intros _. by apply dec_stable.
Qed.

Lemma tlsCert_issued mo cert a p csr n i :
  in_step cert a p → CreateCSR (id_Priv (ag_id a)) = Some csr →
  issuer c mo csr (id_ID (ag_id a)) (n_Endpoint n) = Some i →
  ∃ t, tlsCert (id_Priv (ag_id a)) (text_bytes (is_PEM i)) = Ok t.
Proof.
  intros Hs Hcsr Hi. destruct (st_key _ _ _ Hs) as [kp Hk].
  destruct (issued_certificate c mo csr _ _ _ i Hcsr (st_wf _ _ _ Hs) Hi) as (cert'&Hc&Hpem&_).
  unfold tlsCert. rewrite Hk, Hpem. unfold mbind, result_bind. cbn [of_option].
  rewrite (pair_loads _ _ _ _ (nc_parse _ _ _ _ Hc) (nc_key _ _ _ _ Hc) Hk). by eexists.
Qed.

(** A renewal whose answer is not lost keeps agent and registry in step. *)
Lemma renewCert_in_step mo dk cert a s :
  writable dk → ln_renew (mo_links mo) ≠ ResponseLost → in_step cert a (mc_cp s) →
  let r := renewCert (H := plane c mo) dk a s in
  ∃ cert', in_step cert' (agent_of a r.1) (mc_cp r.2) ∧
    (∀ a', r.1 = Ok a' → tm_NotAfter (ct_Template cert') = der_time (mo_now mo - minute + NodeTTL)).
Proof.
  intros Hw Hnet Hs. pose proof (in_step_presented _ _ _ Hs) as Hpres.
  pose proof (nc_id _ _ _ _ (st_cert _ _ _ Hs)) as Hcn.
  pose proof (renewCert_cases (H := plane c mo) dk a s Hw) as Hc. cbv zeta.
  destruct (renewCert dk a s) as [[a'|e] s']; cbn [fst snd agent_of].
  - destruct Hc as (csr&rp&node&pem&tlsC&Hcsr&Hcp&Hst&Hb&Ht&->&_&_&_).
    apply (plane_renew_cases mo _ cert) in Hcp; [|done].
    destruct Hcp as [[_ He]|(Hq&node'&n&i&Hn1&Hn&Hid&Hadm&_&Hi&Hpub&Hrows&_&Hdel)]; [by specialize (He rp eq_refl); lia|].
    rewrite Hcn in Hn1. injection Hn1 as <-. destruct (ln_renew _); [|done|done].
    injection (Hdel eq_refl) as ->. injection Hb as <- <-.
    destruct (renewed_in_step mo cert a (mc_cp s) (mc_cp s') csr n i tlsC) as (cert'&Hs'&Hna);
      try done; [by apply live_node|]. exists cert'. by split; [|intros ??].
  - destruct Hc as (_&[-> |(csr&r&Hcsr&Hcp&Hr)]); [by exists cert|].
    apply (plane_renew_cases mo _ cert) in Hcp; [|done].
    destruct Hcp as [[Hcr _]|(Hq&node'&n&i&Hn1&Hn&Hid&Hadm&_&Hi&Hpub&Hrows&_&Hdel)].
    { exists cert. split; [|done]. apply (in_step_creds _ _ (mc_cp s)); [done|by rewrite Hcr]. }
    exfalso. rewrite Hcn in Hn1. injection Hn1 as <-. destruct (ln_renew _); [|done|done].
    specialize (Hdel eq_refl) as ->.
    destruct Hr as [[_ Hr]|(rp&nd&pem&e'&[= <-]&_&[= <- <-]&Ht)]; [by destruct (Hr _ eq_refl)|].
    destruct (tlsCert_issued mo cert a (mc_cp s) csr n i) as [t Ht']; try done. by rewrite Ht' in Ht.
Qed.

Lemma plane_heartbeat_creds mo t body p : creds (plane_heartbeat c mo t body p).2 = creds p.
Proof.
  unfold plane_heartbeat, mtls. destruct (presented t) as [cert|]; [|done]. destruct (verified c _ cert); [|done].
  destruct (exchange _ _ _ _ _) as [r p'] eqn:He.
  apply exchange_cases in He as [(_&_&->)|(_&->&_)]; [done|]. apply on_monitor_creds. intros w. apply heartbeat_creds.
Qed.

Lemma plane_scrub_creds mo t id p : creds (plane_scrub c mo t id p).2 = creds p.
Proof.
  unfold plane_scrub, mtls. destruct (presented t) as [cert|]; [|done]. destruct (verified c _ cert); [|done].
  destruct (exchange _ _ _ _ _) as [r p'] eqn:He.
  apply exchange_cases in He as [(_&_&->)|(_&->&_)]; [done|]. apply on_monitor_creds. intros w. apply scrub_creds.
Qed.

Lemma scrubOnce_creds mo a s : creds (mc_cp (scrubOnce (H := plane c mo) a s).2) = creds (mc_cp s).
Proof.
  unfold scrubOnce. rewrite (bind_run _ _ s (scrub_lost (mc_store s)) s) by done.
  apply (for_each_inv (λ s1, creds (mc_cp s1) = creds (mc_cp s))); [|done]. intros id s1 _ Hs.
  rewrite <- Hs. unfold mbind, M_bind, on_chunks. cbn. unfold reportScrub.
  destruct (ag_mtls a) as [t|]; [|done]. case_bool_decide; [done|].
  pose proof (plane_scrub_creds mo t id (mc_cp s1)) as Hp. unfold mbind, M_bind, ask.
  change (cp_scrub t id) with (plane_scrub c mo t id). cbn [mc_cp].
  destruct (plane_scrub c mo t id (mc_cp s1)) as [[st|] cp]; cbn in Hp |- *; [|done].
  unfold guard_err. by destruct (300 <=? st).
Qed.

(** The agent's life on the platform: heartbeats at any time, whose renewals are
    answered if they are heard, while the others add nodes and do whatever keeps
    the nodes' credentials. *)
Inductive runs : Agent → Machine Platform → Agent → Machine Platform → Prop :=
  | runs_refl a s : runs a s a s
  | runs_beat a s a1 s1 mo dk now g :
      runs a s a1 s1 → writable dk → ln_renew (mo_links mo) ≠ ResponseLost →
      runs a s (agent_of a1 (sendHeartbeat (H := plane c mo) dk now g a1 s1).1)
               (sendHeartbeat (H := plane c mo) dk now g a1 s1).2
  | runs_other a s a1 s1 store p :
      runs a s a1 s1 → creds (mc_cp s1) ⊆ creds p → runs a s a1 (MkMachine (mc_fs s1) store p).

Lemma sendHeartbeat_in_step mo dk now g a s :
  writable dk → ln_renew (mo_links mo) ≠ ResponseLost → (∃ cert, in_step cert a (mc_cp s)) →
  let r := sendHeartbeat (H := plane c mo) dk now g a s in ∃ cert, in_step cert (agent_of a r.1) (mc_cp r.2).
Proof.
  intros Hw Hnet Hs.
  apply (sendHeartbeat_kept (H := plane c mo) dk (λ x t, ∃ cert, in_step cert x (mc_cp t))); [| | |done].
  - intros x t [cert Hx]. destruct (renewCert_in_step mo dk cert x t Hw Hnet Hx) as (cert'&?&_). by exists cert'.
  - intros x t [cert Hx]. exists cert. eapply in_step_creds; [done|]. by rewrite scrubOnce_creds.
  - intros x t tls body [cert Hx]. exists cert. eapply in_step_creds; [done|]. cbn.
    by rewrite plane_heartbeat_creds.
Qed.

(** What registration makes of the node. *)
Lemma Open_in_step mo dk codeFile reads clock now key cfg (s : Machine Platform) a s' :
  registry_wf (pf_reg (mc_cp s)) → (next_id (pf_reg (mc_cp s)) < 2^128)%N →
  mc_fs s !! cert_path (cfg_DataDir cfg) = None →
  Open (H := plane c mo) dk codeFile reads clock now key cfg s = (Ok a, s') →
  ∃ cert, in_step cert a (mc_cp s').
Proof.
  intros Hwf Hid Hn Ho. pose proof Ho as [Hd _]%Open_on_disk.
  apply Open_registers in Ho as (s1&Hr&Hcp); [|done].
  apply register_ok in Hr as (csr&rp&node&Hcsr&Hreg&Hst&Hb&Hu&_&_). rewrite Hcp in Hreg.
  change (plane_register c mo (register_request (ag_cfg a) csr) (mc_cp s) = (Some rp, mc_cp s')) in Hreg.
  unfold plane_register in Hreg. apply exchange_cases in Hreg as [(_&?&_)|(Hq&Hp'&Hlost&Hdel)]; [done|].
  destruct (ln_register _); [|done|by specialize (Hlost eq_refl)]. specialize (Hdel eq_refl). injection Hdel as Hrp.
  revert Hp' Hrp. unfold h_RegisterNode, decode, invalid. cbn [of_option].
  rewrite (bind_run _ _ (mc_cp s) (register_request (ag_cfg a) csr) (mc_cp s)) by done.
  cbn [register_request nr_CSR]. rewrite padded_decode_encode, (bind_run _ _ (mc_cp s) csr (mc_cp s)) by done.
  unfold answer, registrar. cbn [sv_RegisterNode StoreService].
  unfold svc_RegisterNode, on_registry, mbind, M_bind. cbn -[RegisterNode].
  match goal with |- context [RegisterNode ?t ?f ?k ?r ?o ?v ?l ?z ?g] =>
    destruct (RegisterNode t f k r o v l z g) as [[[n pem]|e] reg'] eqn:Hrn end; cbn.
  2:{ intros _ ->. destruct Hst as [Hst|Hst]; cbn in Hst; pose proof (Status_error (acct_code e)); lia. }
  intros Hp' ->. cbn [rp_Body rn_NodeID rn_CertPEM] in Hb. injection Hb as <- Hpem. apply RegisterNode_ok in Hrn; [|apply Hwf].
  destruct Hrn as (f&rc&cd&i&[= <-]&_&_&_&_&Hi&->&Hnid&Hexp&_&_&_&_&_&Hpub&Hfp&_&_&Hrows&_).
  assert (uuid_wf (n_ID n)) as Hwfid by (unfold uuid_wf; by rewrite Hnid).
  rewrite uuid_Parse_String in Hu by done. injection Hu as Hu.
  destruct (issued_certificate c mo csr _ _ _ i Hcsr Hwfid Hi) as (cert&Hc&Hpem'&Hkey&Hfp'&Hexp'&_&_).
  rewrite Hpem' in Hpem. destruct Hd as [_ _ _ Hpair _ _ Hca]. rewrite <- Hpem in Hpair.
  assert (is_Some (EncodeKeyPEM (id_Priv (ag_id a)))) as Hk.
  { unfold tlsCert in Hpair. by destruct (EncodeKeyPEM _); [eexists|]. }
  apply (issued_pair c cert (n_ID n)) in Hpair as Htls; [|done]. rewrite Hu in *.
  exists cert. split; try done.
  - case_bool_decide; [left; by destruct Hca|]. right. destruct Hca as (->&b&ca&der&_&_&->). done.
  - rewrite Hp'. unfold creds, pf_db. cbn. rewrite Hrows, fmap_app. apply elem_of_app. right.
    apply list_elem_of_singleton. unfold cred. by rewrite Hu, Hfp, Hfp', Hpub, Hkey, Hexp, Hexp'.
Qed.


(** ** Renewal in time *)

(** A node the authority can renew: its row, its request, what would be issued. *)
Record renewable (mo : Moment) (cert : Certificate) (a : Agent) (p : Platform) (n : Node) (csr : bytes)
    (i : Issued) : Prop := {
  rn_ids : NoDup (node_ids (pf_db p));
  rn_fps : NoDup (fingerprints (pf_db p));
  rn_row : n ∈ db_nodes (pf_db p);
  rn_id : n_ID n = id_ID (ag_id a);
  rn_fp : n_CertFingerprint n = Fingerprint cert;
  rn_pub : n_PublicKey n = ed_public (id_Priv (ag_id a));
  rn_live : n_RevokedAt n = None;
  rn_good : n_Status n ≠ NQuarantined;
  rn_csr : CreateCSR (id_Priv (ag_id a)) = Some csr;
  rn_issue : issuer c mo csr (id_ID (ag_id a)) (n_Endpoint n) = Some i;
  rn_new : ∀ m, m ∈ db_nodes (pf_db p) → n_ID m ≠ n_ID n → n_CertFingerprint m ≠ is_FP i }.

Lemma renewable_pub mo cert a p n csr i :
  in_step cert a p → renewable mo cert a p n csr i → is_Pub i = n_PublicKey n.
Proof.
  intros Hs Hr. destruct (issued_certificate c mo csr _ _ _ i (rn_csr _ _ _ _ _ _ _ Hr) (st_wf _ _ _ Hs)
    (rn_issue _ _ _ _ _ _ _ Hr)) as (cert'&_&_&->&_). by rewrite (rn_pub _ _ _ _ _ _ _ Hr).
Qed.

Lemma RenewCertificate_run mo n csr i reg :
  NoDup (node_ids (r_db reg)) → n ∈ db_nodes (r_db reg) → n_RevokedAt n = None → n_Status n ≠ NQuarantined →
  csr ≠ [] → issuer c mo csr (n_ID n) (n_Endpoint n) = Some i → is_Pub i = n_PublicKey n →
  (∀ m, m ∈ db_nodes (r_db reg) → n_ID m ≠ n_ID n → n_CertFingerprint m ≠ is_FP i) →
  ∃ reg', RenewCertificate (mo_now mo) (Some (issuer c mo)) (n_ID n) csr (n_CertFingerprint n) reg = (Ok (is_PEM i), reg').
Proof.
  intros Hids Hn Hrev Hq Hcsr Hi Hpub Hnew. unfold RenewCertificate, guard_err.
  rewrite (bool_decide_eq_false_2 (Some (issuer c mo) = None)), (bool_decide_eq_false_2 (csr = [])) by done.
  cbn [orb]. rewrite ret_bind. unfold mbind at 1, M_bind at 1, on_db at 1, NodeByID.
  rewrite (query_row_unique _ n_ID (λ m, n_ID m = n_ID n) (db_nodes (r_db reg)) n) by done.
  rewrite upd_r_db_id. unfold AdmitNodeRenew. rewrite (bool_decide_eq_false_2 (n_RevokedAt n ≠ None)) by auto.
  rewrite (bool_decide_eq_false_2 (n_Status n = NQuarantined)) by done. cbn [orb is_ok negb]. rewrite ret_bind.
  rewrite bool_decide_eq_true_2 by done. cbn [negb]. rewrite ret_bind, issue_bind, Hi.
  rewrite bool_decide_eq_true_2 by done. cbn [negb]. rewrite ret_bind.
  unfold mbind at 1, M_bind at 1, on_db at 1, RotateNodeCert.
  assert (existsb (λ m, bool_decide (n_ID m ≠ n_ID n) && bool_decide (n_CertFingerprint m = is_FP i))
    (db_nodes (r_db reg)) = false) as ->.
  { apply not_true_iff_false. rewrite existsb_exists. intros (m&Hm%list_elem_of_In&Hb).
    apply andb_true_iff in Hb as [Hb1%bool_decide_eq_true Hb2%bool_decide_eq_true]. by apply (Hnew m). }
  rewrite andb_false_r. unfold update_nodes.
  assert (existsb (live_with_id (n_ID n)) (db_nodes (r_db reg)) = true) as ->; [|by eexists].
  apply existsb_exists. exists n. split; [by apply list_elem_of_In|]. unfold live_with_id.
  by rewrite !bool_decide_eq_true_2.
Qed.

(** The renewal of such a node succeeds. *)
Lemma renewCert_succeeds mo dk cert a s n csr i :
  writable dk → ln_renew (mo_links mo) = Delivered → in_step cert a (mc_cp s) → ag_caCert a ≠ None →
  url_Scheme (cfg_RegisterURL (ag_cfg a)) ≠ None → renewable mo cert a (mc_cp s) n csr i →
  ∃ a' s', renewCert (H := plane c mo) dk a s = (Ok a', s').
Proof.
  intros Hw Hnet Hs Hca Hurl Hr. pose proof (renewable_pub _ _ _ _ _ _ _ Hs Hr) as Hpub. destruct Hr as [].
  unfold renewCert. rewrite rn_csr0, (bind_run _ _ s csr s) by done.
  unfold guard_err. rewrite (bool_decide_eq_false_2 (url_Scheme _ = None)), ret_bind by done.
  rewrite (bool_decide_eq_false_2 (ag_caCert a = None)), ret_bind by done.
  pose proof (in_step_presented _ _ _ Hs) as Hpres. destruct (CreateCSR_ok _ _ rn_csr0) as [Hne _].
  rewrite <- rn_id0 in rn_issue0.
  destruct (RenewCertificate_run mo n csr i (pf_reg (mc_cp s))) as [reg' Hrun]; try done.
  assert (∃ cp, plane_renew c mo (ag_tlsCert a) (padded_encode csr) (mc_cp s) =
    (Some (MkReply 200 (Some (uuid_String (n_ID n), text_bytes (is_PEM i)))), cp)) as [cp Hcp].
  { unfold plane_renew, exchange. rewrite Hpres, Hnet. unfold h_Renew, decode, invalid. cbn [of_option].
    rewrite (bind_run _ _ (mc_cp s) cert (mc_cp s)) by done. rewrite (nc_id _ _ _ _ (st_cert _ _ _ Hs)).
    rewrite (bind_run _ _ (mc_cp s) (id_ID (ag_id a)) (mc_cp s)) by done.
    rewrite (bind_run _ _ (mc_cp s) (padded_encode csr) (mc_cp s)) by done.
    rewrite padded_decode_encode, (bind_run _ _ (mc_cp s) csr (mc_cp s)) by done.
    rewrite <- rn_id0, <- rn_fp0. unfold answer, on_registry, mbind, M_bind. rewrite Hrun. by eexists. }
  rewrite (bind_run _ _ s (MkReply 200 (Some (uuid_String (n_ID n), text_bytes (is_PEM i)))) (with_cp cp s))
    by (unfold ask; cbn [cp_renew plane]; by rewrite Hcp).
  cbn [rp_Status rp_Body Z.leb Z.compare Pos.compare Pos.compare_cont]. rewrite ret_bind.
  rewrite (bind_run _ _ (with_cp cp s) (uuid_String (n_ID n), text_bytes (is_PEM i)) (with_cp cp s)) by done.
  rewrite rn_id0 in rn_issue0. destruct (tlsCert_issued mo cert a (mc_cp s) csr n i) as [t Ht]; try done.
  unfold persistIdentity, WriteFile, on_fs, mbind, M_bind, CA.WriteFile, lift. rewrite !Hw. cbn. rewrite Ht.
  by eexists _, _.
Qed.

Lemma renewable_row mo cert a p n csr i :
  in_step cert a p → renewable mo cert a p n csr i → n_CertExpiresAt n = Some (tm_NotAfter (ct_Template cert)).
Proof.
  intros Hs []. pose proof (st_row _ _ _ Hs) as Hrow.
  unfold creds in Hrow. apply list_elem_of_fmap in Hrow as (m&Hm&Hin). unfold cred in Hm.
  injection Hm as Hid _ _ Hexp. assert (m = n) as <-; [|done].
  apply (unique_row n_ID (db_nodes (pf_db p))); try done. congruence.
Qed.

(** A heartbeat touches the node's row and no credential. *)
Definition touched (used cap now : Z) (id : uuid) (p p' : Platform) : Prop :=
  db_nodes (pf_db p') = update_where (λ m, bool_decide (n_ID m = id)) (touch_row now used cap) (db_nodes (pf_db p)).

Lemma renewable_touched mo cert a p p' n csr i used cap now :
  renewable mo cert a p n csr i → touched used cap now (n_ID n) p p' →
  renewable mo cert a p' (touch_row now used cap n) csr i.
Proof.
  intros [] Ht. unfold touched in Ht.
  assert (touch_row now used cap n ∈ db_nodes (pf_db p')) as Hin.
  { rewrite Ht. apply elem_of_update_where. exists n. by rewrite bool_decide_eq_true_2. }
  split; try done.
  - unfold node_ids. rewrite Ht. rewrite update_where_fmap by done. done.
  - unfold fingerprints. rewrite Ht. rewrite update_where_fmap by done. done.
  - cbn. by destruct (n_Status n).
  - intros m Hm. rewrite Ht in Hm. apply elem_of_update_where in Hm as (m0&Hm0&->).
    case_bool_decide; by apply (rn_new0 m0).
Qed.

Lemma handleHeartbeat_admits mo n req w :
  NoDup (fingerprints (w_db w)) → n ∈ db_nodes (w_db w) → AdmitNode n (mo_now mo) = Ok tt →
  (∀ id, hb_NodeID req = Some (Some id) → id = n_ID n) → set_fails (mo_redis mo) = false →
  ∃ w', handleHeartbeat (mo_now mo) (mo_redis mo) (Some (n_CertFingerprint n)) req w =
      (Ok (match n_CertExpiresAt n with Some e => time_sub e (mo_now mo) <? 7 * 24 * hour | None => false end), w') ∧
    db_nodes (w_db w') = update_where (λ m, bool_decide (n_ID m = n_ID n))
      (touch_row (mo_now mo) (m_UsedBytes (hb_Metrics req)) (n_CapacityBytes n)) (db_nodes (w_db w)).
Proof.
  intros Hfps Hn Hadm Hid Hset. unfold handleHeartbeat.
  assert (admitted_peer (mo_now mo) (Some (n_CertFingerprint n)) w = (Ok n, w)) as Hpeer.
  { unfold admitted_peer, mbind, M_bind, lift, or_code, with_store, NodeByFingerprint. cbn [of_option].
    rewrite (query_row_unique _ n_CertFingerprint (λ m, n_CertFingerprint m = n_CertFingerprint n)
      (db_nodes (w_db w)) n) by done. rewrite Hadm. by destruct w. }
  rewrite (bind_run _ _ _ _ _ Hpeer).
  assert (match hb_NodeID req with Some (Some id) => negb (bool_decide (id = n_ID n)) | _ => false end = false) as ->.
  { destruct (hb_NodeID req) as [[id|]|]; [|done..]. by rewrite bool_decide_eq_true_2 by by apply Hid. }
  unfold guard_err. rewrite ret_bind, Hset, ret_bind. unfold mbind at 1, M_bind at 1, modify.
  unfold mbind at 1, M_bind at 1, or_code at 1, with_store at 1. cbn [w_db upd_w_redis].
  destruct (TouchNodeStatus_found (mo_now mo) n (m_UsedBytes (hb_Metrics req)) (n_CapacityBytes n) (w_db w) Hn)
    as [from ->].
  set (w2 := upd_w_db _ (upd_w_redis _ _)).
  assert (∃ w3, (if bool_decide (from ≠ touch_status from)
    then dropped (PublishNode (mo_now mo) (MkNodeEvent (n_ID n) from (touch_status from) (mo_now mo))) else mret tt) w2 =
    (Ok tt, w3) ∧ w_db w3 = w_db w2) as (w3&Hpub&Hdb).
  { case_bool_decide; [|by exists w2]. unfold dropped, or_code, ignore_err. eexists. split; [done|]. by rewrite PublishNode_db. }
  cbv beta iota. rewrite (bind_run _ _ _ _ _ Hpub). exists w3. split; [done|]. by rewrite Hdb.
Qed.

Lemma plane_heartbeat_run mo cert a p n csr i body :
  in_step cert a p → renewable mo cert a p n csr i → ln_heartbeat (mo_links mo) = Delivered →
  set_fails (mo_redis mo) = false → hbb_NodeID body = uuid_String (id_ID (ag_id a)) →
  tm_NotBefore (ct_Template cert) ≤ mo_now mo < tm_NotAfter (ct_Template cert) →
  ∃ p' used cap, plane_heartbeat c mo (ag_tlsCert a) body p =
      (Some (200, Some (if time_sub (tm_NotAfter (ct_Template cert)) (mo_now mo) <? 7 * 24 * hour
                        then [Some "renew"%string] else [])), p') ∧
    touched used cap (mo_now mo) (n_ID n) p p'.
Proof.
  intros Hs Hr Hnet Hset Hbody Ht. pose proof (renewable_row _ _ _ _ _ _ _ Hs Hr) as Hexp.
  unfold plane_heartbeat, mtls. rewrite (in_step_presented _ _ _ Hs).
  assert (verified c (mo_now mo) cert = true) as ->.
  { unfold verified. rewrite (nc_signed _ _ _ _ (st_cert _ _ _ Hs)).
    rewrite (bool_decide_eq_true_2 _ (nc_client _ _ _ _ (st_cert _ _ _ Hs))).
    rewrite !andb_true_iff, !Z.leb_le. split_and!; [done|lia..|done]. }
  unfold exchange. rewrite Hnet. unfold on_monitor. destruct Hr. rewrite <- rn_fp0.
  destruct (handleHeartbeat_admits mo n (heartbeat_req body) (pf_world p)) as (w'&Hrun&Hrows); try done.
  - unfold AdmitNode. rewrite (bool_decide_eq_false_2 (n_RevokedAt n ≠ None)) by auto.
    rewrite bool_decide_eq_false_2 by done. rewrite Hexp. by rewrite (proj2 (Z.ltb_lt _ _)) by lia.
  - intros id. unfold heartbeat_req. cbn. case_bool_decide; [done|]. rewrite Hbody, uuid_Parse_String by apply Hs.
    intros [= <-]. done.
  - rewrite Hrun, Hexp. eexists _, _, _. split; [done|]. exact Hrows.
Qed.

(** What the agent reads off its own certificate. *)
Lemma maybeRenew_run mo dk now cert a s :
  in_step cert a (mc_cp s) → cfg_RegisterURL (ag_cfg a) ≠ ""%string →
  maybeRenew (H := plane c mo) dk now a s =
    (if renewLead <? time_sub (tm_NotAfter (ct_Template cert)) now then (Ok a, s) else renewCert (H := plane c mo) dk a s).
Proof.
  intros Hs Hurl. unfold maybeRenew. rewrite (st_pem _ _ _ Hs).
  rewrite bool_decide_eq_false_2 by apply encoded_not_empty. rewrite bool_decide_eq_false_2 by done. cbn [orb].
  rewrite (parseCertPEM_encoded _ _ (nc_parse _ _ _ _ (st_cert _ _ _ Hs))).
  unfold mbind, M_bind, lift. cbn [of_option]. by destruct (_ <? _).
Qed.

Lemma fresh_lead now t : t = der_time (now - minute + NodeTTL) → (renewLead <? time_sub t now) = true.
Proof.
  intros ->. apply Z.ltb_lt. unfold time_sub, der_time, renewLead, NodeTTL, hour, minute, second.
  Z.div_mod_to_equations. lia.
Qed.

(** The settings with which a node takes part. *)
Record takes_part (a : Agent) : Prop := {
  tp_mtls : ag_mtls a ≠ None;
  tp_healthmon : ag_healthmon a ≠ ""%string;
  tp_register : cfg_RegisterURL (ag_cfg a) ≠ ""%string;
  tp_url : url_Scheme (cfg_RegisterURL (ag_cfg a)) ≠ None }.


(** ** Shut out *)

(** Asking in vain. *)
Lemma ask_kept {A} (f : Platform → option A * Platform) (s : Machine Platform) r :
  f (mc_cp s) = (r, mc_cp s) → ask f s = (of_option LNoAnswer r, s).
Proof. intros Hf. unfold ask. rewrite Hf. by destruct s. Qed.

Lemma pf_world_id p : set_world p (pf_world p) = p.
Proof. by destruct p as [[]]. Qed.

(** No node is known by this certificate. *)
Definition stranger (cert : Certificate) (p : Platform) : Prop := Fingerprint cert ∉ fingerprints (pf_db p).

Lemma stranger_heartbeat mo cert t body p :
  presented t = Some cert → stranger cert p →
  ∃ r, plane_heartbeat c mo t body p = (r, p) ∧ ∀ st msgs, r = Some (st, msgs) → 300 ≤ st.
Proof.
  intros Ht Hx. unfold plane_heartbeat, mtls. rewrite Ht. destruct (verified c _ cert); [|by eexists].
  assert (on_monitor (handleHeartbeat (mo_now mo) (mo_redis mo) (Some (Fingerprint cert)) (heartbeat_req body)) p =
    (Err CodeForbidden, p)) as Hrun.
  { unfold on_monitor, handleHeartbeat, admitted_peer, mbind, M_bind, lift, or_code, with_store, NodeByFingerprint.
    cbn [of_option]. rewrite query_row_none.
    - cbn. by destruct p as [[]].
    - intros m Hm Hfp. apply Hx. apply list_elem_of_fmap. by exists m. }
  unfold exchange. rewrite Hrun. destruct (ln_heartbeat _); eexists; (split; [done|]); [|done|done].
  by intros st msgs [= <- _].
Qed.

Lemma stranger_renew mo cert t csr p :
  presented t = Some cert → stranger cert p →
  ∃ r, plane_renew c mo t (padded_encode csr) p = (r, p) ∧ ∀ rp, r = Some rp → 300 ≤ rp_Status rp.
Proof.
  intros Ht Hx. unfold plane_renew. rewrite Ht.
  assert (∃ e, h_Renew (Some (issuer c mo)) (mo_now mo) (Some cert) (Some (padded_encode csr)) p = (Err e, p)) as [e Hrun].
  { unfold h_Renew, decode, invalid, answer, on_registry, mbind, M_bind, lift. cbn [of_option].
    destruct (ParseNodeID cert) as [node|]; cbn [of_option]; [|by eexists]. rewrite padded_decode_encode. cbn [of_option].
    assert (∃ e, RenewCertificate (mo_now mo) (Some (issuer c mo)) node csr (Fingerprint cert) (pf_reg p) =
      (Err e, pf_reg p)) as [e ->]; [|eexists; by destruct p].
    unfold RenewCertificate, guard_err. destruct (_ || _); [by eexists|]. rewrite ret_bind.
    unfold mbind at 1, M_bind at 1, on_db at 1, NodeByID.
    destruct (query_row _ _) as [n|] eqn:Hn; [|eexists; by rewrite upd_r_db_id]. rewrite upd_r_db_id.
    destruct (negb (is_ok _)); [by eexists|]. rewrite ret_bind.
    rewrite bool_decide_eq_false_2; [by eexists|]. intros Hfp. apply Hx. apply query_row_head in Hn as [Hin _].
    apply list_elem_of_fmap. by exists n. }
  unfold exchange. rewrite Hrun. destruct (ln_renew _); eexists; (split; [done|]); [|done|done].
  intros rp [= <-]. cbn. pose proof (Status_error e). lia.
Qed.

(** A certificate nobody knows gets a node nowhere, and its tries leave no trace. *)
Lemma stranger_stays_out mo dk now g cert a s :
  presented (ag_tlsCert a) = Some cert → stranger cert (mc_cp s) → takes_part a → ag_mtls a = Some (ag_tlsCert a) →
  (∃ e, sendHeartbeat (H := plane c mo) dk now g a s = (Err e, s)) ∧
  (∃ e, renewCert (H := plane c mo) dk a s = (Err e, s)).
Proof.
  intros Ht Hx [_ Hh _ _] Hm. split.
  - unfold sendHeartbeat. rewrite Hm, bool_decide_eq_false_2 by done.
    rewrite (bind_run _ _ s (heartbeat_body g a (mc_store s)) s) by done.
    destruct (stranger_heartbeat mo cert (ag_tlsCert a) (heartbeat_body g a (mc_store s)) (mc_cp s) Ht Hx)
      as (r&Hr&Hst).
    pose proof (ask_kept (plane_heartbeat c mo (ag_tlsCert a) (heartbeat_body g a (mc_store s))) s r Hr) as Hask.
    destruct r as [[st msgs]|]; [|exists LNoAnswer; by rewrite (bind_err _ _ _ _ _ Hask)].
    rewrite (bind_run _ _ _ _ _ Hask). specialize (Hst st msgs eq_refl). unfold guard_err.
    rewrite (proj2 (Z.leb_le _ _)) by done. by exists (LStatus st).
  - unfold renewCert. destruct (CreateCSR _) as [csr|]; [|by exists LKey]. rewrite (bind_run _ _ s csr s) by done.
    unfold guard_err. destruct (bool_decide (url_Scheme _ = None)); [by exists LConfig|]. rewrite ret_bind.
    destruct (bool_decide (ag_caCert a = None)); [by exists LConfig|]. rewrite ret_bind.
    destruct (stranger_renew mo cert (ag_tlsCert a) csr (mc_cp s) Ht Hx) as (r&Hr&Hst).
    pose proof (ask_kept (plane_renew c mo (ag_tlsCert a) (padded_encode csr)) s r Hr) as Hask.
    destruct r as [rp|]; [|exists LNoAnswer; by rewrite (bind_err _ _ _ _ _ Hask)].
    rewrite (bind_run _ _ _ _ _ Hask). rewrite (proj2 (Z.leb_le _ _)) by by apply Hst. by exists (LStatus (rp_Status rp)).
Qed.

(** The answer to a renewal must not get lost.  When the registry has renewed
    a node's certificate and the node does not hear of it, the node goes on with
    the old one, on disk too, which nobody knows any more: from then on all its
    heartbeats and all its renewals fail, at any time and over any links, and
    change nothing. *)
Theorem lost_renewal_shuts_out mo dk cert a s n csr i :
  in_step cert a (mc_cp s) → renewable mo cert a (mc_cp s) n csr i → takes_part a →
  ln_renew (mo_links mo) = ResponseLost → is_FP i ≠ Fingerprint cert →
  ∃ s1, renewCert (H := plane c mo) dk a s = (Err LNoAnswer, s1) ∧ mc_fs s1 = mc_fs s ∧
    ∀ mo' dk' now' g',
      (∃ e, sendHeartbeat (H := plane c mo') dk' now' g' a s1 = (Err e, s1)) ∧
      (∃ e, renewCert (H := plane c mo') dk' a s1 = (Err e, s1)).
Proof.
  intros Hs Hr Hp Hnet Hne. pose proof (in_step_presented _ _ _ Hs) as Hpres.
  pose proof (renewable_pub _ _ _ _ _ _ _ Hs Hr) as Hpub.
  destruct (st_mtls _ _ _ Hs) as [Hm|[Hm Hca]]; [by destruct (tp_mtls _ Hp)|]. destruct Hr.
  destruct (CreateCSR_ok _ _ rn_csr0) as [Hcsr _].
  destruct (RenewCertificate_run mo n csr i (pf_reg (mc_cp s))) as [reg' Hrun]; try done; [by rewrite rn_id0|].
  pose proof Hrun as Hok. apply RenewCertificate_ok in Hok as (n0&f&i0&[= <-]&Hn0&Hid0&_&_&Hi0&_&_&Hrows&_).
  assert (n0 = n) as -> by by eapply (unique_row n_ID (db_nodes (pf_db (mc_cp s)))).
  rewrite rn_id0 in Hi0. rewrite rn_issue0 in Hi0. injection Hi0 as <-.
  set (p1 := MkPlatform reg' (pf_redis (mc_cp s)) (pf_bus (mc_cp s))).
  exists (with_cp p1 s). split_and!; [|done|].
  - unfold renewCert. rewrite rn_csr0, (bind_run _ _ s csr s) by done. unfold guard_err.
    rewrite (bool_decide_eq_false_2 (url_Scheme _ = None)), ret_bind by apply Hp.
    rewrite (bool_decide_eq_false_2 (ag_caCert a = None)), ret_bind by done.
    rewrite (bind_err _ _ s LNoAnswer (with_cp p1 s)); [done|]. unfold ask. cbn [cp_renew plane].
    unfold plane_renew, exchange. rewrite Hpres, Hnet. unfold h_Renew, decode, invalid, answer, on_registry, mbind, M_bind, lift.
    cbn [of_option]. rewrite (nc_id _ _ _ _ (st_cert _ _ _ Hs)). cbn [of_option]. rewrite padded_decode_encode.
    cbn [of_option]. rewrite <- rn_id0, <- rn_fp0, Hrun. done.
  - intros mo' dk' now' g'. apply (stranger_stays_out _ _ _ _ cert); [done| |done|done].
    intros (m&Hfp&Hm')%list_elem_of_fmap. change (m ∈ db_nodes (r_db reg')) in Hm'. rewrite Hrows in Hm'.
    apply elem_of_update_where in Hm' as (m0&Hm0&->). unfold live_with_id in Hfp.
    destruct (bool_decide_reflect (n_ID m0 = n_ID n)) as [Hmid|Hmid]; cbn [andb] in Hfp.
    + assert (m0 = n) as -> by by eapply (unique_row n_ID (db_nodes (pf_db (mc_cp s)))).
      rewrite bool_decide_eq_true_2 in Hfp by done. cbn in Hfp. congruence.
    + assert (m0 = n) as ->; [|done]. eapply (unique_row n_CertFingerprint (db_nodes (pf_db (mc_cp s)))); try done.
      congruence.
Qed.

(** An expired certificate is renewed by the registry and never by the node:
    the registry renews it like any other, but the node renews only in the course
    of a heartbeat, and from the certificate's expiry on every heartbeat ends in
    the TLS handshake and changes nothing. *)
Theorem expired_node_stays_out cert a s :
  in_step cert a (mc_cp s) → takes_part a →
  (∀ mo dk now g, tm_NotAfter (ct_Template cert) < mo_now mo →
     sendHeartbeat (H := plane c mo) dk now g a s = (Err LNoAnswer, s)) ∧
  (∀ mo dk n csr i, writable dk → ln_renew (mo_links mo) = Delivered → renewable mo cert a (mc_cp s) n csr i →
     ∃ a' s', renewCert (H := plane c mo) dk a s = (Ok a', s')).
Proof.
  intros Hs Hp. destruct (st_mtls _ _ _ Hs) as [Hm|[Hm Hca]]; [by destruct (tp_mtls _ Hp)|]. split.
  - intros mo dk now g Hexp. unfold sendHeartbeat. rewrite Hm, bool_decide_eq_false_2 by apply Hp.
    rewrite (bind_run _ _ s (heartbeat_body g a (mc_store s)) s) by done.
    assert (plane_heartbeat c mo (ag_tlsCert a) (heartbeat_body g a (mc_store s)) (mc_cp s) = (None, mc_cp s)) as Hr.
    { unfold plane_heartbeat, mtls. rewrite (in_step_presented _ _ _ Hs). unfold verified.
      rewrite (proj2 (Z.leb_gt (mo_now mo) _)) by done. by rewrite andb_false_r. }
    pose proof (ask_kept (plane_heartbeat c mo (ag_tlsCert a) (heartbeat_body g a (mc_store s))) s None Hr) as Hask.
    by rewrite (bind_err _ _ _ _ _ Hask).
  - intros mo dk n csr i Hw Hnet Hr. eapply renewCert_succeeds; try done. apply Hp.
Qed.
End step.
