(* ===== verification/LedgerViews.v ===== *)
(** * The ledger's views: [src/internal/ledger/http.go] and the listing of
      earnings in [src/internal/store/ledger.go]

    What a customer owes and what a provider's nodes have earned, read from the
    books; the HTTP handlers that serve the two views and the client the gateway
    calls them with.  JSON leaves the views as they are (identifiers, int64 and
    float32 numbers, times in UTC). *)

From S2P Require Import Prelude GoFloat Bytes Schema Nodes Files Listings Wire Apierr Accounts Ledger Accrual Service.

Record StorageView := MkStorageView { sw_BytesStored : Z; sw_BalanceUCRD : Z; sw_ChargesUCRD : Z }.
Record WindowEarning := MkWindowEarning { we_Window : Z; we_Type : string; we_AmountUCRD : Z }.
Record NodeEarning := MkNodeEarning {
  ne_NodeID : uuid; ne_BytesHeld : Z; ne_BytesServed : Z; ne_Uptime30d : float; ne_AuditPass30d : float;
  ne_ReliabilityBP : Z; ne_StorageUCRD : Z; ne_EgressUCRD : Z; ne_Windows : list WindowEarning }.
Record EarningsView := MkEarningsView { ev_EarningsUCRD : Z; ev_Nodes : list NodeEarning }.

(** ** The listing *)

Record LedgerEarningLine := MkLine {
  ln_NodeID : uuid; ln_Window : Z; ln_EntryType : string; ln_Amount : Z }.

(** [COALESCE((e.reference->>'window')::timestamptz, e.created_at)] *)
Definition entry_window (e : LedgerEntry) : Z := default (le_CreatedAt e) (rf_Window (le_Reference e)).

Definition earning_line (e : LedgerEntry) : LedgerEarningLine :=
  MkLine (default uuid_nil (rf_NodeID (le_Reference e))) (entry_window e) (le_EntryType e) (le_Amount e).

Definition nilTime (t : Z) : option Z := if is_zero t then None else Some t.

(** [$2 IS NULL OR … >= $2] and [$3 IS NULL OR … < $3] *)
Definition in_range (from to t : Z) : bool :=
  match nilTime from with Some f => f <=? t | None => true end &&
  match nilTime to with Some u => t <? u | None => true end.

Definition earning_entry (acct : uuid) (from to : Z) (e : LedgerEntry) : bool :=
  bool_decide (le_AccountID e = acct) && (0 <? le_Amount e) && in_range from to (entry_window e).

(** Rows of the same hour and type come in table order. *)
Definition ListProviderEarnings (acct : uuid) (from to : Z) (d : DB) : list LedgerEarningLine :=
  order_by (λ l, ln_Window l :: path_key (ln_EntryType l))
    (earning_line <$> filter (λ e, earning_entry acct from to e = true) (db_entries d)).

(** ** The views *)

(** The balance and what is owed, nothing without an account. *)
Definition customer_balance (user : uuid) : store (Z * Z) := λ d,
  match MustAccount OwnerCustomer (Some user) KindBalance d with
  | (Ok acct, d) =>
      (bal ← AccountBalance (la_ID acct); mret (bal, if bal <? 0 then wrap_s64 (- bal) else 0)) d
  | (Err _, d) => (Ok (0, 0), d)
  end.

Definition Storage (user : uuid) : store StorageView :=
  bytes ← CustomerStoredBytes user;
  '(bal, charges) ← customer_balance user;
  mret (MkStorageView bytes bal charges).

(** Without an account there is no balance and there are no lines. *)
Definition provider_lines (user : uuid) (from to : Z) : store (Z * list LedgerEarningLine) := λ d,
  match MustAccount OwnerProvider (Some user) KindEarnings d with
  | (Ok acct, d) =>
      (bal ← AccountBalance (la_ID acct);
       lines ← gets (ListProviderEarnings (la_ID acct) from to);
       mret (bal, lines)) d
  | (Err _, d) => (Ok (0, []), d)
  end.

(** [byNode] and [byID] *)
Definition by_node (held : list NodeHeld) : gmap uuid NodeHeld :=
  foldl (λ m h, <[nh_NodeID h := h]> m) ∅ held.
Definition by_id (lines : list LedgerEarningLine) : gmap uuid (list LedgerEarningLine) :=
  foldl (λ m ln, <[ln_NodeID ln := default [] (m !! ln_NodeID ln) ++ [ln]]> m) ∅ lines.

(** The inner loop over the lines of a node. *)
Definition add_line (row : NodeEarning) (ln : LedgerEarningLine) : NodeEarning :=
  let storage := if bool_decide (ln_EntryType ln = TypeStorageEarning)
                 then add64 (ne_StorageUCRD row) (ln_Amount ln) else ne_StorageUCRD row in
  let egress := if bool_decide (ln_EntryType ln = TypeEgressEarning)
                then add64 (ne_EgressUCRD row) (ln_Amount ln) else ne_EgressUCRD row in
  MkNodeEarning (ne_NodeID row) (ne_BytesHeld row) (ne_BytesServed row) (ne_Uptime30d row)
    (ne_AuditPass30d row) (ne_ReliabilityBP row) storage egress
    (ne_Windows row ++ [MkWindowEarning (ln_Window ln) (ln_EntryType ln) (ln_Amount ln)]).

Definition node_earning (now : Z) (d : DB) (held : gmap uuid NodeHeld)
    (lines : gmap uuid (list LedgerEarningLine)) (n : Node) : NodeEarning :=
  let '(up, audit) := NodeReliability now (n_ID n) d in
  foldl add_line
    (MkNodeEarning (n_ID n) (from_option nh_SizeBytes 0 (held !! n_ID n))
       (from_option ns_BytesServed 0 (LatestNodeStats d (n_ID n))) up audit
       (ReliabilityBP up audit (n_Reputation n)) 0 0 [])
    (default [] (lines !! n_ID n)).

Definition Earnings (now : Z) (user : uuid) (from to : Z) : store EarningsView :=
  '(bal, lines) ← provider_lines user from to;
  nodes ← gets (ListNodesByOwner user);
  held ← gets (λ d, by_node (ListNodeHeldBytes d));
  rows ← gets (λ d, node_earning now d held (by_id lines) <$> nodes);
  mret (MkEarningsView bal rows).

(** ** Over HTTP *)

(** [httpErr] with the status, or no answer at all. *)
Inductive ledger_error := HTTPErr (status : Z) | NoReply.

(** The ledger as its client sees it. *)
Record LedgerClient (S : Type) := MkLedgerClient {
  lc_Storage : uuid → M S ledger_error StorageView;
  lc_Earnings : uuid → Z → Z → M S ledger_error EarningsView }.
#[global] Arguments MkLedgerClient {S} _ _.
#[global] Arguments lc_Storage {S} _.
#[global] Arguments lc_Earnings {S} _.

Section http.
Context `{UuidText} (now : Z).

Abbreviation ledger_http A := (M DB code A).

(** Every error of the ledger is an internal one. *)
Definition internal {A} (m : store A) : ledger_http A := λ d,
  match m d with
  | (Ok a, d') => (Ok a, d')
  | (Err _, d') => (Err CodeInternal, d')
  end.

Definition h_Storage (user : bytes) : ledger_http StorageView :=
  user ← lift (of_option CodeInvalidRequest (uuid_Parse user));
  internal (Storage user).

(** [parseWindowRange]: what does not parse is the zero time. *)
Definition h_Earnings (user : bytes) (from to : option Z) : ledger_http EarningsView :=
  user ← lift (of_option CodeInvalidRequest (uuid_Parse user));
  internal (Earnings now user (default time_zero from) (default time_zero to)).

(** [Client.get], with the service's database inside the state of the caller. *)
Context {S : Type} (net : Delivery) (db : S → DB).

Definition get {A} (h : ledger_http A) : M S ledger_error A := λ s,
  match net with
  | Delivered =>
      match (h (db s)).1 with
      | Ok a => (Ok a, s)
      | Err c => (Err (HTTPErr (Status c)), s)
      end
  | RequestLost | ResponseLost => (Err NoReply, s)
  end.

Definition NewClient : LedgerClient S :=
  MkLedgerClient (λ user, get (h_Storage (uuid_String user)))
    (λ user from to, get (h_Earnings (uuid_String user) (nonzero_time from) (nonzero_time to))).
End http.

(** ** What the views show *)

Definition window_earning (l : LedgerEarningLine) : WindowEarning :=
  MkWindowEarning (ln_Window l) (ln_EntryType l) (ln_Amount l).

(** The amounts of one type. *)
Definition of_type (type : string) (lines : list LedgerEarningLine) : Z :=
  sumZ (ln_Amount <$> filter (λ l, ln_EntryType l = type) lines).

Lemma add_lines row lines :
  foldl add_line row lines =
  MkNodeEarning (ne_NodeID row) (ne_BytesHeld row) (ne_BytesServed row) (ne_Uptime30d row)
    (ne_AuditPass30d row) (ne_ReliabilityBP row)
    (foldl add64 (ne_StorageUCRD row) (ln_Amount <$> filter (λ l, ln_EntryType l = TypeStorageEarning) lines))
    (foldl add64 (ne_EgressUCRD row) (ln_Amount <$> filter (λ l, ln_EntryType l = TypeEgressEarning) lines))
    (ne_Windows row ++ (window_earning <$> lines)).
Proof.
  revert row. induction lines as [|l lines IH]; intros row; cbn [foldl].
  - destruct row. cbn. by rewrite app_nil_r.
  - rewrite IH. unfold add_line. cbn [ne_NodeID ne_BytesHeld ne_BytesServed ne_Uptime30d ne_AuditPass30d
      ne_ReliabilityBP ne_StorageUCRD ne_EgressUCRD ne_Windows]. rewrite <- app_assoc, !filter_cons.
    f_equal; case_bool_decide; case_decide; done.
Qed.

Lemma by_id_lookup lines id :
  default [] (by_id lines !! id) = filter (λ l, ln_NodeID l = id) lines.
Proof.
  unfold by_id. induction lines as [|l lines IH] using rev_ind; [done|].
  rewrite foldl_app, filter_app. cbn [foldl]. rewrite filter_cons, filter_nil.
  case_decide as Hid.
  - rewrite <- Hid, lookup_insert_eq. cbn. by rewrite Hid, IH.
  - by rewrite lookup_insert_ne, app_nil_r.
Qed.

(** The bytes of the stored copies on a node. *)
Definition held_bytes (d : DB) (node : uuid) : Z :=
  sumZ (omap (λ p, fr ← fragment_by d (pl_FragmentID p); Some (fr_SizeBytes fr))
    (filter (λ p, pl_NodeID p = node ∧ pl_Status p = PStored) (db_placements d))).

Lemma by_node_lookup held id h :
  by_node held !! id = Some h → h ∈ held ∧ nh_NodeID h = id.
Proof.
  unfold by_node. induction held as [|x held IH] using rev_ind; [done|].
  rewrite foldl_app. cbn [foldl]. intros [[<- <-]|[_ [Hin Hid]%IH]]%lookup_insert_Some.
  - split; [apply elem_of_app; right; left|done].
  - split; [apply elem_of_app; by left|done].
Qed.

Lemma by_node_listed held id : id ∈ nh_NodeID <$> held → is_Some (by_node held !! id).
Proof.
  unfold by_node. induction held as [|x held IH] using rev_ind; [by intros ?%not_elem_of_nil|].
  rewrite fmap_app, foldl_app. cbn [foldl fmap list_fmap]. intros [Hin|Hin%list_elem_of_singleton]%elem_of_app.
  - destruct (decide (nh_NodeID x = id)) as [<-|Hne]; [by rewrite lookup_insert_eq|].
    rewrite lookup_insert_ne by done. by apply IH.
  - by rewrite Hin, lookup_insert_eq.
Qed.

Lemma held_lookup d n :
  n ∈ db_nodes d → from_option nh_SizeBytes 0 (by_node (ListNodeHeldBytes d) !! n_ID n) = held_bytes d (n_ID n).
Proof.
  intros Hn. destruct (by_node_listed (ListNodeHeldBytes d) (n_ID n)) as [h Hh].
  { unfold ListNodeHeldBytes. rewrite <- list_fmap_compose. apply list_elem_of_fmap. by exists n. }
  rewrite Hh. apply by_node_lookup in Hh as [(m&->&_)%list_elem_of_fmap Hid].
  cbn [from_option nh_SizeBytes nh_NodeID] in *. by rewrite <- Hid.
Qed.

(** The row of a node, from the lines that name it. *)
Lemma node_earning_row now d held lines n :
  let row := node_earning now d held (by_id lines) n in
  let own := filter (λ l, ln_NodeID l = n_ID n) lines in
  ne_NodeID row = n_ID n ∧ ne_BytesHeld row = from_option nh_SizeBytes 0 (held !! n_ID n) ∧
  ne_BytesServed row = from_option ns_BytesServed 0 (LatestNodeStats d (n_ID n)) ∧
  (ne_Uptime30d row, ne_AuditPass30d row) = NodeReliability now (n_ID n) d ∧
  ne_ReliabilityBP row = ReliabilityBP (ne_Uptime30d row) (ne_AuditPass30d row) (n_Reputation n) ∧
  ne_StorageUCRD row = wrap_s64 (of_type TypeStorageEarning own) ∧
  ne_EgressUCRD row = wrap_s64 (of_type TypeEgressEarning own) ∧
  ne_Windows row = window_earning <$> own.
Proof.
  intros row own. unfold row, node_earning. destruct (NodeReliability now (n_ID n) d) as [up audit] eqn:Hr.
  rewrite add_lines, by_id_lookup. cbn [ne_NodeID ne_BytesHeld ne_BytesServed ne_Uptime30d ne_AuditPass30d
    ne_ReliabilityBP ne_StorageUCRD ne_EgressUCRD ne_Windows app].
  unfold of_type. rewrite <- !sum64_sumZ. by split_and!.
Qed.

Lemma provider_lines_state user from to d : (provider_lines user from to d).2 = d.
Proof.
  unfold provider_lines, MustAccount, LedgerAccountByKey, of_option, AccountBalance, scan_int64, mbind, M_bind, gets.
  destruct (find_by _ _); [|done]. by destruct (bool_decide _).
Qed.

Lemma Earnings_run now user from to d :
  Earnings now user from to d =
  match (provider_lines user from to d).1 with
  | Ok (bal, lines) =>
      (Ok (MkEarningsView bal (node_earning now d (by_node (ListNodeHeldBytes d)) (by_id lines)
             <$> ListNodesByOwner user d)), d)
  | Err e => (Err e, d)
  end.
Proof.
  unfold Earnings, mbind at 1, M_bind at 1. pose proof (provider_lines_state user from to d) as Hs.
  destruct (provider_lines user from to d) as [[[bal lines]|e] d']; cbn in Hs; by subst d'.
Qed.

Lemma Storage_state user d : (Storage user d).2 = d.
Proof.
  unfold Storage, CustomerStoredBytes, customer_balance, MustAccount, LedgerAccountByKey, of_option,
    AccountBalance, scan_int64, mbind, M_bind.
  destruct (bool_decide _); [|done]. destruct (find_by _ _); [|done]. by destruct (bool_decide _).
Qed.

(** The views read; the client may treat the ledger as a function of the
    database. *)
Lemma views_read `{UuidText} now user from to d :
  (h_Storage user d).2 = d ∧ (h_Earnings now user from to d).2 = d.
Proof.
  unfold h_Storage, h_Earnings, internal, mbind, M_bind, lift. destruct (uuid_Parse user) as [u|]; [|done].
  cbn [of_option]. split.
  - pose proof (Storage_state u d). by destruct (Storage u d) as [[]].
  - rewrite Earnings_run. by destruct (provider_lines _ _ _ _).1 as [[]|].
Qed.
