(* ===== verification/Reconciliation.v ===== *)
(** * The earnings view against the books

    Over [LedgerViews], [Ledger] and [Accrual]: every credit that accrual books
    on a provider's account names a node of that provider, so the lines of the
    view, summed over nodes, types and hours, are the balance it shows. *)

From S2P Require Import Prelude GoFloat Schema Nodes Listings Accounts Ledger Accrual Evolution LedgerViews.

(** ** Accounts keep their identity *)

Record accounts_wf (d : DB) : Prop := {
  aw_ids : NoDup (la_ID <$> db_accounts d);
  aw_below a : a ∈ db_accounts d → (uuid_n (la_ID a) < db_next_uuid d)%N;
  aw_entries e : e ∈ db_entries d → account_exists d (le_AccountID e) = true }.

Definition keeps_accounts (d d' : DB) : Prop := accounts_wf d → accounts_wf d'.

#[export] Instance keeps_accounts_preorder : PreOrder keeps_accounts.
Proof. split; [by intros d H|]. intros d1 d2 d3 H1 H2 H. by apply H2, H1. Qed.

Lemma account_exists_spec d id :
  account_exists d id = true ↔ ∃ a, a ∈ db_accounts d ∧ la_ID a = id.
Proof.
  unfold account_exists. rewrite existsb_exists. split.
  - intros (a&Ha&Hid%bool_decide_eq_true). exists a. by rewrite list_elem_of_In.
  - intros (a&Ha&Hid). exists a. rewrite <- list_elem_of_In. by rewrite bool_decide_eq_true_2.
Qed.

#[export] Instance EnsureLedgerAccount_keeps ot oid kind :
  Evolves keeps_accounts (EnsureLedgerAccount ot oid kind).
Proof.
  intros d Hwf. unfold EnsureLedgerAccount, gen_uuid. destruct (find_by _ _); [done|]. cbn [snd].
  destruct Hwf as [Hids Hb He]. split; cbn.
  - rewrite fmap_app. apply NoDup_app. split_and!; [done| |apply NoDup_singleton].
    intros id (a&->&Ha%Hb)%list_elem_of_fmap Hin%list_elem_of_singleton. rewrite Hin in Ha. simpl in Ha. lia.
  - intros a [Ha%Hb| ->%list_elem_of_singleton]%elem_of_app; simpl; lia.
  - intros e Hin%He. unfold account_exists in *. cbn. by rewrite existsb_app, Hin.
Qed.

#[export] Instance insert_entry_keeps e : Evolves keeps_accounts (insert_entry e).
Proof.
  intros d Hwf. unfold insert_entry. destruct (account_exists d _) eqn:Hx; [|done].
  destruct Hwf as [Hids Hb He]. split; [done..|]. cbn.
  intros e' [He'%He| ->%list_elem_of_singleton]%elem_of_app; done.
Qed.

Lemma same_accounts (f : DB → DB) :
  (∀ d, (db_accounts (f d), db_entries (f d), db_next_uuid (f d)) =
        (db_accounts d, db_entries d, db_next_uuid d)) →
  Evolves (E:=store_error) keeps_accounts (modify f).
Proof.
  intros Hf d [H1 H2 H3]. specialize (Hf d). cbn. injection Hf as Ha He Hn.
  split; [by rewrite Ha| |].
  - intros a. rewrite Ha, Hn. apply H2.
  - intros e Hin. unfold account_exists. rewrite Ha. apply H3. by rewrite <- He.
Qed.

#[export] Instance InsertLedgerTxn_keeps txn kind w es : Evolves keeps_accounts (InsertLedgerTxn txn kind w es).
Proof. unfold InsertLedgerTxn. evolve. by apply same_accounts. Qed.
#[export] Instance PostTxn_keeps now txn es : Evolves keeps_accounts (PostTxn now txn es).
Proof. unfold PostTxn. evolve. Qed.
#[export] Instance AccrueWindow_keeps txn_id rates m now w :
  Evolves keeps_accounts (AccrueWindow txn_id rates m now w).
Proof. unfold AccrueWindow, charge_customer, pay_storage, pay_egress, transfer. evolve. Qed.

(** ** Whose earning an entry is *)

(** A positive earning that names a node of the account's owner. *)
Definition earned (d : DB) (a : LedgerAccount) (e : LedgerEntry) : Prop :=
  0 < le_Amount e ∧ le_EntryType e ∈ [TypeStorageEarning; TypeEgressEarning] ∧
  ∃ n, n ∈ db_nodes d ∧ rf_NodeID (le_Reference e) = Some (n_ID n) ∧ la_OwnerID a = Some (n_OwnerID n).

Definition provider_account (a : LedgerAccount) : Prop :=
  la_OwnerType a = OwnerProvider ∧ la_Kind a = KindEarnings.

(** Every entry of a provider's account is earned. *)
Record attributed (d : DB) : Prop := {
  at_accounts : accounts_wf d;
  at_earned a e : a ∈ db_accounts d → e ∈ db_entries d → le_AccountID e = la_ID a →
    provider_account a → earned d a e }.

(** What is metered stays within the bounds of [earnings_bounded]. *)
Record affordable (rates : Rates) (d : DB) : Prop := {
  af_storage : 0 ≤ ProviderStoragePerGBMonth rates;
  af_egress : 0 ≤ ProviderEgressPerGB rates;
  af_held h : h ∈ ListNodeHeldBytes d → nh_SizeBytes h * ProviderStoragePerGBMonth rates < 2^63;
  af_served s : s ∈ db_node_stats d → ns_BytesServed s * ProviderEgressPerGB rates < 2^63 }.

Lemma affordable_grows rates d d' : grows d d' → affordable rates d → affordable rates d'.
Proof. by intros (?&?&?&?&->) [? ? ? ?]. Qed.

Lemma earnings_nonneg rates n up audit rep :
  let bp := ReliabilityBP up audit rep in
  0 ≤ ProviderStoragePerGBMonth rates → 0 ≤ ProviderEgressPerGB rates →
  (n * ProviderStoragePerGBMonth rates < 2^63 → 0 ≤ StorageEarning n rates bp) ∧
  (n * ProviderEgressPerGB rates < 2^63 → 0 ≤ EgressEarning n rates bp).
Proof.
  intros bp Hs He. destruct (Z.leb_spec n 0) as [Hn|Hn].
  { unfold StorageEarning, EgressEarning. by replace (n <=? 0) with true by lia. }
  destruct rates as [cs ps ce pe]. cbn in *. split; intros Hb.
  - eapply (earnings_bounded (MkRates cs ps ce 0) n up audit rep); cbn; lia.
  - eapply (earnings_bounded (MkRates cs 0 ce pe) n up audit rep); cbn; lia.
Qed.

Section hour.
Context (txn_id : string → uuid → Z → uuid) (rates : Rates) (now : Z).

Lemma account_id_spec D ot oid kind id :
  account_id D ot oid kind = Some id →
  ∃ a, a ∈ db_accounts D ∧ la_ID a = id ∧ la_OwnerType a = ot ∧ la_OwnerID a = oid ∧ la_Kind a = kind.
Proof.
  unfold account_id. destruct (find_by _ _) as [a|] eqn:Hf; [|done]. intros [= <-].
  apply find_by_spec in Hf as [Hin Hk]. unfold account_key in Hk.
  apply andb_true_iff in Hk as [[Ht%bool_decide_eq_true Ho%bool_decide_eq_true]%andb_true_iff
    Hk%bool_decide_eq_true]. by exists a.
Qed.

Lemma one_account D a b : accounts_wf D → a ∈ db_accounts D → b ∈ db_accounts D → la_ID a = la_ID b → a = b.
Proof. intros Hwf. apply (unique_row la_ID). apply Hwf. Qed.

(** An entry booked on the account of this identifier is not on a provider's
    account, if the identifier is that of the customer's or the platform's. *)
Lemma not_provider D id ot oid kind a :
  accounts_wf D → account_id D ot oid kind = Some id → ot ≠ OwnerProvider →
  a ∈ db_accounts D → id = la_ID a → ¬ provider_account a.
Proof.
  intros Hwf (b&Hb&Hid&Ht&_)%account_id_spec Hne Ha -> [Hp _].
  rewrite (one_account D b a) in Ht by done. congruence.
Qed.

(** The credit of an earning that is due. *)
Lemma due_earning_legs D w kind node owner earn bp t e a :
  accounts_wf D → (∃ n, n ∈ db_nodes D ∧ n_ID n = node ∧ n_OwnerID n = owner) →
  kind ∈ [TypeStorageEarning; TypeEgressEarning] → 0 ≤ earn →
  t ∈ due_earning txn_id D w kind node owner earn bp → e ∈ ledger_row now (du_txn t) <$> legs t →
  a ∈ db_accounts D → le_AccountID e = la_ID a → provider_account a → earned D a e.
Proof.
  intros Hwf (n&Hn&<-&<-) Hk Hearn Ht He Ha Hid Hp. unfold due_earning in Ht.
  destruct (Z.eqb_spec earn 0) as [|Hne]; [by apply not_elem_of_nil in Ht|].
  destruct (account_id D OwnerProvider _ _) as [prov|] eqn:Hprov; [|by apply not_elem_of_nil in Ht].
  destruct (account_id D OwnerPlatform _ _) as [plat|] eqn:Hplat; [|by apply not_elem_of_nil in Ht].
  apply list_elem_of_singleton in Ht as ->. unfold legs in He. cbn in He.
  apply elem_of_cons in He as [->|[->|He%not_elem_of_nil]%elem_of_cons]; [..|done]; cbn in *.
  - by eapply not_provider in Hp; [| |exact Hplat| | |].
  - split_and!; [cbn; lia|done|]. exists n. split_and!; [done..|].
    apply account_id_spec in Hprov as (b&Hb&Hbid&_&Ho&_). by rewrite <- (one_account D b a) by congruence.
Qed.

Lemma due_charge_legs D w kind price ref c t e a :
  accounts_wf D → t ∈ due_charge txn_id D w kind price ref c → e ∈ ledger_row now (du_txn t) <$> legs t →
  a ∈ db_accounts D → le_AccountID e = la_ID a → provider_account a → earned D a e.
Proof.
  intros Hwf Ht He Ha Hid Hp. unfold due_charge in Ht. exfalso. revert Hp.
  destruct (price c.2 =? 0); [by apply not_elem_of_nil in Ht|].
  destruct (account_id D OwnerCustomer _ _) as [cust|] eqn:Hcust; [|by apply not_elem_of_nil in Ht].
  destruct (account_id D OwnerPlatform _ _) as [plat|] eqn:Hplat; [|by apply not_elem_of_nil in Ht].
  apply list_elem_of_singleton in Ht as ->. unfold legs in He. cbn in He.
  apply elem_of_cons in He as [->|[->|He%not_elem_of_nil]%elem_of_cons]; [..|done]; cbn in Hid.
  - by eapply (not_provider D cust _ _ _ a Hwf Hcust).
  - by eapply (not_provider D plat _ _ _ a Hwf Hplat).
Qed.

Lemma node_bp_nonneg d node rep n :
  affordable rates d →
  (n * ProviderStoragePerGBMonth rates < 2^63 →
   0 ≤ StorageEarning n rates (node_bp (StoreMeters now) d node rep)) ∧
  (n * ProviderEgressPerGB rates < 2^63 →
   0 ≤ EgressEarning n rates (node_bp (StoreMeters now) d node rep)).
Proof.
  intros Haf. unfold node_bp. destruct (Reliability (StoreMeters now) node d) as [up audit].
  apply earnings_nonneg; apply Haf.
Qed.

Lemma held_node d h :
  h ∈ ListNodeHeldBytes d → ∃ n, n ∈ db_nodes d ∧ n_ID n = nh_NodeID h ∧ n_OwnerID n = nh_OwnerID h.
Proof. intros (n&->&Hn)%list_elem_of_fmap. by exists n. Qed.

Lemma served_node w d s :
  s ∈ ListNodeWindowServed w d →
  (∃ n, n ∈ db_nodes d ∧ n_ID n = sv_NodeID s ∧ n_OwnerID n = sv_OwnerID s) ∧
  ∃ r, r ∈ db_node_stats d ∧ ns_BytesServed r = sv_Bytes s.
Proof.
  intros (r&Hr&Hn)%list_elem_of_omap. apply list_elem_of_filter in Hr as [_ Hr].
  destruct (node_by d (ns_NodeID r)) as [n|] eqn:Hnode; [|done]. injection Hn as <-.
  apply find_by_spec in Hnode as [Hin Hid%bool_decide_eq_true]. split; [by exists n|by exists r].
Qed.

Lemma due_hour_legs d D w t e a :
  db_nodes D = db_nodes d → affordable rates d → accounts_wf D →
  t ∈ due_hour txn_id rates (StoreMeters now) d D w → e ∈ ledger_row now (du_txn t) <$> legs t →
  a ∈ db_accounts D → le_AccountID e = la_ID a → provider_account a → earned D a e.
Proof.
  intros Hnodes Haf Hwf Ht. unfold due_hour in Ht. rewrite !elem_of_app, !list_elem_of_bind in Ht.
  destruct Ht as [(c&Ht&_)|[(h&Ht&Hh)|[(c&Ht&_)|(s&Ht&Hs)]]]; try (by eapply due_charge_legs).
  - change (h ∈ ListNodeHeldBytes d) in Hh. unfold due_storage in Ht. cbv zeta in Ht.
    eapply due_earning_legs; [done| |by left| |exact Ht].
    + rewrite Hnodes. by apply held_node.
    + apply node_bp_nonneg; [done|]. by apply Haf.
  - change (s ∈ ListNodeWindowServed w d) in Hs. unfold due_egress in Ht.
    destruct (served_node w d s Hs) as [Hn (r&Hr&Hb)].
    eapply due_earning_legs; [done| |by right; left| |exact Ht].
    + by rewrite Hnodes.
    + apply node_bp_nonneg; [done|]. rewrite <- Hb. by apply Haf.
Qed.

Lemma post_due_entries ts b e :
  e ∈ (foldl (post_due now) b ts).2 → e ∈ b.2 ∨ ∃ t, t ∈ ts ∧ e ∈ ledger_row now (du_txn t) <$> legs t.
Proof.
  revert b. induction ts as [|t ts IH]; intros b; cbn [foldl]; [by left|].
  intros [Hb|(t'&Ht&He)]%IH; [|right; exists t'; split; [by right|done]].
  unfold post_due in Hb. destruct (existsb _ _); [by left|]. cbn [snd] in Hb.
  apply elem_of_app in Hb as [Hb|Hb]; [by left|]. right. exists t. split; [left|done].
Qed.

(** ** Accrual attributes what it books *)

Lemma AccrueWindow_attributed window d :
  balanced d → affordable rates d → attributed d →
  ∃ d', AccrueWindow txn_id rates (StoreMeters now) now window d = (Ok tt, d') ∧
    balanced d' ∧ grows d d' ∧ attributed d'.
Proof.
  intros Hb Haf [Hwf Hat].
  destruct (AccrueWindow_settles txn_id rates (StoreMeters now) now now window d Hb) as (d'&He&Hg&Hb'&Hd&_).
  exists d'. split_and!; [done..|].
  pose proof (AccrueWindow_keeps txn_id rates (StoreMeters now) now window d Hwf) as Hwf'. rewrite He in Hwf'.
  split; [done|]. intros a e Ha Hin Hid Hp.
  specialize (Hd d' ltac:(done)). unfold books in Hd.
  assert (e ∈ (foldl (post_due now) (db_txns d, db_entries d)
    (due_hour txn_id rates (StoreMeters now) d d' (truncate_hour window))).2) as Hnew by by rewrite <- Hd.
  destruct Hg as (as_&ts&es&g&Heq). assert (db_nodes d' = db_nodes d) as Hnodes by by rewrite Heq.
  apply post_due_entries in Hnew as [Hold|(t&Ht&Hleg)].
  - cbn in Hold. pose proof (aw_entries _ Hwf e Hold) as (b&Hbin&Hbid)%account_exists_spec.
    assert (b ∈ db_accounts d') as Hb2 by (rewrite Heq; apply elem_of_app; by left).
    rewrite <- (one_account d' b a Hwf' Hb2 Ha) in Hp |- * by congruence.
    destruct (Hat b e Hbin Hold ltac:(done) Hp) as (H1&H2&n&Hn&H3). split_and!; [done..|].
    exists n. by rewrite Hnodes.
  - by eapply due_hour_legs.
Qed.
End hour.

Section days.
Context (txn_id : string → uuid → Z → uuid) (rates : Rates) (name : string) (now : Z).

Lemma watermark_attributed w d : attributed d → attributed (SetAccrualWatermark name w d).
Proof. intros [[? ? ?] Hat]. split; [by split|]. exact Hat. Qed.

Lemma accrued_attributed ws d :
  balanced d → affordable rates d → attributed d →
  ∃ d', for_each (accrue_hour txn_id rates (StoreMeters now) name now) ws d = (Ok tt, d') ∧
    balanced d' ∧ db_nodes d' = db_nodes d ∧ attributed d'.
Proof.
  revert d. induction ws as [|w ws IH]; intros d Hb Haf Hat; [by exists d|].
  destruct (AccrueWindow_attributed txn_id rates now w d Hb Haf Hat) as (d1&He&Hb1&Hg&Hat1).
  destruct (IH (SetAccrualWatermark name w d1)) as (d'&He'&Hb'&Hn&Hat'); [done| |by apply watermark_attributed|].
  { pose proof (affordable_grows _ _ _ Hg Haf) as [? ? ? ?]. by split. }
  exists d'. split_and!; [|done| |done].
  - cbn [for_each]. unfold mbind, M_bind. by rewrite accrue_hour_run, He.
  - rewrite Hn. by destruct Hg as (?&?&?&?&->).
Qed.
End days.

(** ** The view adds up *)

Section view.
Context (d : DB) (a : LedgerAccount) (user : uuid) (Hat : attributed d)
  (Ha : a ∈ db_accounts d) (Hp : provider_account a) (Ho : la_OwnerID a = Some user).

Lemma credits : ∀ e, e ∈ db_entries d → le_AccountID e = la_ID a → earned d a e.
Proof using All. intros e He Hid. by apply Hat. Qed.

Lemma lines_total lines :
  lines = ListProviderEarnings (la_ID a) time_zero time_zero d →
  sumZ (ln_Amount <$> lines) = account_sum (λ _, true) (la_ID a) d.
Proof using All.
  intros ->. unfold ListProviderEarnings, account_sum. rewrite order_by_perm, <- list_fmap_compose.
  f_equal. change (ln_Amount ∘ earning_line) with le_Amount. f_equal.
  apply filter_ext_in. intros e He. unfold earning_entry, in_range, nilTime, is_zero.
  rewrite !(bool_decide_eq_true_2 (time_zero = time_zero)) by done.
  rewrite !andb_true_iff, bool_decide_eq_true. split; [by intros [[? _] _]|].
  intros [Hid _]. destruct (credits e He Hid) as [Hpos _]. split_and!; (done || lia).
Qed.

Lemma line_earned l :
  l ∈ ListProviderEarnings (la_ID a) time_zero time_zero d →
  0 < ln_Amount l ∧ ln_EntryType l ∈ [TypeStorageEarning; TypeEgressEarning] ∧
  ln_NodeID l ∈ n_ID <$> ListNodesByOwner user d.
Proof using All.
  unfold ListProviderEarnings. rewrite elem_of_order_by.
  intros (e&->&[Hf He]%list_elem_of_filter)%list_elem_of_fmap.
  apply andb_true_iff in Hf as [[Hid%bool_decide_eq_true _]%andb_true_iff _].
  destruct (credits e He Hid) as (Hpos&Hty&n&Hn&Href&Howner). split_and!; [done..|].
  unfold earning_line. cbn [ln_NodeID]. rewrite Href. apply (list_elem_of_fmap_2 n_ID _ n).
  unfold ListNodesByOwner. apply elem_of_order_by, list_elem_of_filter. split; [|done]. congruence.
Qed.
End view.

(** A row's two sums are those of its lines. *)
Lemma row_sum now d held lines n :
  (∀ l, l ∈ lines → 0 < ln_Amount l ∧ ln_EntryType l ∈ [TypeStorageEarning; TypeEgressEarning]) →
  sumZ (ln_Amount <$> lines) < 2^63 →
  let row := node_earning now d held (by_id lines) n in
  ne_StorageUCRD row + ne_EgressUCRD row =
  sumZ (ln_Amount <$> filter (λ l, ln_NodeID l = n_ID n) lines).
Proof.
  intros Hl Hsum row. set (own := filter (λ l, ln_NodeID l = n_ID n) lines).
  destruct (node_earning_row now d held lines n) as (_&_&_&_&_&Hst&Heg&_). fold row own in Hst, Heg.
  assert (∀ l, l ∈ own → 0 < ln_Amount l ∧ ln_EntryType l ∈ [TypeStorageEarning; TypeEgressEarning]) as Hown.
  { intros l [_ Hin]%list_elem_of_filter. by apply Hl. }
  assert (0 ≤ sumZ (ln_Amount <$> own) ≤ sumZ (ln_Amount <$> lines)) as Hle.
  { apply sumZ_filter_le. intros l Hin%Hl. lia. }
  assert (∀ ty, 0 ≤ of_type ty own ≤ sumZ (ln_Amount <$> own)) as Hty.
  { intros ty. apply sumZ_filter_le. intros l Hin%Hown. lia. }
  pose proof (Hty TypeStorageEarning). pose proof (Hty TypeEgressEarning).
  rewrite Hst, Heg, !wrap_s64_id by (unfold int64_range; lia).
  rewrite <- (sumZ_partition ln_EntryType ln_Amount [TypeStorageEarning; TypeEgressEarning] own).
  - unfold of_type. rewrite !fmap_cons, !sumZ_cons. cbn [fmap list_fmap sumZ foldr]. lia.
  - apply NoDup_cons. split; [by intros ?%list_elem_of_singleton|apply NoDup_singleton].
  - intros l Hin%Hown. apply Hin.
Qed.

Definition shown (v : EarningsView) : Z :=
  sumZ ((λ row, ne_StorageUCRD row + ne_EgressUCRD row) <$> ev_Nodes v).

Lemma attributed_view now user d :
  attributed d → NoDup (n_ID <$> db_nodes d) →
  match (Earnings now user time_zero time_zero d).1 with
  | Ok v => ev_EarningsUCRD v = shown v
  | Err _ => ∃ acct, ¬ int64_range (account_sum (λ _, true) acct d)
  end.
Proof.
  intros Hat Hnd. rewrite Earnings_run.
  unfold provider_lines, MustAccount, LedgerAccountByKey.
  destruct (find_by _ _) as [a|] eqn:Hf; cbn [of_option fst].
  - apply find_by_spec in Hf as [Ha Hk]. unfold account_key in Hk.
    apply andb_true_iff in Hk as [[Ht%bool_decide_eq_true Ho%bool_decide_eq_true]%andb_true_iff
      Hk%bool_decide_eq_true].
    set (lines := ListProviderEarnings (la_ID a) time_zero time_zero d).
    unfold AccountBalance, scan_int64, mbind, M_bind, gets. case_bool_decide as Hr; cbn [fst]; [|by eexists].
    pose proof (lines_total d a user Hat Ha (conj Ht Hk) Ho lines eq_refl) as Htot.
    pose proof (line_earned d a user Hat Ha (conj Ht Hk) Ho) as Hline.
    unfold mret, M_ret. cbn [fst]. fold lines. cbn [ev_EarningsUCRD]. unfold shown. cbn [ev_Nodes]. rewrite <- Htot in Hr |- *. rewrite <- list_fmap_compose.
    rewrite <- (sumZ_partition ln_NodeID ln_Amount (n_ID <$> ListNodesByOwner user d) lines).
    + rewrite <- list_fmap_compose. f_equal. apply list_fmap_ext. intros i n _. symmetry. apply row_sum.
      * intros l Hl. apply Hline in Hl as (?&?&_). done.
      * apply Hr.
    + unfold ListNodesByOwner. rewrite order_by_perm. by apply (sublist_NoDup _ (n_ID <$> db_nodes d)), fmap_sublist, sublist_filter.
    + intros l Hl. by apply Hline.
  - cbn. unfold shown. cbn [ev_Nodes]. rewrite <- list_fmap_compose, sumZ_zero; [done|]. intros n _. cbn.
    unfold node_earning. by destruct (NodeReliability now (n_ID n) d).
Qed.


Lemma attributed_empty d : db_accounts d = [] → db_entries d = [] → attributed d.
Proof.
  intros Ha He. split; [split|].
  - rewrite Ha. constructor.
  - rewrite Ha. by intros a ?%not_elem_of_nil.
  - rewrite He. by intros e ?%not_elem_of_nil.
  - rewrite Ha. by intros a e ?%not_elem_of_nil.
Qed.
