(* ===== verification/Ratelimit.v ===== *)
(** * The rate limiter: [src/internal/ratelimit/ratelimit.go]

    A token bucket kept in Redis by a Lua script.  Lua numbers are binary64;
    they survive the trip to Redis and back ([%.17g]).  The script gets the
    gateway's clock in whole seconds; keys expire by the clock of Redis, which is
    taken to be the same one.  [math.ceil] is converted to an integer. *)

From S2P Require Import Prelude GoFloat.

Definition AuthLimit : Z := 10.
Definition ReadLimit : Z := 600.
Definition PlanLimit : Z := 60.

(** The hash at a key, and when it expires. *)
Record TokenBucket := MkTokenBucket { bk_tokens : float; bk_ts : float; bk_expires : Z }.
Definition Buckets := gmap string TokenBucket.

Definition minute : Z := 60.

(** Lua's [math.min(a, b)]. *)
Definition lua_min (a b : float) : float := if flt b a then b else a.

(** [math.ceil] of a finite number, as an integer. *)
Definition ceil_Z (f : float) : Z :=
  match f with
  | S754_finite s m e =>
      let z := cond_Zopp s (Zpos m) in
      if 0 <=? e then Z.shiftl z e else - Z.shiftr (- z) (- e)
  | _ => 0
  end.

(** The script: whether the request may pass, else the seconds to wait, and
    the bucket it leaves behind. *)
Definition tokenBucketLua (capacity refill now requested : float) (data : option (float * float)) :
    (bool * Z) * (float * float) :=
  let '(tokens, ts) := default (capacity, now) data in
  let tokens := lua_min capacity (F64.add tokens (F64.mul (F64.sub now ts) refill)) in
  if flt tokens requested then
    let wait := if fgt refill F64.zero then ceil_Z (F64.div (F64.sub requested tokens) refill) else 0 in
    ((false, wait), (tokens, now))
  else ((true, 0), (F64.sub tokens requested, now)).

Record Result := MkResult { rs_Allowed : bool; rs_RetryAfter : Z }.

(** [now] is the clock in nanoseconds; a window is given in seconds. *)
Definition Allow (now : Z) (key : string) (capacity window : Z) (bs : Buckets) : Result * Buckets :=
  let refill := F64.div (F64.of_Z capacity) (F64.of_Z window) in
  let data := b ← bs !! key;
              if now <? bk_expires b then Some (bk_tokens b, bk_ts b) else None in
  let '((allowed, wait), (tokens, ts)) :=
    tokenBucketLua (F64.of_Z capacity) refill (F64.of_Z (Z.div now second)) F64.one data in
  (MkResult allowed (if allowed then 0 else wait * second),
   <[key := MkTokenBucket tokens ts (now + 120 * second)]> bs).

Definition AllowAuth (now : Z) (ip : string) : Buckets → Result * Buckets :=
  Allow now ("rl:auth:" +:+ ip) AuthLimit minute.
Definition AllowRead (now : Z) (user : string) : Buckets → Result * Buckets :=
  Allow now ("rl:read:" +:+ user) ReadLimit minute.
Definition AllowPlan (now : Z) (user : string) : Buckets → Result * Buckets :=
  Allow now ("rl:plan:" +:+ user) PlanLimit minute.

(** ** Bursts *)

(** Requests at the given times, and whether each passed. *)
Fixpoint requests (key : string) (capacity window : Z) (times : list Z) (bs : Buckets) :
    list bool * Buckets :=
  match times with
  | [] => ([], bs)
  | now :: times =>
      let '(r, bs) := Allow now key capacity window bs in
      let '(rs, bs) := requests key capacity window times bs in
      (rs_Allowed r :: rs, bs)
  end.

Definition finite (f : float) : bool :=
  match f with S754_zero _ | S754_finite _ _ _ => true | _ => false end.

Lemma sub_same f : finite f = true → F64.sub f f = F64.zero.
Proof.
  unfold F64.sub, SFsub. destruct f as [s|s| |s m e]; try done; intros _.
  - by destruct s.
  - by rewrite Z.sub_diag.
Qed.

(** The arithmetic of a bucket of whole tokens that is not refilled. *)
Definition whole_tokens (capacity window : Z) : bool :=
  let refill := F64.div (F64.of_Z capacity) (F64.of_Z window) in
  forallb (λ j,
    bool_decide (lua_min (F64.of_Z capacity) (F64.add (F64.of_Z j) (F64.mul F64.zero refill)) = F64.of_Z j) &&
    bool_decide (flt (F64.of_Z j) F64.one = (j <? 1)) &&
    ((j <? 1) || bool_decide (F64.sub (F64.of_Z j) F64.one = F64.of_Z (j - 1)))) (seqZ 0 (capacity + 1)).

Lemma limits_whole :
  whole_tokens AuthLimit minute = true ∧ whole_tokens ReadLimit minute = true ∧
  whole_tokens PlanLimit minute = true.
Proof. by vm_compute. Qed.

Definition limits : list Z := [AuthLimit; ReadLimit; PlanLimit].

Lemma limit_whole capacity : capacity ∈ limits → whole_tokens capacity minute = true ∧ 0 < capacity.
Proof.
  intros Hcap. destruct limits_whole as (H1&H2&H3). unfold limits in Hcap.
  apply elem_of_cons in Hcap as [->|[->|[->|[]%not_elem_of_nil]%elem_of_cons]%elem_of_cons].
  - split; [exact H1|reflexivity].
  - split; [exact H2|reflexivity].
  - split; [exact H3|reflexivity].
Qed.
#[global] Opaque whole_tokens.

(** A bucket with [j] whole tokens at second [s]. *)
Definition holds_tokens (capacity : Z) (key : string) (s j : Z) (bs : Buckets) : Prop :=
  (bs !! key = None ∧ j = capacity) ∨
  ∃ b, bs !! key = Some b ∧ bk_tokens b = F64.of_Z j ∧ bk_ts b = F64.of_Z s ∧
    (s + 119) * second ≤ bk_expires b.

Lemma Allow_whole capacity window key now j bs :
  whole_tokens capacity window = true → finite (F64.of_Z (now / second)) = true →
  0 ≤ j ≤ capacity → holds_tokens capacity key (now / second) j bs →
  rs_Allowed (Allow now key capacity window bs).1 = (0 <? j) ∧
  holds_tokens capacity key (now / second) (Z.max 0 (j - 1)) (Allow now key capacity window bs).2.
Proof.
  intros Hw Hfin Hj Hb. Transparent whole_tokens. unfold whole_tokens in Hw. Opaque whole_tokens. rewrite forallb_forall in Hw.
  assert (j ∈ seqZ 0 (capacity + 1)) as Hin by (apply elem_of_seqZ; lia).
  specialize (Hw j (proj1 (list_elem_of_In _ _) Hin)).
  apply andb_true_iff in Hw as [[Hmin%bool_decide_eq_true Hlt%bool_decide_eq_true]%andb_true_iff Hsub].
  unfold Allow. set (s := now / second) in *. set (refill := F64.div _ _) in *.
  assert (∃ tokens, default (F64.of_Z capacity, F64.of_Z s)
     (b ← bs !! key; if now <? bk_expires b then Some (bk_tokens b, bk_ts b) else None) = (tokens, F64.of_Z s) ∧
     tokens = F64.of_Z j) as (tokens&Hdata&->).
  { destruct Hb as [[-> ->]|(b&->&Ht&Hs&He)]; [by eexists|]. cbn [mbind option_bind].
    assert (now < bk_expires b) as Hlive.
    { unfold s in He. assert (now < (now / second + 119) * second); [|lia].
      pose proof (Z.mod_pos_bound now second). unfold second in *. Z.div_mod_to_equations. lia. }
    rewrite (proj2 (Z.ltb_lt _ _) Hlive). cbn. rewrite Ht, Hs. by eexists. }
  unfold tokenBucketLua. rewrite Hdata, (sub_same _ Hfin), Hmin, Hlt.
  assert ((s + 119) * second ≤ now + 120 * second) as Hexp.
  { unfold s, second. Z.div_mod_to_equations. lia. }
  destruct (Z.ltb_spec j 1) as [H1|H1]; cbn [fst snd rs_Allowed].
  - split; [by rewrite (proj2 (Z.ltb_ge _ _)) by lia|]. right. eexists.
    split_and!; [apply lookup_insert_eq|cbn [bk_tokens]|done|done]. f_equal. lia.
  - split; [by rewrite (proj2 (Z.ltb_lt _ _)) by lia|]. right. eexists.
    cbn [orb] in Hsub. apply bool_decide_eq_true in Hsub.
    split_and!; [apply lookup_insert_eq|cbn [bk_tokens]|done|done]. rewrite Hsub. f_equal. lia.
Qed.

(** Within one second a fresh bucket of any of the three limits lets exactly
    its capacity through, in order, and refuses the rest. *)
Theorem burst_allows_capacity capacity key times s bs :
  capacity ∈ limits → finite (F64.of_Z s) = true → bs !! key = None →
  (∀ now, now ∈ times → now / second = s) →
  (requests key capacity minute times bs).1 = (λ i, Z.of_nat i <? capacity) <$> seq 0 (length times).
Proof.
  intros Hcap Hfin Hfresh Hs.
  destruct (limit_whole capacity Hcap) as [Hw Hpos].
  assert (∀ n times bs, (∀ now, now ∈ times → now / second = s) →
    holds_tokens capacity key s (Z.max 0 (capacity - Z.of_nat n)) bs →
    (requests key capacity minute times bs).1 = (λ i, Z.of_nat i <? capacity) <$> seq n (length times)) as Hall.
  { clear times bs Hfresh Hs. intros n times. revert n.
    induction times as [|now times IH]; intros n bs Hs Hb; [done|]. cbn [requests length seq fmap list_fmap].
    assert (now / second = s) as Hnow by (apply Hs; left).
    destruct (Allow_whole capacity minute key now (Z.max 0 (capacity - Z.of_nat n)) bs) as [Ha Hb'];
      [exact Hw|by rewrite Hnow|lia|by rewrite Hnow|]. rewrite Hnow in Hb'.
    specialize (IH (S n) (Allow now key capacity minute bs).2).
    destruct (Allow now key capacity minute bs) as [r bs1]. cbn [fst snd] in *.
    destruct (requests key capacity minute times bs1) as [rs bs2]. cbn [fst] in *. rewrite IH.
    - f_equal. rewrite Ha. destruct (Z.ltb_spec (Z.of_nat n) capacity), (Z.ltb_spec 0 (Z.max 0 (capacity - Z.of_nat n))); done || lia.
    - intros x Hx. apply Hs. by right.
    - by replace (Z.max 0 (capacity - Z.of_nat (S n))) with
        (Z.max 0 (Z.max 0 (capacity - Z.of_nat n) - 1)) by lia. }
  apply Hall; [done|]. left. split; [done|]. lia.
Qed.

(** A request may also pass whatever happened before under another key. *)
Lemma fresh_key_allowed now key capacity bs :
  capacity ∈ limits → finite (F64.of_Z (now / second)) = true →
  bs !! key = None → rs_Allowed (Allow now key capacity minute bs).1 = true.
Proof.
  intros Hcap Hfin Hfresh.
  destruct (limit_whole capacity Hcap) as [Hw Hpos].
  destruct (Allow_whole capacity minute key now capacity bs) as [-> _]; [exact Hw|done|lia|by left|].
  by apply Z.ltb_lt.
Qed.
