(* ===== verification/Gateway.v ===== *)
(** * The public gateway: [src/internal/gateway/gateway.go]

    [with] is the middleware every route goes through: the limit on
    unauthenticated requests, the password or the API key, the scope, the limits
    per account.  A [Call] is one route with its decoded path, query and body;
    [handle] is its handler over the metadata [Service]; [serve] is both.  The
    ledger client behind [/v1/storage] and [/v1/earnings] is an interface too
    ([LedgerViews.LedgerClient], which [LedgerViews.NewClient] implements).
    [GET /health] and the routes of the demo are left out.  Headers are ASCII. *)

From S2P Require Import Prelude GoFloat Bytes Sha256 Crypto Pipeline Schema Nodes World Files Net Listings Uploads Wire Auth.
From S2P Require Import Apierr Health Accounts Tickets Receipts Metadata Evolution Service LedgerViews Ratelimit.
From Stdlib Require Import Ascii.

(** ** Requests *)

Record Request := MkRequest {
  rq_APIKey : bytes;                     (* X-Api-Key *)
  rq_Basic : option (string * bytes);    (* r.BasicAuth() *)
  rq_XFF : string;                       (* X-Forwarded-For *)
  rq_RemoteAddr : string }.

(** [strings.Split(s, sep)[0]] *)
Fixpoint first_part (sep : ascii) (s : string) : string :=
  match s with
  | EmptyString => ""
  | String c s => if bool_decide (c = sep) then "" else String c (first_part sep s)
  end.

Definition clientIP (r : Request) : string :=
  if negb (bool_decide (rq_XFF r = ""%string)) then TrimSpace (first_part ","%char (rq_XFF r))
  else match SplitHostPort (chars (rq_RemoteAddr r)) with
       | Some host => unchars host
       | None => rq_RemoteAddr r
       end.

Definition hasScope (scopes : list string) (want : string) : bool := existsb (λ s, bool_decide (s = want)) scopes.

(** ** Calls *)

Inductive Call :=
  | PostRegister (body : option (string * bytes))
  | PostAPIKeys (body : option (string * list string * option Z))
  | GetAPIKeys
  | DeleteAPIKey (id : bytes)
  | PostBuckets (body : option string)
  | GetBuckets
  | DeleteABucket (id : bytes)
  | PostFolders (body : option (bytes * string))
  | GetFiles (bucket : bytes) (prefix cursor : string) (limit : option Z)
  | GetAFile (id : bytes)
  | PutRename (body : option (bytes * string))
  | DeleteAFile (id : bytes)
  | PostCodes (body : option (string * string * string * option Z))
  | GetNodes
  | PostUpload (body : option JManifest)
  | PostCommit (id : bytes) (body : option (list bytes))
  | GetDownload (id : bytes)
  | PostReport (id : bytes) (body : option (list bytes))
  | GetStorage
  | GetEarnings (from to : option Z)
  | GetStats (id : bytes) (from to : option Z).

Inductive authKind := authNone | authBasic | authKey | authKeyWrite.

(** [routes] *)
Definition route (c : Call) : authKind :=
  match c with
  | PostRegister _ => authNone
  | PostAPIKeys _ => authBasic
  | GetAPIKeys | GetBuckets | GetFiles _ _ _ _ | GetAFile _ | GetNodes | GetDownload _ | PostReport _ _
  | GetStorage | GetEarnings _ _ | GetStats _ _ _ => authKey
  | DeleteAPIKey _ | PostBuckets _ | DeleteABucket _ | PostFolders _ | PutRename _ | DeleteAFile _
  | PostCodes _ | PostUpload _ | PostCommit _ _ => authKeyWrite
  end.

(** [r.Method == http.MethodGet] *)
Definition is_get (c : Call) : bool :=
  match c with
  | GetAPIKeys | GetBuckets | GetFiles _ _ _ _ | GetAFile _ | GetNodes | GetDownload _
  | GetStorage | GetEarnings _ _ | GetStats _ _ _ => true
  | _ => false
  end.

Definition path (c : Call) : bytes :=
  match c with
  | PostRegister _ => text "/v1/auth/register"
  | PostAPIKeys _ | GetAPIKeys => text "/v1/auth/api-keys"
  | DeleteAPIKey id => text "/v1/auth/api-keys/" ++ id
  | PostBuckets _ | GetBuckets => text "/v1/buckets"
  | DeleteABucket id => text "/v1/buckets/" ++ id
  | PostFolders _ => text "/v1/folders"
  | GetFiles _ _ _ _ => text "/v1/files"
  | GetAFile id => text "/v1/files/" ++ id
  | PutRename _ => text "/v1/rename"
  | DeleteAFile id => text "/v1/file/" ++ id
  | PostCodes _ => text "/v1/nodes/registration-codes"
  | GetNodes => text "/v1/nodes"
  | PostUpload _ => text "/v1/upload"
  | PostCommit id _ => text "/v1/upload/" ++ id ++ text "/commit"
  | GetDownload id => text "/v1/download/" ++ id
  | PostReport id _ => text "/v1/download/" ++ id ++ text "/report"
  | GetStorage => text "/v1/storage"
  | GetEarnings _ _ => text "/v1/earnings"
  | GetStats id _ _ => text "/v1/nodes/" ++ id ++ text "/stats"
  end.

Definition HasPrefix (s p : bytes) : bool := bool_decide (take (length p) s = p).
Definition HasSuffix (s p : bytes) : bool :=
  (length p <=? length s)%nat && bool_decide (drop (length s - length p) s = p).

(** The requests that count as planning. *)
Definition plans (c : Call) : bool :=
  bool_decide (path c = text "/v1/upload") || HasSuffix (path c) (text "/commit") ||
  HasPrefix (path c) (text "/v1/download/").

(** ** Answers *)

Inductive Body :=
  | BUser (u : User) (hint : bool)
  | BKey (k : APIKey) (secret : bytes)
  | BKeys (ks : list APIKey)
  | BBucket (b : Bucket)
  | BBuckets (bs : list Bucket)
  | BFile (f : File)
  | BFiles (fs : list File) (next : option string)
  | BCode (c : RegistrationCode) (secret : bytes)
  | BNodes (ns : list Node)
  | BPlan (p : PlanResult)
  | BCommitted (c : Committed)
  | BDownload (d : DownloadResult)
  | BStorage (v : StorageView)
  | BEarnings (v : EarningsView)
  | BStats (rows : list NodeStats)
  | BOk
  | BNone.

Record Reply := MkReply { rp_Status : Z; rp_Body : Body }.

(** An error envelope, with the [Retry-After] header. *)
Record Refusal := MkRefusal { rf_Status : Z; rf_Code : code; rf_RetryAfter : option Z }.

Definition refused (c : code) : Refusal := MkRefusal (Status c) c None.

(** [writeMeta] *)
Definition writeMeta (e : call_error) : Refusal :=
  match e with
  | CallError status c => MkRefusal status c None
  | e => refused (writeErr e)
  end.

Definition formatRetry (d : Z) : Z := let sec := Z.quot d second in if sec <? 1 then 1 else sec.

(** What is served of a user and of a key. *)
Definition userPublic (u : User) : User :=
  MkUser (us_ID u) (us_Email u) [] (us_Role u) (us_Status u) (rfc3339 (us_CreatedAt u)) time_zero.
Definition apiKeyPublic (k : APIKey) : APIKey :=
  MkAPIKey (ak_ID k) uuid_nil [] (ak_Label k) (ak_Scopes k) (rfc3339 <$> ak_ExpiresAt k) None
    (rfc3339 (ak_CreatedAt k)).
Definition codePublic (c : RegistrationCode) : RegistrationCode :=
  MkCode (rg_ID c) uuid_nil [] (rg_Endpoint c) (rg_Country c) (rg_Region c) (rg_ASN c)
    (rfc3339 (rg_ExpiresAt c)) None None time_zero.
Definition planPublic (p : PlanResult) : PlanResult :=
  MkPlanResult (pr_UploadID p) (pr_FileID p) (rfc3339 (pr_ExpiresAt p)) (pr_Placements p).

Record identity := MkIdentity { id_User : User; id_Key : option APIKey }.
Definition no_identity : identity := MkIdentity (MkUser uuid_nil "" [] "" "" time_zero time_zero) None.

(** ** The gateway's own state *)

Record Front (S : Type) := MkFront { g_meta : S; g_limits : Buckets }.
#[global] Arguments MkFront {S} _ _.
#[global] Arguments g_meta {S} _.
#[global] Arguments g_limits {S} _.

(** The rate limiter: none, or one whose Redis may be down. *)
Inductive Limiter := NoLimiter | Limited (redis_up : bool).

Section gateway.
Context {S : Type} `{UuidText} (now : Z) (svc : Service S) (limit : Limiter)
  (ledger : option (LedgerClient S)) (entropy : option bytes).

Abbreviation gateway A := (M (Front S) Refusal A).

(** A call of the metadata service; its error is written as [writeMeta] does. *)
Definition meta {A} (m : M S call_error A) : gateway A := λ g,
  match m (g_meta g) with
  | (Ok a, s) => (Ok a, MkFront s (g_limits g))
  | (Err e, s) => (Err (writeMeta e), MkFront s (g_limits g))
  end.

(** A call of the ledger: every error is an internal one. *)
Definition or_internal {A} (m : M S ledger_error A) : gateway A := λ g,
  match m (g_meta g) with
  | (Ok a, s) => (Ok a, MkFront s (g_limits g))
  | (Err _, s) => (Err (refused CodeInternal), MkFront s (g_limits g))
  end.

Definition check_limit (allow : Buckets → Result * Buckets) : gateway unit := λ g,
  match limit with
  | NoLimiter => (Ok tt, g)
  | Limited false => (Err (refused CodeInternal), g)
  | Limited true =>
      let '(res, bs) := allow (g_limits g) in
      (if rs_Allowed res then Ok tt
       else Err (MkRefusal (Status CodeRateLimited) CodeRateLimited (Some (formatRetry (rs_RetryAfter res)))),
       MkFront (g_meta g) bs)
  end.

(** The name an account is limited under. *)
Definition account (u : User) : string := String.string_of_list_byte (uuid_String (us_ID u)).

Definition authenticateKey (r : Request) : M S call_error identity :=
  if negb (ValidSecretFormat (rq_APIKey r)) then throw (FromAcct EUnauthenticated)
  else '(k, u) ← sv_LookupAPIKey svc (HashAPIKey (rq_APIKey r)); mret (MkIdentity u (Some k)).

(** A key that was not accepted still counts against the client's address. *)
Definition key_identity (r : Request) : gateway identity := λ g,
  match authenticateKey r (g_meta g) with
  | (Ok id, s) => (Ok id, MkFront s (g_limits g))
  | (Err e, s) => (check_limit (AllowAuth now (clientIP r)) ≫= λ _, throw (writeMeta e)) (MkFront s (g_limits g))
  end.

Definition scopes_of (id : identity) : list string := from_option ak_Scopes [] (id_Key id).

Definition with_ (kind : authKind) (r : Request) (c : Call) (next : identity → gateway Reply) : gateway Reply :=
  match kind with
  | authNone => check_limit (AllowAuth now (clientIP r)) ≫= λ _, next no_identity
  | authBasic =>
      check_limit (AllowAuth now (clientIP r)) ≫= λ _,
      match rq_Basic r with
      | None => throw (refused CodeUnauthenticated)
      | Some (email, password) =>
          u ← meta (sv_VerifyPassword svc email password);
          next (MkIdentity u None)
      end
  | authKey | authKeyWrite =>
      id ← key_identity r;
      let need := match kind with authKeyWrite => "write"%string | _ => "read"%string end in
      guard_err (negb (hasScope (scopes_of id) need)) (refused CodeForbidden) ≫= λ _,
      (if is_get c then check_limit (AllowRead now (account (id_User id))) else mret tt) ≫= λ _,
      (if plans c then check_limit (AllowPlan now (account (id_User id))) else mret tt) ≫= λ _,
      next id
  end.

(** ** The handlers *)

Definition decodeJSON {R} (body : option R) : gateway R := lift (of_option (refused CodeInvalidRequest) body).
Definition param_id (t : bytes) : gateway uuid := lift (of_option (refused CodeInvalidRequest) (uuid_Parse t)).

Definition created (b : Body) : gateway Reply := mret (MkReply 201 b).
Definition okay (b : Body) : gateway Reply := mret (MkReply 200 b).
Definition no_content : gateway Reply := mret (MkReply 204 BNone).

Definition handleRegister (body : option (string * bytes)) : gateway Reply :=
  '(email, password) ← decodeJSON body;
  u ← meta (sv_CreateUser svc email password);
  created (BUser (userPublic u) true).

Definition handleCreateAPIKey (id : identity) (body : option (string * list string * option Z)) :
    gateway Reply :=
  '(label, scopes, expires) ← decodeJSON body;
  minted ← lift (match MintAPIKey entropy with Ok k => Ok k | Err _ => Err (refused CodeInternal) end);
  k ← meta (sv_CreateAPIKey svc (us_ID (id_User id)) (mk_Hash minted) label scopes expires);
  created (BKey (apiKeyPublic k) (mk_Secret minted)).

Definition handleListAPIKeys (id : identity) : gateway Reply :=
  keys ← meta (sv_ListAPIKeys svc (us_ID (id_User id)));
  okay (BKeys (apiKeyPublic <$> keys)).

Definition handleRevokeAPIKey (id : identity) (key : bytes) : gateway Reply :=
  key ← param_id key;
  meta (sv_RevokeAPIKey svc (us_ID (id_User id)) key) ≫= λ _, no_content.

Definition handleCreateBucket (id : identity) (body : option string) : gateway Reply :=
  name ← decodeJSON body;
  b ← meta (sv_CreateBucket svc (us_ID (id_User id)) name);
  created (BBucket b).

Definition handleListBuckets (id : identity) : gateway Reply :=
  bs ← meta (sv_ListBuckets svc (us_ID (id_User id)));
  okay (BBuckets bs).

Definition handleDeleteBucket (id : identity) (bucket : bytes) : gateway Reply :=
  bucket ← param_id bucket;
  meta (sv_DeleteBucket svc (us_ID (id_User id)) bucket) ≫= λ _, no_content.

Definition handleCreateFolder (id : identity) (body : option (bytes * string)) : gateway Reply :=
  '(bucket, path) ← decodeJSON body;
  bucket ← param_id bucket;
  f ← meta (sv_CreateFolder svc (us_ID (id_User id)) bucket path);
  created (BFile f).

Definition handleListFiles (id : identity) (bucket : bytes) (prefix cursor : string) (limit : option Z) :
    gateway Reply :=
  bucket ← param_id bucket;
  '(files, next) ← meta (sv_ListFiles svc (us_ID (id_User id)) bucket prefix cursor (default 0 limit));
  okay (BFiles files (if bool_decide (next = ""%string) then None else Some next)).

Definition handleGetFile (id : identity) (file : bytes) : gateway Reply :=
  file ← param_id file;
  f ← meta (sv_GetFile svc (us_ID (id_User id)) file);
  okay (BFile f).

Definition handleRename (id : identity) (body : option (bytes * string)) : gateway Reply :=
  '(file, path) ← decodeJSON body;
  file ← param_id file;
  f ← meta (sv_RenameFile svc (us_ID (id_User id)) file path);
  okay (BFile f).

Definition handleDeleteFile (id : identity) (file : bytes) : gateway Reply :=
  file ← param_id file;
  meta (sv_DeleteFile svc (us_ID (id_User id)) file) ≫= λ _, no_content.

Definition handleMintCode (id : identity) (body : option (string * string * string * option Z)) :
    gateway Reply :=
  '(endpoint, country, region, asn) ← decodeJSON body;
  '(c, secret) ← meta (sv_MintRegistrationCode svc (us_ID (id_User id)) endpoint country region asn);
  created (BCode (codePublic c) secret).

Definition handleListNodes (id : identity) : gateway Reply :=
  ns ← meta (sv_ListNodes svc (us_ID (id_User id)));
  okay (BNodes (nodeJSON <$> ns)).

Definition handlePlanUpload (id : identity) (body : option JManifest) : gateway Reply :=
  m ← lift (of_option (refused CodeManifestInvalid) (decodeUploadManifest body));
  p ← meta (sv_PlanUpload svc (us_ID (id_User id)) m);
  created (BPlan (planPublic p)).

Definition handleCommitUpload (id : identity) (upload : bytes) (body : option (list bytes)) : gateway Reply :=
  upload ← param_id upload;
  recs ← decodeJSON body;
  c ← meta (sv_CommitUpload svc (us_ID (id_User id)) upload recs);
  okay (BCommitted c).

Definition handlePlanDownload (id : identity) (file : bytes) : gateway Reply :=
  file ← param_id file;
  d ← meta (sv_PlanDownload svc (us_ID (id_User id)) file);
  okay (BDownload d).

Definition handleReportDownload (id : identity) (file : bytes) (body : option (list bytes)) : gateway Reply :=
  file ← param_id file;
  recs ← decodeJSON body;
  meta (sv_ReportDownload svc (us_ID (id_User id)) file recs) ≫= λ _, okay BOk.

Definition handleStorage (id : identity) : gateway Reply :=
  lc ← lift (of_option (refused CodeInternal) ledger);
  v ← or_internal (lc_Storage lc (us_ID (id_User id)));
  okay (BStorage v).

Definition handleEarnings (id : identity) (from to : option Z) : gateway Reply :=
  lc ← lift (of_option (refused CodeInternal) ledger);
  v ← or_internal (lc_Earnings lc (us_ID (id_User id)) (default time_zero from) (default time_zero to));
  okay (BEarnings v).

Definition handleNodeStats (id : identity) (node : bytes) (from to : option Z) : gateway Reply :=
  node ← param_id node;
  rows ← meta (sv_ListNodeStats svc (us_ID (id_User id)) node (default time_zero from) (default time_zero to));
  okay (BStats rows).

Definition handle (c : Call) (id : identity) : gateway Reply :=
  match c with
  | PostRegister body => handleRegister body
  | PostAPIKeys body => handleCreateAPIKey id body
  | GetAPIKeys => handleListAPIKeys id
  | DeleteAPIKey key => handleRevokeAPIKey id key
  | PostBuckets body => handleCreateBucket id body
  | GetBuckets => handleListBuckets id
  | DeleteABucket bucket => handleDeleteBucket id bucket
  | PostFolders body => handleCreateFolder id body
  | GetFiles bucket prefix cursor limit => handleListFiles id bucket prefix cursor limit
  | GetAFile file => handleGetFile id file
  | PutRename body => handleRename id body
  | DeleteAFile file => handleDeleteFile id file
  | PostCodes body => handleMintCode id body
  | GetNodes => handleListNodes id
  | PostUpload body => handlePlanUpload id body
  | PostCommit upload body => handleCommitUpload id upload body
  | GetDownload file => handlePlanDownload id file
  | PostReport file body => handleReportDownload id file body
  | GetStorage => handleStorage id
  | GetEarnings from to => handleEarnings id from to
  | GetStats node from to => handleNodeStats id node from to
  end.

(** [s.with(kind, handler)] of the call's route. *)
Definition serve (r : Request) (c : Call) : gateway Reply := with_ (route c) r c (handle c).
End gateway.

(** ** The gateway's answers *)

(** An envelope's status is its code's; only a rate limit asks to come back, in
    a second or more. *)
Definition well_refused (e : Refusal) : Prop :=
  rf_Status e = Status (rf_Code e) ∧
  match rf_RetryAfter e with
  | Some sec => rf_Code e = CodeRateLimited ∧ 1 ≤ sec
  | None => True
  end.

(** A metadata service whose call errors carry the status of their code. *)
Definition call_status (e : call_error) : Prop :=
  match e with CallError st c => st = Status c | _ => True end.

(** [m] refuses with [P] only. *)
Class Refuses {G E A} (P : E → Prop) (m : M G E A) : Prop :=
  refuses : ∀ g e g', m g = (Err e, g') → P e.

Section refuses.
Context {G E : Type} (P : E → Prop).

#[export] Instance refuses_ret {A} (a : A) : Refuses P (mret a : M G E A).
Proof. by intros g e g'. Qed.
#[export] Instance refuses_bind {A B} (m : M G E A) (k : A → M G E B) :
  Refuses P m → (∀ a, Refuses P (k a)) → Refuses P (m ≫= k).
Proof.
  intros Hm Hk g e g'. unfold mbind, M_bind. destruct (m g) as [[a|e1] g1] eqn:H1.
  - apply Hk.
  - intros [= <- _]. by eapply Hm.
Qed.
End refuses.

Section answers.
Context {S : Type} `{UuidText} (svc : Service S).

Lemma well_refused_code c : well_refused (refused c).
Proof. done. Qed.
#[local] Hint Resolve well_refused_code : core.

#[export] Instance refuses_throw {A} c : Refuses well_refused (throw (refused c) : M (Front S) Refusal A).
Proof. by intros g e g' [= <- _]. Qed.
#[export] Instance refuses_guard b c : Refuses well_refused (guard_err b (refused c) : M (Front S) Refusal unit).
Proof. intros g e g'. unfold guard_err. destruct b; [|done]. by intros [= <- _]. Qed.
#[export] Instance refuses_option {A} c (o : option A) :
  Refuses well_refused (lift (of_option (refused c) o) : M (Front S) Refusal A).
Proof. intros g e g'. destruct o; [done|]. by intros [= <- _]. Qed.
#[export] Instance refuses_decode {R} (body : option R) : Refuses well_refused (decodeJSON (S := S) body).
Proof. apply refuses_option. Qed.
#[export] Instance refuses_param t : Refuses well_refused (param_id (S := S) t).
Proof. apply refuses_option. Qed.

Lemma writeMeta_wf e : call_status e → well_refused (writeMeta e).
Proof. by destruct e. Qed.

#[export] Instance refuses_meta {A} (m : M S call_error A) :
  Refuses call_status m → Refuses well_refused (meta m).
Proof.
  intros Hm g e g'. unfold meta. destruct (m (g_meta g)) as [[a|e1] s] eqn:H1; [done|].
  intros [= <- _]. eapply writeMeta_wf, Hm, H1.
Qed.
#[export] Instance refuses_internal {A} (m : M S ledger_error A) : Refuses well_refused (or_internal m).
Proof. intros g e g'. unfold or_internal. destruct (m (g_meta g)) as [[a|e1] s]; [done|]. by intros [= <- _]. Qed.
#[export] Instance refuses_limit limit allow : Refuses well_refused (check_limit (S := S) limit allow).
Proof.
  intros g e g'. unfold check_limit. destruct limit as [|[]]; [done| |by intros [= <- _]].
  destruct (allow _) as [res bs]. destruct (rs_Allowed res); [done|]. intros [= <- _].
  split; [done|]. cbn. split; [done|]. unfold formatRetry.
  destruct (Z.ltb_spec (Z.quot (rs_RetryAfter res) second) 1); lia.
Qed.
End answers.

(** The calls of a service fail with the status of their code. *)
Class StatusLaw {S} (svc : Service S) : Prop := {
  st_CreateUser a b :: Refuses call_status (sv_CreateUser svc a b);
  st_VerifyPassword a b :: Refuses call_status (sv_VerifyPassword svc a b);
  st_LookupAPIKey a :: Refuses call_status (sv_LookupAPIKey svc a);
  st_CreateAPIKey a b c d e :: Refuses call_status (sv_CreateAPIKey svc a b c d e);
  st_ListAPIKeys a :: Refuses call_status (sv_ListAPIKeys svc a);
  st_RevokeAPIKey a b :: Refuses call_status (sv_RevokeAPIKey svc a b);
  st_CreateBucket a b :: Refuses call_status (sv_CreateBucket svc a b);
  st_ListBuckets a :: Refuses call_status (sv_ListBuckets svc a);
  st_DeleteBucket a b :: Refuses call_status (sv_DeleteBucket svc a b);
  st_CreateFolder a b c :: Refuses call_status (sv_CreateFolder svc a b c);
  st_ListFiles a b c d e :: Refuses call_status (sv_ListFiles svc a b c d e);
  st_GetFile a b :: Refuses call_status (sv_GetFile svc a b);
  st_RenameFile a b c :: Refuses call_status (sv_RenameFile svc a b c);
  st_DeleteFile a b :: Refuses call_status (sv_DeleteFile svc a b);
  st_MintRegistrationCode a b c d e :: Refuses call_status (sv_MintRegistrationCode svc a b c d e);
  st_ListNodes a :: Refuses call_status (sv_ListNodes svc a);
  st_PlanUpload a b :: Refuses call_status (sv_PlanUpload svc a b);
  st_CommitUpload a b c :: Refuses call_status (sv_CommitUpload svc a b c);
  st_PlanDownload a b :: Refuses call_status (sv_PlanDownload svc a b);
  st_ReportDownload a b c :: Refuses call_status (sv_ReportDownload svc a b c);
  st_ListNodeStats a b c d :: Refuses call_status (sv_ListNodeStats svc a b c d) }.

#[export] Instance refuses_do {S A} net (h : M S code A) : Refuses call_status (do net h).
Proof. intros g e g'. unfold do. destruct net, (h g) as [[]]; try done; by intros [= <- _]. Qed.

(** Whatever the network does and whatever serves it. *)
#[export] Instance client_status {S} `{UuidText} net (svc : Service S) : StatusLaw (Client net svc).
Proof.
  split; intros; cbn; try apply refuses_do; unfold c_MintRegistrationCode.
  all: apply refuses_bind; [apply refuses_do|]; intros []; apply refuses_ret.
Qed.

#[export] Instance refuses_key {S} now (svc : Service S) limit r :
  StatusLaw svc → Refuses well_refused (key_identity now svc limit r).
Proof.
  intros Hs g e g'. unfold key_identity. destruct (authenticateKey svc r (g_meta g)) as [[id|e1] s] eqn:Ha; [done|].
  apply refuses_bind; [apply refuses_limit|]. intros _ g1 e2 g2 [= <- _]. apply writeMeta_wf.
  unfold authenticateKey in Ha. destruct (negb _); [by injection Ha as <- _|].
  revert Ha. apply refuses_bind; [apply _|]. intros []. apply refuses_ret.
Qed.

Ltac refuse_auto :=
  repeat first
    [ apply refuses_bind; [try apply _|intros ?]
    | match goal with
      | |- Refuses _ (match ?x with _ => _ end) => destruct x
      end
    | apply _ ].

#[export] Instance refuses_handle {S} `{UuidText} (svc : Service S) ledger entropy c id :
  StatusLaw svc → Refuses well_refused (handle svc ledger entropy c id).
Proof.
  intros Hs. destruct c; cbn [handle];
    unfold handleRegister, handleCreateAPIKey, handleListAPIKeys, handleRevokeAPIKey, handleCreateBucket,
      handleListBuckets, handleDeleteBucket, handleCreateFolder, handleListFiles, handleGetFile, handleRename,
      handleDeleteFile, handleMintCode, handleListNodes, handlePlanUpload, handleCommitUpload,
      handlePlanDownload, handleReportDownload, handleStorage, handleEarnings, handleNodeStats,
      created, okay, no_content; refuse_auto.
  intros g e g'. destruct (MintAPIKey entropy); [done|]. by intros [= <- _].
Qed.

(** Whatever a client sends and whatever happens behind it, an error it gets
    from the gateway has the status of its code, and tells it to come back later
    only when it was rate limited, and then in at least a second. *)
Theorem serve_refuses_well {S} `{UuidText} now net (svc : Service S) limit ledger entropy r c g e g' :
  serve now (Client net svc) limit ledger entropy r c g = (Err e, g') → well_refused e.
Proof.
  revert g e g'. change (Refuses well_refused (serve now (Client net svc) limit ledger entropy r c)).
  unfold serve, with_. refuse_auto.
Qed.

(** ** Who gets through *)

(** Looking somebody up changes nothing in the service. *)
Class AuthReads {S} (svc : Service S) : Prop := {
  ar_VerifyPassword email password :: Frame id (sv_VerifyPassword svc email password);
  ar_LookupAPIKey hash :: Frame id (sv_LookupAPIKey svc hash) }.

Section who.
Context {S : Type} `{UuidText} (now : Z) (svc : Service S) {reads : AuthReads svc} (limit : Limiter)
  (ledger : option (LedgerClient S)) (entropy : option bytes).

(** The identity the route's check accepts in the service's state [s]. *)
Definition authenticated (kind : authKind) (r : Request) (s : S) (id : identity) : Prop :=
  match kind with
  | authNone => id = no_identity
  | authBasic =>
      id_Key id = None ∧
      ∃ email password, rq_Basic r = Some (email, password) ∧
        sv_VerifyPassword svc email password s = (Ok (id_User id), s)
  | authKey | authKeyWrite =>
      ValidSecretFormat (rq_APIKey r) = true ∧
      ∃ k, id_Key id = Some k ∧
        sv_LookupAPIKey svc (HashAPIKey (rq_APIKey r)) s = (Ok (k, id_User id), s) ∧
        match kind with authKeyWrite => "write"%string | _ => "read"%string end ∈ ak_Scopes k
  end.

(** The outcome [x] of a check before the handler [next]: it refused without a
    trace in the service, or it passed on an identity for which [P] holds. *)
Definition gated {A} (g : Front S) (P : identity → Prop) (next : identity → M (Front S) Refusal A)
    (x : result Refusal A * Front S) : Prop :=
  (∃ e g', x = (Err e, g') ∧ g_meta g' = g_meta g) ∨
  ∃ id g1, P id ∧ g_meta g1 = g_meta g ∧ x = next id g1.

Lemma check_limit_cases allow (g : Front S) : g_meta (check_limit limit allow g).2 = g_meta g.
Proof. unfold check_limit. destruct limit as [|[]]; [done| |done]. by destruct (allow _). Qed.

Lemma gated_limit {A} allow g (P : identity → Prop) next (k : M (Front S) Refusal A) :
  (∀ g1, g_meta g1 = g_meta g → gated g1 P next (k g1)) →
  gated g P next ((check_limit limit allow ≫= λ _, k) g).
Proof.
  intros Hk. pose proof (check_limit_cases allow g) as Hc. unfold mbind, M_bind.
  destruct (check_limit limit allow g) as [[[]|e] g1]; cbn in Hc.
  - destruct (Hk g1 Hc) as [(e&g'&?&?)|(id&g2&?&?&?)]; [left|right].
    + exists e, g'. split; [done|congruence].
    + exists id, g2. split_and!; [done|congruence|done].
  - left. by eexists e, _.
Qed.

Lemma gated_next {A} g (P : identity → Prop) (next : identity → M (Front S) Refusal A) id :
  P id → gated g P next (next id g).
Proof. intros. right. by exists id, g. Qed.

Lemma gated_when {A} (b : bool) allow g (P : identity → Prop) next (k : M (Front S) Refusal A) :
  (∀ g1, g_meta g1 = g_meta g → gated g1 P next (k g1)) →
  gated g P next (((if b then check_limit limit allow else mret tt) ≫= λ _, k) g).
Proof. intros Hk. destruct b; [by apply gated_limit|]. rewrite ret_bind. by apply Hk. Qed.

Lemma hasScope_elem scopes want : hasScope scopes want = true ↔ want ∈ scopes.
Proof.
  unfold hasScope. rewrite existsb_exists. setoid_rewrite <- list_elem_of_In. split.
  - intros (x&?&->%bool_decide_eq_true). done.
  - intros. exists want. by rewrite bool_decide_eq_true_2.
Qed.

Lemma authenticateKey_cases r s :
  match authenticateKey svc r s with
  | (Ok id, s') => s' = s ∧ ValidSecretFormat (rq_APIKey r) = true ∧
      ∃ k, id_Key id = Some k ∧ sv_LookupAPIKey svc (HashAPIKey (rq_APIKey r)) s = (Ok (k, id_User id), s)
  | (Err _, s') => s' = s
  end.
Proof.
  unfold authenticateKey. destruct (ValidSecretFormat _); [|done]. cbn [negb]. unfold mbind, M_bind.
  pose proof (ar_LookupAPIKey (svc := svc) (HashAPIKey (rq_APIKey r)) s) as Hf.
  destruct (sv_LookupAPIKey _ _ s) as [[[k u]|e] s'] eqn:Hl; cbn in Hf; subst s'; [|done].
  split_and!; [done..|]. by exists k.
Qed.

Lemma gated_key kind r c next g :
  kind = authKey ∨ kind = authKeyWrite →
  gated g (authenticated kind r (g_meta g)) next (with_ now svc limit kind r c next g).
Proof.
  intros Hk. destruct g as [s bs]. unfold with_. set (need := match kind with authKeyWrite => "write"%string | _ => "read"%string end).
  assert (gated (MkFront s bs) (authenticated kind r s) next ((
    id ← key_identity now svc limit r;
    guard_err (negb (hasScope (scopes_of id) need)) (refused CodeForbidden) ≫= λ _,
    (if is_get c then check_limit limit (AllowRead now (account (id_User id))) else mret tt) ≫= λ _,
    (if plans c then check_limit limit (AllowPlan now (account (id_User id))) else mret tt) ≫= λ _,
    next id) (MkFront s bs))) as Hg; [|by destruct Hk as [-> | ->]].
  unfold mbind at 1, M_bind at 1, key_identity. pose proof (authenticateKey_cases r s) as Ha.
  cbn [g_meta g_limits]. destruct (authenticateKey svc r s) as [[id|e] s'].
  - destruct Ha as (->&Hv&k&Hik&Hl). destruct (hasScope (scopes_of id) need) eqn:Hs.
    + cbn [negb guard_err]. rewrite ret_bind.
      assert (authenticated kind r s id) as Hid.
      { apply hasScope_elem in Hs. unfold scopes_of in Hs. rewrite Hik in Hs.
        destruct Hk as [-> | ->]; split; try done; by exists k. }
      apply gated_when. intros g1 _. apply gated_when. intros g2 _. by apply gated_next.
    + left. by eexists _, _.
  - subst s'. left. pose proof (check_limit_cases (AllowAuth now (clientIP r)) (MkFront s bs)) as Hc.
    unfold mbind, M_bind. destruct (check_limit _ _ _) as [[[]|e'] g1]; by eexists _, _.
Qed.

End who.

(** ** The gateway in front of the store-backed service *)

Lemma platform_eta p : MkPlatform (pf_reg p) (pf_redis p) (pf_bus p) = p.
Proof. by destruct p. Qed.

Lemma on_registry_err {A} (m : registry A) p e :
  m (pf_reg p) = (Err e, pf_reg p) → on_registry m p = (Err (FromAcct e), p).
Proof. intros Hm. unfold on_registry. by rewrite Hm, platform_eta. Qed.

Lemma on_store_err {A} (m : store A) p e :
  m (pf_db p) = (Err e, pf_db p) → on_store m p = (Err (FromAcct (EStore e)), p).
Proof.
  intros Hm. apply on_registry_err. unfold on_db. unfold pf_db in Hm. by rewrite Hm, upd_r_db_id.
Qed.

Lemma on_world_err {A} (m : service A) p e :
  m (pf_world p) = (Err e, pf_world p) → on_world m p = (Err (FromMeta e), p).
Proof.
  intros Hm. unfold on_world. rewrite Hm. unfold set_world, pf_world. cbn.
  unfold pf_db. by rewrite upd_r_db_id, platform_eta.
Qed.

(** A handler that fails without a trace does so for the client. *)
Lemma do_err {S A} net (h : M S code A) s c : h s = (Err c, s) → ∃ e, do net h s = (Err e, s).
Proof. intros Hh. unfold do. destruct net; rewrite ?Hh; by eexists. Qed.

Lemma meta_answer_err {S A B} (m : M S call_error A) (k : A → M S code B) s e :
  m s = (Err e, s) → (answer m ≫= k) s = (Err (writeErr e), s).
Proof. intros Hm. unfold answer, mbind, M_bind. by rewrite Hm. Qed.

Lemma meta_answer_err' {S A} (m : M S call_error A) s e :
  m s = (Err e, s) → answer m s = (Err (writeErr e), s).
Proof. intros Hm. unfold answer. by rewrite Hm. Qed.

Lemma do_frame {S A} net (h : M S code A) s : (h s).2 = s → (do net h s).2 = s.
Proof. intros Hh. unfold do. destruct net; [|done|done]. by destruct (h s) as [[]]. Qed.

#[export] Instance frame_do {S A} net (h : M S code A) : Frame id h → Frame id (do net h).
Proof. intros Hh s. apply do_frame, Hh. Qed.
#[export] Instance frame_answer {S A} (m : M S call_error A) : Frame id m → Frame id (answer m).
Proof. intros Hm s. specialize (Hm s). unfold answer. by destruct (m s) as [[]]. Qed.

(** A client looks people up where its service does. *)
#[export] Instance client_reads {S} `{UuidText} net (svc : Service S) : AuthReads svc → AuthReads (Client net svc).
Proof.
  intros Hr. split; intros; cbn [Client sv_VerifyPassword sv_LookupAPIKey];
    unfold c_VerifyPassword, c_LookupAPIKey, h_VerifyPassword, h_LookupAPIKey, decode, invalid; apply frame_do.
  - apply frame_bind; [apply _|]. intros [? ?]. apply frame_bind; [apply _|]. intros ?. apply _.
  - apply frame_bind; [apply _|]. intros [? ?]. apply _.
Qed.

Lemma on_registry_frame {A} (m : registry A) : Frame id m → Frame id (on_registry m).
Proof.
  intros Hm p. specialize (Hm (pf_reg p)). unfold on_registry. destruct (m (pf_reg p)) as [x r]. cbn in *.
  subst r. apply platform_eta.
Qed.

Lemma or_unauthenticated_frame {A} (m : registry A) : Frame id m → Frame id (or_unauthenticated m).
Proof. intros Hm r. specialize (Hm r). unfold or_unauthenticated. by destruct (m r) as [[|[[]| | | |]]]. Qed.

#[export] Instance store_reads `{Argon2, Ed25519, Placer} now priv random quota ca :
  AuthReads (StoreService now priv random quota ca).
Proof.
  split; intros; cbn [StoreService sv_VerifyPassword sv_LookupAPIKey]; apply on_registry_frame.
  - unfold Accounts.VerifyPassword. apply frame_bind; [by apply or_unauthenticated_frame|]. intros u.
    apply frame_bind; [apply _|]. intros _. apply frame_bind; apply _.
  - unfold LookupAPIKey. apply frame_bind; [by apply or_unauthenticated_frame|]. intros k.
    apply frame_bind; [done|]. intros u. apply frame_bind; apply _.
Qed.

(** ** The registry behind the gateway *)

(** The registry moves row by row ([Accounts.prim]). *)
Definition pf_evolves (p p' : Platform) : Prop := rtc prim (pf_reg p) (pf_reg p').

#[export] Instance pf_evolves_preorder : PreOrder pf_evolves.
Proof. split; [intros p; red; done|]. intros p1 p2 p3. unfold pf_evolves. by etrans. Qed.

Lemma evolves_on_registry {A} (m : registry A) : primitive m → Evolves pf_evolves (on_registry m).
Proof. intros Hm p. specialize (Hm (pf_reg p)). unfold pf_evolves, on_registry. by destruct (m (pf_reg p)). Qed.

#[export] Instance evolves_on_store {A} (m : store A) : Evolves db_evolves m → Evolves pf_evolves (on_store m).
Proof. intros Hm. apply evolves_on_registry, primitive_db, Hm. Qed.

#[export] Instance evolves_on_world {A} (m : service A) : Evolves w_evolves m → Evolves pf_evolves (on_world m).
Proof.
  intros Hm p. specialize (Hm (pf_world p)). unfold pf_evolves, on_world.
  destruct (m (pf_world p)) as [x w]. apply rtc_once, prim_db, Hm.
Qed.

#[export] Instance evolves_or_invalid {A} (m : platform A) : Evolves pf_evolves m → Evolves pf_evolves (or_invalid m).
Proof. intros Hm p. specialize (Hm p). unfold or_invalid. by repeat case_match. Qed.

(** A service all of whose customers' operations evolve its state by [R]. *)
Class EvolvesLaw {S} (R : S → S → Prop) (svc : Service S) : Prop := {
  el_CreateUser a b :: Evolves R (sv_CreateUser svc a b);
  el_VerifyPassword a b :: Evolves R (sv_VerifyPassword svc a b);
  el_LookupAPIKey a :: Evolves R (sv_LookupAPIKey svc a);
  el_CreateAPIKey a b c d e :: Evolves R (sv_CreateAPIKey svc a b c d e);
  el_ListAPIKeys a :: Evolves R (sv_ListAPIKeys svc a);
  el_RevokeAPIKey a b :: Evolves R (sv_RevokeAPIKey svc a b);
  el_CreateBucket a b :: Evolves R (sv_CreateBucket svc a b);
  el_ListBuckets a :: Evolves R (sv_ListBuckets svc a);
  el_DeleteBucket a b :: Evolves R (sv_DeleteBucket svc a b);
  el_CreateFolder a b c :: Evolves R (sv_CreateFolder svc a b c);
  el_ListFiles a b c d e :: Evolves R (sv_ListFiles svc a b c d e);
  el_GetFile a b :: Evolves R (sv_GetFile svc a b);
  el_RenameFile a b c :: Evolves R (sv_RenameFile svc a b c);
  el_DeleteFile a b :: Evolves R (sv_DeleteFile svc a b);
  el_MintRegistrationCode a b c d e :: Evolves R (sv_MintRegistrationCode svc a b c d e);
  el_ListNodes a :: Evolves R (sv_ListNodes svc a);
  el_PlanUpload a b :: Evolves R (sv_PlanUpload svc a b);
  el_CommitUpload a b c :: Evolves R (sv_CommitUpload svc a b c);
  el_PlanDownload a b :: Evolves R (sv_PlanDownload svc a b);
  el_ReportDownload a b c :: Evolves R (sv_ReportDownload svc a b c);
  el_ListNodeStats a b c d :: Evolves R (sv_ListNodeStats svc a b c d) }.

#[export] Instance store_evolves `{Argon2, Ed25519, Placer, !PlacerLaws} now priv random quota ca :
  QuotaLaws quota → EvolvesLaw pf_evolves (StoreService now priv random quota ca).
Proof.
  intros Hq.
  assert (∀ A (m : registry A), (∀ r, step r (m r).2) → Evolves pf_evolves (on_registry m)) as Hstep.
  { intros A m Hm. apply evolves_on_registry. intros r. apply step_prims, Hm. }
  split; intros; cbn [StoreService sv_CreateUser sv_VerifyPassword sv_LookupAPIKey sv_CreateAPIKey
    sv_ListAPIKeys sv_RevokeAPIKey sv_CreateBucket sv_ListBuckets sv_DeleteBucket sv_CreateFolder sv_ListFiles
    sv_GetFile sv_RenameFile sv_DeleteFile sv_MintRegistrationCode sv_ListNodes sv_PlanUpload sv_CommitUpload
    sv_PlanDownload sv_ReportDownload sv_ListNodeStats];
    unfold svc_CreateBucket, svc_CreateFolder, svc_RenameFile, svc_DeleteFile, svc_CommitUpload, svc_ListNodeStats;
    try (apply Hstep; intros r; first [apply step_user | apply step_password | apply step_lookup
      | apply step_key | apply step_revoke | apply step_mint]); evolve; apply evolves_on_registry.
  - by intros r.
  - apply primitive_audit.
Qed.

(** The metadata client and the gateway evolve the service's state as the
    service does. *)
Section lifting.
Context {S : Type} (R : S → S → Prop) `{!PreOrder R} `{UuidText}.

#[export] Instance evolves_answer {A} (m : M S call_error A) : Evolves R m → Evolves R (answer m).
Proof. intros Hm s. specialize (Hm s). unfold answer. by destruct (m s) as [[]]. Qed.
#[export] Instance evolves_do {A} net (h : M S code A) : Evolves R h → Evolves R (do net h).
Proof. intros Hh s. specialize (Hh s). unfold do. destruct net; [by destruct (h s) as [[]]|done|done]. Qed.

#[export] Instance client_evolves net (svc : Service S) : EvolvesLaw R svc → EvolvesLaw R (Client net svc).
Proof.
  intros Hs. split; intros; cbn [Client sv_CreateUser sv_VerifyPassword sv_LookupAPIKey sv_CreateAPIKey
    sv_ListAPIKeys sv_RevokeAPIKey sv_CreateBucket sv_ListBuckets sv_DeleteBucket sv_CreateFolder sv_ListFiles
    sv_GetFile sv_RenameFile sv_DeleteFile sv_MintRegistrationCode sv_ListNodes sv_PlanUpload sv_CommitUpload
    sv_PlanDownload sv_ReportDownload sv_ListNodeStats];
    unfold c_CreateUser, c_VerifyPassword, c_LookupAPIKey, c_CreateAPIKey, c_ListAPIKeys, c_RevokeAPIKey, c_CreateBucket, c_ListBuckets, c_DeleteBucket, c_CreateFolder, c_ListFiles, c_GetFile, c_RenameFile, c_DeleteFile, c_MintRegistrationCode, c_ListNodes, c_RegisterNode, c_HeartbeatNode, c_PlanUpload, c_CommitUpload, c_PlanDownload, c_ReportDownload, c_ListNodeStats,
      h_CreateUser, h_VerifyPassword, h_LookupAPIKey, h_CreateAPIKey, h_ListAPIKeys, h_RevokeAPIKey,
      h_CreateBucket, h_ListBuckets, h_DeleteBucket, h_CreateFolder, h_ListFiles, h_GetFile, h_RenameFile,
      h_DeleteFile, h_MintRegistrationCode, h_ListNodes, h_PlanUpload,
      h_CommitUpload, h_PlanDownload, h_ReportDownload, h_ListNodeStats, parseUser, parse_id, decode, invalid;
    repeat first [apply evolves_do|evolve].
Qed.

Definition front_evolves (g g' : Front S) : Prop := R (g_meta g) (g_meta g').

#[export] Instance front_evolves_preorder : PreOrder front_evolves.
Proof. split; [intros g; red; done|]. intros g1 g2 g3. unfold front_evolves. by etrans. Qed.

#[export] Instance evolves_meta {A} (m : M S call_error A) : Evolves R m → Evolves front_evolves (meta m).
Proof. intros Hm g. specialize (Hm (g_meta g)). unfold front_evolves, meta. by destruct (m (g_meta g)) as [[]]. Qed.
#[export] Instance evolves_internal {A} (m : M S ledger_error A) : Evolves R m → Evolves front_evolves (or_internal m).
Proof. intros Hm g. specialize (Hm (g_meta g)). unfold front_evolves, or_internal. by destruct (m (g_meta g)) as [[]]. Qed.
#[export] Instance evolves_limit limit allow : Evolves front_evolves (check_limit limit allow).
Proof. intros g. unfold front_evolves. by rewrite check_limit_cases. Qed.

(** The ledger's views leave the platform alone too. *)
Class LedgerEvolves (ledger : option (LedgerClient S)) : Prop := {
  le_storage lc u : ledger = Some lc → Evolves R (lc_Storage lc u);
  le_earnings lc u from to : ledger = Some lc → Evolves R (lc_Earnings lc u from to) }.

#[export] Instance no_ledger_evolves : LedgerEvolves None.
Proof. by split. Qed.

(** The ledger service reads its database and changes nothing. *)
#[export] Instance ledger_evolves now net (db : S → DB) : LedgerEvolves (Some (NewClient now net db)).
Proof.
  split; intros lc u; [|intros from to]; intros [= <-] s; cbn [NewClient lc_Storage lc_Earnings]; unfold get;
    (destruct net; [|done..]); by destruct (_ (db s)).1.
Qed.

Lemma with_ledger {A} ledger (e : Refusal) (k : LedgerClient S → M (Front S) Refusal A) :
  (∀ lc, ledger = Some lc → Evolves front_evolves (k lc)) →
  Evolves front_evolves (lift (of_option e ledger) ≫= k).
Proof. intros Hk g. unfold mbind, M_bind, lift. destruct ledger as [lc|]; cbn; [by apply Hk|done]. Qed.

Lemma evolves_views ledger id from to :
  LedgerEvolves ledger →
  Evolves front_evolves (handleStorage ledger id) ∧ Evolves front_evolves (handleEarnings ledger id from to).
Proof.
  intros Hl. unfold handleStorage, handleEarnings.
  split; apply with_ledger; intros lc Hlc; (apply evolves_bind; [apply _|apply evolves_internal|apply _]).
  - by eapply le_storage.
  - by eapply le_earnings.
Qed.

Lemma serve_evolves now (svc : Service S) limit ledger entropy r c :
  EvolvesLaw R svc → LedgerEvolves ledger → Evolves front_evolves (serve now svc limit ledger entropy r c).
Proof.
  intros Hs Hl.
  assert (Evolves front_evolves (key_identity now svc limit r)) as Hk.
  { intros g. unfold key_identity.
    assert (Evolves R (authenticateKey svc r)) as Ha by (unfold authenticateKey; evolve).
    specialize (Ha (g_meta g)). destruct (authenticateKey svc r (g_meta g)) as [[id|e] s]; [done|].
    etrans; [|apply (evolves_bind front_evolves _ _ _ _)]. done. }
  assert (∀ id, Evolves front_evolves (handle svc ledger entropy c id)) as Hh.
  { intros id. destruct c; cbn [handle];
      try (by apply (evolves_views ledger id None None)); try (by apply (evolves_views ledger id _ _));
      unfold handleRegister, handleCreateAPIKey, handleListAPIKeys, handleRevokeAPIKey, handleCreateBucket,
        handleListBuckets, handleDeleteBucket, handleCreateFolder, handleListFiles, handleGetFile, handleRename,
        handleDeleteFile, handleMintCode, handleListNodes, handlePlanUpload, handleCommitUpload,
        handlePlanDownload, handleReportDownload, handleNodeStats,
        created, okay, no_content, decodeJSON, param_id; evolve.
}
  unfold serve, with_. evolve.
Qed.
End lifting.
Section platform.
Context `{Argon2, Ed25519, Placer} {placer : PlacerLaws} `{UuidTextLaws}
  (quota : option (uuid → service unit)) {quota_laws : QuotaLaws quota}
  (ledger : option (LedgerClient Platform)) {ledger_laws : LedgerEvolves pf_evolves ledger}.

(** What surrounds one request: clocks, keys, randomness, the certificate
    authority, the network, the limiter. *)
Record Setting := MkSetting {
  se_now : Z; se_priv : bytes; se_random : nat → option bytes;
  se_ca : option (bytes → uuid → string → option Issued); se_net : Delivery; se_limit : Limiter;
  se_entropy : option bytes }.

Definition backend (se : Setting) : Service Platform :=
  StoreService (se_now se) (se_priv se) (se_random se) quota (se_ca se).
Definition gate (se : Setting) : Request → Call → M (Front Platform) Refusal Reply :=
  serve (se_now se) (Client (se_net se) (backend se)) (se_limit se) ledger (se_entropy se).

(** A request is served, or something else moves the registry row by row (a
    node joins, renews or reports) or the limiter. *)
Inductive visit (g : Front Platform) : Front Platform → Prop :=
  | visit_request se r c : visit g (gate se r c g).2
  | visit_other p bs : pf_evolves (g_meta g) p → visit g (MkFront p bs).

Lemma gate_evolves se r c : Evolves (front_evolves pf_evolves) (gate se r c).
Proof. apply serve_evolves; apply _. Qed.

Lemma visits_evolve g g' : rtc visit g g' → pf_evolves (g_meta g) (g_meta g').
Proof.
  induction 1 as [|g g1 g2 Hv _ IH]; [done|]. etrans; [|exact IH].
  destruct Hv as [se r c|p bs Hp]; [apply gate_evolves|done].
Qed.

(** Whatever requests reach the gateway, in whatever order and however the
    network between the services behaves, the registry keeps its invariant:
    unique users, keys, codes and nodes, references that point at rows, codes
    used at most once, ids never reused. *)
Theorem visits_keep_registry g g' :
  registry_wf (pf_reg (g_meta g)) → rtc visit g g' → registry_wf (pf_reg (g_meta g')).
Proof. intros Hwf Hv%visits_evolve. by eapply prims_wf. Qed.

Lemma revoke_answered se id t g x g' :
  handle (Client (se_net se) (backend se)) ledger (se_entropy se) (DeleteAPIKey t) id g = (Ok x, g') →
  ∃ user key r', uuid_Parse t = Some key ∧
    RevokeAPIKey (se_now se) user key (pf_reg (g_meta g)) = (Ok tt, r') ∧ pf_reg (g_meta g') = r'.
Proof.
  cbn [handle]. unfold handleRevokeAPIKey, param_id. intros (key&g1&Hkey&([]&g2&Hm&[= _ <-])%bind_ok)%bind_ok.
  unfold lift in Hkey. destruct (uuid_Parse t) as [key'|] eqn:Hk; [|done]. injection Hkey as <- <-.
  unfold meta in Hm. cbn [Client sv_RevokeAPIKey] in Hm. unfold c_RevokeAPIKey in Hm.
  destruct (do _ _ _) as [[[]|e] p] eqn:Hd; [|done]. injection Hm as <-. cbn [g_meta].
  unfold do, h_RevokeAPIKey, parseUser, parse_id, invalid in Hd. destruct (se_net se); [|done|done].
  match type of Hd with match ?x with _ => _ end = _ => destruct x as [[[]|c] p'] eqn:Hh end; [|done].
  injection Hd as ->.
  apply bind_ok in Hh as (user&p1&Hu&(key2&p2&Hk'&Ha)%bind_ok).
  unfold lift, of_option in Hu, Hk'. destruct (uuid_Parse (uuid_String (us_ID _))) as [u|]; [|done]. injection Hu as <- <-.
  rewrite uuid_Parse_String in Hk' by (by eapply uuid_Parse_wf). injection Hk' as <- <-.
  exists u, key'. unfold answer in Ha. cbn [backend StoreService sv_RevokeAPIKey] in Ha. unfold on_registry in Ha.
  destruct (RevokeAPIKey _ u key' (pf_reg (g_meta g))) as [[[]|e] r']; [|done]. injection Ha as <-. by exists r'.
Qed.

Lemma lookup_refused se h g :
  (LookupAPIKey (se_now se) h (pf_reg (g_meta g))).1 = Err EUnauthenticated →
  ∃ e, sv_LookupAPIKey (Client (se_net se) (backend se)) h (g_meta g) = (Err e, g_meta g).
Proof.
  intros Hl. cbn [Client sv_LookupAPIKey]. unfold c_LookupAPIKey. apply do_err with (c := CodeUnauthenticated). unfold h_LookupAPIKey.
  rewrite (meta_answer_err _ _ (g_meta g) (FromAcct EUnauthenticated)); [done|].
  cbn [backend StoreService sv_LookupAPIKey]. apply on_registry_err.
  pose proof (ar_LookupAPIKey (svc := backend se) h (g_meta g)) as Hf.
  cbn [backend StoreService sv_LookupAPIKey] in Hf. unfold on_registry in Hf.
  destruct (LookupAPIKey (se_now se) h (pf_reg (g_meta g))) as [x r2]. cbn in Hl, Hf. subst x.
  by rewrite <- Hf.
Qed.

(** C4: Once the gateway has answered that a key is revoked, no request that
    carries its secret gets past it any more, on any route that takes a key,
    after whatever other requests: it is turned away and the platform behind is
    untouched. *)
Theorem revoked_key_shut_out se0 r0 t g0 x g1 :
  registry_wf (pf_reg (g_meta g0)) → gate se0 r0 (DeleteAPIKey t) g0 = (Ok x, g1) →
  ∃ k, k ∈ r_keys (pf_reg (g_meta g0)) ∧ uuid_Parse t = Some (ak_ID k) ∧
    ∀ se r c g, rtc visit g1 g → HashAPIKey (rq_APIKey r) = ak_KeyHash k →
      route c = authKey ∨ route c = authKeyWrite →
      ∃ e g', gate se r c g = (Err e, g') ∧ g_meta g' = g_meta g.
Proof.
  intros Hwf Hdel.
  destruct (gated_key (se_now se0) (Client (se_net se0) (backend se0)) (se_limit se0) authKeyWrite r0 (DeleteAPIKey t)
    (handle (Client (se_net se0) (backend se0)) ledger (se_entropy se0) (DeleteAPIKey t)) g0)
    as [(e&g'&He&_)|(id&g'&_&Hg'&Hx)]; [by right|by pose proof (eq_trans (eq_sym Hdel) He)|].
  pose proof (eq_sym (eq_trans (eq_sym Hdel) Hx)) as Hy. clear Hx. rename Hy into Hx.
  apply revoke_answered in Hx as (user&key&r1&Ht&Hrev&Hr1). rewrite Hg' in Hrev.
  assert (∃ k, k ∈ r_keys (pf_reg (g_meta g0)) ∧ revocable user key k = true) as (k&Hk&Hkr).
  { unfold RevokeAPIKey in Hrev. apply bind_ok in Hrev as ([]&r'&Hr&_). by apply RevokeAPIKey_row_ok in Hr as [? _]. }
  unfold revocable in Hkr. apply andb_true_iff in Hkr as [[Hid%bool_decide_eq_true _]%andb_true_iff _].
  exists k. rewrite Hid. split_and!; [done..|]. intros se r c g Hv Hh Hc.
  apply visits_evolve in Hv. unfold pf_evolves in Hv. rewrite Hr1 in Hv.
  destruct (revoked_key_refused _ user key _ _ _ (se_now se) Hwf Hrev Hv) as (k'&Hk'&Hid'&_&_&Hl).
  assert (k' = k) as -> by (apply (unique_row ak_ID (r_keys (pf_reg (g_meta g0)))); [apply wf_key_ids, Hwf|done..|congruence]).
  destruct (gated_key (se_now se) (Client (se_net se) (backend se)) (se_limit se) (route c) r c
    (handle (Client (se_net se) (backend se)) ledger (se_entropy se) c) g Hc)
    as [(e&g2&?&?)|(id2&g2&Hid1&_&_)]; [by exists e, g2|]. exfalso.
  apply lookup_refused in Hl as [e Hl]. rewrite <- Hh in Hl.
  destruct Hc as [Hc|Hc]; rewrite Hc in Hid1; destruct Hid1 as (_&k1&_&Hl1&_); rewrite Hl in Hl1; discriminate.
Qed.
End platform.
