(* ===== verification/GatewayGuards.v ===== *)
(** * What the gateway keeps apart: other people's files, and too many requests

    Theorems about [Gateway.gate], the gateway of
    [src/internal/gateway/gateway.go] in front of the metadata service: a file
    answers only to its owner, and the limit on unauthenticated requests of
    [src/internal/ratelimit/ratelimit.go] with the way around it. *)

From S2P Require Import Prelude GoFloat Bytes Sha256 Crypto Pipeline Schema Nodes World Files Net Listings Uploads Wire Auth.
From S2P Require Import Apierr Health Accounts Tickets Receipts Metadata Evolution Service LedgerViews Ratelimit Gateway.
From Stdlib Require Import Ascii.

(** ** Other people's files *)

(** The file a call names. *)
Definition file_param (c : Call) : option bytes :=
  match c with
  | GetAFile id | DeleteAFile id | GetDownload id | PostReport id _ => Some id
  | PutRename (Some (id, _)) => Some id
  | _ => None
  end.

Section isolation.
Context `{Argon2, Ed25519, Placer} `{UuidTextLaws}
  (quota : option (uuid → service unit)) (ledger : option (LedgerClient Platform)).

Lemma FileByID_none owner id d : owned_file d owner id = None → FileByID owner id d = (Err ENotFound, d).
Proof. intros Ho. unfold FileByID. by rewrite Ho. Qed.

Lemma meta_err {A} (m : M Platform call_error A) (g : Front Platform) e :
  m (g_meta g) = (Err e, g_meta g) → ∃ e', meta m g = (Err e', g).
Proof. intros Hm. unfold meta. rewrite Hm. destruct g. by eexists. Qed.

(** A handler of the metadata service that answers one of its errors. *)
Lemma client_err {A B} net (m : M Platform call_error A) (k : A → M Platform code B) p e :
  m p = (Err e, p) → ∃ e', do net (answer m ≫= k) p = (Err e', p).
Proof. intros Hm. apply do_err with (c := writeErr e). by apply meta_answer_err. Qed.

Lemma client_err' {A} net (m : M Platform call_error A) p e :
  m p = (Err e, p) → ∃ e', do net (answer m) p = (Err e', p).
Proof. intros Hm. apply do_err with (c := writeErr e). by apply meta_answer_err'. Qed.

Lemma meta_bind_err {A B} (m : M Platform call_error A) (k : A → M (Front Platform) Refusal B) g :
  (∃ e, m (g_meta g) = (Err e, g_meta g)) → ∃ e, (meta m ≫= k) g = (Err e, g).
Proof. intros (e&[e' He]%meta_err). exists e'. by apply bind_err. Qed.

Section store.
Context (se : Setting) (owner file : uuid) (p : Platform) (Ho : owned_file (pf_db p) owner file = None).
Abbreviation svc := (backend quota se).

Lemma foreign_get : sv_GetFile svc owner file p = (Err (FromAcct (EStore ENotFound)), p).
Proof. apply on_store_err. by apply FileByID_none. Qed.

Lemma foreign_rename path : ∃ e, sv_RenameFile svc owner file path p = (Err e, p).
Proof.
  cbn [backend StoreService sv_RenameFile]. unfold svc_RenameFile, or_invalid.
  assert (∃ e, RenameFile (se_now se) owner file path (pf_db p) = (Err e, pf_db p)) as [e He].
  { unfold RenameFile, mbind at 1, M_bind at 1, lift. destruct (NormalizePath path) as [q|e]; [|by eexists].
    exists ENotFound. unfold transaction. by erewrite bind_err by (by apply FileByID_none). }
  rewrite (on_store_err _ _ _ He). destruct e; by eexists.
Qed.

Lemma foreign_delete : ∃ e, sv_DeleteFile svc owner file p = (Err e, p).
Proof.
  cbn [backend StoreService sv_DeleteFile]. unfold svc_DeleteFile. eexists. apply bind_err, on_store_err.
  unfold SoftDeleteFile. apply bind_err. by apply FileByID_none.
Qed.

Lemma pf_world_eta : upd_w_db (λ _, pf_db p) (pf_world p) = pf_world p.
Proof. done. Qed.

Lemma foreign_download : ∃ e, sv_PlanDownload svc owner file p = (Err e, p).
Proof.
  cbn [backend StoreService sv_PlanDownload]. eexists. apply on_world_err. unfold PlanDownload. apply bind_err.
  unfold with_store. cbn [w_db pf_world]. unfold LoadDownload.
  by erewrite bind_err by (by apply FileByID_none).
Qed.

Lemma foreign_report wires : ∃ e, sv_ReportDownload svc owner file wires p = (Err e, p).
Proof.
  cbn [backend StoreService sv_ReportDownload]. eexists. apply on_world_err. unfold ReportDownload. apply bind_err.
  unfold with_store. cbn [w_db pf_world]. by rewrite FileByID_none.
Qed.
End store.

Lemma foreign_handle se c id g t file :
  file_param c = Some t → uuid_Parse t = Some file → uuid_wf (us_ID (id_User id)) →
  owned_file (pf_db (g_meta g)) (us_ID (id_User id)) file = None →
  ∃ e, handle (Client (se_net se) (backend quota se)) ledger (se_entropy se) c id g = (Err e, g).
Proof.
  intros Hc Ht Hu Ho. pose proof (uuid_Parse_wf _ _ Ht) as Hf.
  assert (param_id t g = (Ok file, g)) as Hid by (unfold param_id; by rewrite Ht).
  pose proof (foreign_get se (us_ID (id_User id)) file (g_meta g) Ho) as Hget.
  destruct (foreign_delete se (us_ID (id_User id)) file (g_meta g) Ho) as [e1 Hdel].
  destruct (foreign_download se (us_ID (id_User id)) file (g_meta g) Ho) as [e2 Hdown].
  set (owner := us_ID (id_User id)) in *.
  destruct c; try discriminate Hc; cbn [file_param] in Hc.
  - injection Hc as ->. cbn [handle]. unfold handleGetFile. rewrite (bind_run _ _ _ _ _ Hid).
    apply meta_bind_err. cbn [Client sv_GetFile]. unfold c_GetFile, h_GetFile, parseUser, parse_id. parsed.
    by eapply client_err.
  - destruct body as [[t' path]|]; [|done]. injection Hc as ->. cbn [handle]. unfold handleRename.
    destruct (foreign_rename se owner file (g_meta g) Ho path) as [e3 Hren].
    unfold decodeJSON. cbn [of_option]. rewrite (bind_run _ _ _ (t, path) g) by done. rewrite (bind_run _ _ _ _ _ Hid).
    apply meta_bind_err. cbn [Client sv_RenameFile]. unfold c_RenameFile, h_RenameFile, parseUser, decode, parse_id. parsed.
    by eapply client_err.
  - injection Hc as ->. cbn [handle]. unfold handleDeleteFile. rewrite (bind_run _ _ _ _ _ Hid).
    apply meta_bind_err. cbn [Client sv_DeleteFile]. unfold c_DeleteFile, h_DeleteFile, parseUser, parse_id. parsed.
    by eapply client_err'.
  - injection Hc as ->. cbn [handle]. unfold handlePlanDownload. rewrite (bind_run _ _ _ _ _ Hid).
    apply meta_bind_err. cbn [Client sv_PlanDownload]. unfold c_PlanDownload, h_PlanDownload, parseUser, parse_id. parsed.
    by eapply client_err'.
  - injection Hc as ->. cbn [handle]. unfold handleReportDownload. rewrite (bind_run _ _ _ _ _ Hid).
    destruct body as [recs|]; [|by eexists].
    destruct (foreign_report se owner file (g_meta g) Ho recs) as [e3 Hrep].
    unfold decodeJSON. cbn [of_option]. rewrite (bind_run _ _ _ recs g) by done.
    apply meta_bind_err. cbn [Client sv_ReportDownload]. unfold c_ReportDownload, h_ReportDownload, parseUser, parse_id, decode. parsed.
    by eapply client_err'.
Qed.

(** C9: A file answers only to its owner: when nobody the request can speak for
    owns it, reading, renaming, deleting, downloading it or reporting a download
    of it is turned away, whatever the limiter and the network do, and the
    platform is untouched. *)
Theorem foreign_file_refused se r c g t file :
  file_param c = Some t → uuid_Parse t = Some file →
  (∀ id, authenticated (Client (se_net se) (backend quota se)) (route c) r (g_meta g) id →
     uuid_wf (us_ID (id_User id)) ∧ owned_file (pf_db (g_meta g)) (us_ID (id_User id)) file = None) →
  ∃ e g', gate quota ledger se r c g = (Err e, g') ∧ g_meta g' = g_meta g.
Proof.
  intros Hc Ht Ho.
  assert (route c = authKey ∨ route c = authKeyWrite) as Hr.
  { destruct c; try discriminate Hc; by (left + right). }
  destruct (gated_key (se_now se) (Client (se_net se) (backend quota se)) (se_limit se) (route c) r c
    (handle (Client (se_net se) (backend quota se)) ledger (se_entropy se) c) g Hr)
    as [(e&g'&?&?)|(id&g1&Hid&Hg1&Hx)]; [by exists e, g'|].
  destruct (Ho id Hid) as [Hw Hnone]. rewrite <- Hg1 in Hnone.
  destruct (foreign_handle se c id g1 t file Hc Ht Hw Hnone) as [e He]. exists e, g1. split; [|done].
  etrans; [exact Hx|exact He].
Qed.
End isolation.

(** ** Too many requests *)

Definition auth_key (ip : string) : string := "rl:auth:" +:+ ip.

(** A handler leaves the limiter alone. *)
#[export] Instance meta_limits {S A} (m : M S call_error A) : Frame g_limits (meta m).
Proof. intros g. unfold meta. by destruct (m (g_meta g)) as [[]]. Qed.
#[export] Instance internal_limits {S A} (m : M S ledger_error A) : Frame g_limits (or_internal m).
Proof. intros g. unfold or_internal. by destruct (m (g_meta g)) as [[]]. Qed.

Ltac frame_auto :=
  repeat first
    [ apply _
    | apply frame_bind; [|intros ?]
    | match goal with |- Frame _ (match ?x with _ => _ end) => destruct x end ].

Lemma handle_limits {S} `{UuidText} (svc : Service S) ledger entropy c id :
  Frame g_limits (handle svc ledger entropy c id).
Proof.
  destruct c; cbn [handle];
    unfold handleRegister, handleCreateAPIKey, handleListAPIKeys, handleRevokeAPIKey, handleCreateBucket,
      handleListBuckets, handleDeleteBucket, handleCreateFolder, handleListFiles, handleGetFile, handleRename,
      handleDeleteFile, handleMintCode, handleListNodes, handlePlanUpload, handleCommitUpload,
      handlePlanDownload, handleReportDownload, handleStorage, handleEarnings, handleNodeStats,
      created, okay, no_content, decodeJSON, param_id; frame_auto.
Qed.

(** What follows the limit on the routes without a key. *)
Definition unkeyed {S} `{UuidText} (svc : Service S) (ledger : option (LedgerClient S))
    (entropy : option bytes) (r : Request) (c : Call) : M (Front S) Refusal Reply :=
  match route c with
  | authBasic =>
      match rq_Basic r with
      | None => throw (refused CodeUnauthenticated)
      | Some (email, password) =>
          u ← meta (sv_VerifyPassword svc email password);
          handle svc ledger entropy c (MkIdentity u None)
      end
  | _ => handle svc ledger entropy c no_identity
  end.

Definition needs_no_key (c : Call) : Prop := route c = authNone ∨ route c = authBasic.

Lemma serve_unkeyed {S} `{UuidText} now (svc : Service S) limit ledger entropy r c :
  needs_no_key c →
  serve now svc limit ledger entropy r c =
  (check_limit limit (AllowAuth now (clientIP r)) ≫= λ _, unkeyed svc ledger entropy r c).
Proof. intros [Hr|Hr]; unfold serve, unkeyed; by rewrite Hr. Qed.

Lemma unkeyed_limits {S} `{UuidText} (svc : Service S) ledger entropy r c :
  Frame g_limits (unkeyed svc ledger entropy r c).
Proof.
  unfold unkeyed. destruct (route c); try apply handle_limits.
  destruct (rq_Basic r) as [[email password]|]; [|apply _].
  apply frame_bind; [apply _|]. intros u. apply handle_limits.
Qed.

Definition limited (e : Refusal) : Prop := rf_Status e = 429 ∧ rf_Code e = CodeRateLimited.

Section limits.
Context `{Argon2, Ed25519, Placer} `{UuidText}
  (quota : option (uuid → service unit)) (ledger : option (LedgerClient Platform)).

Lemma gate_unkeyed se r c g j :
  needs_no_key c → se_limit se = Limited true → finite (F64.of_Z (se_now se / second)) = true →
  0 ≤ j ≤ AuthLimit → holds_tokens AuthLimit (auth_key (clientIP r)) (se_now se / second) j (g_limits g) →
  holds_tokens AuthLimit (auth_key (clientIP r)) (se_now se / second) (Z.max 0 (j - 1))
    (g_limits (gate quota ledger se r c g).2) ∧
  (j = 0 → ∃ e g', gate quota ledger se r c g = (Err e, g') ∧ limited e ∧ g_meta g' = g_meta g) ∧
  (0 < j → ∃ bs, gate quota ledger se r c g =
     unkeyed (Client (se_net se) (backend quota se)) ledger (se_entropy se) r c (MkFront (g_meta g) bs)).
Proof.
  intros Hc Hl Hfin Hj Hb. unfold gate. rewrite serve_unkeyed by done. rewrite Hl.
  destruct (Allow_whole AuthLimit minute (auth_key (clientIP r)) (se_now se) j (g_limits g)
    (proj1 (limit_whole AuthLimit ltac:(left))) Hfin Hj Hb) as [Ha Hb'].
  unfold check_limit, AllowAuth, mbind, M_bind. fold (auth_key (clientIP r)).
  destruct (Allow (se_now se) (auth_key (clientIP r)) AuthLimit minute (g_limits g)) as [res bs].
  cbn [fst snd] in Ha, Hb'. rewrite Ha. destruct (Z.ltb_spec 0 j) as [Hp|Hz]; cbn [snd].
  - split_and!; [|lia|by eexists]. by rewrite (unkeyed_limits _ _ _ _ _ _).
  - split_and!; [done| |lia]. intros _. by eexists _, _.
Qed.

(** Requests one after the other, each in its setting. *)
Fixpoint gates (xs : list (Setting * Request * Call)) (g : Front Platform) :
    list (result Refusal Reply) * Front Platform :=
  match xs with
  | [] => ([], g)
  | (se, r, c) :: xs =>
      let '(x, g) := gate quota ledger se r c g in
      let '(ys, g) := gates xs g in
      (x :: ys, g)
  end.

(** A request without a key from [ip] in second [s], past a working limiter. *)
Definition attempt (ip : string) (s : Z) (x : Setting * Request * Call) : Prop :=
  let '(se, r, c) := x in
  needs_no_key c ∧ se_limit se = Limited true ∧ se_now se / second = s ∧ clientIP r = ip.

Lemma gates_limited ip s xs g :
  finite (F64.of_Z s) = true → Forall (attempt ip s) xs →
  holds_tokens AuthLimit (auth_key ip) s 0 (g_limits g) →
  Forall (λ x, ∃ e, x = Err e ∧ limited e) (gates xs g).1 ∧ g_meta (gates xs g).2 = g_meta g.
Proof.
  intros Hfin Hall. revert g. induction Hall as [|[[se r] c] xs (Hc&Hl&Hs&Hip) _ IH]; intros g Hb; [done|].
  cbn [gates]. subst s ip.
  destruct (gate_unkeyed se r c g 0 Hc Hl Hfin ltac:(done) Hb) as (Hb'&Hz&_).
  destruct (Hz eq_refl) as (e&g'&Hg&He&Hm). rewrite Hg in Hb' |- *. destruct (IH g' Hb') as [IH1 IH2].
  destruct (gates xs g') as [ys g2]. cbn in *. split; [constructor; [by exists e|done]|congruence].
Qed.

End limits.

(** ** Around the limit *)

Fixpoint ones (n : nat) : string := match n with O => "" | S n => String "1"%char (ones n) end.

Lemma ones_length n : String.length (ones n) = n.
Proof. induction n as [|n IH]; cbn; congruence. Qed.

Lemma first_part_ones n : first_part ","%char (ones n) = ones n.
Proof. induction n as [|n IH]; [done|]. cbn. by rewrite IH. Qed.

Lemma trim_left_ones n : trim_left (ones n) = ones n.
Proof. by destruct n. Qed.

Lemma rev_onto_ones m n : rev_onto (ones m) (ones n) = ones (n + m).
Proof.
  revert m. induction n as [|n IH]; intros m; [done|]. cbn [ones rev_onto].
  change (String "1"%char (ones m)) with (ones (S m)). rewrite IH. by rewrite Nat.add_succ_r.
Qed.

Lemma TrimSpace_ones n : TrimSpace (ones n) = ones n.
Proof.
  unfold TrimSpace. change ""%string with (ones 0).
  by rewrite trim_left_ones, rev_onto_ones, trim_left_ones, rev_onto_ones, !Nat.add_0_r.
Qed.

(** [r] with another [X-Forwarded-For]. *)
Definition forwarded (xff : string) (r : Request) : Request :=
  MkRequest (rq_APIKey r) (rq_Basic r) xff (rq_RemoteAddr r).

Lemma clientIP_ones n r : clientIP (forwarded (ones (S n)) r) = ones (S n).
Proof. unfold clientIP. cbn [forwarded rq_XFF]. by rewrite first_part_ones, TrimSpace_ones. Qed.

Lemma auth_key_inj a b : auth_key a = auth_key b → a = b.
Proof. intros Heq. unfold auth_key in Heq. by simplify_eq/=. Qed.

(** Some forged address has no bucket yet. *)
Lemma fresh_address (bs : Buckets) : ∃ n, bs !! auth_key (ones (S n)) = None.
Proof.
  set (addr := λ n, auth_key (ones (S n))).
  assert (∀ m n, addr m = addr n → m = n) as Hinj.
  { intros m n Heq%auth_key_inj. apply (f_equal String.length) in Heq. rewrite !ones_length in Heq. lia. }
  assert (¬ Forall (λ n, addr n ∈ dom bs) (seq 0 (S (size (dom bs))))) as Hno.
  { intros Hall. assert (list_to_set (addr <$> seq 0 (S (size (dom bs)))) ⊆ dom bs) as Hsub.
    { intros x (n&->&Hn)%elem_of_list_to_set%list_elem_of_fmap. by eapply Forall_forall in Hall. }
    apply subseteq_size in Hsub. rewrite size_list_to_set in Hsub.
    - rewrite length_fmap, length_seq in Hsub. lia.
    - apply NoDup_fmap_2_strong; [by intros ???? ?%Hinj|apply NoDup_seq]. }
  apply not_Forall_Exists in Hno; [|intros ?; apply _].
  apply Exists_exists in Hno as (n&_&Hn). exists n. by apply not_elem_of_dom.
Qed.

(** The limit holds nobody who forges the header: from any state there is a
    forwarded address with which a request without a key is served as if there
    were no limit. *)
Example forged_address_evades_limit `{Argon2, Ed25519, Placer} `{UuidText} quota ledger se r c g :
  needs_no_key c → se_limit se = Limited true → finite (F64.of_Z (se_now se / second)) = true →
  ∃ xff bs, gate quota ledger se (forwarded xff r) c g =
    unkeyed (Client (se_net se) (backend quota se)) ledger (se_entropy se) r c (MkFront (g_meta g) bs).
Proof.
  intros Hc Hl Hfin. destruct (fresh_address (g_limits g)) as [n Hn]. exists (ones (S n)).
  assert (holds_tokens AuthLimit (auth_key (clientIP (forwarded (ones (S n)) r))) (se_now se / second) AuthLimit
    (g_limits g)) as Hb by (left; by rewrite clientIP_ones).
  destruct (gate_unkeyed quota ledger se (forwarded (ones (S n)) r) c g AuthLimit Hc Hl Hfin ltac:(done) Hb)
    as (_&_&Hok). by destruct (Hok ltac:(done)) as [bs Hbs]; exists bs.
Qed.
