(* ===== verification/Demo.v ===== *)
(** * The demonstration of a fleet

    The snapshot of [src/internal/metadata/demo.go], the client that asks for it
    ([Fleet] of [src/internal/metadata/client.go]) and the gateway's route, which
    is mounted in demonstration mode and asks nobody who they are
    ([handleDemoFleet] of [src/internal/gateway/gateway.go]).  The handler goes
    through a map, so the order of the chunks is any. *)

From S2P Require Import Prelude GoFloat Bytes Schema Nodes World Placements Scheduler Wire Apierr Accounts Metadata.
From S2P Require Import Service Ratelimit Gateway.

Record ChunkHealthView := MkChunkHealthView { hv_ChunkID : bytes; hv_Healthy : Z; hv_Target : Z }.
Record FleetSnapshot := MkFleetSnapshot { fs_Nodes : list Node; fs_Chunks : list ChunkHealthView; fs_Repair : Z }.

Section demo.
Context `{UuidText}.

(** [MountDemo]: the view of a database, as it is read from the answer. *)
Definition demo_fleet (d : DB) : FleetSnapshot :=
  let health := CommittedChunkHealth d in
  MkFleetSnapshot (nodeJSON <$> ListAllNodes d) ((λ h, MkChunkHealthView (uuid_String h.1) h.2 16) <$> health)
    (Z.of_nat (length (filter (λ h, h.2 < 16) health))).
Definition h_Fleet : M Platform code FleetSnapshot := gets (λ p, demo_fleet (pf_db p)).
Definition c_Fleet (net : Delivery) : M Platform call_error FleetSnapshot := do net h_Fleet.

(** The metadata service of the gateway need not have the call. *)
Definition handleDemoFleet {S} (fleeter : option (M S call_error FleetSnapshot)) : M (Front S) Refusal FleetSnapshot :=
  f ← lift (of_option (refused CodeInternal) fleeter);
  meta f.
Definition demo_route {S} (demo_mode : bool) (fleeter : option (M S call_error FleetSnapshot)) :
    M (Front S) Refusal FleetSnapshot :=
  if demo_mode then handleDemoFleet fleeter else throw (refused CodeNotFound).

(** The route changes nothing, not even a limit, and in demonstration mode shows
    the fleet to whoever asks; otherwise there is no such route. *)
Theorem demo_route_spec demo_mode net (g : Front Platform) :
  demo_route demo_mode (Some (c_Fleet net)) g =
    (if demo_mode then
       match net with
       | Delivered => Ok (demo_fleet (pf_db (g_meta g)))
       | _ => Err (refused CodeInternal)
       end
     else Err (refused CodeNotFound), g).
Proof. destruct demo_mode, net, g; done. Qed.

(** The chunks counted as in repair are those shown below their target. *)
Lemma demo_fleet_repair d :
  fs_Repair (demo_fleet d) = Z.of_nat (length (filter (λ v, hv_Healthy v < hv_Target v) (fs_Chunks (demo_fleet d)))).
Proof.
  cbn [demo_fleet fs_Repair fs_Chunks]. f_equal. generalize (CommittedChunkHealth d) as l. intros l.
  induction l as [|h l IH]; [done|]. rewrite fmap_cons, !filter_cons. cbn [hv_Healthy hv_Target].
  case_decide; cbn; by rewrite IH.
Qed.

(** What the demonstration shows as in need of repair is what the repair worker
    would queue at start-up, and the chunks that are lost altogether, which it
    would not ([UnderHealthyChunks] joins them away). *)
Theorem demo_fleet_repairs d c h :
  (c, h) ∈ CommittedChunkHealth d → h < 16 → c ∈ UnderHealthyChunks 16 d ∨ healthy_copies d c = 0.
Proof.
  intros Hc Hh. apply elem_of_CommittedChunkHealth in Hc as (_&_&->). rewrite elem_of_UnderHealthyChunks.
  assert (0 ≤ healthy_copies d c) by (unfold healthy_copies; lia). lia.
Qed.
End demo.
