(* ===== verification/RepairPlan.v ===== *)
(** * Repair and lifecycle tickets: [src/internal/metadata/repair.go],
      [lifecycle.go] and [challenges.go]

    What the metadata service does for the workers: planning and committing a
    chunk repair, listing and settling the lost copies of a node that came
    back, and minting delete and challenge tickets.  Identifiers arrive parsed;
    a request whose identifier does not parse is [ErrInvalid]. *)

From S2P Require Import Prelude GoFloat Bytes Schema Nodes World Placements Uploads Scheduler.
From S2P Require Import Tickets Receipts Metadata.

Record RepairSource := MkSource {
  rs_ShardIndex : Z; rs_FragmentID : uuid; rs_SHA256 : bytes; rs_SizeBytes : Z;
  rs_NodeID : uuid; rs_Endpoint : string; rs_Ticket : bytes }.
(** [RepairTarget] has the same fields. *)
Notation RepairTarget := RepairSource.
Record RepairPlan := MkRepairPlan {
  rp_ChunkID : uuid; rp_SizeBytes : Z; rp_SHA256 : bytes; rp_Healthy : Z;
  rp_Sources : list RepairSource; rp_Targets : list RepairTarget }.

Record LostRow := MkLostRow {
  lr_PlacementID : Z; lr_FragmentID : uuid; lr_ChunkID : uuid; lr_ShardIndex : Z;
  lr_SHA256 : bytes; lr_SizeBytes : Z; lr_Endpoint : string; lr_Ticket : bytes;
  lr_ChallengeTicket : bytes; lr_ReconstructedElsewhere : bool }.

Record DeleteTicket := MkDeleteTicket {
  xt_PlacementID : Z; xt_FragmentID : uuid; xt_NodeID : uuid; xt_Endpoint : string; xt_Ticket : bytes }.

Record ChallengeTicketReq := MkChallengeReq {
  cr_FragmentID : option uuid; cr_NodeID : option uuid; cr_Op : bytes }.
Record ChallengeTicket := MkChallengeTicket {
  ct_FragmentID : uuid; ct_NodeID : uuid; ct_Op : bytes; ct_Ticket : bytes; ct_SHA256 : bytes;
  ct_SizeBytes : Z; ct_Endpoint : string }.

(** [LoadPlacementFragment]: any placement row of the pair will do. *)
Definition LoadPlacementFragment (frag node : uuid) : store (Fragment * Node) := λ d,
  (query_row (mapQueryErr PgNoRows)
     (omap (λ p, if bool_decide (pl_FragmentID p = frag) && bool_decide (pl_NodeID p = node)
                 then fr ← fragment_by d frag; n ← node_by d node; Some (fr, n) else None)
        (db_placements d)), d).

Section service.
Context `{Ed25519, Placer} (priv : bytes) (now : Z) (entropy : nat → option bytes).

(** A ticket for the fragment on the node, with everything the worker needs. *)
Definition repair_ticket (i : nat) (op : bytes) (fr : Fragment) (n : Node) : service RepairSource :=
  '(wire, _) ← SignTicket priv now entropy i op (fr_ID fr) (n_ID n) (fr_SHA256 fr)
                 (wrap_u64 (fr_SizeBytes fr));
  mret (MkSource (fr_ShardIndex fr) (fr_ID fr) (fr_SHA256 fr) (fr_SizeBytes fr) (n_ID n)
          (n_Endpoint n) wire).

Definition can_receive (n : Node) : bool :=
  negb (bool_decide (n_Status n = NOffline)) && negb (bool_decide (n_Status n = NQuarantined)).

(** What the first loop has collected: sources, targets, fragments to place. *)
Record Sorted := MkSorted {
  so_sources : list RepairSource; so_targets : list RepairTarget; so_missing : list Fragment }.

Definition tickets_so_far (so : Sorted) : nat := length (so_sources so) + length (so_targets so).

(** A stored copy is a source, a pending one on a reachable node a target;
    anything else needs a new node. *)
Definition sort_fragment (so : Sorted) (rf : RepairFragment) : service Sorted :=
  let fr := rf_Fragment rf in
  let missing := mret (MkSorted (so_sources so) (so_targets so) (so_missing so ++ [fr])) in
  match rf_Placement rf, rf_Node rf with
  | Some p, Some n =>
      if bool_decide (pl_Status p = PStored) then
        s ← repair_ticket (tickets_so_far so) OpGet fr n;
        mret (MkSorted (so_sources so ++ [s]) (so_targets so) (so_missing so))
      else if bool_decide (pl_Status p = PPending) && can_receive n then
        t ← repair_ticket (tickets_so_far so) OpPut fr n;
        mret (MkSorted (so_sources so) (so_targets so ++ [t]) (so_missing so))
      else missing
  | _, _ => missing
  end.

Definition need_of (chunk : uuid) (fr : Fragment) : Need := MkNeed (fr_ID fr) chunk (fr_SizeBytes fr).

(** A PUT ticket for a fragment the scheduler placed; others are skipped. *)
Definition new_target (sources : nat) (byFrag : gmap uuid Node) (targets : list RepairTarget)
    (fr : Fragment) : service (list RepairTarget) :=
  match byFrag !! fr_ID fr with
  | None => mret targets
  | Some n => t ← repair_ticket (sources + length targets) OpPut fr n; mret (targets ++ [t])
  end.

Definition PlanRepair (chunk : uuid) : service RepairPlan :=
  '(ch, frags) ← with_store (LoadRepairChunk chunk);
  so ← for_fold sort_fragment (MkSorted [] [] []) frags;
  assigns ← assign (need_of (c_ID ch) <$> so_missing so);
  targets ← for_fold (new_target (length (so_sources so)) (assigned assigns))
              (so_targets so) (so_missing so);
  mret (MkRepairPlan (c_ID ch) (c_SizeBytes ch) (c_SHA256 ch) (Z.of_nat (length (so_sources so)))
          (so_sources so) targets).

(** Receipts for pending targets of the chunk; then every pending row of each
    confirmed fragment becomes stored. *)
Definition CommitRepair (chunk : uuid) (wires : list bytes) : service unit :=
  targets ← gets (λ w, PendingTargetsForChunk chunk (w_db w));
  ts ← lift (match_all (by_frag targets) [] wires);
  modify (upd_w_db (CommitRepairPlacements now ((λ t, fr_ID (t_Fragment t)) <$> ts))).

Definition lost_row_tickets (acc : list LostRow) (lp : LostPlacement) : service (list LostRow) :=
  let i := (2 * length acc)%nat in
  '(wire, _) ← SignTicket priv now entropy i OpGet (lp_FragmentID lp) (lp_NodeID lp)
                 (lp_SHA256 lp) (wrap_u64 (lp_SizeBytes lp));
  '(chWire, _) ← SignTicket priv now entropy (S i) OpChallenge (lp_FragmentID lp) (lp_NodeID lp)
                   (lp_SHA256 lp) (64 * 1024);
  mret (acc ++ [MkLostRow (lp_PlacementID lp) (lp_FragmentID lp) (lp_ChunkID lp) (lp_ShardIndex lp)
                  (lp_SHA256 lp) (lp_SizeBytes lp) (lp_Endpoint lp) wire chWire
                  (lp_ReconstructedElsewhere lp)]).

Definition ListLostForNode (node : uuid) : service (list LostRow) :=
  lost ← gets (λ w, ListLostOnNode node (w_db w));
  for_fold lost_row_tickets [] lost.

Definition ApplyFlap (restore expire : list Z) : service unit :=
  modify (upd_w_db (RestorePlacements now restore)) ≫= λ _,
  modify (upd_w_db (ExpirePlacements expire)).

Definition IssueDeleteTicket (id : Z) : service DeleteTicket :=
  p ← with_store (ExpiringPlacementByID id);
  '(wire, _) ← SignTicket priv now entropy 0 OpDelete (xp_FragmentID p) (xp_NodeID p) (xp_SHA256 p)
                 (wrap_u64 (xp_SizeBytes p));
  mret (MkDeleteTicket (xp_ID p) (xp_FragmentID p) (xp_NodeID p) (xp_Endpoint p) wire).

Definition MarkDeleted (id : Z) : service unit := modify (upd_w_db (MarkPlacementDeleted id)).

Definition ListExpiring (limit : Z) : service (list ExpiringPlacement) :=
  gets (λ w, ListExpiringPlacements limit (w_db w)).

Definition challenge_ticket (acc : list ChallengeTicket) (req : ChallengeTicketReq) :
    service (list ChallengeTicket) :=
  fid ← lift (of_option ErrInvalid (cr_FragmentID req));
  nid ← lift (of_option ErrInvalid (cr_NodeID req));
  let op := cr_Op req in
  guard_err (negb (bool_decide (op = OpGet)) && negb (bool_decide (op = OpChallenge))) ErrInvalid ≫= λ _,
  '(fr, n) ← with_store (LoadPlacementFragment fid nid);
  let max := if bool_decide (op = OpChallenge) then 64 * 1024 else wrap_u64 (fr_SizeBytes fr) in
  '(wire, _) ← SignTicket priv now entropy (length acc) op (fr_ID fr) (n_ID n) (fr_SHA256 fr) max;
  mret (acc ++ [MkChallengeTicket (fr_ID fr) (n_ID n) op wire (fr_SHA256 fr) (fr_SizeBytes fr)
                  (n_Endpoint n)]).

Definition issueChallengeTickets (reqs : list ChallengeTicketReq) : service (list ChallengeTicket) :=
  for_fold challenge_ticket [] reqs.
End service.

(** ** Committing a repair *)

Lemma target_row_spec d p t :
  target_row d p = Some t →
  t_Placement t = p ∧ fr_ID (t_Fragment t) = pl_FragmentID p ∧ fragment_by d (pl_FragmentID p) = Some (t_Fragment t).
Proof.
  unfold target_row. destruct (fragment_by d (pl_FragmentID p)) as [fr|] eqn:Hf; [|done]. cbn.
  destruct (node_by d (pl_NodeID p)) as [n|]; [|done]. cbn. intros [= <-].
  apply find_by_spec in Hf as [_ Hid%bool_decide_eq_true]. by split_and!.
Qed.

Lemma elem_of_PendingTargetsForChunk d c t :
  t ∈ PendingTargetsForChunk c d →
  ∃ p, p ∈ db_placements d ∧ pl_Status p = PPending ∧ chunk_of d p = Some c ∧
    fr_ID (t_Fragment t) = pl_FragmentID p.
Proof.
  unfold PendingTargetsForChunk. intros [Hc (p&Hp&Ht)%list_elem_of_omap]%list_elem_of_filter.
  apply list_elem_of_filter in Hp as [Hs Hp]. apply target_row_spec in Ht as (_&Hid&Hf).
  exists p. split_and!; try done. unfold chunk_of. by rewrite Hf, <- Hc.
Qed.

(** Distinct fragments with a pending row in the chunk are at most as many as
    the chunk's pending rows of these fragments. *)
Lemma confirmed_rows d c (frags : list uuid) :
  NoDup frags →
  (∀ f, f ∈ frags → ∃ p, p ∈ db_placements d ∧ pl_Status p = PPending ∧ chunk_of d p = Some c ∧
     f = pl_FragmentID p) →
  (length frags ≤ count_where (λ p, (bool_decide (pl_FragmentID p ∈ frags) &&
      bool_decide (pl_Status p = PPending)) && bool_decide (chunk_of d p = Some c)) (db_placements d))%nat.
Proof.
  intros Hnd Hrows. set (sel := λ p, _). unfold count_where.
  rewrite <- (length_fmap pl_FragmentID). apply submseteq_length, NoDup_submseteq; [done|].
  intros f Hf. destruct (Hrows f Hf) as (p&Hp&Hs&Hc&->). apply list_elem_of_fmap_2, list_elem_of_filter.
  split; [|done]. unfold sel. by rewrite !bool_decide_eq_true_2.
Qed.

Section commit.
Context {ed : Ed25519}.

(** C15: A repair is committed all or nothing and only on receipts: if one
    matches no pending target of the chunk nothing changes; otherwise the
    receipts were signed by the nodes of targets for distinct fragments, the
    pending rows of exactly these fragments become stored, and the chunk
    gains at least one stored copy per receipt. *)
Theorem CommitRepair_spec now chunk wires w :
  let '(r, w') := CommitRepair now chunk wires w in
  match r with
  | Err e => e = ErrInvalid ∧ w' = w
  | Ok _ => ∃ ts,
      Forall2 (λ wire t, t ∈ PendingTargetsForChunk chunk (w_db w) ∧ receipted wire t) wires ts ∧
      NoDup ((λ t, fr_ID (t_Fragment t)) <$> ts) ∧
      db_placements (w_db w') =
        update_where (λ p, bool_decide (pl_FragmentID p ∈ (λ t, fr_ID (t_Fragment t)) <$> ts) &&
                           bool_decide (pl_Status p = PPending))
          (λ p, upd_pl_Status (λ _, PStored) (upd_pl_StoredAt (λ _, Some now) p))
          (db_placements (w_db w)) ∧
      ChunkHealth chunk (w_db w) + Z.of_nat (length wires) ≤ ChunkHealth chunk (w_db w')
  end.
Proof.
  unfold CommitRepair, mbind, M_bind, gets, lift, modify.
  set (targets := PendingTargetsForChunk chunk (w_db w)).
  destruct (match_all (by_frag targets) [] wires) as [ts|e] eqn:Hm.
  2: { split; [|done]. clear -Hm. revert Hm. generalize (@nil uuid).
       induction wires as [|x wires IH]; intros seen; cbn [match_all]; [done|].
       destruct (match_receipt _ _ _); [|by intros [= <-]].
       destruct (match_all _ (_ :: _) wires) eqn:Hr; [done|]. intros [= <-]. by eapply IH. }
  apply match_all_ok in Hm as (HF&Hnd&_). exists ts. split; [by apply receipts_ok|]. split; [done|].
  set (frags := (λ t, fr_ID (t_Fragment t)) <$> ts).
  cbn [w_db upd_w_db]. unfold CommitRepairPlacements. rewrite store_all_update. split; [done|].
  set (d' := foldl _ _ _).
  assert (db_placements d' = update_where (λ p, bool_decide (pl_FragmentID p ∈ frags) &&
    bool_decide (pl_Status p = PPending)) (λ p, upd_pl_Status (λ _, PStored)
      (upd_pl_StoredAt (λ _, Some now) p)) (db_placements (w_db w))) as Hpl by apply store_all_update.
  assert (db_fragments d' = db_fragments (w_db w)) as Hfr.
  { unfold d'. clear. generalize (w_db w). induction frags as [|f fs IH]; intros d; [done|]. cbn [foldl]. by rewrite IH. }
  assert (∀ p, stored_in d' chunk p = stored_in (w_db w) chunk p) as Hst
    by (intros p; unfold stored_in, chunk_of, fragment_by; by rewrite Hfr).
  unfold ChunkHealth. rewrite Hpl, count_where_update, (Forall2_length _ _ _ HF), <- Nat2Z.inj_add.
  apply Nat2Z.inj_le.
  set (sel := λ p, bool_decide (pl_FragmentID p ∈ frags) && bool_decide (pl_Status p = PPending)).
  rewrite (count_where_split (λ r, if sel r then _ else _) sel), Nat.add_comm.
  apply Nat.add_le_mono.
  - unfold frags in *. rewrite <- (length_fmap (λ t, fr_ID (t_Fragment t))).
    etrans; [apply (confirmed_rows (w_db w) chunk _ Hnd)|].
    + intros f (t&->&Ht)%list_elem_of_fmap. apply list_elem_of_lookup in Ht as [i Hi].
      destruct (Forall2_lookup_r _ _ _ _ _ HF Hi) as (wire&_&Hin&_).
      apply elem_of_PendingTargetsForChunk in Hin as (p&?&?&?&?). by exists p.
    + apply count_where_le. intros p _ [Hs Hc]%andb_true_iff. change (sel p = true) in Hs.
      rewrite Hs, Hst.
      change (bool_decide (chunk_of (w_db w) p = Some chunk) && true = true). by rewrite Hc.
  - apply count_where_le. intros p _ Hp. rewrite !Hst. destruct (sel p) eqn:Hs; [|exact Hp].
    exfalso. unfold stored_in in Hp. apply andb_true_iff in Hp as [_ Hp%bool_decide_eq_true].
    unfold sel in Hs. apply andb_true_iff in Hs as [_ Hs%bool_decide_eq_true]. congruence.
Qed.
End commit.

(** ** Two ways a repair goes wrong

    One chunk of one fragment, on the scene of [Metadata]. *)
Module RepairScene.
Import Metadata.Scene.
#[local] Existing Instance ToyEd25519.scheme.
Definition chunk : uuid := Uuid 20.
Definition stored_receipt (k : Byte.byte) (n : N) : bytes :=
  match Receipts.Sign (key k) (Uuid n) (Uuid 30) sha 4 0 with Ok r => rc_Raw r | Err _ => [] end.

(** Two pending copies of one fragment: the receipt of node 2 also marks the
    copy on node 1 stored, for which there is none. *)
Example unconfirmed_copy_stored :
  let w := world (db 1 [copy 1 30 1 PPending; copy 2 30 2 PPending]) in
  let '(r, w') := CommitRepair 5 chunk [stored_receipt Byte.x02 2] w in
  r = Ok tt ∧ pl_Status <$> db_placements (w_db w') = [PStored; PStored].
Proof. by vm_compute. Qed.

(** The scheduler assigns node 1 again, where a lost row is left: the plan
    hands out a PUT ticket, the node stores the shard and signs, and the
    commit is refused because no row became pending. *)
Definition again : Placer := λ needs,
  mret ((λ n, MkAssignment (nd_FragmentID n) (node 1 Byte.x01)) <$> needs).
Example lost_row_blocks_repair :
  let w := world (db 1 [copy 1 30 1 PLost]) in
  let '(plan, w1) := @PlanRepair _ again (key Byte.x09) 0 entropy chunk w in
  let '(r, w2) := CommitRepair 5 chunk [stored_receipt Byte.x01 1] w1 in
  match plan with
  | Ok p => rs_NodeID <$> rp_Targets p = [Uuid 1]
  | Err _ => False
  end ∧ r = Err ErrInvalid ∧ pl_Status <$> db_placements (w_db w2) = [PLost].
Proof. by vm_compute. Qed.
End RepairScene.
