(* ===== verification/Workers.v ===== *)
(** * What the workers call

    The repair worker, the reaper and the health monitor call the metadata
    service over its internal routes ([MountRepair], [MountLifecycle] and
    [MountChallenges] of [src/internal/metadata]) through three clients
    ([src/internal/repair/meta.go], [src/internal/lifecycle/reaper.go],
    [src/internal/healthmon/tickets.go]), and the nodes over their fragment API.

    [WorkerMeta] is the first as the workers see it, [Agents] the second, over
    states of their own; [StoreMeta] is the service itself, [HttpMeta] the
    clients over the routes.  The answers consist of ids, texts and numbers,
    which JSON carries unchanged. *)

From S2P Require Import Prelude GoFloat Bytes Schema Nodes World Placements Files Net Url Uploads Wire Scheduler Health.
From S2P Require Import Tickets Receipts Metadata Service RepairPlan.

(** ** The metadata service *)

Record WorkerMeta (S : Type) := MkWorkerMeta {
  wm_Plan : uuid → M S error RepairPlan;
  wm_Commit : uuid → list bytes → M S error unit;
  wm_Lost : uuid → M S error (list LostRow);
  wm_Flap : uuid → list Z → list Z → M S error unit;
  wm_DeleteTicket : Z → M S error DeleteTicket;
  wm_ConfirmDeleted : Z → M S error unit;
  wm_Tickets : uuid → uuid → list bytes → M S error (list ChallengeTicket) }.
Arguments wm_Plan {S}.
Arguments wm_Commit {S}.
Arguments wm_Lost {S}.
Arguments wm_Flap {S}.
Arguments wm_DeleteTicket {S}.
Arguments wm_ConfirmDeleted {S}.
Arguments wm_Tickets {S}.

(** One request; the random numbers of its tickets and its fate on the network
    depend on it. *)
Inductive MetaCall :=
  | CallPlan (chunk : uuid)
  | CallCommit (chunk : uuid) (receipts : list bytes)
  | CallLost (node : uuid)
  | CallFlap (node : uuid) (restore expire : list Z)
  | CallDeleteTicket (placement : Z)
  | CallDeleted (placement : Z)
  | CallTickets (reqs : list ChallengeTicketReq).

Section meta.
Context `{UuidText, Ed25519, Placer} (priv : bytes) (now : Z) (entropy : MetaCall → nat → option bytes).

Definition ticket_reqs (frag node : uuid) (ops : list bytes) : list ChallengeTicketReq :=
  (λ op, MkChallengeReq (Some frag) (Some node) (if bool_decide (op = []) then OpChallenge else op)) <$> ops.

Definition StoreMeta : WorkerMeta World := {|
  wm_Plan chunk := PlanRepair priv now (entropy (CallPlan chunk)) chunk;
  wm_Commit chunk receipts := CommitRepair now chunk receipts;
  wm_Lost node := ListLostForNode priv now (entropy (CallLost node)) node;
  wm_Flap _ restore expire := ApplyFlap now restore expire;
  wm_DeleteTicket id := IssueDeleteTicket priv now (entropy (CallDeleteTicket id)) id;
  wm_ConfirmDeleted id := MarkDeleted id;
  wm_Tickets frag node ops :=
    let reqs := ticket_reqs frag node ops in issueChallengeTickets priv now (entropy (CallTickets reqs)) reqs |}.

(** *** The routes: ids are path elements or fields of the body *)

Definition id_param (id : bytes) : service uuid := lift (of_option ErrInvalid (uuid_Parse id)).
Definition int_param (id : list Ascii.ascii) : service Z := lift (of_option ErrInvalid (parse_int id)).

Definition h_Plan (chunk : bytes) : service RepairPlan :=
  chunk ← id_param chunk;
  PlanRepair priv now (entropy (CallPlan chunk)) chunk.
Definition h_Commit (chunk : bytes) (body : option (list bytes)) : service unit :=
  chunk ← id_param chunk;
  receipts ← lift (of_option ErrInvalid body);
  CommitRepair now chunk receipts.
Definition h_Lost (node : bytes) : service (list LostRow) :=
  node ← id_param node;
  ListLostForNode priv now (entropy (CallLost node)) node.
Definition h_Flap (node : bytes) (body : option (list Z * list Z)) : service unit :=
  _ ← id_param node;
  '(restore, expire) ← lift (of_option ErrInvalid body);
  ApplyFlap now restore expire.
Definition h_Expiring : service (list ExpiringPlacement) := ListExpiring 64.
Definition h_DeleteTicket (id : list Ascii.ascii) : service DeleteTicket :=
  id ← int_param id;
  IssueDeleteTicket priv now (entropy (CallDeleteTicket id)) id.
Definition h_Deleted (id : list Ascii.ascii) : service unit :=
  id ← int_param id;
  MarkDeleted id.
Definition h_Tickets (body : option (list (bytes * bytes * bytes))) : service (list ChallengeTicket) :=
  reqs ← lift (of_option ErrInvalid body);
  let reqs := (λ '(frag, node, op), MkChallengeReq (uuid_Parse frag) (uuid_Parse node) op) <$> reqs in
  issueChallengeTickets priv now (entropy (CallTickets reqs)) reqs.

(** *** The clients: any answer of 400 and above is an error *)

Definition call {A} (net : Delivery) (h : service A) : service A := λ w,
  match net with
  | RequestLost => (Err CallErr, w)
  | ResponseLost => (Err CallErr, (h w).2)
  | Delivered => match h w with (Ok a, w') => (Ok a, w') | (Err _, w') => (Err CallErr, w') end
  end.

Definition HttpMeta (net : MetaCall → Delivery) : WorkerMeta World := {|
  wm_Plan chunk := call (net (CallPlan chunk)) (h_Plan (uuid_String chunk));
  wm_Commit chunk receipts := call (net (CallCommit chunk receipts)) (h_Commit (uuid_String chunk) (Some receipts));
  wm_Lost node := call (net (CallLost node)) (h_Lost (uuid_String node));
  wm_Flap node restore expire :=
    call (net (CallFlap node restore expire)) (h_Flap (uuid_String node) (Some (restore, expire)));
  wm_DeleteTicket id := call (net (CallDeleteTicket id)) (h_DeleteTicket (Itoa id));
  wm_ConfirmDeleted id := call (net (CallDeleted id)) (h_Deleted (Itoa id));
  wm_Tickets frag node ops :=
    call (net (CallTickets (ticket_reqs frag node ops)))
      (h_Tickets (Some ((λ op, (uuid_String frag, uuid_String node, if bool_decide (op = []) then OpChallenge else op)) <$> ops))) |}.
End meta.

(** *** What a client may be used for *)

(** An answer is the service's; without one the request may have been served. *)
Definition stands_for {S A} (m svc : M S error A) : Prop := ∀ s r s', m s = (r, s') →
  match r with
  | Ok a => svc s = (Ok a, s')
  | Err _ => s' = s ∨ s' = (svc s).2
  end.

Class MetaFor {S} (meta svc : WorkerMeta S) : Prop := {
  mf_Plan chunk : uuid_wf chunk → stands_for (wm_Plan meta chunk) (wm_Plan svc chunk);
  mf_Commit chunk receipts : uuid_wf chunk → stands_for (wm_Commit meta chunk receipts) (wm_Commit svc chunk receipts);
  mf_Lost node : uuid_wf node → stands_for (wm_Lost meta node) (wm_Lost svc node);
  mf_Flap node restore expire : uuid_wf node →
    stands_for (wm_Flap meta node restore expire) (wm_Flap svc node restore expire);
  mf_DeleteTicket id : - 2^63 ≤ id < 2^63 → stands_for (wm_DeleteTicket meta id) (wm_DeleteTicket svc id);
  mf_ConfirmDeleted id : - 2^63 ≤ id < 2^63 → stands_for (wm_ConfirmDeleted meta id) (wm_ConfirmDeleted svc id);
  mf_Tickets frag node ops : uuid_wf frag → uuid_wf node →
    stands_for (wm_Tickets meta frag node ops) (wm_Tickets svc frag node ops) }.

Lemma stands_refl {S A} (m : M S error A) : stands_for m m.
Proof. intros s r s' Hm. rewrite Hm. destruct r; [done|by right]. Qed.

#[export] Instance meta_self {S} (svc : WorkerMeta S) : MetaFor svc svc.
Proof. split; intros; apply stands_refl. Qed.

Lemma call_stands {A} net (h svc : service A) : (∀ w, h w = svc w) → stands_for (call net h) svc.
Proof.
  intros Hh w r w'. unfold call. rewrite Hh. destruct net.
  - destruct (svc w) as [[a|e] w1]; intros [= <- <-]; [done|by right].
  - intros [= <- <-]. by left.
  - intros [= <- <-]. by right.
Qed.

(** The clients over the routes may be used for the service. *)
#[export] Instance http_meta `{UuidTextLaws, Ed25519, Placer} priv now entropy net :
  MetaFor (HttpMeta priv now entropy net) (StoreMeta priv now entropy).
Proof.
  split; intros; apply call_stands; intros w;
    unfold h_Plan, h_Commit, h_Lost, h_Flap, h_DeleteTicket, h_Deleted, h_Tickets, id_param, int_param;
    rewrite ?uuid_Parse_String, ?parse_int_Itoa by done; try done.
  cbn [of_option lift mbind M_bind]. unfold mbind, M_bind, lift. cbn [StoreMeta wm_Tickets].
  assert ((λ '(frag0, node0, op), MkChallengeReq (uuid_Parse frag0) (uuid_Parse node0) op) <$>
    ((λ op, (uuid_String frag, uuid_String node, if bool_decide (op = []) then OpChallenge else op)) <$> ops)
    = ticket_reqs frag node ops) as ->; [|done].
  unfold ticket_reqs. rewrite <- list_fmap_compose. apply list_fmap_ext. intros i op _. cbn.
  by rewrite !uuid_Parse_String.
Qed.

(** ** The scheduler

    The metadata service asks for nodes over the network as well
    ([src/internal/scheduler/client.go], [Mount] of [scheduler.go]). *)

Definition assignmentJSON (a : Assignment) : Assignment := MkAssignment (as_FragmentID a) (nodeJSON (as_Node a)).

Definition h_Placements (placer : Placer) (body : option (list Need)) : service (list Assignment) :=
  needs ← lift (of_option ErrInvalid body);
  place (Placer := placer) needs.

Definition HttpPlacer (net : list Need → Delivery) (placer : Placer) : Placer := λ needs,
  out ← call (net needs) (h_Placements placer (Some needs));
  mret (assignmentJSON <$> out).

(** What metadata relies on holds of the client as it does of the scheduler, so
    its theorems are those of the deployed system. *)
#[export] Instance http_placer_laws net placer (laws : @PlacerLaws placer) : @PlacerLaws (HttpPlacer net placer).
Proof.
  split; intros needs w.
  - unfold place, HttpPlacer, call, mbind, M_bind. pose proof (place_db (PlacerLaws := laws) needs w) as Hdb.
    unfold h_Placements, mbind, M_bind, lift, of_option. unfold place in *.
    destruct (net needs), (placer needs w) as [[out|e] w']; done.
  - intros out w' (as'&w1&Hc&Hm)%bind_ok. injection Hm as <- <-.
    unfold call, h_Placements, mbind, M_bind, lift, of_option in Hc.
    destruct (net needs); [|done|done]. unfold place in Hc. destruct (placer needs w) as [[a|e] w2] eqn:Hp; [|done].
    injection Hc as <- <-. rewrite <- list_fmap_compose. by apply (place_asked (PlacerLaws := laws) needs w a w2).
Qed.

(** ** The nodes *)

(** Endpoint, node, fragment, ticket; then what is asked. *)
Record Agents (N : Type) := MkAgents {
  getFragment : string → uuid → uuid → bytes → M N error bytes;
  getChallenge : string → uuid → uuid → bytes → Z → Z → bytes → M N error bytes;
  putFragment : string → uuid → uuid → bytes → bytes → M N error bytes;     (* the receipt *)
  deleteFragment : string → uuid → uuid → bytes → M N error unit }.
Arguments MkAgents {N}.
Arguments getFragment {N}.
Arguments getChallenge {N}.
Arguments putFragment {N}.
Arguments deleteFragment {N}.

(** A worker between the database and the nodes. *)
Abbreviation job N A := (M (World * N) error A).
