(* ===== verification/Auditing.v ===== *)
(** * Storage audits: the challenger of [src/internal/healthmon/challenge.go]

    One audit: refill if the set of challenges runs low, ask the node, compare,
    and lower or raise its reputation; and one scan over the placements that are
    due.  Tickets come from the metadata service, answers from the nodes
    ([Workers]). *)

From S2P Require Import Prelude GoFloat Bytes Sha256 Schema Nodes World Placements Health Agent Challenges.
From S2P Require Import Tickets Receipts Metadata Wire RepairPlan Workers.

(** ** Verdicts on a node *)

Definition penalise (now : Z) (node : uuid) : service unit :=
  ignore_err (with_store (ApplyReputationEvent now node SignalChallengeFailed)) ≫= λ _,
  ignore_err (with_store (BumpNodeAudit now node false)).

Definition reward (now : Z) (node : uuid) : service unit :=
  ignore_err (with_store (ApplyReputationEvent now node SignalChallengePassed)) ≫= λ _,
  ignore_err (with_store (BumpNodeAudit now node true)).

Definition failPlacement (now : Z) (t : AuditTarget) : service unit :=
  lp ← with_store (MarkPlacementLost now (at_FragmentID t) (at_NodeID t));
  healthy ← gets (λ w, ChunkHealth (lp_ChunkID lp) (w_db w));
  PublishRepair (MkRepairJob (lp_ChunkID lp) healthy).

Section audit.
Context {N : Type} (meta : WorkerMeta World) (nodes : Agents N) (SetSize MaxRange : Z) (rand : Z → Z * Z * bytes)
  (now : Z).

(** The first of the tickets that were minted. *)
Definition mint (t : AuditTarget) (op : bytes) : job N bytes :=
  issued ← on_left (wm_Tickets meta (at_FragmentID t) (at_NodeID t) [op]);
  match issued with
  | [] => throw CallErr
  | tk :: _ => mret (ct_Ticket tk)
  end.

Definition refill (t : AuditTarget) : job N unit :=
  tk ← mint t OpGet;
  body ← on_right (getFragment nodes (at_Endpoint t) (at_NodeID t) (at_FragmentID t) tk);
  on_left (if negb (bool_decide (sha256 body = at_SHA256 t))
           then penalise now (at_NodeID t) ≫= λ _, failPlacement now t
           else with_store (InsertChallengeSet
                  (ComputeChallengeSet body (at_FragmentID t) (at_NodeID t) SetSize MaxRange rand))).

(** The digest arrived and is the one that was computed. *)
Definition passed (got : result error bytes) (ch : Challenge) : bool :=
  match got with Ok sum => bool_decide (sum = ch_Expected ch) | Err _ => false end.

(** The challenge is spent and the placement stamped; then the verdict. *)
Definition verdict (t : AuditTarget) (ch : Challenge) (got : result error bytes) : service unit :=
  modify (upd_w_db (MarkChallengeSpent now (at_FragmentID t) (at_NodeID t) (ch_Seq ch))) ≫= λ _,
  modify (upd_w_db (TouchLastAudit now (at_FragmentID t) (at_NodeID t))) ≫= λ _,
  if passed got ch then reward now (at_NodeID t)
  else penalise now (at_NodeID t) ≫= λ _, failPlacement now t.

Definition audit (t : AuditTarget) : job N unit :=
  (if at_Remaining t <? lowWater then refill t else mret tt) ≫= λ _,
  ch ← on_left (with_store (TakeNextUnspent (at_FragmentID t) (at_NodeID t)));
  tk ← mint t OpChallenge;
  got ← attempt (on_right (getChallenge nodes (at_Endpoint t) (at_NodeID t) (at_FragmentID t) tk
                             (ch_Offset ch) (ch_Length ch) (ch_Nonce ch)));
  on_left (verdict t ch got).

(** One tick; an audit that fails is logged. *)
Definition challenge_scan (interval batch : Z) : job N unit :=
  targets ← on_left (gets (λ w, ListDueAudits now interval batch (w_db w)));
  for_each (λ t, ignore_err (audit t)) targets.
End audit.

(** ** Verdicts *)

Definition judged (now : Z) (node : uuid) (passed : bool) (d : DB) : DB :=
  (BumpNodeAudit now node passed
     (ApplyReputationEvent now node
        (if passed then SignalChallengePassed else SignalChallengeFailed) d).2).2.

Lemma ignore_store {A} (m : store A) w :
  (ignore_err (with_store m) : service unit) w = (Ok tt, upd_w_db (λ d, (m d).2) w).
Proof. unfold ignore_err, with_store, upd_w_db. by destruct (m (w_db w)) as [[]]. Qed.

Lemma penalise_spec now node w : penalise now node w = (Ok tt, upd_w_db (judged now node false) w).
Proof. unfold penalise, mbind, M_bind. by rewrite !ignore_store. Qed.
Lemma reward_spec now node w : reward now node w = (Ok tt, upd_w_db (judged now node true) w).
Proof. unfold reward, mbind, M_bind. by rewrite !ignore_store. Qed.

Lemma judged_placements now node b d : db_placements (judged now node b d) = db_placements d.
Proof.
  unfold judged, BumpNodeAudit. by rewrite upsert_stats_placements, ApplyReputationEvent_placements.
Qed.

Lemma judged_nodes now node b d :
  db_nodes (judged now node b d) =
  update_where (λ n, bool_decide (n_ID n = node))
    (λ n, upd_n_Reputation (λ r, reputation_sql r (if b then SignalChallengePassed else SignalChallengeFailed))
            (upd_n_ReputationUpdatedAt (λ _, Some now) n)) (db_nodes d).
Proof. unfold judged, BumpNodeAudit. by rewrite upsert_stats_nodes, ApplyReputationEvent_update. Qed.

Definition asked (now : Z) (t : AuditTarget) (ch : Challenge) (d : DB) : DB :=
  TouchLastAudit now (at_FragmentID t) (at_NodeID t)
    (MarkChallengeSpent now (at_FragmentID t) (at_NodeID t) (ch_Seq ch) d).

(** Running the verdict. *)
Lemma verdict_run now t ch got w :
  let d1 := asked now t ch (w_db w) in
  let '(r, w') := verdict now t ch got w in
  w_redis w' = w_redis w ∧
  if passed got ch then
    r = Ok tt ∧ w_db w' = judged now (at_NodeID t) true d1 ∧ w_bus w' = w_bus w
  else
    match MarkPlacementLost now (at_FragmentID t) (at_NodeID t) (judged now (at_NodeID t) false d1) with
    | (Ok lp, d3) =>
        w_db w' = d3 ∧
        w_bus w' = say (repair_msg (lp_ChunkID lp) (ChunkHealth (lp_ChunkID lp) d3)) (w_bus w) ∧
        (bus_up (w_bus w) = true → r = Ok tt)
    | (Err e, d3) => r = Err (StoreErr e) ∧ w_db w' = d3 ∧ w_bus w' = w_bus w
    end.
Proof.
  intros d1. unfold verdict. unfold mbind at 1 2, M_bind at 1 2. cbn [modify].
  set (w1 := upd_w_db (TouchLastAudit now _ _) _).
  assert (w1 = upd_w_db (λ _, d1) w) as -> by done.
  destruct (passed got ch).
  { rewrite reward_spec. done. }
  unfold mbind, M_bind. rewrite penalise_spec. unfold failPlacement, mbind, M_bind, with_store at 1.
  cbn [w_db upd_w_db].
  destruct (MarkPlacementLost now _ _ _) as [[lp|e] d3]; [|done]. cbn [gets].
  pose proof (PublishRepair_say (lp_ChunkID lp) (ChunkHealth (lp_ChunkID lp) d3)
    (upd_w_db (λ _, d3) w)) as Hpub.
  assert (bus_up (w_bus w) = true →
    (PublishRepair (MkRepairJob (lp_ChunkID lp) (ChunkHealth (lp_ChunkID lp) d3))
       (upd_w_db (λ _, d3) w)).1 = Ok tt) as Hok.
  { intros Hup. unfold PublishRepair, publish. simpl. destruct (PrioritySubject _); [|done].
    unfold upd_w_db; cbn [w_bus]; by rewrite Hup. }
  cbn [w_db upd_w_db] in *. destruct (PublishRepair _ _) as [r w'].
  simpl in Hpub, Hok. subst w'. by split_and!.
Qed.

Lemma audit_run {N} meta (nodes : Agents N) ss mr rand now t w n ch tk more got n1 :
  lowWater ≤ at_Remaining t →
  TakeNextUnspent (at_FragmentID t) (at_NodeID t) (w_db w) = (Ok ch, w_db w) →
  wm_Tickets meta (at_FragmentID t) (at_NodeID t) [OpChallenge] w = (Ok (tk :: more), w) →
  getChallenge nodes (at_Endpoint t) (at_NodeID t) (at_FragmentID t) (ct_Ticket tk)
    (ch_Offset ch) (ch_Length ch) (ch_Nonce ch) n = (got, n1) →
  let d1 := asked now t ch (w_db w) in
  let '(r, (w', n')) := audit meta nodes ss mr rand now t (w, n) in
  n' = n1 ∧ w_redis w' = w_redis w ∧
  if passed got ch then
    r = Ok tt ∧ w_db w' = judged now (at_NodeID t) true d1 ∧ w_bus w' = w_bus w
  else
    match MarkPlacementLost now (at_FragmentID t) (at_NodeID t) (judged now (at_NodeID t) false d1) with
    | (Ok lp, d3) =>
        w_db w' = d3 ∧
        w_bus w' = say (repair_msg (lp_ChunkID lp) (ChunkHealth (lp_ChunkID lp) d3)) (w_bus w) ∧
        (bus_up (w_bus w) = true → r = Ok tt)
    | (Err e, d3) => r = Err (StoreErr e) ∧ w_db w' = d3 ∧ w_bus w' = w_bus w
    end.
Proof.
  intros Hr Ht Hmint Hask d1. unfold audit.
  replace (at_Remaining t <? lowWater) with false by lia. rewrite ret_bind.
  rewrite (bind_run _ _ (w, n) ch (w, n)).
  2:{ unfold on_left, with_store. cbn [fst snd]. rewrite Ht. by destruct w. }
  rewrite (bind_run _ _ (w, n) (ct_Ticket tk) (w, n)).
  2:{ unfold mint. rewrite (bind_run _ _ (w, n) (tk :: more) (w, n)); [done|]. by apply (on_left_run _ (w, n)) in Hmint. }
  rewrite (bind_run _ _ (w, n) got (w, n1)).
  2:{ unfold attempt. by rewrite (on_right_run _ (w, n) got n1) by exact Hask. }
  pose proof (verdict_run now t ch got w) as Hv. unfold on_left. cbn [fst snd].
  destruct (verdict now t ch got w) as [r w']. by split.
Qed.


(** ** A refill that exposes a corrupt fragment

    The node returns bytes that do not match the fragment's hash: [refill]
    already penalises the node, loses the copy and returns nil, so [audit] goes
    on to the challenge that was still in stock; its failure penalises the node
    a second time and reports an error for the copy that is already lost. *)
Module DoublePenalty.
Definition frag := Uuid 1.
Definition chunk := Uuid 2.
Definition node := Uuid 3.
Definition n0 : Node := MkNode node (Uuid 9) [] [] "" None "" "" "" "" "" None "" 100 0 NOnline
  (F32.const 1 2) 0 None None None None F32.zero F32.zero F32.zero F32.zero 0.
Definition c0 : Challenge := MkChallenge frag node 0 0 1 (zero_bytes 16) (zero_bytes 32) None.
Definition d0 : DB :=
  upd_db_nodes (λ _, [n0])
    (upd_db_fragments (λ _, [MkFragment frag chunk 0 1 (zero_bytes 32)])
       (upd_db_placements (λ _, [MkPlacement 1 frag node PStored None None None])
          (upd_db_challenges (λ _, [c0]) db_empty))).
Definition w0 : World := MkWorld d0 redis_empty (MkBus true []).
Definition t0 : AuditTarget := MkAuditTarget 1 frag node chunk 1 (zero_bytes 32) "" (F32.const 1 2) 1.
Definition ticket : ChallengeTicket := MkChallengeTicket frag node OpGet [] [] 1 "".
Definition meta0 : WorkerMeta World := MkWorkerMeta _ (λ _, throw CallErr) (λ _ _, throw CallErr) (λ _, throw CallErr)
  (λ _ _ _, throw CallErr) (λ _, throw CallErr) (λ _, throw CallErr) (λ _ _ _, mret [ticket]).
Definition nodes0 : Agents unit := MkAgents (λ _ _ _ _, mret [Byte.x01]) (λ _ _ _ _ _ _ _, throw NodeErr)
  (λ _ _ _ _ _, throw NodeErr) (λ _ _ _ _, throw NodeErr).

Example penalised_twice :
  let '(r, (w', _)) := audit meta0 nodes0 8 4096 (λ _, (0, 0, [])) 0 t0 (w0, tt) in
  r = Err (StoreErr ENotFound) ∧
  n_Reputation <$> db_nodes (w_db w') =
    [reputation_sql (reputation_sql (F32.const 1 2) SignalChallengeFailed) SignalChallengeFailed] ∧
  length (bus_out (w_bus w')) = 1%nat.
Proof. vm_compute. by split_and!. Qed.
End DoublePenalty.
