(* ===== verification/Repair.v ===== *)
(** * The repair worker: [src/internal/repair/worker.go], and the deletion
      reaper of [src/internal/lifecycle/reaper.go]

    The handlers of node events, the scan at start-up, one repair job, and the
    deletion of expiring copies, between the database and the nodes: the
    metadata service and the nodes are [Workers.WorkerMeta] and
    [Workers.Agents], and Reed-Solomon reconstruction is the client pipeline's.
    The answers of concurrent source fetches are taken in an arbitrary arrival
    order.  [account] only delays and is left out. *)

From S2P Require Import Prelude GoFloat Bytes Sha256 Crypto Pipeline Schema Nodes World Placements Scheduler Health.
From S2P Require Import Challenges Tickets Receipts Metadata Wire RepairPlan Workers.

Definition repairThreshold : Z := 16.

Definition hashMatches (data sha : bytes) : bool := bool_decide (sha256 data = sha).

(** ** Losing a node *)

(** The distinct chunks of [lost], in order of first appearance, that [seen]
    does not contain. *)
Definition queue_chunk (seen : list uuid) (lp : LostPlacement) : service (list uuid) :=
  if bool_decide (lp_ChunkID lp ∈ seen) then mret seen
  else
    healthy ← gets (λ w, ChunkHealth (lp_ChunkID lp) (w_db w));
    match PrioritySubject healthy with
    | None => mret (lp_ChunkID lp :: seen)
    | Some _ => PublishRepair (MkRepairJob (lp_ChunkID lp) healthy) ≫= λ _, mret (lp_ChunkID lp :: seen)
    end.

Definition onNodeOffline (now : Z) (node : uuid) : service unit :=
  lost ← with_db (MarkPlacementsLostByNode now node);
  for_fold queue_chunk [] lost ≫= λ _, mret tt.

Definition enqueueUnhealthy : service unit :=
  ids ← gets (λ w, UnderHealthyChunks repairThreshold (w_db w));
  for_each (λ id, h ← gets (λ w, ChunkHealth id (w_db w));
                  ignore_err (PublishRepair (MkRepairJob id h))) ids.

(** ** A node that came back *)

Section worker.
Context {N : Type} `{ReedSolomon} (meta : WorkerMeta World) (nodes : Agents N) (rand : Z → Z * Z * bytes) (now : Z).

(** The fallback: a fetch checked by hash that seeds a new challenge set. *)
Definition revalidate_by_fetch (node : uuid) (row : LostRow) : job N bool :=
  got ← attempt (on_right (getFragment nodes (lr_Endpoint row) node (lr_FragmentID row) (lr_Ticket row)));
  match got with
  | Err _ => mret false
  | Ok body =>
      if negb (hashMatches body (lr_SHA256 row)) then mret false
      else
        on_left (ignore_err (with_store (InsertChallengeSet
          (ComputeChallengeSet body (lr_FragmentID row) node 8 4096 rand)))) ≫= λ _,
        mret true
  end.

(** A storage challenge, when one is unspent. *)
Definition revalidate (node : uuid) (row : LostRow) : job N bool :=
  next ← on_left (gets (λ w, (TakeNextUnspent (lr_FragmentID row) node (w_db w)).1));
  match next with
  | Ok ch =>
      if bool_decide (lr_ChallengeTicket row = []) then revalidate_by_fetch node row
      else
        got ← attempt (on_right (getChallenge nodes (lr_Endpoint row) node (lr_FragmentID row)
                                   (lr_ChallengeTicket row) (ch_Offset ch) (ch_Length ch) (ch_Nonce ch)));
        on_left (modify (upd_w_db (MarkChallengeSpent now (lr_FragmentID row) node (ch_Seq ch)))) ≫= λ _,
        mret (match got with Ok sum => bool_decide (sum = ch_Expected ch) | Err _ => false end)
  | Err _ => revalidate_by_fetch node row
  end.

Definition settle_row (node : uuid) (acc : list Z * list Z) (row : LostRow) : job N (list Z * list Z) :=
  let '(restore, expire) := acc in
  ok ← revalidate node row;
  mret (if negb ok then acc
        else if lr_ReconstructedElsewhere row then (restore, expire ++ [lr_PlacementID row])
        else (restore ++ [lr_PlacementID row], expire)).

Definition onNodeOnline (node : uuid) : job N unit :=
  rows ← on_left (wm_Lost meta node);
  '(restore, expire) ← for_fold (settle_row node) ([], []) rows;
  if bool_decide (restore = []) && bool_decide (expire = []) then mret tt
  else on_left (wm_Flap meta node restore expire).

(** ** One repair job *)

Context (arrival : list RepairSource → list RepairSource).

(** An error of the pipeline, seen by the worker. *)
Definition shards_err {A} (r : result pipe_error A) : result error A :=
  match r with Ok a => Ok a | Err _ => Err ShardsErr end.

(** What a source answers: nothing unless the bytes have the shard's hash. *)
Definition fetch_source (hits : list (Z * bytes)) (src : RepairSource) : M N error (list (Z * bytes)) :=
  got ← attempt (getFragment nodes (rs_Endpoint src) (rs_NodeID src) (rs_FragmentID src) (rs_Ticket src));
  mret (match got with
        | Ok data => if hashMatches data (rs_SHA256 src) then hits ++ [(rs_ShardIndex src, data)] else hits
        | Err _ => hits
        end).

(** The receiving loop: it stops at ten filled slots. *)
Fixpoint collect (got : nat) (shards : list (option bytes)) (hits : list (Z * bytes)) :
    nat * list (option bytes) :=
  match hits with
  | [] => (got, shards)
  | (idx, data) :: hits =>
      if (idx <? 0) || (Z.of_nat ECTotal <=? idx) then collect got shards hits
      else match shards !! Z.to_nat idx with
           | Some None =>
               let shards := <[Z.to_nat idx := Some data]> shards in
               if (ECData <=? S got)%nat then (S got, shards) else collect (S got) shards hits
           | _ => collect got shards hits
           end
  end.

Definition fetchSources (sources : list RepairSource) : M N error (list (option bytes)) :=
  hits ← for_fold fetch_source [] (arrival sources);
  let '(got, shards) := collect 0 (replicate ECTotal None) hits in
  guard_err (got <? ECData)%nat ShardsErr ≫= λ _,
  mret shards.

(** Put one rebuilt shard; a node that does not take it loses its pending copy. *)
Definition put_target (shards : list (option bytes)) (receipts : list bytes) (tgt : RepairTarget) :
    job N (list bytes) :=
  match (if (rs_ShardIndex tgt <? 0) || (Z.of_nat ECTotal <=? rs_ShardIndex tgt) then None
         else mjoin (shards !! Z.to_nat (rs_ShardIndex tgt))) with
  | None => throw ShardsErr
  | Some data =>
      guard_err (negb (hashMatches data (rs_SHA256 tgt))) ShardsErr ≫= λ _,
      put ← attempt (on_right (putFragment nodes (rs_Endpoint tgt) (rs_NodeID tgt) (rs_FragmentID tgt)
                                 (rs_Ticket tgt) data));
      match put with
      | Ok receipt => mret (receipts ++ [receipt])
      | Err _ =>
          on_left (ignore_err (with_store (MarkPlacementLost now (rs_FragmentID tgt) (rs_NodeID tgt)))) ≫= λ _,
          mret receipts
      end
  end.

(** The puts, the commit, and another job while the chunk is not whole. *)
Definition put_and_commit (chunk : uuid) (shards : list (option bytes)) (targets : list RepairTarget) : job N unit :=
  receipts ← for_fold (put_target shards) [] targets;
  guard_err (bool_decide (receipts = [])) NodeErr ≫= λ _,
  on_left (wm_Commit meta chunk receipts) ≫= λ _,
  healthy ← on_left (gets (λ w, ChunkHealth chunk (w_db w)));
  if healthy <? repairThreshold then on_left (PublishRepair (MkRepairJob chunk healthy)) else mret tt.

Definition onJob (job : RepairJob) : Workers.job N unit :=
  let chunk := rj_ChunkID job in
  healthy ← on_left (gets (λ w, ChunkHealth chunk (w_db w)));
  if repairThreshold <=? healthy then mret tt
  else
    plan ← on_left (wm_Plan meta chunk);
    if bool_decide (rp_Targets plan = []) then mret tt
    else
      shards ← on_right (fetchSources (rp_Sources plan));
      shards ← lift (shards_err (ReconstructShards shards));
      put_and_commit chunk shards (rp_Targets plan).

(** ** Deleting expiring copies *)

Definition reap (p : ExpiringPlacement) : job N unit :=
  tk ← on_left (wm_DeleteTicket meta (xp_ID p));
  on_right (deleteFragment nodes (xt_Endpoint tk) (xt_NodeID tk) (xt_FragmentID tk) (xt_Ticket tk)) ≫= λ _,
  on_left (wm_ConfirmDeleted meta (xp_ID p)).

Definition reap_once : job N unit :=
  rows ← on_left (ListExpiring 64);
  for_each (λ p, ignore_err (reap p)) rows.
End worker.

(** ** A lost node is announced *)

Lemma queue_chunk_run seen lp w :
  match queue_chunk seen lp w with
  | (Ok seen', w') =>
      (seen' = seen ∧ lp_ChunkID lp ∈ seen ∨ seen' = lp_ChunkID lp :: seen) ∧
      w_db w' = w_db w ∧ w_redis w' = w_redis w ∧ bus_up (w_bus w') = bus_up (w_bus w) ∧
      (∀ m, m ∈ bus_out (w_bus w) → m ∈ bus_out (w_bus w')) ∧
      (lp_ChunkID lp ∉ seen → ∀ m,
         repair_msg (lp_ChunkID lp) (ChunkHealth (lp_ChunkID lp) (w_db w)) = Some m →
         m ∈ bus_out (w_bus w'))
  | (Err e, w') => w' = w ∧ e = PublishErr ∧ bus_up (w_bus w) = false
  end.
Proof.
  unfold queue_chunk. case_bool_decide as Hseen.
  { cbn. split_and!; auto; tauto. }
  unfold mbind, M_bind, gets. unfold repair_msg, PublishRepair.
  destruct (PrioritySubject _) as [s|] eqn:Hp; cbn -[ChunkHealth].
  2: { split_and!; auto. all: intros; congruence. }
  unfold publish. destruct (bus_up (w_bus w)) eqn:Hup; cbn -[ChunkHealth].
  - split_and!; auto.
    + intros m Hm. apply elem_of_app. by left.
    + intros _ m [= <-]. apply elem_of_app. right. left.
  - by split_and!.
Qed.

Lemma queue_all seen lost w :
  match for_fold queue_chunk seen lost w with
  | (Ok _, w') =>
      w_db w' = w_db w ∧ w_redis w' = w_redis w ∧
      (∀ m, m ∈ bus_out (w_bus w) → m ∈ bus_out (w_bus w')) ∧
      ∀ lp m, lp ∈ lost → lp_ChunkID lp ∉ seen →
        repair_msg (lp_ChunkID lp) (ChunkHealth (lp_ChunkID lp) (w_db w)) = Some m →
        m ∈ bus_out (w_bus w')
  | (Err e, w') =>
      w_db w' = w_db w ∧ w_redis w' = w_redis w ∧ e = PublishErr ∧ bus_up (w_bus w) = false
  end.
Proof.
  revert seen w. induction lost as [|lp lost IH]; intros seen w; cbn [for_fold].
  { cbn. split_and!; auto. by intros ?? ?%not_elem_of_nil. }
  unfold mbind, M_bind. pose proof (queue_chunk_run seen lp w) as Hrun.
  destruct (queue_chunk seen lp w) as [[seen'|e] w1]; [|by destruct Hrun as (->&->&?)].
  destruct Hrun as (Hseen&Hdb&Hrd&Hup&Hkeep&Hmsg). specialize (IH seen' w1).
  destruct (for_fold queue_chunk seen' lost w1) as [[seen2|e] w2].
  - destruct IH as (Hdb2&Hrd2&Hkeep2&Hmsg2). split_and!; [congruence..|auto|].
    intros x m Hx Hns Hm. destruct (decide (lp_ChunkID x = lp_ChunkID lp)) as [Heq|Hne].
    + apply Hkeep2, Hmsg; [by rewrite <- Heq|]. by rewrite <- Heq.
    + apply (Hmsg2 x); [| |by rewrite Hdb].
      * apply elem_of_cons in Hx as [->|?]; done.
      * destruct Hseen as [[-> _]| ->]; [done|]. rewrite elem_of_cons. tauto.
  - destruct IH as (?&?&?&?). split_and!; congruence.
Qed.

(** C16: When a node goes offline, all its live copies are lost whatever happens
    next, and while the bus is up the handler succeeds: then for every chunk
    that lost a copy and is below full health, a repair job with its remaining
    health has been published at the priority of that health. *)
Theorem onNodeOffline_spec now node w :
  let '(r, w') := onNodeOffline now node w in
  let d' := w_db w' in
  d' = (MarkPlacementsLostByNode now node (w_db w)).2 ∧ w_redis w' = w_redis w ∧
  (∀ p, p ∈ db_placements d' → on_node_live d' node p = false) ∧
  (bus_up (w_bus w) = true → r = Ok tt) ∧
  (r = Ok tt → ∀ p c s, p ∈ db_placements (w_db w) → on_node_live (w_db w) node p = true →
     chunk_of (w_db w) p = Some c → PrioritySubject (ChunkHealth c d') = Some s →
     MkMessage s (IdRepair c (ChunkHealth c d')) (PRepair (MkRepairJob c (ChunkHealth c d')))
       ∈ bus_out (w_bus w')).
Proof.
  unfold onNodeOffline, mbind at 1, M_bind at 1, with_db.
  destruct (MarkPlacementsLostByNode now node (w_db w)) as [lost d1] eqn:Hm.
  set (w1 := upd_w_db (λ _, d1) w).
  assert (∀ p, p ∈ db_placements d1 → on_node_live d1 node p = false) as Hoff.
  { injection Hm as _ <-. intros p (p0&_&->)%elem_of_update_where.
    destruct (on_node_live (w_db w) node p0) eqn:Hp; [|exact Hp].
    unfold on_node_live, lose, live_placement. cbn. by rewrite andb_false_r. }
  unfold mbind, M_bind. pose proof (queue_all [] lost w1) as Hq.
  destruct (for_fold queue_chunk [] lost w1) as [[seen|e] w2].
  - destruct Hq as (Hdb&Hrd&_&Hmsg). cbn [mret M_ret]. rewrite Hdb, Hrd. cbn [w_db upd_w_db w_redis w1].
    split_and!; try done. intros _ p c s Hp Hl Hc Hs.
    injection Hm as <- <-. cbn [w_db upd_w_db w1] in Hmsg.
    assert (∃ lp, lost_row (w_db w) p = Some lp) as [lp Hlp].
    { apply lost_row_joins. unfold on_node_live in Hl. by apply andb_true_iff in Hl as [[? _]%andb_true_iff _]. }
    pose proof (lost_row_some _ _ _ Hlp) as (_&_&_&Hch). rewrite Hc in Hch. injection Hch as ->.
    apply (Hmsg lp); [|apply not_elem_of_nil|].
    + apply list_elem_of_omap. exists p. split; [by apply list_elem_of_filter|done].
    + unfold repair_msg. by rewrite Hs.
  - destruct Hq as (Hdb&Hrd&->&Hup). rewrite Hdb, Hrd. split_and!; try done.
    intros Hup'. cbn in Hup. congruence.
Qed.

(** ** Fetching sources *)

Section fetching.
Context {N : Type} (nodes : Agents N).

(** The fetches of [srcs], one after the other: what was answered for which. *)
Abbreviation run := (list (RepairSource * bytes)).
Fixpoint source_run (srcs : list RepairSource) (n : N) : run * N :=
  match srcs with
  | [] => ([], n)
  | src :: srcs =>
      let '(r, n1) := getFragment nodes (rs_Endpoint src) (rs_NodeID src) (rs_FragmentID src) (rs_Ticket src) n in
      let '(answers, n2) := source_run srcs n1 in
      (match r with Ok data => (src, data) :: answers | Err _ => answers end, n2)
  end.

(** The answers with the recorded hash. *)
Definition hits_of (answers : run) : list (Z * bytes) :=
  omap (λ x, if hashMatches x.2 (rs_SHA256 x.1) then Some (rs_ShardIndex x.1, x.2) else None) answers.

Lemma source_run_from srcs n src d : (src, d) ∈ (source_run srcs n).1 → src ∈ srcs.
Proof.
  revert n. induction srcs as [|x srcs IH]; intros n; cbn [source_run]; [by intros ?%not_elem_of_nil|].
  destruct (getFragment _ _ _ _ _ n) as [r n1]. specialize (IH n1). destruct (source_run srcs n1) as [l n2].
  cbn [fst] in *. destruct r as [data|e]; [|intros ?; right; auto].
  intros [[= -> ->]|?]%elem_of_cons; [by left|right; auto].
Qed.

Lemma fetch_sources srcs hits n :
  for_fold (fetch_source nodes) hits srcs n = (Ok (hits ++ hits_of (source_run srcs n).1), (source_run srcs n).2).
Proof.
  revert hits n. induction srcs as [|src srcs IH]; intros hits n; cbn [for_fold source_run].
  { unfold hits_of. cbn. by rewrite app_nil_r. }
  destruct (getFragment nodes _ _ _ _ n) as [r n1] eqn:Hg.
  set (hits1 := match r with
                | Ok d => if hashMatches d (rs_SHA256 src) then hits ++ [(rs_ShardIndex src, d)] else hits
                | Err _ => hits
                end).
  rewrite (bind_run _ _ n hits1 n1).
  2:{ unfold fetch_source, attempt, mbind, M_bind. rewrite Hg. by destruct r. }
  rewrite IH. destruct (source_run srcs n1) as [l n2]. cbn [fst snd]. do 2 f_equal. unfold hits1.
  destruct r as [d|e]; [|done]. unfold hits_of. cbn [omap list_omap fst snd].
  destruct (hashMatches d _); [by rewrite <- app_assoc|done].
Qed.

Lemma elem_of_hits answers i d :
  (i, d) ∈ hits_of answers ↔ ∃ src, (src, d) ∈ answers ∧ rs_ShardIndex src = i ∧ sha256 d = rs_SHA256 src.
Proof.
  unfold hits_of, hashMatches. rewrite list_elem_of_omap. split.
  - intros ([src d']&Hin&H). cbn [fst snd] in H. case_bool_decide; [|done]. injection H as <- <-. by exists src.
  - intros (src&Hin&<-&Hs). exists (src, d). split; [done|]. cbn [fst snd]. by rewrite bool_decide_eq_true_2.
Qed.

(** Slot [i] of [shards] holds bytes some source for shard [i] answered with,
    and they have that source's hash. *)
Definition slots_ok (answers : run) (shards : list (option bytes)) : Prop :=
  ∀ i data, shards !! i = Some (Some data) → ∃ src, (src, data) ∈ answers ∧
    rs_ShardIndex src = Z.of_nat i ∧ sha256 data = rs_SHA256 src.
End fetching.

Lemma present_insert i data shards :
  shards !! i = Some None → present (<[i := Some data]> shards) = S (present shards).
Proof.
  unfold present. revert i. induction shards as [|s shards IH]; intros [|i]; try done; cbn [lookup list_lookup].
  - intros [= ->]. cbn [insert list_insert]. by rewrite !count_where_cons.
  - intros Hi. cbn [insert list_insert]. rewrite !count_where_cons, IH by done. lia.
Qed.

(** The receiving loop counts the filled slots, puts every answer in its slot,
    and when it ends below ten has found every usable answer's slot filled. *)
Lemma collect_spec (P : Z → bytes → Prop) hits shards got :
  (∀ i d, (i, d) ∈ hits → P i d) → (∀ i d, shards !! i = Some (Some d) → P (Z.of_nat i) d) →
  length shards = ECTotal → got = present shards → (got < ECData)%nat →
  let '(got', shards') := collect got shards hits in
  got' = present shards' ∧ length shards' = ECTotal ∧ (got' ≤ ECData)%nat ∧
  (∀ i d, shards' !! i = Some (Some d) → P (Z.of_nat i) d) ∧
  (∀ i, is_Some (mjoin (shards !! i)) → is_Some (mjoin (shards' !! i))) ∧
  ((got' < ECData)%nat → ∀ i d, (i, d) ∈ hits → 0 ≤ i < Z.of_nat ECTotal →
     is_Some (mjoin (shards' !! Z.to_nat i))).
Proof.
  revert shards got. induction hits as [|[idx data] hits IH]; intros shards got HP Hok Hlen Hgot Hlt.
  { cbn. split_and!; try done; [lia|]. by intros ??? ?%not_elem_of_nil. }
  assert (∀ i d, (i, d) ∈ hits → P i d) as HP' by (intros i d Hi; apply HP; by right).
  cbn [collect].
  assert (∀ (got' : nat) (shards' : list (option bytes)),
    (is_Some (mjoin (shards' !! Z.to_nat idx)) ∨ ¬ 0 ≤ idx < Z.of_nat ECTotal) →
    ((got' < ECData)%nat → ∀ i d, (i, d) ∈ hits → 0 ≤ i < Z.of_nat ECTotal →
       is_Some (mjoin (shards' !! Z.to_nat i))) →
    (got' < ECData)%nat → ∀ i d, (i, d) ∈ (idx, data) :: hits → 0 ≤ i < Z.of_nat ECTotal →
       is_Some (mjoin (shards' !! Z.to_nat i))) as Hcons.
  { intros got' shards' Hidx Hh Hg i d [[= -> ->]|Hin]%elem_of_cons Hi; [tauto|eauto]. }
  case_if.
  { specialize (IH shards got HP' Hok Hlen Hgot Hlt). destruct (collect got shards hits) as [got' shards'].
    destruct IH as (?&?&?&?&?&Hh). split_and!; try done. apply Hcons; [|exact Hh]. right. lia. }
  apply orb_false_iff in Eif as [H0 H1].
  assert (Z.to_nat idx < length shards)%nat as Hr.
  { rewrite Hlen. apply Z.ltb_ge in H0. apply Z.leb_gt in H1. clear -H0 H1. lia. }
  destruct (shards !! Z.to_nat idx) as [[x|]|] eqn:Hslot;
    [| |by apply lookup_ge_None in Hslot; lia].
  { specialize (IH shards got HP' Hok Hlen Hgot Hlt). destruct (collect got shards hits) as [got' shards'].
    destruct IH as (?&?&?&?&Hk&Hh). split_and!; try done. apply Hcons; [|exact Hh].
    left. apply Hk. by rewrite Hslot. }
  set (shards1 := <[_ := Some data]> shards).
  assert (∀ i d, shards1 !! i = Some (Some d) → P (Z.of_nat i) d) as Hok1.
  { intros i d Hi. unfold shards1 in Hi. destruct (decide (i = Z.to_nat idx)) as [->|Hne].
    - rewrite list_lookup_insert_eq in Hi by done. injection Hi as <-.
      rewrite Z2Nat.id by lia. apply HP. left.
    - rewrite list_lookup_insert_ne in Hi by done. by apply Hok. }
  assert (present shards1 = S got) as Hp by (unfold shards1; rewrite present_insert by done; congruence).
  assert (length shards1 = ECTotal) as Hl by (unfold shards1; by rewrite length_insert).
  assert (is_Some (mjoin (shards1 !! Z.to_nat idx))) as Hin1
    by (unfold shards1; rewrite list_lookup_insert_eq by done; done).
  assert (∀ i, is_Some (mjoin (shards !! i)) → is_Some (mjoin (shards1 !! i))) as Hkeep.
  { intros i Hi. destruct (decide (i = Z.to_nat idx)) as [->|Hne]; [done|].
    unfold shards1. by rewrite list_lookup_insert_ne. }
  destruct (Nat.leb_spec ECData (S got)) as [Hge|Hge].
  { split_and!; try done. intros Hf. exfalso. clear -Hf Hge. lia. }
  specialize (IH shards1 (S got) HP' Hok1 Hl (eq_sym Hp) Hge).
  destruct (collect (S got) shards1 hits) as [got' shards']. destruct IH as (?&?&?&?&Hk&Hh).
  split_and!; try done; [auto|]. apply Hcons; [|exact Hh]. left. by apply Hk.
Qed.

Lemma empty_slots : present (replicate ECTotal None) = 0%nat ∧
  ∀ i d, replicate ECTotal (None (A := bytes)) !! i ≠ Some (Some d).
Proof. split; [done|]. intros i d Hi. apply lookup_replicate in Hi as [? _]. done. Qed.

Lemma present_indices (shards : list (option bytes)) (idxs : list Z) :
  NoDup idxs → (∀ i, i ∈ idxs → 0 ≤ i ∧ is_Some (mjoin (shards !! Z.to_nat i))) →
  (length idxs ≤ present shards)%nat.
Proof.
  intros Hnd Hall.
  set (filled (shards : list (option bytes)) i := bool_decide (mjoin (shards !! i) ≠ None)).
  assert (∀ shards, count_where (filled shards) (seq 0 (length shards)) ≤ present shards)%nat as Hcount.
  { clear. intros shards. induction shards as [|s shards IH] using rev_ind; [done|].
    unfold present in *. rewrite length_app, seq_app, !count_where_app. cbn [length seq].
    apply Nat.add_le_mono.
    - etrans; [|exact IH]. apply count_where_le. intros i Hi%elem_of_seq. unfold filled.
      by rewrite lookup_app_l by lia.
    - rewrite !count_where_cons. unfold filled. rewrite list_lookup_middle by done. by destruct s. }
  etrans; [|apply Hcount]. rewrite <- (length_fmap Z.to_nat idxs). unfold count_where.
  apply submseteq_length, NoDup_submseteq.
  - apply NoDup_fmap_2_strong; [|done]. intros i j Hi%Hall Hj%Hall. lia.
  - intros n (i&->&Hi)%list_elem_of_fmap. apply Hall in Hi as [Hi Hs]. apply list_elem_of_filter.
    split.
    + unfold filled. apply bool_decide_eq_true. by destruct Hs as [? ->].
    + apply elem_of_seq. destruct (shards !! Z.to_nat i) eqn:Hl; [|by destruct Hs].
      apply lookup_lt_Some in Hl. lia.
Qed.

(** Ten different shards were answered with their recorded hash. *)
Definition ten (answers : list (RepairSource * bytes)) : Prop :=
  ∃ srcs, NoDup (rs_ShardIndex <$> srcs) ∧ (ECData ≤ length srcs)%nat ∧
    ∀ src, src ∈ srcs → 0 ≤ rs_ShardIndex src < Z.of_nat ECTotal ∧
      ∃ d, (src, d) ∈ answers ∧ sha256 d = rs_SHA256 src.

(** Whatever order the sources answer in, a repair works on shards it has
    checked: when the fetch succeeds there are sixteen slots, exactly ten of
    them filled, each with the bytes a source of that shard answered with,
    which have the recorded hash; it fails only when fewer than ten different
    shards are answered so. *)
Lemma fetchSources_spec {N} (nodes : Agents N) arrival sources n :
  let '(answers, n1) := source_run nodes (arrival sources) n in
  let '(r, n') := fetchSources nodes arrival sources n in
  n' = n1 ∧
  match r with
  | Ok shards => length shards = 16%nat ∧ present shards = 10%nat ∧ slots_ok answers shards
  | Err e => e = ShardsErr ∧ ¬ ten answers
  end.
Proof.
  unfold fetchSources. destruct (source_run nodes (arrival sources) n) as [answers n1] eqn:Hrun.
  rewrite (bind_run _ _ n (hits_of answers) n1) by (by rewrite fetch_sources, Hrun).
  destruct empty_slots as [Hp0 H0].
  pose proof (collect_spec (λ i d, ∃ src, (src, d) ∈ answers ∧ rs_ShardIndex src = i ∧ sha256 d = rs_SHA256 src)
    (hits_of answers) (replicate ECTotal None) 0) as Hc.
  destruct (collect 0 _ _) as [got shards].
  destruct Hc as (->&Hlen&Hle&Hok&_&Hall).
  { intros i d Hi. by apply elem_of_hits in Hi. }
  { intros i d Hi. by apply H0 in Hi. }
  { done. }
  { done. }
  { unfold ECData. lia. }
  destruct (Nat.ltb_spec (present shards) ECData) as [Hlt|Hge]; unfold guard_err.
  - unfold mbind, M_bind, throw. split; [done|]. split; [done|]. intros (srcs&Hnd&Hten&Hsrc).
    assert (length (rs_ShardIndex <$> srcs) ≤ present shards)%nat as Hcount.
    { apply present_indices; [done|]. intros i (src&->&Hs)%list_elem_of_fmap.
      destruct (Hsrc src Hs) as (Hr&d&Hd&Hsha). split; [lia|]. apply (Hall Hlt _ d); [|done].
      apply elem_of_hits. by exists src. }
    rewrite length_fmap in Hcount. lia.
  - rewrite ret_bind. unfold ECData, ECTotal, ECParity in *. split; [done|]. split_and!; [done|lia|exact Hok].
Qed.

(** Filled slots are different shards. *)
Lemma slots_sources (answers : list (RepairSource * bytes)) shards (k : nat) :
  (∀ i d, shards !! i = Some (Some d) → ∃ src, (src, d) ∈ answers ∧
     rs_ShardIndex src = Z.of_nat (k + i) ∧ sha256 d = rs_SHA256 src) →
  ∃ srcs, NoDup (rs_ShardIndex <$> srcs) ∧ length srcs = present shards ∧
    ∀ src, src ∈ srcs → Z.of_nat k ≤ rs_ShardIndex src < Z.of_nat (k + length shards) ∧
      ∃ d, (src, d) ∈ answers ∧ sha256 d = rs_SHA256 src.
Proof.
  revert k. induction shards as [|slot shards IH]; intros k Hok.
  { exists []. split_and!; [constructor|done|]. by intros ? ?%not_elem_of_nil. }
  destruct (IH (S k)) as (srcs&Hnd&Hlen&Hsrc).
  { intros i d Hi. replace (S k + i)%nat with (k + S i)%nat by lia. by apply (Hok (S i)). }
  unfold present. rewrite count_where_cons. cbn [length]. destruct slot as [d|].
  - destruct (Hok 0%nat d eq_refl) as (src&Hin&Hidx&Hsha). exists (src :: srcs). split_and!.
    + rewrite fmap_cons. apply NoDup_cons. split; [|done].
      intros (src'&Heq&Hs)%list_elem_of_fmap. apply Hsrc in Hs as [Hr _]. lia.
    + cbn [length]. by rewrite Hlen.
    + intros x [->|[Hr Hx]%Hsrc]%elem_of_cons; [split; [lia|by exists d]|split; [lia|done]].
  - exists srcs. split_and!; [done|done|]. intros x [Hr Hx]%Hsrc. split; [lia|done].
Qed.

Lemma slots_ten (answers : list (RepairSource * bytes)) shards :
  slots_ok answers shards → length shards = 16%nat → present shards = 10%nat → ten answers.
Proof.
  intros Hok Hlen Hten. destruct (slots_sources answers shards 0) as (srcs&Hnd&Hl&Hs); [done|].
  exists srcs. split_and!; [done|unfold ECData; lia|]. intros src [Hr Hx]%Hs. rewrite Hlen in Hr. by split.
Qed.

(** No source answers other bytes with the hash of its shard. *)
Definition unforged (shards : list bytes) (answers : list (RepairSource * bytes)) : Prop :=
  ∀ src d, (src, d) ∈ answers → sha256 d = rs_SHA256 src → shards !! Z.to_nat (rs_ShardIndex src) = Some d.

(** The slots of a fetch are enough to rebuild. *)
Lemma fetched_rebuilds `{ReedSolomonLaws} chunk shards answers work :
  EncodeChunk chunk = Ok shards → unforged shards answers → length work = 16%nat → present work = 10%nat →
  slots_ok answers work → ReconstructShards work = Ok (Some <$> shards).
Proof.
  intros Henc Hun Hlen Hten Hok. apply EncodeChunk_coded in Henc as Hc.
  eapply ReconstructShards_rebuilds; [done| |unfold ECData; lia]. split; [exact Hlen|].
  intros i data Hi. apply Hok in Hi as (src&Hin&Hidx&Hsha).
  specialize (Hun src data Hin Hsha). by rewrite Hidx, Nat2Z.id in Hun.
Qed.

(** ** One repair job *)

Section job.
Context {N : Type} `{ReedSolomonLaws} (meta : WorkerMeta World) (nodes : Agents N) (now : Z)
  (arrival : list RepairSource → list RepairSource).

(** A target is sent its own shard; one that does not take it loses its copy. *)
Definition own_shard (shards : list bytes) (tgt : RepairTarget) : bytes :=
  default [] (shards !! Z.to_nat (rs_ShardIndex tgt)).
Definition put_run (shards : list bytes) (tgt : RepairTarget) (s : World * N) : result error bytes * (World * N) :=
  let '(r, n) := putFragment nodes (rs_Endpoint tgt) (rs_NodeID tgt) (rs_FragmentID tgt) (rs_Ticket tgt)
                   (own_shard shards tgt) s.2 in
  (r, (match r with
       | Ok _ => s.1
       | Err _ => upd_w_db (λ d, (MarkPlacementLost now (rs_FragmentID tgt) (rs_NodeID tgt) d).2) s.1
       end, n)).
Fixpoint put_runs (shards : list bytes) (tgts : list RepairTarget) (s : World * N) :
    list (result error bytes) * (World * N) :=
  match tgts with
  | [] => ([], s)
  | tgt :: tgts =>
      let '(r, s1) := put_run shards tgt s in
      let '(rs, s2) := put_runs shards tgts s1 in (r :: rs, s2)
  end.
Definition receipts_of (rs : list (result error bytes)) : list bytes :=
  omap (λ r, match r with Ok rec => Some rec | Err _ => None end) rs.

(** The targets of the chunk: each for one of its shards, under its hash. *)
Definition targets_ok (shards : list bytes) (tgts : list RepairTarget) : Prop :=
  ∀ tgt, tgt ∈ tgts → 0 ≤ rs_ShardIndex tgt ∧
    ∃ sh, shards !! Z.to_nat (rs_ShardIndex tgt) = Some sh ∧ rs_SHA256 tgt = sha256 sh.

Lemma put_target_run shards receipts tgt s :
  length shards = ECTotal → targets_ok shards [tgt] →
  put_target nodes now (Some <$> shards) receipts tgt s =
    (Ok (receipts ++ receipts_of [(put_run shards tgt s).1]), (put_run shards tgt s).2).
Proof.
  intros Hl Hok. destruct (Hok tgt) as (Hge&sh&Hsh&Hsha); [left|]. unfold put_target.
  assert (rs_ShardIndex tgt < Z.of_nat ECTotal) as Hlt by (apply lookup_lt_Some in Hsh; lia).
  rewrite (proj2 (Z.ltb_ge _ _)), (proj2 (Z.leb_gt _ _)) by lia. cbn [orb].
  rewrite list_lookup_fmap, Hsh. cbn [fmap option_fmap option_map mjoin option_join]. unfold hashMatches.
  rewrite bool_decide_eq_true_2 by done. unfold guard_err. cbn [negb]. rewrite ret_bind.
  unfold put_run, own_shard. rewrite Hsh. cbn [default from_option]. unfold Datatypes.id.
  destruct (putFragment nodes _ _ _ _ sh s.2) as [r n1] eqn:Hput.
  rewrite (bind_run _ _ s r (s.1, n1)).
  2:{ unfold attempt, on_right. by rewrite Hput. }
  destruct r as [rec|e]; cbn [fst snd receipts_of omap list_omap]; [done|].
  unfold on_left, ignore_err, with_store, mbind, M_bind. cbn [fst snd].
  rewrite app_nil_r. unfold upd_w_db. by destruct (MarkPlacementLost _ _ _ _) as [[] ?].
Qed.

Lemma put_targets_run shards receipts tgts s :
  length shards = ECTotal → targets_ok shards tgts →
  for_fold (put_target nodes now (Some <$> shards)) receipts tgts s =
    (Ok (receipts ++ receipts_of (put_runs shards tgts s).1), (put_runs shards tgts s).2).
Proof.
  intros Hl. revert receipts s. induction tgts as [|tgt tgts IH]; intros receipts s Hok; cbn [for_fold put_runs].
  { cbn. by rewrite app_nil_r. }
  assert (targets_ok shards [tgt]) as Htgt by (intros x ->%list_elem_of_singleton; apply Hok; left).
  rewrite (bind_run _ _ _ _ _ (put_target_run shards receipts tgt s Hl Htgt)).
  rewrite IH by (intros x Hx; apply Hok; by right).
  destruct (put_run shards tgt s) as [r s1]. cbn [fst snd]. destruct (put_runs shards tgts s1) as [rs s2].
  cbn [fst snd]. rewrite <- app_assoc. by destruct r.
Qed.

(** What follows the puts. *)
Definition settled (chunk : uuid) (receipts : list bytes) (s : World * N) : result error unit * (World * N) :=
  if bool_decide (receipts = []) then (Err NodeErr, s)
  else match wm_Commit meta chunk receipts s.1 with
       | (Err e, w) => (Err e, (w, s.2))
       | (Ok _, w) =>
           let h := ChunkHealth chunk (w_db w) in
           let '(r, w') := if h <? repairThreshold then PublishRepair (MkRepairJob chunk h) w else (Ok tt, w) in
           (r, (w', s.2))
       end.

Lemma put_and_commit_run chunk shards tgts s :
  length shards = ECTotal → targets_ok shards tgts →
  put_and_commit meta nodes now chunk (Some <$> shards) tgts s =
    settled chunk (receipts_of (put_runs shards tgts s).1) (put_runs shards tgts s).2.
Proof.
  intros Hl Hok. unfold put_and_commit, settled. rewrite (bind_run _ _ _ _ _ (put_targets_run shards [] tgts s Hl Hok)).
  cbn [app]. destruct (put_runs shards tgts s) as [rs [w n]]. cbn [fst snd]. case_bool_decide as Hnone; [done|].
  unfold guard_err. rewrite ret_bind. destruct (wm_Commit meta chunk (receipts_of rs) w) as [[[]|e] w'] eqn:Hc.
  - rewrite (bind_run _ _ _ _ _ (on_left_run _ (w, n) _ _ Hc)).
    rewrite (bind_run _ _ _ _ _ (on_left_run (gets (λ w, ChunkHealth chunk (w_db w))) (w', n) _ _ eq_refl)).
    destruct (_ <? _); [|done]. unfold on_left. cbn [fst snd]. by destruct (PublishRepair _ w').
  - by rewrite (bind_err _ _ _ _ _ (on_left_run _ (w, n) _ _ Hc)).
Qed.

(** C17: A repair job on a chunk below full health, planned with targets for the
    chunk's own shards under their hashes, whose sources answer with nothing
    else of the same hash: with ten different shards answered it rebuilds the
    chunk, sends every target exactly its own shard, loses the copies that were
    not taken and commits the receipts of the others, and asks for another job
    while the chunk is still not whole; with fewer it stops with the plan made
    and no node written to. *)
Theorem onJob_repairs data shards (job : RepairJob) plan w w1 n :
  EncodeChunk data = Ok shards →
  ChunkHealth (rj_ChunkID job) (w_db w) < repairThreshold →
  wm_Plan meta (rj_ChunkID job) w = (Ok plan, w1) →
  rp_Targets plan ≠ [] → targets_ok shards (rp_Targets plan) →
  unforged shards (source_run nodes (arrival (rp_Sources plan)) n).1 →
  let '(answers, n1) := source_run nodes (arrival (rp_Sources plan)) n in
  let '(rs, s2) := put_runs shards (rp_Targets plan) (w1, n1) in
  (ten answers → onJob meta nodes now arrival job (w, n) = settled (rj_ChunkID job) (receipts_of rs) s2) ∧
  (¬ ten answers → onJob meta nodes now arrival job (w, n) = (Err ShardsErr, (w1, n1))).
Proof.
  intros Henc Hh Hplan Hne Htgt Hun. destruct (source_run nodes _ n) as [answers n1] eqn:Hrun. cbn [fst] in Hun.
  destruct (put_runs shards (rp_Targets plan) (w1, n1)) as [rs s2] eqn:Hputs.
  assert (length shards = ECTotal) as Hl
    by (apply EncodeChunk_coded in Henc; apply (rs_coded _ _ Henc)).
  set (rest := λ got, shards' ← lift (shards_err (ReconstructShards got));
                      put_and_commit meta nodes now (rj_ChunkID job) shards' (rp_Targets plan)).
  assert (onJob meta nodes now arrival job (w, n) =
    (on_right (fetchSources nodes arrival (rp_Sources plan)) ≫= rest) (w1, n)) as ->.
  { unfold onJob. rewrite (bind_run _ _ _ _ _ (on_left_run (gets _) (w, n) _ _ eq_refl)). cbn [fst].
    rewrite (proj2 (Z.leb_gt _ _)) by exact Hh.
    rewrite (bind_run _ _ _ _ _ (on_left_run _ (w, n) _ _ Hplan)). by rewrite bool_decide_eq_false_2. }
  pose proof (fetchSources_spec nodes arrival (rp_Sources plan) n) as Hf. rewrite Hrun in Hf.
  destruct (fetchSources nodes arrival (rp_Sources plan) n) as [r n'] eqn:Hfetch. destruct Hf as [-> Hf].
  destruct r as [work|e].
  - destruct Hf as (Hlen&Hten&Hok). split; intros Ht; [|by destruct Ht; eapply slots_ten].
    rewrite (bind_run _ _ _ _ _ (on_right_run _ (w1, n) _ _ Hfetch)). unfold rest.
    rewrite (fetched_rebuilds data shards answers work) by done. cbn [shards_err lift fst snd].
    change ((lift (Ok (Some <$> shards)) ≫= _) (w1, n1)) with
      (put_and_commit meta nodes now (rj_ChunkID job) (Some <$> shards) (rp_Targets plan) (w1, n1)).
    by rewrite put_and_commit_run, Hputs.
  - destruct Hf as [-> Hnot]. split; [done|]. intros _.
    by rewrite (bind_err _ _ _ _ _ (on_right_run _ (w1, n) _ _ Hfetch)).
Qed.
End job.

(** ** A lost announcement *)

Module RepairWorkerScene.
Import Metadata.Scene.
Definition twelve : DB :=
  upd_db_placements (λ _, [copy 1 30 1 PStored; copy 2 30 2 PStored]) (db 1 []).
Definition bus_down : World := MkWorld twelve redis_empty (MkBus false []).
Definition bus_back (w : World) : World := upd_w_bus (λ _, MkBus true []) w.

(** The bus refuses the job, the message is redelivered, and the second run
    finds nothing lost: the repair is never queued. *)
Example announcement_lost :
  let '(r1, w1) := onNodeOffline 5 (Uuid 1) bus_down in
  let '(r2, w2) := onNodeOffline 6 (Uuid 1) (bus_back w1) in
  r1 = Err PublishErr ∧ r2 = Ok tt ∧ bus_out (w_bus w2) = [] ∧
  ChunkHealth (Uuid 20) (w_db w2) = 1.
Proof. by vm_compute. Qed.

(** A chunk without a healthy copy is not found by the scan at start-up. *)
Example empty_chunk_not_queued :
  let w := world (upd_db_placements (λ _, [copy 1 30 1 PLost]) (db 1 [])) in
  bus_out (w_bus (enqueueUnhealthy w).2) = [].
Proof. by vm_compute. Qed.
End RepairWorkerScene.
