(* ===== verification/Consumers.v ===== *)
(** * Taking messages from the bus

    The two ways the services consume JetStream: the archive of usage events in
    [usage_events] ([src/cmd/ledger/main.go], [src/internal/store/ledger.go]),
    which acknowledges what it has recorded, and the repair worker's queue of jobs
    by priority ([drainJobs] of [src/internal/repair/worker.go], [FetchOne] of
    [src/internal/events/events.go]).

    JetStream itself is a parameter: [Stream] with its documented behaviour in
    [StreamLaws] — a message stays in a work queue until it is acknowledged.  A
    statement of the database may fail. *)

From S2P Require Import Prelude GoFloat Bytes Schema Nodes World Placements Scheduler Health.
From S2P Require Import Challenges Tickets Receipts Metadata RepairPlan Workers Repair.

(** ** The archive of usage events *)

Record UsageRow := MkUsageRow {
  ur_ID : msg_id; ur_Event : UsageEvent; ur_ConsumedAt : option Z }.
Abbreviation archive := (list UsageRow).

Definition MsgID (ev : UsageEvent) : msg_id :=
  UsageMsgIDWithDedup (ue_Kind ev) (ue_SubjectID ev) (ue_Window ev) (ue_Dedup ev).

Inductive archive_error := EDatabase.

(** [fails]: the statement fails and changes nothing. *)
Definition RecordUsageEvent (fails : bool) (id : msg_id) (ev : UsageEvent) : M archive archive_error bool := λ t,
  if fails then (Err EDatabase, t)
  else if bool_decide (id ∈ ur_ID <$> t) then (Ok false, t)
  else (Ok true, t ++ [MkUsageRow id ev None]).
Definition MarkUsageConsumed (now : Z) (fails : bool) (id : msg_id) : M archive archive_error unit := λ t,
  if fails then (Err EDatabase, t)
  else (Ok tt, update_where (λ r, bool_decide (ur_ID r = id))
                 (λ r, MkUsageRow (ur_ID r) (ur_Event r) (Some now)) t).

Definition onUsage (now : Z) (record_fails mark_fails : bool) (ev : UsageEvent) : M archive archive_error unit :=
  let id := MsgID ev in
  inserted ← RecordUsageEvent record_fails id ev;
  if inserted : bool then MarkUsageConsumed now mark_fails id else mret tt.

(** [Consume]: a handler that fails is a negative acknowledgement. *)
Definition consume {S E} (h : M S E unit) : S → bool * S := λ s, let '(r, s') := h s in (is_ok r, s').

(** One delivery, and any sequence of them. *)
Record delivery := MkDelivery { dv_now : Z; dv_record_fails : bool; dv_mark_fails : bool; dv_event : UsageEvent }.
Definition deliver (t : archive) (d : delivery) : archive :=
  (consume (onUsage (dv_now d) (dv_record_fails d) (dv_mark_fails d) (dv_event d)) t).2.
Definition acked (t : archive) (d : delivery) : bool :=
  (consume (onUsage (dv_now d) (dv_record_fails d) (dv_mark_fails d) (dv_event d)) t).1.

Lemma deliver_ids t d :
  ur_ID <$> deliver t d =
    if dv_record_fails d || bool_decide (MsgID (dv_event d) ∈ ur_ID <$> t) then ur_ID <$> t
    else (ur_ID <$> t) ++ [MsgID (dv_event d)].
Proof.
  unfold deliver, consume, onUsage, RecordUsageEvent, mbind, M_bind. destruct (dv_record_fails d); [done|]. cbn [orb].
  case_bool_decide; [done|]. unfold MarkUsageConsumed. destruct (dv_mark_fails d); cbn; rewrite ?fmap_app; [done|].
  rewrite update_where_fmap by done. by rewrite fmap_app.
Qed.

Lemma deliver_events t d r :
  r ∈ deliver t d → (∃ r', r' ∈ t ∧ ur_ID r' = ur_ID r ∧ ur_Event r' = ur_Event r) ∨
                    ur_ID r = MsgID (dv_event d) ∧ ur_Event r = dv_event d.
Proof.
  unfold deliver, consume, onUsage, RecordUsageEvent, mbind, M_bind.
  destruct (dv_record_fails d); [left; by exists r|]. case_bool_decide; [left; by exists r|].
  unfold MarkUsageConsumed. destruct (dv_mark_fails d); cbn.
  - intros [Hr| ->%list_elem_of_singleton]%elem_of_app; [left; by exists r|by right].
  - intros (r'&[Hr| ->%list_elem_of_singleton]%elem_of_app&->)%elem_of_update_where; case_match; eauto.
Qed.

(** Whatever is delivered again, and whatever fails in between, an event is
    archived once: ids stay unique, every row is an event that was delivered,
    and an acknowledged event is in the archive for good. *)
Theorem archived_once t ds :
  NoDup (ur_ID <$> t) →
  let t' := foldl deliver t ds in
  NoDup (ur_ID <$> t') ∧
  (∀ r, r ∈ t' → (∃ r', r' ∈ t ∧ ur_ID r' = ur_ID r ∧ ur_Event r' = ur_Event r) ∨
     ∃ d, d ∈ ds ∧ ur_ID r = MsgID (dv_event d) ∧ ur_Event r = dv_event d) ∧
  (∀ i d, ds !! i = Some d → acked (foldl deliver t (take i ds)) d = true → MsgID (dv_event d) ∈ ur_ID <$> t').
Proof.
  revert t. induction ds as [|d ds IH]; intros t Hnd; cbn [foldl].
  { split_and!; [done| |done]. intros r Hr. left. by exists r. }
  assert (NoDup (ur_ID <$> deliver t d)) as Hnd1.
  { rewrite deliver_ids. destruct (dv_record_fails d); [done|]. case_bool_decide as Hin; [done|]. cbn.
    apply NoDup_app. split_and!; [done| |apply NoDup_singleton]. intros x Hx ->%list_elem_of_singleton. done. }
  destruct (IH _ Hnd1) as (Hnd'&Hrows&Hack). split_and!; [done| |].
  - intros r [(r1&Hr1&Hid&Hev)|(d1&Hd1&Hr)]%Hrows; [|right; exists d1; by split; [right|]].
    apply deliver_events in Hr1 as [(r0&Hr0&?&?)|[??]]; [left; exists r0; split_and!; congruence|].
    right. exists d. split; [left|split; congruence].
  - intros [|i] x Hx Ha; cbn in Hx, Ha; [|by apply (Hack i x)]. injection Hx as <-.
    assert (∀ ds t, MsgID (dv_event d) ∈ ur_ID <$> t → MsgID (dv_event d) ∈ ur_ID <$> foldl deliver t ds) as Hkeep.
    { clear. intros ds. induction ds as [|x ds IH]; intros t Ht; [done|]. cbn. apply IH. rewrite deliver_ids.
      case_match; [done|]. apply elem_of_app. by left. }
    apply Hkeep. rewrite deliver_ids. unfold acked, consume, onUsage, RecordUsageEvent, mbind, M_bind in Ha.
    destruct (dv_record_fails d); [done|]. cbn [orb]. case_bool_decide; [done|]. apply elem_of_app. right. left.
Qed.

Module Archive.
Definition upload (minutes size : Z) : UsageEvent :=
  MkUsageEvent UsageStorage (Uuid 1) (minutes * 60 * second) [] size.

(** A row whose stamp failed is never stamped: the redelivery finds it recorded
    and is acknowledged. *)
Example never_consumed :
  let once := deliver [] (MkDelivery 1 false true (upload 10 4)) in
  acked [] (MkDelivery 1 false true (upload 10 4)) = false ∧
  acked once (MkDelivery 2 false false (upload 10 4)) = true ∧
  ur_ConsumedAt <$> deliver once (MkDelivery 2 false false (upload 10 4)) = [None].
Proof. by vm_compute. Qed.

(** The second upload of a customer within the hour has the id of the first. *)
Example second_upload_not_archived :
  ur_Event <$> foldl deliver [] [MkDelivery 1 false false (upload 10 4); MkDelivery 2 false false (upload 20 5)] =
    [upload 10 4].
Proof. by vm_compute. Qed.
End Archive.

(** ** The queue of repair jobs *)

(** A durable consumer per subject: what [FetchOne] gives is a job with the
    token it is acknowledged by. *)
Record Stream (Q : Type) := MkStream {
  q_Fetch : subject → Q → option (nat * RepairJob) * Q;
  q_Ack : nat → Q → bool * Q;
  q_Nak : nat → Q → bool * Q;
  q_jobs : Q → gmap nat (subject * RepairJob) }.    (* what the stream holds *)
Arguments q_Fetch {Q}.
Arguments q_Ack {Q}.
Arguments q_Nak {Q}.
Arguments q_jobs {Q}.

Class StreamLaws {Q} (st : Stream Q) : Prop := {
  fetch_keeps f q : q_jobs st (q_Fetch st f q).2 = q_jobs st q;
  fetch_job f q t job q' : q_Fetch st f q = (Some (t, job), q') → q_jobs st q !! t = Some (f, job);
  nak_keeps t q : q_jobs st (q_Nak st t q).2 = q_jobs st q;
  ack_removes t q : q_jobs st (q_Ack st t q).2 = q_jobs st q ∨ q_jobs st (q_Ack st t q).2 = delete t (q_jobs st q) }.

Definition filters : list subject := [SubjRepairCritical; SubjRepairHigh; SubjRepairNormal].

Section queue.
Context {S Q : Type} (st : Stream Q) (onJob : RepairJob → M S error unit).

(** One turn of [drainJobs]: the filters in order, up to a job that succeeds;
    whether there was a job at all. *)
Fixpoint drain (fs : list subject) (got : bool) (s : S) (q : Q) : bool * (S * Q) :=
  match fs with
  | [] => (got, (s, q))
  | f :: fs =>
      match q_Fetch st f q with
      | (None, q) => drain fs got s q
      | (Some (t, job), q) =>
          match onJob job s with
          | (Err _, s) => drain fs true s (q_Nak st t q).2
          | (Ok _, s) => (true, (s, (q_Ack st t q).2))
          end
      end
  end.

(** The loop, turn by turn. *)
Fixpoint drainJobs (turns : nat) (s : S) (q : Q) : S * Q :=
  match turns with
  | O => (s, q)
  | Datatypes.S turns => let '(_, (s, q)) := drain filters false s q in drainJobs turns s q
  end.

(** The job was done. *)
Definition done_once (job : RepairJob) : Prop := ∃ s s', onJob job s = (Ok tt, s').

Lemma drain_jobs `{!StreamLaws st} fs got s q :
  let '(_, (_, q')) := drain fs got s q in
  q_jobs st q' = q_jobs st q ∨
  ∃ t f job, q_jobs st q !! t = Some (f, job) ∧ f ∈ fs ∧ done_once job ∧ q_jobs st q' = delete t (q_jobs st q).
Proof.
  revert got s q. induction fs as [|f fs IH]; intros got s q; cbn [drain]; [by left|].
  pose proof (fetch_keeps f q) as Hk. destruct (q_Fetch st f q) as [[[t job]|] q1] eqn:Hf; cbn [snd] in Hk.
  - apply fetch_job in Hf. destruct (onJob job s) as [[[]|e] s1] eqn:Hj.
    + destruct (ack_removes t q1) as [Ha|Ha]; rewrite Ha, Hk; [by left|right].
      exists t, f, job. split_and!; [done|left|by do 2 eexists|done].
    + specialize (IH true s1 (q_Nak st t q1).2). destruct (drain fs true s1 _) as [g [s2 q2]].
      rewrite nak_keeps, Hk in IH. destruct IH as [?|(t'&f'&j&?&?&?&?)]; [by left|right].
      exists t', f', j. split_and!; [done|by right|done|done].
  - specialize (IH got s q1). destruct (drain fs got s q1) as [g [s2 q2]]. rewrite Hk in IH.
    destruct IH as [?|(t'&f'&j&?&?&?&?)]; [by left|right]. exists t', f', j. split_and!; [done|by right|done|done].
Qed.

(** Whatever fails, a repair job stays in the stream until it has been done. *)
Theorem jobs_stay `{!StreamLaws st} turns s q t f job :
  q_jobs st q !! t = Some (f, job) → q_jobs st (drainJobs turns s q).2 !! t = Some (f, job) ∨ done_once job.
Proof.
  revert s q. induction turns as [|turns IH]; intros s q Ht; [by left|]. cbn [drainJobs].
  pose proof (drain_jobs filters false s q) as Hd. destruct (drain filters false s q) as [g [s1 q1]].
  destruct Hd as [Hd|(t'&f'&j&Hj&_&Hdone&Hd)]; [apply IH; by rewrite Hd|].
  destruct (decide (t' = t)) as [->|Hne]; [right; congruence|]. apply IH. by rewrite Hd, lookup_delete_ne.
Qed.

(** A less urgent job waits for the more urgent ones: it is looked at only when
    none of these can be had, or one of them has failed. *)
Lemma drain_urgent f fs got s q t job q1 s1 :
  q_Fetch st f q = (Some (t, job), q1) → onJob job s = (Ok tt, s1) →
  drain (f :: fs) got s q = (true, (s1, (q_Ack st t q1).2)).
Proof. intros Hf Hj. cbn [drain]. by rewrite Hf, Hj. Qed.
End queue.

(** The jobs of [World] in a list, taken in order: a stream as it is documented. *)
Module ListStream.
Abbreviation queue := (list (nat * (subject * RepairJob))).
Definition fetch (f : subject) (q : queue) : option (nat * RepairJob) * queue :=
  ((λ x, (x.1, x.2.2)) <$> head (filter (λ x, x.2.1 = f) q), q).
Definition stream : Stream (gmap nat (subject * RepairJob)) :=
  MkStream _ (λ f q, ((fetch f (map_to_list q)).1, q)) (λ t q, (true, delete t q)) (λ t q, (true, q)) id.
#[export] Instance laws : StreamLaws stream.
Proof.
  split; try done; [|intros t q; by right]. intros f q t job q'. cbn. unfold fetch. cbn [fst].
  destruct (head _) as [[t' [f' j]]|] eqn:Hh; [|done]. cbn. intros [= -> -> _].
  apply head_Some_elem_of, list_elem_of_filter in Hh as [Hf Hin]. cbn in Hf. subst f'.
  by apply elem_of_map_to_list in Hin.
Qed.
End ListStream.

(** A repair job is named by its chunk and what is left of it: a second loss
    that leaves as much has the id of the first, which the stream takes for a
    duplicate for one minute ([ensureStreams]). *)
Example second_loss_same_id chunk w :
  bus_up (w_bus w) = true → bus_out (w_bus w) = [] →
  let '(_, w1) := PublishRepair (MkRepairJob chunk 15) w in
  let '(_, w2) := PublishRepair (MkRepairJob chunk 15) w1 in
  msg_ID <$> bus_out (w_bus w2) = [IdRepair chunk 15; IdRepair chunk 15].
Proof.
  intros Hup Hout. unfold PublishRepair, publish. cbn. rewrite Hup. cbn. rewrite Hup. cbn. by rewrite Hout.
Qed.
