(* ===== verification/Budget.v ===== *)
(** * The bandwidth budget of the repair worker

    [account] of [src/internal/repair/worker.go]: a bucket of tokens by which the
    worker delays itself after each transfer.  The call lets go of its lock while
    it sleeps, so it is two steps, [account_enter] and [account_wake], between
    which the transfers of other goroutines come. *)

From S2P Require Import Prelude GoFloat.

Record Budget := MkBudget { bd_tok : Z; bd_at : Z }.

(** [Duration.Seconds] *)
Definition Seconds (d : Z) : float :=
  F64.add (F64.of_Z (Z.quot d second)) (F64.div (F64.of_Z (Z.rem d second)) (F64.of_Z second)).

Section budget.
Context (BudgetBps : Z).

Definition refill (now : Z) (w : Budget) : Z :=
  F64.to_int64 (F64.mul (Seconds (now - bd_at w)) (F64.of_Z BudgetBps)).
Definition pause (tok : Z) : Z :=
  F64.to_int64 (F64.mul (F64.div (F64.of_Z (sub64 0 tok)) (F64.of_Z BudgetBps)) (F64.of_Z second)).

(** The first half, up to the sleep if there is one. *)
Definition account_enter (now n : Z) (w : Budget) : option Z * Budget :=
  if (BudgetBps <=? 0) || (n <=? 0) then (None, w)
  else
    let tok := add64 (bd_tok w) (refill now w) in
    let tok := if BudgetBps <? tok then BudgetBps else tok in
    let tok := sub64 tok n in
    (if tok <? 0 then Some (pause tok) else None, MkBudget tok now).
Definition account_wake (now : Z) (w : Budget) : Budget := MkBudget 0 now.

(** Goroutines of one worker: a transfer that ends, or a sleeper that wakes. *)
Inductive moment := Transferred (n : Z) | Woken.
Definition account_step (w : Budget) (m : Z * moment) : Budget :=
  match m.2 with Transferred n => (account_enter m.1 n w).2 | Woken => account_wake m.1 w end.
Definition sent (ms : list (Z * moment)) : Z :=
  sumZ ((λ m, match m.2 with Transferred n => n | Woken => 0 end) <$> ms).

(** A transfer on its own: what the bucket holds pays for it, or the worker sleeps
    and starts with an empty bucket; the bucket never holds more than a second's
    worth. *)
Theorem account_spec now n w :
  0 < BudgetBps < 2^62 → 0 < n < 2^62 → 0 ≤ bd_tok w ≤ BudgetBps → 0 ≤ refill now w < 2^62 →
  let have := Z.min BudgetBps (bd_tok w + refill now w) in
  let '(wait, w') := account_enter now n w in
  bd_at w' = now ∧ bd_tok w' = have - n ∧ (is_Some wait ↔ have < n) ∧
  (wait = None → 0 ≤ bd_tok w' ≤ BudgetBps).
Proof.
  intros Hb Hn Ht Hr have. unfold account_enter.
  replace ((BudgetBps <=? 0) || (n <=? 0)) with false by (symmetry; apply orb_false_iff; lia).
  assert (add64 (bd_tok w) (refill now w) = bd_tok w + refill now w) as -> by (apply wrap_s64_id; unfold int64_range; lia).
  assert ((if BudgetBps <? bd_tok w + refill now w then BudgetBps else bd_tok w + refill now w) = have) as ->
    by (destruct (Z.ltb_spec BudgetBps (bd_tok w + refill now w)); unfold have; lia).
  assert (sub64 have n = have - n) as -> by (apply wrap_s64_id; unfold int64_range, have; lia).
  cbn [bd_at bd_tok]. split_and!; [done|done| |].
  - destruct (Z.ltb_spec (have - n) 0); split; try (intros [? [=]]); intros; try lia; try by eexists.
  - destruct (Z.ltb_spec (have - n) 0); [done|]. unfold have in *. lia.
Qed.
End budget.

(** A hundred bytes a second, and two shards fetched at once: the second sleeps
    until the eleventh second, but the first wakes and empties the bucket of its
    debt, so the others go on at the full rate: twenty-one hundred bytes in
    eleven seconds on a budget of eleven hundred. *)
Example debt_forgotten :
  let others := (λ t, (t * second, Transferred 100)) <$> seqZ 2 10 in
  let ms := [(0, Transferred 100); (0, Transferred 1000); (second, Woken)] ++ others in
  let before k := foldl (account_step 100) (MkBudget 0 0) (take k ms) in
  (account_enter 100 0 100 (before 0%nat)).1 = Some second ∧
  (account_enter 100 0 1000 (before 1%nat)).1 = Some (11 * second) ∧
  (∀ k, (k < 10)%nat → (account_enter 100 (Z.of_nat (2 + k) * second) 100 (before (3 + k)%nat)).1 = None) ∧
  sent ms = 2100.
Proof.
  split; [by vm_compute|]. split; [by vm_compute|]. split; [|by vm_compute].
  intros k Hk. do 10 (destruct k as [|k]; [by vm_compute|]). lia.
Qed.
