(* ===== verification/Transfer.v ===== *)
(** * Putting and getting a file: [src/cmd/dsp/transfer.go]

    The client's side of a transfer.  The gateway's API and the nodes' HTTP API
    are the record [Api] over a state of their own, [W]; a call that answers
    anything but the expected status is an error.  The goroutines of a transfer
    are taken one at a time in an order of their own ([put_order], [get_order]); a fetch that
    [cancel] cuts off is one whose answer comes too late to be read.

    Random bytes, the command's environment and the local files are in [Env]. *)

From S2P Require Import Gateway.
From S2P Require Import Prelude Bytes Sha256 Crypto Pipeline Schema World Files Uploads Wire Metadata.
From S2P Require Import Repair.

(** ** What the client sees of the download plan *)

Record JDownloadFragment := MkJDF {
  jdf_ShardIndex : Z; jdf_FragmentID : uuid; jdf_SHA256 : bytes; jdf_NodeID : uuid;
  jdf_Endpoint : string; jdf_Ticket : bytes }.
Record JDownloadChunk := MkJDC {
  jdc_Seq : Z; jdc_SHA256 : bytes; jdc_SizeBytes : Z; jdc_Fragments : list JDownloadFragment }.
Record JDownload := MkJDownload {
  jd_ContentSHA256 : bytes; jd_EncryptionMeta : bytes; jd_Chunks : list JDownloadChunk }.

(** The metadata service's answer as it is written and read back. *)
Definition downloadJSON (d : DownloadResult) : JDownload :=
  MkJDownload (hex_encode (dl_ContentSHA256 d)) (dl_EncryptionMeta d)
    ((λ ch, MkJDC (dch_Seq ch) (hex_encode (dch_SHA256 ch)) (dch_SizeBytes ch)
        ((λ fr, MkJDF (df_ShardIndex fr) (df_FragmentID fr) (hex_encode (df_SHA256 fr))
                  (df_NodeID fr) (df_Endpoint fr) (df_Ticket fr)) <$> dch_Fragments ch))
     <$> dl_Chunks d).

Inductive cli_error :=
  CliUsage | CliApi | CliIO | CliNotFound | CliHash | CliShards | CliShort | CliPipe (e : pipe_error).

Abbreviation cli W A := (M W cli_error A).

Record Api (W : Type) := MkApi {
  api_upload : JManifest → cli W (uuid * list PlannedPlacement);
  api_commit : uuid → list bytes → cli W Body;
  api_files : uuid → string → cli W (list File);
  api_download : uuid → cli W JDownload;
  api_report : uuid → list bytes → cli W unit;
  api_buckets : cli W (list Bucket);
  putFragment : PlannedPlacement → bytes → cli W bytes;
  getFragment : JDownloadFragment → cli W (bytes * bytes) }.
Arguments api_upload {W}.
Arguments api_commit {W}.
Arguments api_files {W}.
Arguments api_download {W}.
Arguments api_report {W}.
Arguments api_buckets {W}.
Arguments putFragment {W}.
Arguments getFragment {W}.

Record Env := MkEnv {
  env_pass : bytes;                       (* DSP_PASSPHRASE, empty when unset *)
  env_ca : bool;                          (* DSP_CA_FILE can be loaded *)
  env_open : string → option Reader;      (* the local files *)
  env_tmp : option (option nat);          (* a temporary file, with its room *)
  env_dest : string → option (option nat);  (* where a file can be created *)
  env_salt : option bytes; env_key : option bytes;
  env_wrap : option bytes; env_prefix : option bytes;
  env_parse : string → option uuid }.     (* [uuid.Parse] of a bucket argument *)

(** An error of the pipeline ends the command. *)
Definition piped {A} (r : result pipe_error A) : result cli_error A :=
  match r with Ok a => Ok a | Err e => Err (CliPipe e) end.

(** [bucket:path]: the first colon divides, and the path is made absolute. *)
Definition splitRemote (s : string) : result cli_error (string * string) :=
  match String.index 0 ":" s with
  | None | Some O => Err CliUsage
  | Some i =>
      let bucket := String.substring 0 i s in
      let path := String.substring (S i) (String.length s - S i) s in
      Ok (bucket, if String.prefix "/" path then path else String.append "/" path)
  end.

(** ** Preparing an upload *)

Record chunkBuf := MkChunkBuf { cb_info : ChunkInfo; cb_shards : list bytes }.

Section prepare.
Context `{UuidText, Aead, Argon2, MetaJson, ReedSolomon}.

Definition emit_chunk (ci : ChunkInfo) (b : bytes) : M (list chunkBuf) pipe_error unit :=
  shards ← lift (EncodeChunk b);
  modify (λ chunks, chunks ++ [MkChunkBuf ci shards]).

(** The manifest's chunks: every shard under its index, hash and size. *)
Definition man_fragment (i : nat) (sh : bytes) : JFragment :=
  MkJFragment (Z.of_nat i) (hex_encode (sha256 sh)) (Z.of_nat (length sh)).
Definition man_chunk (ch : chunkBuf) : JChunk :=
  MkJChunk (ci_Seq (cb_info ch)) (hex_encode (ci_SHA256 (cb_info ch))) (ci_SizeBytes (cb_info ch))
    (imap man_fragment (cb_shards ch)).

(** From the opened file to the manifest; [size] is the file's [Stat] size. *)
Definition prepare (env : Env) (f : Reader) (size : Z) (bid : uuid) (path : string) :
    result cli_error (JManifest * list chunkBuf) :=
  '(mk, kdf) ← piped (DeriveMasterKey (env_pass env) DefaultKDF (env_salt env));
  fk ← piped (GenerateFileKey (env_key env));
  '(wrapped, wrapNonce) ← piped (WrapFileKey mk fk (env_wrap env));
  room ← of_option CliIO (env_tmp env);
  let '(enc, tmp) := Encrypt f fk (env_prefix env) (MkWriter [] room) in
  '(prefix, _, _, contentSHA) ← piped enc;
  let meta := NewMeta kdf wrapped wrapNonce prefix in
  let metaJSON := MarshalMeta meta in
  let '(split, chunks) := SplitChunks (MkReader (wr_out tmp) false) DefaultChunk emit_chunk [] in
  piped split ≫= λ _,
  Ok (MkJManifest (uuid_String bid) path size (hex_encode contentSHA) metaJSON DefaultChunk
        (Z.of_nat ECData) (Z.of_nat ECParity) (man_chunk <$> chunks), chunks).
End prepare.

(** The shard a placement asks for; nothing when there is none. *)
Definition shard_for (chunks : list chunkBuf) (p : PlannedPlacement) : bytes :=
  default [] (ch ← List.find (λ ch, ci_Seq (cb_info ch) =? pp_ChunkSeq p) (rev chunks);
              if pp_ShardIndex p <? 0 then None else cb_shards ch !! Z.to_nat (pp_ShardIndex p)).

Section transfer.
Context {W : Type} `{UuidText, Aead, Argon2, MetaJson, ReedSolomon} (api : Api W) (env : Env).

Definition resolveBucket (name : string) : cli W uuid :=
  match env_parse env name with
  | Some id => mret id
  | None =>
      buckets ← api_buckets api;
      lift (of_option CliNotFound (b_ID <$> List.find (λ b, bool_decide (b_Name b = name)) buckets))
  end.

(** ** Putting *)

(** The receipts so far, and how many fragments of each chunk are stored. *)
Definition put_one (chunks : list chunkBuf) (acc : list bytes * gmap Z Z) (p : PlannedPlacement) :
    cli W (list bytes * gmap Z Z) :=
  r ← attempt (putFragment api p (shard_for chunks p));
  let '(receipts, okPerChunk) := acc in
  mret (match r with
        | Ok rec => (receipts ++ [rec],
                     <[pp_ChunkSeq p := default 0 (okPerChunk !! pp_ChunkSeq p) + 1]> okPerChunk)
        | Err _ => acc
        end).

Definition stored_ok (okPerChunk : gmap Z Z) (ch : chunkBuf) : bool :=
  Z.of_nat CommitThreshold <=? default 0 (okPerChunk !! ci_Seq (cb_info ch)).

Context (put_order : list PlannedPlacement → list PlannedPlacement)
  (get_order : list JDownloadFragment → list JDownloadFragment).

(** What it prints is the answer to the commit. *)
Definition cmdPut (args : list string) : cli W Body :=
  match args with
  | local :: remote :: _ =>
      '(bucket, path) ← lift (splitRemote remote);
      guard_err (bool_decide (env_pass env = [])) CliUsage ≫= λ _,
      bid ← resolveBucket bucket;
      f ← lift (of_option CliIO (env_open env local));
      '(body, chunks) ← lift (prepare env f (Z.of_nat (length (rd_data f))) bid path);
      '(upload, placements) ← api_upload api body;
      guard_err (negb (env_ca env)) CliIO ≫= λ _,
      '(receipts, okPerChunk) ← for_fold (put_one chunks) ([], ∅) (put_order placements);
      guard_err (negb (forallb (stored_ok okPerChunk) chunks)) CliShort ≫= λ _,
      api_commit api upload receipts
  | _ => throw CliUsage
  end.

(** ** Getting *)

(** A fetch counts when the bytes have the hash the plan gives. *)
Definition fetch_one (hits : list (Z * bytes * bytes)) (fr : JDownloadFragment) :
    cli W (list (Z * bytes * bytes)) :=
  r ← attempt (getFragment api fr);
  mret (match r with
        | Ok (data, rec) =>
            if bool_decide (hex_decode (jdf_SHA256 fr) = Some (sha256 data))
            then hits ++ [(jdf_ShardIndex fr, data, rec)] else hits
        | Err _ => hits
        end).

(** The receiving loop: it stops at ten filled slots. *)
Fixpoint receive (got : nat) (shards : list (option bytes)) (recs : list bytes)
    (hits : list (Z * bytes * bytes)) : nat * list (option bytes) * list bytes :=
  match hits with
  | [] => (got, shards, recs)
  | (idx, data, rec) :: hits =>
      if (idx <? 0) || (Z.of_nat ECTotal <=? idx) then receive got shards recs hits
      else match shards !! Z.to_nat idx with
           | Some None =>
               let shards := <[Z.to_nat idx := Some data]> shards in
               let recs := if bool_decide (rec = []) then recs else recs ++ [rec] in
               if (ECData <=? S got)%nat then (S got, shards, recs)
               else receive (S got) shards recs hits
           | _ => receive got shards recs hits
           end
  end.

Definition fetchChunk (ch : JDownloadChunk) : cli W (bytes * list bytes) :=
  guard_err (bool_decide (jdc_Fragments ch = [])) CliShards ≫= λ _,
  hits ← for_fold fetch_one [] (get_order (jdc_Fragments ch));
  let '(got, shards, recs) := receive 0 (replicate ECTotal None) [] hits in
  guard_err (got <? ECData)%nat CliShards ≫= λ _,
  chunk ← lift (piped (ReconstructChunk shards (jdc_SizeBytes ch)));
  guard_err (negb (bool_decide (hex_decode (jdc_SHA256 ch) = Some (sha256 chunk)))) CliHash ≫= λ _,
  mret (chunk, recs).

Definition get_chunk (acc : bytes * list bytes) (ch : JDownloadChunk) : cli W (bytes * list bytes) :=
  '(chunk, recs) ← fetchChunk ch;
  mret (acc.1 ++ chunk, acc.2 ++ recs).

(** The file at [path]; its id is not the zero UUID. *)
Definition find_file (path : string) (files : list File) : option uuid :=
  f ← List.find (λ f, bool_decide (f_Path f = path) && negb (f_IsFolder f)) files;
  if bool_decide (f_ID f = Uuid 0) then None else Some (f_ID f).

(** What is written to the destination, when it was created, and how the
    command ended. *)
Definition cmdGet (args : list string) : cli W (option bytes * result cli_error unit) :=
  match args with
  | remote :: dest :: _ =>
      '(bucket, path) ← lift (splitRemote remote);
      guard_err (bool_decide (env_pass env = [])) CliUsage ≫= λ _,
      bid ← resolveBucket bucket;
      files ← api_files api bid path;
      file ← lift (of_option CliNotFound (find_file path files));
      dl ← api_download api file;
      guard_err (negb (env_ca env)) CliIO ≫= λ _,
      '(cipher, egress) ← for_fold get_chunk ([], []) (jd_Chunks dl);
      guard_err (negb (bool_decide (sha256 cipher = (hex_decode_prefix (jd_ContentSHA256 dl)).1)))
        CliHash ≫= λ _,
      em ← lift (piped (UnmarshalMeta (jd_EncryptionMeta dl)));
      fk ← lift (piped (UnlockFK (env_pass env) em (env_salt env)));
      room ← lift (of_option CliIO (env_dest env dest));
      let '(r, out) := Decrypt (MkReader cipher false) fk (em_NoncePrefix em) (MkWriter [] room) in
      match r with
      | Err e => mret (Some (wr_out out), Err (CliPipe e))
      | Ok _ =>
          (if bool_decide (egress = []) then mret tt else ignore_err (api_report api file egress)) ≫= λ _,
          mret (Some (wr_out out), Ok tt)
      end
  | _ => throw CliUsage
  end.
End transfer.

(** ** What an upload is made of *)

(** The chunks cut from [c], each with its shards. *)
Definition cut `{ReedSolomon} (c : bytes) (chunks : list chunkBuf) : Prop :=
  Forall2 (λ x ch, cb_info ch = x.1 ∧ EncodeChunk x.2 = Ok (cb_shards ch))
    (numbered 0 (chunk_list (Z.to_nat DefaultChunk) c)) chunks.

Lemma emit_all `{ReedSolomon} xs done u chunks :
  for_each (λ x, emit_chunk x.1 x.2) xs done = (Ok u, chunks) →
  ∃ new, chunks = done ++ new ∧
    Forall2 (λ x ch, cb_info ch = x.1 ∧ EncodeChunk x.2 = Ok (cb_shards ch)) xs new.
Proof.
  revert done. induction xs as [|[ci b] xs IH]; intros done; cbn [for_each].
  - intros [= _ <-]. exists []. by rewrite app_nil_r.
  - intros (?&s1&Hx&Hr)%bind_ok. unfold emit_chunk in Hx. cbn [fst snd] in Hx.
    destruct (EncodeChunk b) as [shards|] eqn:Hs; [|done]. cbn in Hx. injection Hx as _ <-.
    apply IH in Hr as (new&->&Hf).
    exists (MkChunkBuf ci shards :: new). rewrite <- app_assoc. split; [done|]. by constructor.
Qed.

Section put.
Context `{UuidTextLaws, AeadLaws, Argon2Laws, MetaJsonLaws, ReedSolomonLaws}.

(** The manifest of an upload of [data] under [bid] and [path]. *)
Definition uploads (pass : bytes) (data : bytes) (size : Z) (bid : uuid) (path : string)
    (jm : JManifest) (chunks : list chunkBuf) : Prop :=
  ∃ fk prefix em, let c := ciphertext fk prefix data in
    length fk = 32%nat ∧ length prefix = 4%nat ∧ cut c chunks ∧
    UnmarshalMeta (jm_EncryptionMeta jm) = Ok em ∧ em_NoncePrefix em = prefix ∧
    (∀ e, UnlockFK pass em e = Ok fk) ∧
    jm = MkJManifest (uuid_String bid) path size (hex_encode (sha256 c)) (jm_EncryptionMeta jm)
           DefaultChunk 10 6 (man_chunk <$> chunks).

Lemma prepare_uploads env f size bid path jm chunks :
  prepare env f size bid path = Ok (jm, chunks) →
  rd_fails f = false ∧ uploads (env_pass env) (rd_data f) size bid path jm chunks.
Proof.
  unfold prepare. destruct (DeriveMasterKey _ _ _) as [[mk kdf]|] eqn:Hmk; [|done].
  cbn [piped mbind result_bind]. destruct (GenerateFileKey _) as [fk|]; [|done].
  cbn [piped mbind result_bind]. destruct (WrapFileKey _ _ _) as [[wrapped nonce]|] eqn:Hw; [|done].
  cbn [piped mbind result_bind]. destruct (env_tmp env) as [room|]; [|done].
  cbn [of_option mbind result_bind].
  destruct (Encrypt _ _ _ _) as [[[[[prefix ps] cs] sum]|] tmp] eqn:He; [|done].
  apply Encrypt_ok in He as (Hfk&Hp&Hf&Hout&->&_&_). cbn [piped mbind result_bind wr_out app] in *.
  rewrite SplitChunks_run by done. rewrite Hout.
  destruct (for_each _ _ _) as [[u|] new] eqn:Hs; [|done]. cbn [piped mbind result_bind].
  intros [= <- <-]. split; [done|].
  apply emit_all in Hs as (new'&->&Hcut).
  exists fk, prefix, (NewMeta kdf wrapped nonce prefix). split_and!; try done.
  - unfold UnmarshalMeta, MarshalMeta. cbn [jm_EncryptionMeta]. rewrite unmarshal_marshal.
    cbn [of_option mbind result_bind NewMeta em_Algo em_Wrap em_NoncePrefix].
    rewrite !bool_decide_eq_true_2 by done. by rewrite Hp.
  - intros e. by eapply UnlockFK_wrapped.
Qed.

(** What the metadata service stores for a chunk and for its [i]-th shard. *)
Definition man_entry (ch : chunkBuf) : ManifestChunk :=
  MkManifestChunk (ci_Seq (cb_info ch)) (ci_SizeBytes (cb_info ch)) (ci_SHA256 (cb_info ch))
    (imap (λ i sh, MkManifestFragment (Z.of_nat i) (Z.of_nat (length sh)) (sha256 sh))
       (cb_shards ch)).

Lemma decode_man_chunk ch :
  (length (cb_shards ch) ≤ ECTotal)%nat → decode_chunk (man_chunk ch) = Some (man_entry ch).
Proof.
  intros Hl. unfold decode_chunk, man_chunk. cbn [jc_SHA256 jc_Fragments jc_Seq jc_SizeBytes].
  rewrite hex_decode_encode. cbn [mbind option_bind].
  assert (mapM decode_fragment (imap man_fragment (cb_shards ch)) =
    Some (imap (λ i sh, MkManifestFragment (Z.of_nat i) (Z.of_nat (length sh)) (sha256 sh))
            (cb_shards ch))) as ->; [|done].
  apply mapM_Some, Forall2_same_length_lookup_2; [by rewrite !length_imap|].
  intros i jf mf. rewrite !list_lookup_imap.
  destruct (cb_shards ch !! i) as [sh|] eqn:Hi; [|done]. intros [= <-] [= <-].
  unfold decode_fragment, man_fragment. cbn. rewrite hex_decode_encode. cbn.
  apply lookup_lt_Some in Hi. rewrite wrap_s16_small; [done|].
  unfold ECTotal, ECData, ECParity in Hl. lia.
Qed.

Lemma cut_shards c chunks ch :
  cut c chunks → ch ∈ chunks →
  ∃ i b, chunk_list (Z.to_nat DefaultChunk) c !! i = Some b ∧ cb_info ch = chunk_info (Z.of_nat i) b ∧
    EncodeChunk b = Ok (cb_shards ch) ∧ length (cb_shards ch) = ECTotal.
Proof.
  intros Hcut [i Hi]%list_elem_of_lookup. eapply Forall2_lookup_r in Hcut as (x&Hx&Hinfo&He); [|done].
  unfold numbered in Hx. rewrite list_lookup_imap in Hx.
  apply fmap_Some in Hx as (b&Hb&->). exists i, b.
  split_and!; try done. by apply EncodeChunk_shards in He as [? _].
Qed.

(** What [dsp put] sends describes what it encrypted: the metadata service
    receives, through the gateway, a manifest with the hash of the ciphertext of
    the whole file, 10+6 coding, a chunk size that is not zero, and for every
    chunk, in order, its size and hash and the index, size and hash of each of
    its 16 shards; the chunks make up the ciphertext, and the passphrase
    recovers the file key from the metadata record. *)
Theorem put_manifest env f size bid path jm chunks :
  uuid_wf bid → prepare env f size bid path = Ok (jm, chunks) →
  ∃ fk prefix em, let c := ciphertext fk prefix (rd_data f) in
    relay (Some jm) = Some (MkManifest bid path size (sha256 c) (jm_EncryptionMeta jm)
                              DefaultChunk 10 6 (man_entry <$> chunks)) ∧
    concat (chunk_list (Z.to_nat DefaultChunk) c) = c ∧ chunks ≠ [] ∧ cut c chunks ∧
    (∀ ch, ch ∈ chunks → length (cb_shards ch) = 16%nat) ∧
    UnmarshalMeta (jm_EncryptionMeta jm) = Ok em ∧ em_NoncePrefix em = prefix ∧
    ∀ e, UnlockFK (env_pass env) em e = Ok fk.
Proof.
  intros Hbid (_&fk&prefix&em&Hfk&Hp&Hcut&Hem&Hpre&Hun&Hjm)%prepare_uploads.
  exists fk, prefix, em. set (c := ciphertext fk prefix (rd_data f)) in *. intros c'.
  assert (∀ ch, ch ∈ chunks → length (cb_shards ch) = ECTotal) as Hlen.
  { intros ch Hch. by destruct (cut_shards c chunks ch Hcut Hch) as (?&?&_&_&_&?). }
  assert (decodeUploadManifest (Some jm) = Some (MkManifest bid path size (sha256 c)
    (jm_EncryptionMeta jm) DefaultChunk 10 6 (man_entry <$> chunks))) as Hdec.
  { rewrite Hjm. unfold decodeUploadManifest. cbn -[wrap_s16 DefaultChunk].
    rewrite uuid_Parse_String by done. cbn -[wrap_s16 DefaultChunk].
    rewrite hex_decode_encode. cbn -[wrap_s16 DefaultChunk].
    assert (mapM decode_chunk (man_chunk <$> chunks) = Some (man_entry <$> chunks)) as ->; [|done].
    apply mapM_Some, Forall2_fmap, Forall_Forall2_diag, Forall_forall. intros ch Hch.
    apply decode_man_chunk. by rewrite Hlen. }
  destruct (chunk_list_concat (Z.to_nat DefaultChunk) c) as [Hcc Hne]; [unfold DefaultChunk; lia|].
  split_and!; try done.
  - unfold relay. rewrite Hdec. cbn [mbind option_bind].
    apply decodeUploadManifest_ranges in Hdec as (?&?&_). by apply decodeManifest_json.
  - intros ->. apply Forall2_nil_inv_r in Hcut. unfold numbered in Hcut.
    by destruct (chunk_list _ c).
Qed.
End put.

(** ** Putting the fragments *)

Section puts.
Context {W : Type} (api : Api W) (chunks : list chunkBuf).

(** The puts of [ps], one after the other, and how each ended. *)
Inductive sent : list PlannedPlacement → list (result cli_error bytes) → W → W → Prop :=
  | sent_nil w : sent [] [] w w
  | sent_cons p ps r rs w w1 w2 :
      putFragment api p (shard_for chunks p) w = (r, w1) → sent ps rs w1 w2 →
      sent (p :: ps) (r :: rs) w w2.

(** The receipts, in the order they came. *)
Definition taken (rs : list (result cli_error bytes)) : list bytes :=
  omap (λ r, match r with Ok rec => Some rec | Err _ => None end) rs.

(** How many fragments of chunk [seq] a node took. *)
Definition stored_of (seq : Z) (ps : list PlannedPlacement) (rs : list (result cli_error bytes)) : nat :=
  count_where (λ x, (pp_ChunkSeq x.1 =? seq) && is_ok x.2) (zip ps rs).

Lemma sent_exists ps w : ∃ rs w', sent ps rs w w'.
Proof.
  revert w. induction ps as [|p ps IH]; intros w; [eexists _, _; constructor|].
  destruct (putFragment api p (shard_for chunks p) w) as [r w1] eqn:Hp.
  destruct (IH w1) as (rs&w2&?). exists (r :: rs), w2. by econstructor.
Qed.

Lemma put_one_run receipts m p w r w1 :
  putFragment api p (shard_for chunks p) w = (r, w1) →
  put_one api chunks (receipts, m) p w =
    (Ok (match r with
         | Ok rec => (receipts ++ [rec], <[pp_ChunkSeq p := default 0 (m !! pp_ChunkSeq p) + 1]> m)
         | Err _ => (receipts, m)
         end), w1).
Proof. intros Hp. unfold put_one, attempt, mbind, M_bind. by rewrite Hp. Qed.

Lemma put_all ps rs w w' receipts m :
  sent ps rs w w' →
  ∃ m', for_fold (put_one api chunks) (receipts, m) ps w = (Ok (receipts ++ taken rs, m'), w') ∧
    ∀ seq, default 0 (m' !! seq) = default 0 (m !! seq) + Z.of_nat (stored_of seq ps rs).
Proof.
  intros Hs. revert receipts m. induction Hs as [w|p ps r rs w w1 w2 Hp Hs IH]; intros receipts m.
  { exists m. cbn. rewrite app_nil_r. split; [done|]. intros seq. lia. }
  cbn [for_fold]. rewrite (bind_run _ _ _ _ _ (put_one_run receipts m p w r w1 Hp)).
  destruct r as [rec|e]; cbn [taken omap list_omap].
  - destruct (IH (receipts ++ [rec]) (<[pp_ChunkSeq p := default 0 (m !! pp_ChunkSeq p) + 1]> m))
      as (m'&Hrun&Hm). exists m'. rewrite <- app_assoc in Hrun. split; [exact Hrun|].
    intros seq. rewrite Hm. unfold stored_of. cbn [zip_with]. rewrite count_where_cons. cbn [fst snd is_ok].
    destruct (Z.eqb_spec (pp_ChunkSeq p) seq) as [<-|Hne]; cbn [andb].
    + rewrite lookup_insert_eq. cbn [default from_option id]. lia.
    + by rewrite lookup_insert_ne by done.
  - destruct (IH receipts m) as (m'&Hrun&Hm). exists m'. split; [exact Hrun|].
    intros seq. rewrite Hm. unfold stored_of. cbn [zip_with]. rewrite count_where_cons. cbn [fst snd is_ok].
    by rewrite andb_false_r.
Qed.
End puts.

(** C33: [dsp put] commits an upload only when every chunk has at least 14 of
    its fragments taken by their nodes, and then with exactly the receipts they
    gave; otherwise it fails after the puts and the commit is never sent.  Every
    placement of the plan is tried once, in whatever order. *)
Theorem cmdPut_commits {W} `{UuidText, Aead, Argon2, MetaJson, ReedSolomon} (api : Api W) env put_order
    local remote bucket path bid f body chunks upload placements w w1 :
  splitRemote remote = Ok (bucket, path) → env_pass env ≠ [] → env_parse env bucket = Some bid →
  env_open env local = Some f → env_ca env = true → (∀ ps, put_order ps ≡ₚ ps) →
  prepare env f (Z.of_nat (length (rd_data f))) bid path = Ok (body, chunks) →
  api_upload api body w = (Ok (upload, placements), w1) →
  ∃ ps rs w2, ps ≡ₚ placements ∧ length rs = length ps ∧ sent api chunks ps rs w1 w2 ∧
    cmdPut api env put_order [local; remote] w =
      if forallb (λ ch, (CommitThreshold <=? stored_of (ci_Seq (cb_info ch)) ps rs)%nat) chunks
      then api_commit api upload (taken rs) w2
      else (Err CliShort, w2).
Proof.
  intros Hr Hpass Hbid Hopen Hca Hperm Hprep Hup.
  destruct (sent_exists api chunks (put_order placements) w1) as (rs&w2&Hs).
  exists (put_order placements), rs, w2. split_and!; [done| |done|].
  { clear -Hs. by induction Hs; cbn; congruence. }
  unfold cmdPut. rewrite Hr, (bind_run (lift _) _ w (bucket, path) w) by done.
  rewrite bool_decide_eq_false_2 by done. unfold guard_err. rewrite ret_bind.
  unfold resolveBucket. rewrite Hbid, ret_bind, Hopen.
  rewrite (bind_run (lift _) _ w f w) by done.
  rewrite Hprep. rewrite (bind_run (lift _) _ w (body, chunks) w) by done.
  rewrite (bind_run (api_upload api body) _ w _ w1 Hup), Hca. cbn [negb]. rewrite ret_bind.
  destruct (put_all api chunks _ _ _ _ [] ∅ Hs) as (m&Hrun&Hm). cbn [app] in Hrun.
  rewrite (bind_run _ _ _ _ _ Hrun).
  assert (forallb (stored_ok m) chunks = forallb (λ ch,
    (CommitThreshold <=? stored_of (ci_Seq (cb_info ch)) (put_order placements) rs)%nat) chunks) as ->.
  { clear -Hm. induction chunks as [|ch chs IH]; [done|]. cbn [forallb]. rewrite IH. f_equal. unfold stored_ok. rewrite Hm, lookup_empty. cbn [default from_option].
    apply eq_true_iff_eq. rewrite Z.leb_le, Nat.leb_le. lia. }
  by destruct (forallb _ chunks).
Qed.

(** ** Getting the chunks *)

Section gets.
Context {W : Type} (api : Api W) (get_order : list JDownloadFragment → list JDownloadFragment)
  (Hperm : ∀ frs, get_order frs ≡ₚ frs).

(** The fetches of [frs], one after the other: what was answered for which. *)
Abbreviation run := (list (JDownloadFragment * bytes)).
Fixpoint fetch_run (frs : list JDownloadFragment) (w : W) : run * W :=
  match frs with
  | [] => ([], w)
  | fr :: frs =>
      let '(r, w1) := getFragment api fr w in
      let '(answers, w2) := fetch_run frs w1 in
      (match r with Ok (data, _) => (fr, data) :: answers | Err _ => answers end, w2)
  end.

Lemma fetch_run_from frs w fr d : (fr, d) ∈ (fetch_run frs w).1 → fr ∈ frs.
Proof.
  revert w. induction frs as [|x frs IH]; intros w; cbn [fetch_run]; [by intros ?%not_elem_of_nil|].
  destruct (getFragment api x w) as [r w1]. specialize (IH w1). destruct (fetch_run frs w1) as [l w2]. cbn [fst] in *.
  destruct r as [[data rec]|e]; [|intros ?; right; auto].
  intros [[= -> ->]|?]%elem_of_cons; [by left|right; auto].
Qed.

Lemma receive_collect got shards recs hits :
  let '(got', shards', _) := receive got shards recs hits in
  collect got shards (fst <$> hits) = (got', shards').
Proof.
  revert got shards recs. induction hits as [|[[idx data] rec] hits IH]; intros got shards recs; [done|].
  cbn [receive fmap list_fmap collect fst]. case_if; [apply IH|].
  destruct (shards !! Z.to_nat idx) as [[x|]|]; [apply IH| |apply IH].
  destruct (ECData <=? S got)%nat; [done|apply IH].
Qed.

Definition matching (fr : JDownloadFragment) (data : bytes) : Prop :=
  hex_decode (jdf_SHA256 fr) = Some (sha256 data).

Lemma fetch_all frs hits w :
  ∃ hits', for_fold (fetch_one api) hits frs w = (Ok (hits ++ hits'), (fetch_run frs w).2) ∧
    (∀ i d rec, (i, d, rec) ∈ hits' →
       ∃ fr, (fr, d) ∈ (fetch_run frs w).1 ∧ jdf_ShardIndex fr = i ∧ matching fr d) ∧
    (∀ fr d, (fr, d) ∈ (fetch_run frs w).1 → matching fr d → ∃ rec, (jdf_ShardIndex fr, d, rec) ∈ hits').
Proof.
  revert hits w. induction frs as [|fr frs IH]; intros hits w; cbn [for_fold fetch_run].
  { exists []. rewrite app_nil_r. split_and!; [done|by intros ??? ?%not_elem_of_nil|by intros ?? ?%not_elem_of_nil]. }
  destruct (getFragment api fr w) as [r w1] eqn:Hg.
  set (new := match r with
              | Ok (d, rec) => if bool_decide (hex_decode (jdf_SHA256 fr) = Some (sha256 d))
                               then [(jdf_ShardIndex fr, d, rec)] else []
              | Err _ => [] end).
  assert (fetch_one api hits fr w = (Ok (hits ++ new), w1)) as Hf.
  { unfold fetch_one, attempt, mbind, M_bind, new. rewrite Hg. destruct r as [[d rec]|e]; cbn [mret M_ret].
    - case_bool_decide; by rewrite ?app_nil_r.
    - by rewrite app_nil_r. }
  rewrite (bind_run _ _ _ _ _ Hf). destruct (IH (hits ++ new) w1) as (hits'&Hrun&H1&H2).
  destruct (fetch_run frs w1) as [l w2]. cbn [fst snd] in *.
  exists (new ++ hits'). rewrite <- app_assoc in Hrun. split_and!; [done|..].
  - intros i d rec [Hx|Hx]%elem_of_app.
    + unfold new in Hx. destruct r as [[d' rec']|e]; [|by apply not_elem_of_nil in Hx].
      case_bool_decide as Hm; [|by apply not_elem_of_nil in Hx].
      apply list_elem_of_singleton in Hx as [= -> -> ->]. exists fr. split_and!; [by left|done..].
    + apply H1 in Hx as (fr'&?&?). exists fr'. split; [|done]. destruct r as [[]|]; [by right|done].
  - intros fr' d Hin Hm. destruct r as [[d' rec']|e].
    + apply elem_of_cons in Hin as [[= -> ->]|Hin].
      * exists rec'. apply elem_of_app. left. unfold new. rewrite bool_decide_eq_true_2 by done. left.
      * destruct (H2 fr' d Hin Hm) as [rec ?]. exists rec. apply elem_of_app. by right.
    + destruct (H2 fr' d Hin Hm) as [rec ?]. exists rec. apply elem_of_app. by right.
Qed.

(** A chunk's entry in a download plan: the chunk's size and hash, and
    fragments that are shards of it. *)
Definition entry_of `{ReedSolomon} (chunk : bytes) (shards : list bytes) (ch : JDownloadChunk) : Prop :=
  EncodeChunk chunk = Ok shards ∧ jdc_SHA256 ch = hex_encode (sha256 chunk) ∧
  jdc_SizeBytes ch = Z.of_nat (length chunk) ∧
  ∀ fr, fr ∈ jdc_Fragments ch → 0 ≤ jdf_ShardIndex fr ∧
    ∃ sh, shards !! Z.to_nat (jdf_ShardIndex fr) = Some sh ∧ jdf_SHA256 fr = hex_encode (sha256 sh).

(** No answer is other bytes with the hash of the shard that was asked for. *)
Definition unforged (shards : list bytes) (answers : run) : Prop :=
  ∀ fr d sh, (fr, d) ∈ answers →
    shards !! Z.to_nat (jdf_ShardIndex fr) = Some sh → sha256 d = sha256 sh → d = sh.

(** Ten different shards are answered. *)
Definition reachable (shards : list bytes) (answers : run) : Prop :=
  ∃ frs, NoDup (jdf_ShardIndex <$> frs) ∧ (ECData ≤ length frs)%nat ∧
    ∀ fr, fr ∈ frs → ∃ sh, shards !! Z.to_nat (jdf_ShardIndex fr) = Some sh ∧ (fr, sh) ∈ answers.

(** The answers for a chunk, and for the chunks of a download. *)
Definition chunk_run (ch : JDownloadChunk) (w : W) : run * W := fetch_run (get_order (jdc_Fragments ch)) w.
Fixpoint chunk_runs (chs : list JDownloadChunk) (w : W) : list run :=
  match chs with
  | [] => []
  | ch :: chs => let '(answers, w1) := chunk_run ch w in answers :: chunk_runs chs w1
  end.

Context `{ReedSolomonLaws}.

Lemma fetchChunk_hash ch chunk recs w w' :
  fetchChunk api get_order ch w = (Ok (chunk, recs), w') →
  hex_decode (jdc_SHA256 ch) = Some (sha256 chunk).
Proof.
  unfold fetchChunk. intros (_&w1&_&(hits&w2&_&Hr)%bind_ok)%bind_ok.
  destruct (receive _ _ _ _) as [[got shards] recs'].
  apply bind_ok in Hr as (_&w3&_&(c&w4&_&([]&w5&Hg&Hret)%bind_ok)%bind_ok).
  apply guard_ok in Hg as [Hg _]. injection Hret as <- _ _.
  by apply negb_false_iff, bool_decide_eq_true in Hg.
Qed.

Lemma fetchChunk_entry chunk shards ch w :
  entry_of chunk shards ch → unforged shards (chunk_run ch w).1 →
  ∃ r w', fetchChunk api get_order ch w = (r, w') ∧
    (r = Err CliShards ∨ ∃ recs, r = Ok (chunk, recs) ∧ w' = (chunk_run ch w).2) ∧
    (reachable shards (chunk_run ch w).1 → is_ok r = true).
Proof.
  intros (Henc&Hsha&Hsize&Hfrs) Hforge. apply EncodeChunk_shards in Henc as Hl. destruct Hl as [Hl _].
  unfold chunk_run in *. assert (∀ fr d, (fr, d) ∈ (fetch_run (get_order (jdc_Fragments ch)) w).1 →
    fr ∈ jdc_Fragments ch) as Hfrom by (intros fr d Hin%fetch_run_from; by rewrite Hperm in Hin).
  unfold fetchChunk. case_bool_decide as Hnil.
  { exists (Err CliShards), w. split_and!; [done|by left|]. intros (frs&_&Hlen&Hin).
    destruct frs as [|fr frs]; [simpl in Hlen; unfold ECData in Hlen; lia|].
    destruct (Hin fr) as (sh&_&Hx); [by left|]. apply Hfrom in Hx. rewrite Hnil in Hx. by apply not_elem_of_nil in Hx. }
  unfold guard_err. rewrite ret_bind.
  destruct (fetch_all (get_order (jdc_Fragments ch)) [] w) as (hits&Hrun&Hin&Hserved).
  rewrite (bind_run _ _ _ _ _ Hrun). cbn [app]. destruct (fetch_run _ w) as [answers w1]. cbn [fst snd] in *.
  pose proof (receive_collect 0 (replicate ECTotal None) [] hits) as Hc.
  destruct (receive _ _ _ _) as [[got work] recs].
  pose proof (collect_spec (λ i d, shards !! Z.to_nat i = Some d) (fst <$> hits) (replicate ECTotal None) 0)
    as Hs. rewrite Hc in Hs. destruct empty_slots as [Hp0 Hn0].
  destruct Hs as (->&Hlen&_&Hok&_&Hall).
  { intros i d ([[i' d'] rec]&[= -> ->]&Hx)%list_elem_of_fmap.
    apply Hin in Hx as (fr&Hfr&<-&Hm).
    destruct (Hfrs fr (Hfrom _ _ Hfr)) as (Hge&sh&Hsh&Hx). unfold matching in Hm. rewrite Hx, hex_decode_encode in Hm.
    apply (inj Some) in Hm. rewrite Hsh. f_equal. symmetry. exact (Hforge fr d' sh Hfr Hsh (eq_sym Hm)). }
  { intros i d Hi. by apply Hn0 in Hi. }
  { done. }
  { done. }
  { unfold ECData. lia. }
  destruct (Nat.ltb_spec (present work) ECData) as [Hlt|Hge].
  - exists (Err CliShards), w1. split_and!; [done|by left|]. intros (frs&Hnd&Hten&Hserve).
    exfalso. specialize (Hall Hlt). assert (length (jdf_ShardIndex <$> frs) ≤ present work)%nat as Hle.
    { apply present_indices; [done|]. intros i (fr&->&Hfr)%list_elem_of_fmap.
      destruct (Hserve fr Hfr) as (sh&Hsh&Hans).
      destruct (Hfrs fr (Hfrom _ _ Hans)) as (Hge0&sh'&Hsh'&Hx). split; [done|].
      rewrite Hsh in Hsh'. injection Hsh' as <-.
      destruct (Hserved fr sh Hans) as [rec Hrec]; [unfold matching; by rewrite Hx, hex_decode_encode|].
      apply (Hall _ sh); [apply list_elem_of_fmap; by exists (jdf_ShardIndex fr, sh, rec)|].
      apply lookup_lt_Some in Hsh. rewrite Hl in Hsh. lia. }
    rewrite length_fmap in Hle. lia.
  - rewrite ret_bind. rewrite Hsize, (ReconstructChunk_rebuilds chunk shards) by
      (done || (split; [done|]; intros i d Hi; by rewrite <- (Nat2Z.id i); apply Hok)).
    cbn [piped]. rewrite (bind_run (lift _) _ w1 chunk w1) by done.
    rewrite Hsha, hex_decode_encode, bool_decide_eq_true_2 by done. cbn [negb]. rewrite ret_bind.
    eexists _, w1. split_and!; [done|right; by eexists|done].
Qed.

Lemma get_chunk_run acc ch w :
  get_chunk api get_order acc ch w =
  match fetchChunk api get_order ch w with
  | (Ok (chunk, recs), w1) => (Ok (acc.1 ++ chunk, acc.2 ++ recs), w1)
  | (Err e, w1) => (Err e, w1)
  end.
Proof. unfold get_chunk, mbind, M_bind. by destruct (fetchChunk _ _ _ _) as [[[]|] ?]. Qed.

(** All the chunks of a plan. *)
Lemma get_chunks plan dchs (acc : bytes * list bytes) w :
  Forall2 (λ x ch, entry_of x.1 x.2 ch) plan dchs →
  Forall2 unforged plan.*2 (chunk_runs dchs w) →
  ∃ r w', for_fold (get_chunk api get_order) acc dchs w = (r, w') ∧
    (r = Err CliShards ∨ ∃ egress, r = Ok (acc.1 ++ concat plan.*1, egress)) ∧
    (Forall2 reachable plan.*2 (chunk_runs dchs w) → is_ok r = true).
Proof.
  intros Hf. revert acc w. induction Hf as [|[c shards] ch plan dchs He Hf IH]; intros acc w Hu.
  { eexists _, w. split_and!; [done|right; exists acc.2|done]. cbn. rewrite app_nil_r. by destruct acc. }
  cbn [fmap list_fmap chunk_runs] in *. pose proof (fetchChunk_entry c shards ch w He) as Hent.
  destruct (chunk_run ch w) as [answers w1] eqn:Hr. cbn [fst snd] in *.
  inversion Hu as [|? ? ? ? Hu1 Hu2]; subst. specialize (Hent Hu1).
  cbn [for_fold]. pose proof (get_chunk_run acc ch w) as Hget. unfold mbind, M_bind.
  destruct Hent as (r&w'&Hrun&[->|(recs&->&->)]&Hreach); rewrite Hrun in Hget; rewrite Hget.
  - eexists _, w'. split_and!; [done|by left|]. intros Hall. inversion Hall; subst. by apply Hreach.
  - destruct (IH (acc.1 ++ c, acc.2 ++ recs) w1 Hu2) as (r2&w2&Hrun2&Hr2&Hall2).
    exists r2, w2. split_and!; [done| |].
    + cbn [fmap list_fmap concat fst] in *. by rewrite <- app_assoc in Hr2.
    + intros Hall. inversion Hall; subst. by apply Hall2.
Qed.
End gets.

(** Fetching a chunk never returns bytes that do not have the planned hash.
    For a chunk of the network whose fragments are listed under their own
    hashes, and whatever order the answers come in, it returns the chunk, or
    reports too few shards, and the latter only when fewer than ten different
    shards are served. *)
Theorem fetchChunk_spec {W} `{ReedSolomonLaws} (api : Api W) get_order ch w :
  (∀ frs, get_order frs ≡ₚ frs) →
  let r := (fetchChunk api get_order ch w).1 in
  (∀ chunk recs, r = Ok (chunk, recs) → hex_decode (jdc_SHA256 ch) = Some (sha256 chunk)) ∧
  ∀ chunk shards, entry_of chunk shards ch → unforged shards (chunk_run api get_order ch w).1 →
    (r = Err CliShards ∨ ∃ recs, r = Ok (chunk, recs)) ∧
    (reachable shards (chunk_run api get_order ch w).1 → ∃ recs, r = Ok (chunk, recs)).
Proof.
  intros Hperm r. unfold r. split.
  - intros chunk recs Hr. destruct (fetchChunk _ _ _ _) as [r' w'] eqn:Hf. cbn in Hr. subst r'.
    by eapply fetchChunk_hash.
  - intros chunk shards He Hu.
    destruct (fetchChunk_entry api get_order Hperm chunk shards ch w He Hu) as (r'&w'&->&Hr&Hreach).
    cbn [fst]. assert (r' = Err CliShards ∨ ∃ recs, r' = Ok (chunk, recs)) as Hr'
      by (destruct Hr as [?|(recs&?&_)]; [by left|right; by exists recs]).
    split; [exact Hr'|]. intros Hx%Hreach. by destruct Hr' as [->|?].
Qed.

(** ** A file comes back *)

(** A download plan for the upload of [jm] and [chunks]: its hash and metadata
    record, and its chunks with some of their fragments. *)
Definition plan_for (jm : JManifest) (chunks : list chunkBuf) (dl : JDownload) : Prop :=
  jd_ContentSHA256 dl = jm_ContentSHA256 jm ∧ jd_EncryptionMeta dl = jm_EncryptionMeta jm ∧
  Forall2 (λ ch dch,
    jdc_SHA256 dch = hex_encode (ci_SHA256 (cb_info ch)) ∧ jdc_SizeBytes dch = ci_SizeBytes (cb_info ch) ∧
    ∀ fr, fr ∈ jdc_Fragments dch → 0 ≤ jdf_ShardIndex fr ∧
      ∃ sh, cb_shards ch !! Z.to_nat (jdf_ShardIndex fr) = Some sh ∧
            jdf_SHA256 fr = hex_encode (sha256 sh)) chunks (jd_Chunks dl).

Lemma cut_plan `{ReedSolomon} c chunks jm dl :
  cut c chunks → plan_for jm chunks dl →
  ∃ plan, plan.*1 = chunk_list (Z.to_nat DefaultChunk) c ∧ plan.*2 = cb_shards <$> chunks ∧
    Forall2 (λ x dch, entry_of x.1 x.2 dch) plan (jd_Chunks dl).
Proof.
  intros Hcut (_&_&Hdl). set (blocks := chunk_list _ c) in *.
  assert (length blocks = length chunks) as Hlen.
  { apply Forall2_length in Hcut. unfold numbered in Hcut. by rewrite length_imap in Hcut. }
  exists (zip blocks (cb_shards <$> chunks)). split_and!.
  - apply fst_zip. by rewrite length_fmap, Hlen.
  - apply snd_zip. by rewrite length_fmap, Hlen.
  - apply Forall2_same_length_lookup_2.
    + rewrite length_zip_with_l by (rewrite length_fmap; lia). apply Forall2_length in Hdl. congruence.
    + intros i [b shards] dch Hx Hdch. apply lookup_zip_with_Some in Hx as (b'&sh'&[= <- <-]&Hb&Hsh).
      apply list_lookup_fmap_Some in Hsh as (ch&->&Hch).
      destruct (Forall2_lookup_lr _ _ _ _ _ _ Hdl Hch Hdch) as (Hs&Hz&Hfr).
      assert (numbered 0 blocks !! i = Some (chunk_info (Z.of_nat i) b, b)) as Hn
        by (unfold numbered; by rewrite list_lookup_imap, Hb).
      destruct (Forall2_lookup_lr _ _ _ _ _ _ Hcut Hn Hch) as [Hinfo He]. cbn [fst snd] in *.
      rewrite Hinfo in Hs, Hz. by split_and!.
Qed.

(** A file that was put comes back: for any download plan of the upload that
    lists at least some of each chunk's fragments, with the same passphrase and
    room to write, [dsp get] writes exactly the bytes that were put, or reports
    too few shards before creating the destination; and it succeeds whenever ten
    different shards of each chunk are served, in whatever order they arrive.
    (No node answers other bytes with the hash of its shard.) *)
Theorem get_returns_put {W} `{UuidTextLaws, AeadLaws, Argon2Laws, MetaJsonLaws, ReedSolomonLaws}
    (api : Api W) putter env get_order f size bid path jm chunks remote dest bucket files file dl w w1 w2 :
  prepare putter f size bid path = Ok (jm, chunks) → plan_for jm chunks dl →
  env_pass env = env_pass putter → env_pass env ≠ [] → env_ca env = true →
  env_dest env dest = Some None → (∀ frs, get_order frs ≡ₚ frs) →
  splitRemote remote = Ok (bucket, path) → env_parse env bucket = Some bid →
  api_files api bid path w = (Ok files, w1) → find_file path files = Some file →
  api_download api file w1 = (Ok dl, w2) →
  let answers := chunk_runs api get_order (jd_Chunks dl) w2 in
  Forall2 unforged (cb_shards <$> chunks) answers →
  let r := (cmdGet api env get_order [remote; dest] w).1 in
  (r = Err CliShards ∨ r = Ok (Some (rd_data f), Ok tt)) ∧
  (Forall2 reachable (cb_shards <$> chunks) answers → r = Ok (Some (rd_data f), Ok tt)).
Proof.
  intros (_&fk&prefix&em&Hfk&Hp&Hcut&Hem&Hpre&Hun&Hjm)%prepare_uploads Hdl Hpass Hne Hca Hdest
    Hperm Hr Hbid Hfiles Hfile Hdown answers Hforge r.
  set (c := ciphertext fk prefix (rd_data f)) in *.
  destruct (cut_plan c chunks jm dl Hcut Hdl) as (plan&Hblocks&Hshards&Hentry).
  destruct Hdl as (Hsum&Hmeta&_). rewrite <- Hshards in Hforge |- *.
  unfold r, cmdGet. clear r. rewrite Hr, (bind_run (lift _) _ w (bucket, path) w) by done.
  rewrite bool_decide_eq_false_2 by done. unfold guard_err. rewrite ret_bind.
  unfold resolveBucket. rewrite Hbid, ret_bind, (bind_run _ _ _ _ _ Hfiles), Hfile.
  rewrite (bind_run (lift _) _ w1 file w1) by done.
  rewrite (bind_run _ _ _ _ _ Hdown), Hca. cbn [negb]. rewrite ret_bind.
  destruct (get_chunks api get_order Hperm plan (jd_Chunks dl) ([], []) w2 Hentry Hforge)
    as (res&w3&Hrun&Hres&Hall').
  destruct Hres as [->|[egress ->]].
  - unfold mbind at 1, M_bind at 1. rewrite Hrun. split; [by left|]. by intros ?%Hall'.
  - rewrite (bind_run _ _ _ _ _ Hrun). cbn [fst app]. rewrite Hblocks.
    destruct (chunk_list_concat (Z.to_nat DefaultChunk) c) as [-> _]; [unfold DefaultChunk; lia|].
    rewrite Hsum, Hjm. cbn [jm_ContentSHA256]. rewrite hex_decode_encode_prefix.
    rewrite (bool_decide_eq_true_2 (sha256 c = _)) by done. cbn [negb]. rewrite ret_bind.
    rewrite Hmeta, Hem, (bind_run (lift _) _ w3 em w3) by done.
    rewrite Hpass, Hun, (bind_run (lift _) _ w3 fk w3) by done.
    rewrite Hdest, (bind_run (lift _) _ w3 None w3) by done. rewrite Hpre.
    change (MkWriter [] None) with (unlimited []). unfold c. rewrite Decrypt_ciphertext by done.
    assert (∀ m : cli W unit, (∃ w', m w3 = (Ok tt, w')) → ((m ≫= λ _, mret (Some (rd_data f), Ok tt)) w3).1
      = (Ok (Some (rd_data f), Ok tt) : result cli_error (option bytes * result cli_error unit))) as Hend.
    { intros m [w' Hm]. by rewrite (bind_run _ _ _ _ _ Hm). }
    cbn [unlimited wr_out app]. rewrite Hend; [by split; [right|]|].
    case_bool_decide; eexists; done.
Qed.

(** Preparing fails only for want of something from outside. *)
Lemma prepare_total `{UuidTextLaws, AeadLaws, Argon2Laws, MetaJsonLaws, ReedSolomonLaws}
    env f size bid path r1 r2 r3 r4 :
  env_salt env = Some r1 → env_key env = Some r2 → env_wrap env = Some r3 →
  env_prefix env = Some r4 → env_tmp env = Some None → rd_fails f = false →
  ∃ jm chunks, prepare env f size bid path = Ok (jm, chunks).
Proof.
  intros Hs Hk Hw Hp Ht Hf. unfold prepare. rewrite Hs, Hk, Hw, Hp, Ht.
  destruct (DeriveMasterKey (env_pass env) DefaultKDF (Some r1)) as [[mk kdf]|] eqn:Hd; [|done].
  apply DeriveMasterKey_length in Hd. cbn [piped mbind result_bind].
  destruct (GenerateFileKey (Some r2)) as [fk|] eqn:Hg; [|done]. apply rand_read_length in Hg.
  cbn [piped mbind result_bind]. unfold WrapFileKey. rewrite Hd, Hg. cbn [negb orb Nat.eqb MasterKeySize FileKeySize].
  cbn [rand_read piped mbind result_bind of_option].
  destruct f as [data fails]. cbn in Hf. subst fails.
  change (MkWriter [] None) with (unlimited []). rewrite Encrypt_unlimited by done.
  cbn [piped mbind result_bind]. rewrite SplitChunks_run by done.
  assert (∀ xs acc, ∃ acc', for_each (λ x, emit_chunk x.1 x.2) xs acc = (Ok tt, acc')) as Hall.
  { induction xs as [|[ci b] xs IH]; intros acc; [by exists acc|]. cbn [for_each fst snd].
    destruct (rs_codes (if bool_decide (b = []) then [Byte.x00] else b)) as [shards Hc];
      [by case_bool_decide|].
    apply EncodeChunk_coded in Hc. unfold emit_chunk. rewrite Hc.
    destruct (IH (acc ++ [MkChunkBuf ci shards])) as [acc' ?]. by exists acc'. }
  edestruct Hall as [acc' ->]. cbn [piped mbind result_bind]. by eexists _, _.
Qed.
