(* ===== verification/Command.v ===== *)
(** * The command line client: [src/cmd/dsp/main.go], [client.go], and the
      commands of [transfer.go] that only ask the gateway

    [do] is one exchange with the gateway: [Gateway.serve] on the other side, and
    a network in between that may lose a request or its answer.  What a command
    prints is the body of the answer.  [dsp put] and [dsp get] are [Transfer]'s,
    with the gateway as their API ([gateway_api]); the requests to the nodes are
    parameters.  A key and a password are header text. *)

From S2P Require Import Prelude GoFloat Bytes Sha256 Crypto Pipeline Schema World Files Net Url Listings Uploads Wire Auth.
From S2P Require Import Accounts Tickets Metadata Service CA NodeAgent LedgerViews Ratelimit Gateway Transfer.
From Stdlib Require Import Ascii.

(** ** Arguments and settings *)

Abbreviation Getenv := (string → option string).

Definition envOr (getenv : Getenv) (key fallback : string) : string :=
  match getenv key with
  | Some v => if bool_decide (v = ""%string) then fallback else v
  | None => fallback
  end.

Definition is_flag (a : string) : bool := String.prefix "-" a.
Definition flag_name (a : string) : string := unchars (Files.trim_left (λ c, bool_decide (c = "-"%char)) (chars a)).

(** A flag takes the next argument unless that is a flag too. *)
Fixpoint set_flags (args : list string) (out : gmap string string) : gmap string string :=
  match args with
  | [] => out
  | a :: args =>
      if negb (is_flag a) then set_flags args out
      else match args with
           | v :: args' => if negb (is_flag v) then set_flags args' (<[flag_name a := v]> out)
                           else set_flags args (<[flag_name a := "true"%string]> out)
           | [] => <[flag_name a := "true"%string]> out
           end
  end.
Definition splitFlags (args : list string) : gmap string string := set_flags args ∅.

(** [f[name]], empty for a flag that was not given. *)
Definition flag (f : gmap string string) (name : string) : string := default ""%string (f !! name).

Fixpoint first (f : gmap string string) (names : list string) : string :=
  match names with
  | [] => ""
  | n :: names => if bool_decide (flag f n = ""%string) then first f names else flag f n
  end.

Record client := MkClient { cl_base : string; cl_key : string; cl_email : string; cl_pass : string }.

Definition TrimRightSlash (s : string) : string := unchars (Files.trim_right (λ c, bool_decide (c = "/"%char)) (chars s)).

Definition newClient (getenv : Getenv) : client :=
  MkClient (TrimRightSlash (envOr getenv "DSP_API_URL" "http://127.0.0.1:8080")) (envOr getenv "DSP_API_KEY" "")
    (envOr getenv "DSP_EMAIL" "") (envOr getenv "DSP_PASSWORD" "").

(** [-email] and [-password] over the environment. *)
Definition with_login (f : gmap string string) (c : client) : client :=
  let pick name old := if bool_decide (flag f name = ""%string) then old else flag f name in
  MkClient (cl_base c) (cl_key c) (pick "email"%string (cl_email c)) (pick "password"%string (cl_pass c)).

Definition no_login (c : client) : bool := bool_decide (cl_email c = ""%string) || bool_decide (cl_pass c = ""%string).

(** ** Requests *)

(** [SetBasicAuth] and [BasicAuth]: the user name ends at the first colon. *)
Definition basic_auth (email pass : string) : string * bytes :=
  let '(u, p) := cut_at ":" (chars email ++ ":"%char :: chars pass) in (unchars u, text (unchars (default [] p))).

(** The request as the gateway reads it; an empty key is not sent. *)
Definition request (c : client) (basic : bool) (remote : string) : Request :=
  if basic then MkRequest [] (Some (basic_auth (cl_email c) (cl_pass c))) "" remote
  else MkRequest (text (cl_key c)) None "" remote.

(** A path element on its way: escaped by the client, read back by the mux. *)
Definition path_value (id : string) : bytes := text (unchars (default [] (PathUnescape (PathEscape (chars id))))).

(** [GET /v1/files] with a query, as [handleListFiles] reads it. *)
Definition files_call (q : chrs) : Call :=
  let v := ParseQuery q in
  let get k := unchars (query_get (chars k) v) in
  GetFiles (text (get "bucket_id"%string)) (get "prefix"%string) (get "cursor"%string)
    (Some (ParseInt (query_get (chars "limit") v))).

(** The query of [ls], which is encoded, and that of [get], which is pasted. *)
Definition ls_query (bucket prefix : string) : chrs :=
  Encode ((chars "bucket_id", chars bucket) ::
          if bool_decide (prefix = ""%string) then [] else [(chars "prefix", chars prefix)]).
Definition get_query (bucket path : string) : option chrs :=
  raw_query (chars "bucket_id=" ++ chars bucket ++ chars "&prefix=" ++ chars path).

(** Ids and the query of [ls] arrive as they were given. *)
Lemma path_value_text id : path_value id = text id.
Proof. unfold path_value. rewrite PathUnescape_PathEscape. cbn [default from_option]. unfold Datatypes.id. by rewrite unchars_chars. Qed.

Lemma ls_query_arrives bucket prefix :
  files_call (ls_query bucket prefix) = GetFiles (text bucket) prefix "" (Some (ParseInt [])).
Proof.
  unfold files_call, ls_query. rewrite ParseQuery_Encode. cbv zeta. case_bool_decide as Hp.
  2:{ change (GetFiles (text (unchars (chars bucket))) (unchars (chars prefix)) "" (Some (ParseInt [])) = GetFiles (text bucket) prefix "" (Some (ParseInt []))).
      by rewrite !unchars_chars. }
  change (GetFiles (text (unchars (chars bucket))) "" "" (Some (ParseInt [])) = GetFiles (text bucket) prefix "" (Some (ParseInt []))).
  rewrite Hp, unchars_chars. reflexivity.
Qed.

(** [fmt.Sprint] of a flag as a number. *)
Definition Atoi (s : string) : option Z := parse_int (chars s).

Inductive Output := Usage | Nothing | Line (s : string) | Answer (b : Body).

Section commands.
Context {S N : Type} `{!UuidText} (now : Z) (svc : Service S) (limit : Limiter)
  (ledger : option (LedgerClient S)) (entropy : option bytes)
  (net : Call → Delivery) (remote : string).

(** The gateway's state, and that of the nodes. *)
Abbreviation command A := (M (Front S * N) cli_error A).

(** [client.do]: a status of 400 and above is an error. *)
Definition do (c : client) (basic : bool) (call : Call) : command Body := λ s,
  let '(r, g) := serve now svc limit ledger entropy (request c basic remote) call s.1 in
  match net call with
  | RequestLost => (Err CliApi, s)
  | ResponseLost => (Err CliApi, (g, s.2))
  | Delivered => (match r with Ok rep => Ok (rp_Body rep) | Err _ => Err CliApi end, (g, s.2))
  end.

Definition usage {A} : command A := throw CliUsage.
Definition needs (vs : list string) : command unit := guard_err (existsb (λ v, bool_decide (v = ""%string)) vs) CliUsage.
Definition printed (m : command Body) : command Output := b ← m; mret (Answer b).
Definition quietly (m : command Body) : command Output := m ≫= λ _, mret Nothing.

Definition cmdRegister (args : list string) (c : client) : command Output :=
  let c := with_login (splitFlags args) c in
  guard_err (no_login c) CliUsage ≫= λ _,
  printed (do c false (PostRegister (Some (cl_email c, text (cl_pass c))))).

(** [body] of [create] has a label only: no scopes and no end. *)
Definition cmdAPIKeys (args : list string) (c : client) : command Output :=
  match args with
  | [] => usage
  | sub :: args =>
      let f := splitFlags args in
      let c := with_login f c in
      if bool_decide (sub = "create"%string) then
        needs [flag f "label"] ≫= λ _,
        guard_err (no_login c) CliUsage ≫= λ _,
        printed (do c true (PostAPIKeys (Some (flag f "label", [], None))))
      else if bool_decide (sub = "list"%string) then printed (do c false GetAPIKeys)
      else if bool_decide (sub = "revoke"%string) then
        needs [flag f "id"] ≫= λ _, quietly (do c false (DeleteAPIKey (path_value (flag f "id"))))
      else usage
  end.

Definition cmdBuckets (args : list string) (c : client) : command Output :=
  match args with
  | [] => usage
  | sub :: args =>
      let f := splitFlags args in
      if bool_decide (sub = "create"%string) then
        needs [flag f "name"] ≫= λ _, printed (do c false (PostBuckets (Some (flag f "name"))))
      else if bool_decide (sub = "list"%string) then printed (do c false GetBuckets)
      else if bool_decide (sub = "delete"%string) then
        needs [flag f "id"] ≫= λ _, quietly (do c false (DeleteABucket (path_value (flag f "id"))))
      else usage
  end.

Definition cmdFolders (args : list string) (c : client) : command Output :=
  match args with
  | "create"%string :: args =>
      let f := splitFlags args in
      let bid := first f ["bucket-id"; "bucket_id"]%string in
      needs [bid; flag f "path"] ≫= λ _,
      printed (do c false (PostFolders (Some (text bid, flag f "path"))))
  | _ => usage
  end.

Definition cmdLS (args : list string) (c : client) : command Output :=
  let f := splitFlags args in
  let bid := first f ["bucket-id"; "bucket_id"]%string in
  needs [bid] ≫= λ _,
  printed (do c false (files_call (ls_query bid (flag f "prefix")))).

Definition cmdMV (args : list string) (c : client) : command Output :=
  let f := splitFlags args in
  let fid := first f ["file-id"; "file_id"]%string in
  let np := first f ["new-path"; "new_path"]%string in
  needs [fid; np] ≫= λ _,
  printed (do c false (PutRename (Some (text fid, np)))).

Definition cmdRM (args : list string) (c : client) : command Output :=
  let f := splitFlags args in
  let id := first f ["file-id"; "id"; "file_id"]%string in
  needs [id] ≫= λ _,
  quietly (do c false (DeleteAFile (path_value id))).

Definition cmdNodes (c : client) : command Output := printed (do c false GetNodes).

Definition cmdProvider (args : list string) (c : client) : command Output :=
  match args with
  | "codes"%string :: "create"%string :: args =>
      let f := splitFlags args in
      needs [flag f "endpoint"; flag f "country"; flag f "region"; flag f "asn"] ≫= λ _,
      asn ← lift (of_option CliUsage (Atoi (flag f "asn")));
      printed (do c false (PostCodes (Some (flag f "endpoint", flag f "country", flag f "region", Some asn))))
  | _ => usage
  end.

(** ** The API of [put] and [get] *)

(** Another body than the one expected does not decode. *)
Definition expect {A} (f : Body → option A) (m : command Body) : command A :=
  b ← m; lift (of_option CliApi (f b)).

(** An id as it stands in a path: UUID text needs no escape. *)
Definition id_text (u : uuid) : string := bytes_text (uuid_String u).

(** The text of an id is made of letters, digits and dashes. *)
Class UuidPlain : Prop :=
  uuid_plain u : uuid_wf u → Forall (λ c, unreserved c = true) (chars (id_text u)).

Definition api_put_files (c : client) (bucket : uuid) (path : string) : command (list File) :=
  q ← lift (of_option CliApi (get_query (id_text bucket) path));
  expect (λ b, match b with BFiles fs _ => Some fs | _ => None end) (do c false (files_call q)).

Definition gateway_api (c : client) (put : PlannedPlacement → bytes → command bytes)
    (get : JDownloadFragment → command (bytes * bytes)) : Api (Front S * N) := {|
  api_upload jm := expect (λ b, match b with BPlan p => Some (pr_UploadID p, pr_Placements p) | _ => None end)
                     (do c false (PostUpload (Some jm)));
  api_commit id recs := do c false (PostCommit (uuid_String id) (Some recs));
  api_files := api_put_files c;
  api_download id := expect (λ b, match b with BDownload d => Some (downloadJSON d) | _ => None end)
                       (do c false (GetDownload (uuid_String id)));
  api_report id recs := do c false (PostReport (uuid_String id) (Some recs)) ≫= λ _, mret tt;
  api_buckets := expect (λ b, match b with BBuckets bs => Some bs | _ => None end) (do c false GetBuckets);
  Transfer.putFragment := put;
  Transfer.getFragment := get |}.

(** ** The command *)

Context `{Aead, Argon2, MetaJson, ReedSolomon} (env : Env)
  (put : PlannedPlacement → bytes → command bytes) (get : JDownloadFragment → command (bytes * bytes))
  (put_order : list PlannedPlacement → list PlannedPlacement)
  (get_order : list JDownloadFragment → list JDownloadFragment).

(** [put] prints the answer to its commit, [get] the name of its destination. *)
Definition dispatch (cmd : string) (args : list string) (c : client) : option (command Output) :=
  let api := gateway_api c put get in
  if bool_decide (cmd = "register"%string) then Some (cmdRegister args c)
  else if bool_decide (cmd = "api-keys"%string) then Some (cmdAPIKeys args c)
  else if bool_decide (cmd = "buckets"%string) then Some (cmdBuckets args c)
  else if bool_decide (cmd = "folders"%string) then Some (cmdFolders args c)
  else if bool_decide (cmd = "ls"%string) then Some (cmdLS args c)
  else if bool_decide (cmd = "mv"%string) then Some (cmdMV args c)
  else if bool_decide (cmd = "rm"%string) then Some (cmdRM args c)
  else if bool_decide (cmd = "put"%string) then Some (printed (cmdPut api env put_order args))
  else if bool_decide (cmd = "get"%string) then
    Some ('(_, r) ← cmdGet api env get_order args; lift r ≫= λ _, mret (Line (default ""%string (args !! 1%nat))))
  else if bool_decide (cmd = "nodes"%string) then Some (cmdNodes c)
  else if bool_decide (cmd = "provider"%string) then Some (cmdProvider args c)
  else None.

(** The exit code and what was printed. *)
Definition run (args : list string) (getenv : Getenv) : M (Front S * N) Empty_set (Z * Output) := λ s,
  match args with
  | [] => (Ok (2, Usage), s)
  | cmd :: args =>
      if bool_decide (cmd ∈ ["-h"; "--help"; "help"]%string) then (Ok (0, Usage), s)
      else match dispatch cmd args (newClient getenv) with
           | None => (Ok (2, Usage), s)
           | Some m => match m s with
                       | (Ok out, s') => (Ok (0, out), s')
                       | (Err _, s') => (Ok (1, Nothing), s')
                       end
           end
  end.
End commands.

(** ** Ids in hexadecimal *)

Lemma chars_bytes_text b : chars (bytes_text b) = ascii_of_byte <$> b.
Proof. unfold bytes_text. induction b as [|x b IH]; [done|]. cbn. by f_equal. Qed.
Lemma hex_digit_plain i : 0 ≤ i < 16 → unreserved (ascii_of_byte (hex_digit i)) = true.
Proof.
  intros Hi. assert (forallb (λ i, unreserved (ascii_of_byte (hex_digit i))) (seqZ 0 16) = true) as Hall
    by by vm_compute.
  rewrite forallb_forall in Hall. apply Hall, list_elem_of_In, elem_of_seqZ. lia.
Qed.
Lemma hex_plain b : Forall (λ c, unreserved c = true) (chars (bytes_text (hex_encode b))).
Proof.
  rewrite chars_bytes_text. apply Forall_fmap.
  induction b as [|x b IH]; [constructor|]. pose proof (byte_Z_range x). cbn [hex_encode].
  constructor; [|constructor; [|exact IH]]; apply hex_digit_plain; Z.div_mod_to_equations; lia.
Qed.

#[export] Instance toy_plain : @UuidPlain ToyText.text.
Proof. intros u _. apply hex_plain. Qed.
