(* ===== verification/Fleet.v ===== *)
(** * The nodes over the network

    What lies between the platform and the fragment stores: the node's HTTP side
    ([fragmentMux] and [ticketFrom] of [src/internal/agent/fragments.go]) and the
    four clients that call it — the command line client
    ([src/cmd/dsp/transfer.go]), the repair worker
    ([src/internal/repair/transfer.go]), the reaper
    ([src/internal/lifecycle/reaper.go]) and the challenger
    ([src/internal/healthmon/challenge.go]).  [WorkerAgents] gives the last three
    the interface [Workers.Agents] over the state [Fleet]: every node with its
    store, and how many requests have been made.

    The names that resolve to a node, the verification of a certificate chain,
    the clock, faults of disks and what the network loses are arguments, the
    latter three by the number of the request.  An endpoint is the host of a URL
    with or without a port: one with characters that structure a URL reaches no
    node.  No request here has a [Range] header. *)

From S2P Require Import Prelude Bytes Sha256 Crypto Schema World Files Net Url Uploads Wire Tickets Receipts.
From S2P Require Import Agent Challenges Metadata Service CA NodeAgent RepairPlan.
From S2P Require Import Transfer Command Workers Auditing.
From Stdlib Require Import Ascii.

Definition bytes_chars (b : bytes) : chrs := chars (bytes_text b).
Definition chars_bytes (c : chrs) : bytes := text_bytes (unchars c).

(** ** Addresses *)

(** [net.SplitHostPort] and [net.JoinHostPort] *)
Definition host_port (hostport : chrs) : option (chrs * chrs) :=
  host ← SplitHostPort hostport;
  i ← last_index_byte ":" hostport;
  Some (host, drop (S i) hostport).
Definition JoinHostPort (host port : chrs) : chrs :=
  if has_byte ":" host || has_byte "%" host
  then "["%char :: host ++ "]"%char :: ":"%char :: port else host ++ ":"%char :: port.

(** What [url.Parse] leaves of a host as it is, without the characters that
    structure a URL. *)
Definition host_char (c : ascii) : bool :=
  unreserved c || bool_decide (c ∈ ["!"; "$"; "&"; "'"; "("; ")"; "*"; "+"; ","; ";"; "="; ":"; "["; "]"; "<"; ">"; "034"]%char).

(** [validOptionalPort]; no port is that of https. *)
Definition url_port (colonPort : chrs) : option chrs :=
  match colonPort with
  | [] => Some (chars "443")
  | c :: port =>
      if negb (bool_decide (c = ":"%char)) || negb (forallb (λ d, bool_decide (is_Some (digit d))) port) then None
      else Some (if bool_decide (port = []) then chars "443" else port)
  end.

(** Where a request to [https://authority/...] is sent: an address in brackets is
    an IPv6 address, a name has no colon. *)
Definition url_addr (authority : chrs) : option (chrs * chrs) :=
  if negb (forallb host_char authority) then None
  else match authority with
       | "["%char :: rest =>
           i ← last_index_byte "]" rest;
           port ← url_port (drop (S i) rest);
           _ ← parse_v6 (take i rest);
           Some (take i rest, port)
       | _ =>
           match cut_at ":" authority with
           | (host, None) => Some (host, chars "443")
           | (host, Some port) =>
               if has_byte "[" authority || has_byte "]" authority then None
               else port ← url_port (":"%char :: port); Some (host, port)
           end
       end.

(** The workers' defaults, with the host that the environment puts in its place. *)
Definition worker_host (endpoint : string) : chrs * chrs :=
  default (chars endpoint, chars "7443") (host_port (chars endpoint)).
Definition worker_addr (override endpoint : string) : option (chrs * chrs) :=
  let '(host, port) := worker_host endpoint in
  url_addr (JoinHostPort (if bool_decide (override = ""%string) then host else chars override) port).
Definition dsp_host (endpoint : string) : chrs := default (chars endpoint) (SplitHostPort (chars endpoint)).
Definition dsp_addr (endpoint : string) : option (chrs * chrs) := url_addr (chars endpoint).

(** With a port the clients agree; without one they do not. *)
Example same_port :
  dsp_addr "node-1.example:9000" = Some (chars "node-1.example", chars "9000") ∧
  worker_addr "" "node-1.example:9000" = Some (chars "node-1.example", chars "9000") ∧
  worker_addr "" "[2001:db8::1]:9000" = dsp_addr "[2001:db8::1]:9000".
Proof. by vm_compute. Qed.
Example two_ports :
  dsp_addr "node-1.example" = Some (chars "node-1.example", chars "443") ∧
  worker_addr "" "node-1.example" = Some (chars "node-1.example", chars "7443").
Proof. by vm_compute. Qed.

(** ** Requests and answers *)

(** The method and the path; the fragment id as it stands in the path. *)
Inductive FragMethod :=
  | PUT (id : bytes) (body : bytes)
  | GET (id : bytes)
  | DELETE (id : bytes)
  | CHALLENGE.

Record FragRequest := MkFragRequest {
  fq_Method : FragMethod; fq_Ticket : bytes; fq_Authorization : bytes; fq_Query : chrs }.

(** The receipt; the bytes of the file under the length of the index entry; no
    content; the digest in hexadecimal. *)
Inductive FragReply :=
  | ReceiptReply (receipt : bytes)
  | FragmentReply (receipt file : bytes) (length : Z)
  | GoneReply
  | DigestReply (sum : bytes).

(** A header field as it arrives; [None] if [http.Client] refuses it. *)
Definition blank (c : ascii) : bool := bool_decide (c ∈ [" "; "009"]%char).
Definition header_value (v : bytes) : option bytes :=
  let c := bytes_chars v in
  if existsb (λ c, ((ascii_Z c <? 32) || (ascii_Z c =? 127)) && negb (blank c)) c then None
  else Some (chars_bytes (Files.trim_right blank (Files.trim_left blank c))).

Definition ticketFrom (rq : FragRequest) : bytes :=
  if negb (bool_decide (fq_Ticket rq = [])) then fq_Ticket rq
  else if bool_decide (take 7 (fq_Authorization rq) = Tickets.text "Ticket ") then drop 7 (fq_Authorization rq)
  else chars_bytes (query_get (chars "ticket") (ParseQuery (fq_Query rq))).

(** ** A node *)

Record Site := MkSite {
  st_id : uuid; st_priv : bytes; st_tickets : bytes;   (* its keys: its own, and that of tickets *)
  st_chain : list bytes;                               (* the certificates the listener shows *)
  st_store : ChunkStore }.
Definition upd_st_store f st := MkSite (st_id st) (st_priv st) (st_tickets st) (st_chain st) (f (st_store st)).

(** What is beyond a request's control. *)
Record Weather := MkWeather {
  we_net : Delivery; we_now : Z; we_db_fails : bool; we_put : put_faults; we_del_fails : bool }.

Section mux.
Context `{UuidText, Ed25519} (we : Weather) (st : Site).

Definition fragmentMux (rq : FragRequest) : endpoint FragReply :=
  let q := ParseQuery (fq_Query rq) in
  let get k := query_get (chars k) q in
  let wire := ticketFrom rq in
  match fq_Method rq with
  | PUT id body =>
      receipt ← handlePut (st_id st) (st_priv st) (st_tickets st) (we_now we) (we_db_fails we) (we_put we)
                  (uuid_Parse id) wire body;
      mret (ReceiptReply receipt)
  | GET id =>
      '(receipt, f) ← handleGet (st_id st) (st_priv st) (st_tickets st) (we_now we) (we_db_fails we)
                        (uuid_Parse id) wire;
      size ← gets (λ s, from_option fm_Size 0 (uuid_Parse id ≫= λ i, cs_meta s !! i));
      mret (FragmentReply receipt f size)
  | DELETE id =>
      handleDelete (st_id st) (st_tickets st) (we_now we) (we_db_fails we) (we_del_fails we) (uuid_Parse id) wire ≫= λ _,
      mret GoneReply
  | CHALLENGE =>
      sum ← handleChallenge (st_id st) (st_tickets st) (we_now we) (we_db_fails we)
              (uuid_Parse (chars_bytes (get "fragment_id"))) (parse_int (get "offset")) (parse_int (get "length"))
              (hex_decode (chars_bytes (get "nonce"))) wire;
      mret (DigestReply (hex_encode sum))
  end.
End mux.

(** ** The fleet *)

Record Fleet := MkFleet { fl_sites : gmap uuid Site; fl_turn : nat }.

Section fleet.
Context `{UuidText, Ed25519, X509} (resolve : chrs * chrs → option uuid)
  (trusted : list bytes → chrs → Z → bool) (weather : nat → Weather).

Abbreviation fleet A := (M Fleet (option Z) A).    (* the status, or no answer *)

(** One exchange with the node of an address, which has to be [node]. *)
Definition exchange (addr : option (chrs * chrs)) (name : chrs) (node : uuid) (rq : FragRequest) : fleet FragReply :=
  λ f,
  let we := weather (fl_turn f) in
  let next sites := MkFleet sites (S (fl_turn f)) in
  match (a ← addr; at_ ← resolve a; st ← fl_sites f !! at_; Some (a, at_, st)) with
  | None => (Err None, next (fl_sites f))
  | Some (a, at_, st) =>
      let name := if bool_decide (name = []) then a.1 else name in
      if negb (trusted (st_chain st) name (we_now we) && ClientTLS node (st_chain st))
      then (Err None, next (fl_sites f))
      else match we_net we with
           | RequestLost => (Err None, next (fl_sites f))
           | net =>
               let '(r, cs) := fragmentMux we st rq (st_store st) in
               (match net, r with
                | ResponseLost, _ => Err None
                | _, Ok a => Ok a
                | _, Err status => Err (Some status)
                end, next (<[at_ := upd_st_store (λ _, cs) st]> (fl_sites f)))
           end
  end.

(** A request with a ticket in the header. *)
Definition send (addr : option (chrs * chrs)) (name : chrs) (node : uuid) (method : FragMethod) (query : option chrs)
    (ticket : bytes) : fleet FragReply :=
  ticket ← lift (of_option None (header_value ticket));
  query ← lift (of_option None query);
  exchange addr name node (MkFragRequest method ticket [] query).

(** [io.ReadAll] of a body under its announced length. *)
Definition read_body (f : bytes) (size : Z) : option bytes :=
  if Z.of_nat (length f) <? size then None else Some (take (Z.to_nat size) f).

(** ** The workers *)

Section workers.
Context (override : string).

Definition ask_worker (endpoint : string) (node : uuid) (method : FragMethod) (query : option chrs) (ticket : bytes) :
    fleet FragReply :=
  send (worker_addr override endpoint) (worker_host endpoint).1 node method query ticket.

(** Any status but the expected one, and any other body, is an error. *)
Definition answered {A} (m : fleet FragReply) (f : FragReply → option A) : M Fleet error A :=
  got ← attempt m;
  lift (of_option NodeErr (match got with Ok rep => f rep | Err _ => None end)).

Definition w_getFragment (endpoint : string) (node frag : uuid) (ticket : bytes) : M Fleet error bytes :=
  answered (ask_worker endpoint node (GET (uuid_String frag)) (Some []) ticket)
    (λ rep, match rep with FragmentReply _ f size => read_body f size | _ => None end).

Definition w_putFragment (endpoint : string) (node frag : uuid) (ticket data : bytes) : M Fleet error bytes :=
  answered (ask_worker endpoint node (PUT (uuid_String frag) data) (Some []) ticket)
    (λ rep, match rep with ReceiptReply receipt => Some receipt | _ => None end).

Definition challenge_query (frag : uuid) (offset len : Z) (nonce : bytes) : chrs :=
  chars "fragment_id=" ++ bytes_chars (uuid_String frag) ++ chars "&offset=" ++ Itoa offset ++
  chars "&length=" ++ Itoa len ++ chars "&nonce=" ++ bytes_chars (hex_encode nonce).

Definition w_getChallenge (endpoint : string) (node frag : uuid) (ticket : bytes) (offset len : Z) (nonce : bytes) :
    M Fleet error bytes :=
  answered (ask_worker endpoint node CHALLENGE (raw_query (challenge_query frag offset len nonce)) ticket)
    (λ rep, match rep with DigestReply sum => hex_decode sum | _ => None end).

(** A fragment the node does not have is as good as deleted. *)
Definition w_deleteFragment (endpoint : string) (node frag : uuid) (ticket : bytes) : M Fleet error unit :=
  got ← attempt (ask_worker endpoint node (DELETE (uuid_String frag)) (Some []) ticket);
  match got with
  | Ok GoneReply => mret tt
  | Err (Some 404) => mret tt
  | _ => throw NodeErr
  end.

Definition WorkerAgents : Agents Fleet :=
  MkAgents w_getFragment w_getChallenge w_putFragment w_deleteFragment.
End workers.

(** ** The command line client *)

Definition dsp_answered {A} (m : fleet FragReply) (f : FragReply → option A) : cli Fleet A :=
  got ← attempt m;
  lift (of_option CliApi (match got with Ok rep => f rep | Err _ => None end)).

Definition dsp_putFragment (p : PlannedPlacement) (data : bytes) : cli Fleet bytes :=
  let endpoint := pp_Endpoint p in
  dsp_answered (send (dsp_addr endpoint) (dsp_host endpoint) (pp_NodeID p) (PUT (uuid_String (pp_FragmentID p)) data)
                  (Some []) (pp_Ticket p))
    (λ rep, match rep with ReceiptReply receipt => Some receipt | _ => None end).

Definition dsp_getFragment (fr : JDownloadFragment) : cli Fleet (bytes * bytes) :=
  let endpoint := jdf_Endpoint fr in
  dsp_answered (send (dsp_addr endpoint) (dsp_host endpoint) (jdf_NodeID fr) (GET (uuid_String (jdf_FragmentID fr)))
                  (Some []) (jdf_Ticket fr))
    (λ rep, match rep with
            | FragmentReply receipt f size => data ← read_body f size; Some (data, receipt)
            | _ => None
            end).
End fleet.

(** ** Header fields and queries *)

Lemma chars_bytes_chars b : chars_bytes (bytes_chars b) = b.
Proof. unfold chars_bytes, bytes_chars. by rewrite unchars_chars, bytes_text_bytes. Qed.

(** A field without blanks and control characters arrives as it is. *)
Definition visible (c : ascii) : bool := (32 <? ascii_Z c) && negb (ascii_Z c =? 127).
Lemma visible_blank c : visible c = true → blank c = false.
Proof.
  unfold visible, blank. intros Hv. apply bool_decide_eq_false. intros [->|[->|[]%elem_of_nil]%elem_of_cons]%elem_of_cons; done.
Qed.
Lemma trim_left_visible l : Forall (λ c, visible c = true) l → Files.trim_left blank l = l.
Proof. destruct 1 as [|c l Hc _]; [done|]. cbn. by rewrite visible_blank. Qed.
Lemma header_visible v : Forall (λ c, visible c = true) (bytes_chars v) → header_value v = Some v.
Proof.
  intros Hv. unfold header_value. rewrite existsb_none.
  - unfold Files.trim_right. rewrite (trim_left_visible (bytes_chars v)), trim_left_visible by (done || by apply Forall_rev).
    by rewrite rev_involutive, chars_bytes_chars.
  - intros c Hc. rewrite Forall_forall in Hv. specialize (Hv c Hc). unfold visible in Hv.
    apply andb_true_iff in Hv as [H1 H2]. replace (ascii_Z c <? 32) with false by lia.
    by rewrite (proj1 (negb_true_iff _) H2).
Qed.

(** The base64 alphabet and the dot of a ticket are visible. *)
Lemma b64_visible bs : Forall (λ c, visible c = true) (bytes_chars (b64_encode bs)).
Proof.
  unfold bytes_chars. rewrite chars_bytes_text. apply Forall_fmap.
  destruct (b64_encode_spells bs) as (vs&[-> Hv]&_). apply Forall_fmap. eapply Forall_impl; [exact Hv|].
  intros v Hr. cbn.
  assert (forallb (λ i, visible (ascii_of_byte (b64_digit i))) (seqZ 0 64) = true) as Hall by by vm_compute.
  rewrite forallb_forall in Hall. apply Hall, list_elem_of_In, elem_of_seqZ. exact Hr.
Qed.
Lemma ticket_visible payload sig : header_value (encodeWire payload sig) = Some (encodeWire payload sig).
Proof.
  apply header_visible. unfold encodeWire, bytes_chars. rewrite chars_bytes_text, !fmap_app.
  rewrite Forall_app. split; [|constructor; [done|]]; rewrite <- chars_bytes_text; apply b64_visible.
Qed.

Lemma QueryEscape_unreserved s : Forall (λ c, unreserved c = true) s → QueryEscape s = s.
Proof.
  unfold QueryEscape. induction 1 as [|c s Hc _ IH]; [done|]. cbn. unfold query_char at 1. rewrite Hc. cbn. by f_equal.
Qed.

Lemma Itoa_unreserved n : Forall (λ c, unreserved c = true) (Itoa n).
Proof.
  assert (∀ fuel n acc, Forall (λ c, unreserved c = true) acc → 0 ≤ n →
    Forall (λ c, unreserved c = true) (digits fuel n acc)) as Hd.
  { assert (∀ d, 0 ≤ d < 10 → unreserved (digit_char d) = true) as Hdig.
    { intros d Hr. assert (forallb (λ d, unreserved (digit_char d)) (seqZ 0 10) = true) as Hall by by vm_compute.
      rewrite forallb_forall in Hall. apply Hall, list_elem_of_In, elem_of_seqZ. lia. }
    intros fuel. induction fuel as [|fuel IH]; intros m acc Hacc Hm; [done|]. cbn [digits].
    destruct (Z.ltb_spec m 10); [by constructor; [apply Hdig|]|].
    apply IH; [|Z.div_mod_to_equations; lia]. constructor; [apply Hdig; Z.div_mod_to_equations; lia|done]. }
  unfold Itoa. destruct (Z.ltb_spec n 0); [constructor; [done|]|]; apply Hd; (constructor || lia).
Qed.

(** Pairs of unreserved text survive in a query pasted into a URL. *)
Definition query_char_ok (c : ascii) : bool := unreserved c || bool_decide (c ∈ ["&"; "="]%char).
Lemma raw_query_plain q : Forall (λ c, query_char_ok c = true) q → raw_query q = Some q.
Proof.
  intros Hq. rewrite Forall_forall in Hq.
  assert (∀ c, query_char_ok c = false → c ∉ q) as Hno by (intros c Hc Hin; apply Hq in Hin; congruence).
  unfold raw_query. rewrite existsb_none.
  - rewrite cut_at_none, has_byte_false by (by apply Hno). done.
  - intros c Hc%Hq.
    assert (forallb (λ i, negb (query_char_ok (ascii_of_nat i)) || negb ((ascii_Z (ascii_of_nat i) <? 32) || (ascii_Z (ascii_of_nat i) =? 127)))
      (seq 0 256) = true) as Hall by by vm_compute.
    rewrite forallb_forall in Hall. specialize (Hall (nat_of_ascii c)). rewrite ascii_nat_embedding, Hc in Hall.
    apply negb_true_iff, Hall, in_seq. pose proof (nat_ascii_bounded c). lia.
Qed.

Lemma challenge_params a b c d :
  let q := [(chars "fragment_id", a); (chars "offset", b); (chars "length", c); (chars "nonce", d)] in
  query_get (chars "fragment_id") q = a ∧ query_get (chars "offset") q = b ∧
  query_get (chars "length") q = c ∧ query_get (chars "nonce") q = d ∧ query_get (chars "ticket") q = [].
Proof. by vm_compute. Qed.

Section queries.
Context `{UuidTextLaws, !UuidPlain}.

Lemma challenge_query_pairs frag offset len nonce : uuid_wf frag →
  ParseQuery (challenge_query frag offset len nonce) =
    [(chars "fragment_id", bytes_chars (uuid_String frag)); (chars "offset", Itoa offset);
     (chars "length", Itoa len); (chars "nonce", bytes_chars (hex_encode nonce))] ∧
  raw_query (challenge_query frag offset len nonce) = Some (challenge_query frag offset len nonce).
Proof.
  intros Hf. assert (Forall (λ c, unreserved c = true) (bytes_chars (uuid_String frag))) as Hid by by apply uuid_plain.
  pose proof (hex_plain nonce) as Hn. pose proof (Itoa_unreserved offset). pose proof (Itoa_unreserved len). split.
  - rewrite <- ParseQuery_Encode. f_equal. unfold Encode, challenge_query. cbn [fmap list_fmap fst snd join].
    rewrite !(QueryEscape_unreserved (bytes_chars _)), !(QueryEscape_unreserved (Itoa _)) by done.
    rewrite !QueryEscape_unreserved by (by repeat constructor). rewrite <- !app_assoc. done.
  - apply raw_query_plain.
    assert (∀ l, Forall (λ c, unreserved c = true) l → Forall (λ c, query_char_ok c = true) l) as Hw.
    { intros l Hl. eapply Forall_impl; [exact Hl|]. intros c Hc. unfold query_char_ok. by rewrite Hc. }
    unfold challenge_query. rewrite !Forall_app. split_and!; (by apply Hw) || by repeat constructor.
Qed.
End queries.

(** ** What an exchange tells *)

Section exchanges.
Context `{UuidTextLaws, Ed25519, X509} (resolve : chrs * chrs → option uuid)
  (trusted : list bytes → chrs → Z → bool) (weather : nat → Weather).

(** Every node is kept under its id, and no other name fits its certificate. *)
Definition own_names (sites : gmap uuid Site) : Prop :=
  ∀ at_ st, sites !! at_ = Some st → st_id st = at_ ∧ ∀ node, ClientTLS node (st_chain st) = true → node = at_.

Lemma own_names_store sites at_ st f :
  sites !! at_ = Some st → own_names sites → own_names (<[at_ := upd_st_store f st]> sites).
Proof.
  intros Hst Hn a s. destruct (decide (at_ = a)) as [<-|Hne].
  - rewrite lookup_insert_eq. intros [= <-]. exact (Hn at_ st Hst).
  - rewrite lookup_insert_ne by done. apply Hn.
Qed.

(** An exchange that did not get through leaves the nodes alone; any other ran
    the handler of the node it was meant for, whatever became of the answer. *)
Definition served (node : uuid) (rq : FragRequest) (f : Fleet) (r : result (option Z) FragReply) (f' : Fleet) : Prop :=
  ∃ st, fl_sites f !! node = Some st ∧ st_id st = node ∧
    let '(x, cs) := fragmentMux (weather (fl_turn f)) st rq (st_store st) in
    fl_sites f' = <[node := upd_st_store (λ _, cs) st]> (fl_sites f) ∧
    (r = Err None ∨ r = match x with Ok a => Ok a | Err c => Err (Some c) end).

Lemma exchange_run addr name node rq f :
  own_names (fl_sites f) →
  let '(r, f') := exchange resolve trusted weather addr name node rq f in
  r = Err None ∧ fl_sites f' = fl_sites f ∨ served node rq f r f'.
Proof.
  intros Hn. unfold exchange. destruct addr as [a|]; [|by left]. cbn [mbind option_bind].
  destruct (resolve a) as [at_|]; [|by left]. cbn [mbind option_bind].
  destruct (fl_sites f !! at_) as [st|] eqn:Hst; [|by left]. cbn [mbind option_bind].
  destruct (trusted _ _ _ && ClientTLS node (st_chain st)) eqn:Htls; [|by left]. cbn [negb].
  apply andb_true_iff in Htls as [_ Htls]. apply (Hn at_ st Hst) in Htls as ->. destruct (Hn at_ st Hst) as [Hid _].
  destruct (we_net (weather (fl_turn f))); [|by left|]; unfold served;
    destruct (fragmentMux _ st rq (st_store st)) as [[x|c] cs] eqn:Hmux; right; exists st; rewrite Hmux;
    split_and!; auto.
Qed.

Lemma send_run addr name node m q tk f :
  own_names (fl_sites f) →
  let '(r, f') := send resolve trusted weather addr name node m q tk f in
  r = Err None ∧ fl_sites f' = fl_sites f ∨
  ∃ tk' q', header_value tk = Some tk' ∧ q = Some q' ∧ served node (MkFragRequest m tk' [] q') f r f'.
Proof.
  intros Hn. unfold send, mbind, M_bind, lift. destruct (header_value tk) as [tk'|]; [|by left]. cbn [of_option].
  destruct q as [q'|]; [|by left]. cbn [of_option].
  pose proof (exchange_run addr name node (MkFragRequest m tk' [] q') f Hn) as Hx.
  destruct (exchange _ _ _ _ _ _ _ f) as [r f']. destruct Hx as [?|?]; [by left|right]. by exists tk', q'.
Qed.

Lemma served_names node rq f r f' : served node rq f r f' → own_names (fl_sites f) → own_names (fl_sites f').
Proof.
  intros (st&Hst&_&Hs) Hn. destruct (fragmentMux _ _ _ _) as [x cs]. destruct Hs as [-> _].
  by apply (own_names_store (fl_sites f) node st (λ _, cs)).
Qed.

Lemma send_names addr name node m q tk f :
  own_names (fl_sites f) → own_names (fl_sites (send resolve trusted weather addr name node m q tk f).2).
Proof.
  intros Hn. pose proof (send_run addr name node m q tk f Hn) as Hs.
  destruct (send _ _ _ _ _ _ _ _ _ f) as [r f']. cbn [snd]. destruct Hs as [[_ ->]|(tk'&q'&_&_&Hs)]; [done|].
  by eapply served_names.
Qed.

(** The node holds the fragment, indexed by its length and hash. *)
Definition holds (sites : gmap uuid Site) (node frag : uuid) (data : bytes) : Prop :=
  ∃ st meta, sites !! node = Some st ∧ has_fragment (st_store st) frag data meta ∧
    fm_Size meta = Z.of_nat (length data) ∧ fm_SHA256 meta = sha256 data.
Definition lacks (sites : gmap uuid Site) (node frag : uuid) : Prop :=
  ∀ st, sites !! node = Some st → gone (st_store st) frag.

(** A ticket in the header is the one that is used. *)
Lemma ticketFrom_header m tk q : query_get (chars "ticket") (ParseQuery q) = [] → ticketFrom (MkFragRequest m tk [] q) = tk.
Proof.
  intros Hq. unfold ticketFrom. cbn [fq_Ticket fq_Authorization fq_Query]. rewrite Hq.
  case_bool_decide as Ht; [|done]. by subst.
Qed.

(** ** Storing *)

(** The ticket allows less than int64 can hold: those of metadata allow the
    size of the fragment. *)
Definition bounded (ticket : bytes) : Prop := ∀ wire pub now op node frag tk,
  header_value ticket = Some wire → Tickets.Verify pub now wire op node frag = Ok tk → tk_MaxBytes tk < 2^63 - 1.

(** The node signed for the fragment at some time. *)
Definition signed_for (st : Site) (node frag : uuid) (data rec : bytes) (now : Z) : Prop :=
  ∃ r, rec = rc_Raw r ∧
    Receipts.Sign (st_priv st) node frag (sha256 data) (wrap_u64 (Z.of_nat (length data))) now = Ok r.

Lemma put_answered addr name node frag data tk f rec f' :
  own_names (fl_sites f) → uuid_wf frag → bounded tk →
  send resolve trusted weather addr name node (PUT (uuid_String frag) data) (Some []) tk f = (Ok (ReceiptReply rec), f') →
  holds (fl_sites f') node frag data ∧
  ∃ st, fl_sites f !! node = Some st ∧ signed_for st node frag data rec (we_now (weather (fl_turn f))).
Proof.
  intros Hn Hf Hb Hsend.
  pose proof (send_run addr name node (PUT (uuid_String frag) data) (Some []) tk f Hn) as Hrun. rewrite Hsend in Hrun.
  destruct Hrun as [[? _]|(tk'&q'&Hh&[= <-]&st&Hst&Hid&Hs)]; [done|]. unfold fragmentMux in Hs.
  rewrite ticketFrom_header in Hs by done. cbn [fq_Method] in Hs.
  rewrite uuid_Parse_String in Hs by done. unfold mbind, M_bind in Hs.
  destruct (handlePut _ _ _ _ _ _ _ _ _ _) as [[rec'|c] cs] eqn:Hput.
  2:{ destruct Hs as [_ [|]]; done. }
  destruct Hs as [Hsites [|[= <-]]]; [done|].
  apply handlePut_ok in Hput as (i&t&meta&r&[= <-]&Hv&Hsign&->&Hstored).
  destruct Hstored as (Hstd&Hz&Hsha).
  { split; [|by eapply Hb]. apply Verify_inv in Hv as (_&_&_&Hwf&_). apply (wf_max _ Hwf). }
  rewrite Hid, Hz, Hsha in Hsign. split; [|exists st; split; [done|by exists r]].
  exists (upd_st_store (λ _, cs) st), meta. rewrite Hsites, lookup_insert_eq. by split_and!.
Qed.

Lemma attempt_ok {S E E' A B} (m : M S E A) (k : result E A → M S E' B) s b s' :
  (attempt m ≫= k) s = (Ok b, s') → ∃ r s1, m s = (r, s1) ∧ k r s1 = (Ok b, s').
Proof. unfold attempt, mbind, M_bind. destruct (m s) as [r s1]. eauto. Qed.

Lemma reply_ok {A} (m : M Fleet (option Z) FragReply) (g : FragReply → option A) f a f' :
  answered m g f = (Ok a, f') → ∃ rep, m f = (Ok rep, f') ∧ g rep = Some a.
Proof.
  unfold answered. intros (r&s1&Hm&Hk)%attempt_ok. destruct r as [rep|]; [|done].
  unfold lift in Hk. destruct (g rep) eqn:Hg; [|done]. injection Hk as <- <-. by exists rep.
Qed.
Lemma dsp_reply_ok {A} (m : M Fleet (option Z) FragReply) (g : FragReply → option A) f a f' :
  dsp_answered m g f = (Ok a, f') → ∃ rep, m f = (Ok rep, f') ∧ g rep = Some a.
Proof.
  unfold dsp_answered. intros (r&s1&Hm&Hk)%attempt_ok. destruct r as [rep|]; [|done].
  unfold lift in Hk. destruct (g rep) eqn:Hg; [|done]. injection Hk as <- <-. by exists rep.
Qed.

Lemma signed_accepted `{!Ed25519Laws} st node frag data rec now :
  signed_for st node frag data rec now → length (ed_public (st_priv st)) = 32%nat → uuid_wf node → uuid_wf frag →
  int64_range (unix now) →
  is_ok (Receipts.Verify rec (ed_public (st_priv st)) node frag (sha256 data) (wrap_u64 (Z.of_nat (length data)))) = true.
Proof.
  intros (r&->&Hs) Hpub Hn Hf Ht. unfold Receipts.Sign in Hs.
  assert (uint64_range (wrap_u64 (Z.of_nat (length data)))) as Hu
    by (unfold uint64_range, wrap_u64; apply Z.mod_pos_bound; lia).
  by rewrite (sign_Verify _ _ _ _ _ _ _ _ Hs Hpub Hn Hf Hu Ht (or_introl eq_refl)).
Qed.

(** C25: Whoever sends a fragment to a node, the command line client or the repair
    worker: a receipt that comes back means that the node meant, and no other,
    holds exactly these bytes, indexed by their length and hash, and that
    metadata will accept the receipt for that node, fragment, hash and size. *)
Theorem receipt_means_stored `{!Ed25519Laws} node frag data tk f rec f' st :
  own_names (fl_sites f) → uuid_wf node → uuid_wf frag → bounded tk →
  fl_sites f !! node = Some st → length (ed_public (st_priv st)) = 32%nat →
  int64_range (unix (we_now (weather (fl_turn f)))) →
  (∃ override ep, w_putFragment resolve trusted weather override ep node frag tk data f = (Ok rec, f')) ∨
  (∃ seq shard ep, dsp_putFragment resolve trusted weather (MkPP seq shard frag node ep tk) data f = (Ok rec, f')) →
  holds (fl_sites f') node frag data ∧
  is_ok (Receipts.Verify rec (ed_public (st_priv st)) node frag (sha256 data) (wrap_u64 (Z.of_nat (length data)))) = true.
Proof.
  intros Hn Hnode Hf Hb Hst Hpub Hnow Hput.
  assert (∃ addr name, send resolve trusted weather addr name node (PUT (uuid_String frag) data) (Some []) tk f =
    (Ok (ReceiptReply rec), f')) as (addr&name&Hsend).
  { destruct Hput as [(override&ep&(rep&Hs&Hrep)%reply_ok)|(seq&shard&ep&(rep&Hs&Hrep)%dsp_reply_ok)];
      destruct rep; try done; injection Hrep as ->; eauto. }
  apply put_answered in Hsend as (Hholds&st'&Hst'&Hsigned); [|done..]. split; [done|].
  rewrite Hst in Hst'. injection Hst' as <-. by eapply signed_accepted.
Qed.

(** ** Deleting *)

(** Whatever a deletion answers, no node gains a fragment; and one that is
    reported done is done. *)
Lemma delete_run override ep node frag tk f :
  own_names (fl_sites f) →
  let '(r, f') := w_deleteFragment resolve trusted weather override ep node frag tk f in
  own_names (fl_sites f') ∧
  (∀ n i, lacks (fl_sites f) n i → lacks (fl_sites f') n i) ∧
  (r = Ok tt → uuid_wf frag → lacks (fl_sites f') node frag).
Proof.
  intros Hn. unfold w_deleteFragment, ask_worker, attempt, mbind, M_bind.
  pose proof (send_run (worker_addr override ep) (worker_host ep).1 node (DELETE (uuid_String frag)) (Some []) tk f Hn) as Hrun.
  pose proof (send_names (worker_addr override ep) (worker_host ep).1 node (DELETE (uuid_String frag)) (Some []) tk f Hn) as Hn'.
  destruct (send _ _ _ _ _ _ _ _ _ f) as [r f']. cbn [snd] in Hn'.
  destruct Hrun as [[-> Hsites]|(tk'&q'&_&_&st&Hst&Hid&Hs)].
  { cbn. rewrite !Hsites. by split_and!. }
  unfold fragmentMux in Hs. cbn [fq_Method] in Hs. unfold mbind, M_bind in Hs.
  set (we := weather (fl_turn f)) in *. set (wire := ticketFrom _) in *.
  pose proof (handleDelete_run (st_id st) (st_tickets st) (we_now we) (we_db_fails we) (we_del_fails we)
    (uuid_Parse (uuid_String frag)) wire (st_store st)) as Hd.
  destruct (handleDelete _ _ _ _ _ _ _ _) as [x cs]. destruct Hd as (Hkeep&H404&Hgone).
  assert (∃ x', fl_sites f' = <[node := upd_st_store (λ _, cs) st]> (fl_sites f) ∧
    (r = Err None ∨ r = x') ∧ x' = match x with Ok _ => Ok GoneReply | Err c => Err (Some c) end) as (x'&Hsites&Hr&Hx).
  { destruct x as [[]|c]; destruct Hs as [Hsites Hr]; eauto. }
  assert (∀ n i, lacks (fl_sites f) n i → lacks (fl_sites f') n i) as Hlacks.
  { intros n i Hl s. rewrite Hsites. destruct (decide (node = n)) as [<-|Hne].
    - rewrite lookup_insert_eq. intros [= <-]. apply Hkeep, Hl, Hst.
    - rewrite lookup_insert_ne by done. apply Hl. }
  assert (x = Ok tt → uuid_wf frag → lacks (fl_sites f') node frag) as Hdone.
  { intros Hok Hwf s. rewrite Hsites, lookup_insert_eq. intros [= <-]. destruct (Hgone Hok) as (i&Hi&Hg).
    rewrite uuid_Parse_String in Hi by done. by injection Hi as <-. }
  destruct Hr as [->| ->]; [by split_and!|]. subst x'. destruct x as [[]|c]; cbn; [split_and!; auto|].
  assert (c ≠ 404) as Hc by congruence.
  assert (∀ (B : Type) (a b : B), match c with 404 => a | _ => b end = b) as Hm.
  { intros B a b. repeat (case_match; try done). }
  rewrite Hm. by split_and!.
Qed.
End exchanges.
