(* ===== verification/Rounds.v ===== *)
(** * Rounds of the workers over the network

    The reaper ([src/internal/lifecycle/reaper.go]) and the challenger
    ([src/internal/healthmon/challenge.go]) between the metadata service and the
    nodes of [Fleet]: the database says that a copy is deleted only when its node
    has dropped it, and a node in reach that holds a fragment passes its audits.
    The metadata service is any client that stands for it ([Workers.MetaFor]). *)

From S2P Require Import Prelude GoFloat Bytes Sha256 Schema Nodes World Placements Files Net Url Uploads Wire Scheduler.
From S2P Require Import Health Tickets Receipts Agent Challenges Metadata Service CA NodeAgent RepairPlan.
From S2P Require Import Workers Auditing Repair Command Fleet.

(** ** The reaper *)

Lemma expiring_row_spec d p x :
  expiring_row d p = Some x →
  pl_Status p = PExpiring ∧ xp_ID x = pl_ID p ∧ xp_FragmentID x = pl_FragmentID p ∧ xp_NodeID x = pl_NodeID p.
Proof.
  unfold expiring_row. case_bool_decide; [|done]. destruct (fragment_by d _); [|done]. cbn.
  destruct (node_by d _); [|done]. cbn. by intros [= <-].
Qed.

Lemma NoDup_key {A B} (key : A → B) (l : list A) x y :
  NoDup (key <$> l) → x ∈ l → y ∈ l → key x = key y → x = y.
Proof.
  intros Hnd Hx Hy Hk. induction l as [|z l IH]; [by apply not_elem_of_nil in Hx|].
  rewrite fmap_cons, NoDup_cons in Hnd. destruct Hnd as [Hz Hnd].
  apply elem_of_cons in Hx as [->|Hx]; apply elem_of_cons in Hy as [->|Hy]; [done| | |by apply IH];
    destruct Hz; [rewrite Hk|rewrite <- Hk]; by apply list_elem_of_fmap_2.
Qed.

Section reaping.
Context `{UuidTextLaws, Ed25519, Placer, X509} (priv : bytes) (now : Z) (entropy : MetaCall → nat → option bytes)
  (meta : WorkerMeta World) {stands : MetaFor meta (StoreMeta priv now entropy)}
  (resolve : chrs * chrs → option uuid) (trusted : list bytes → chrs → Z → bool) (weather : nat → Weather)
  (override : string).

Abbreviation fleet := (WorkerAgents resolve trusted weather override).

Lemma DeleteTicket_spec id w :
  let '(r, w') := IssueDeleteTicket priv now (entropy (CallDeleteTicket id)) id w in
  w' = w ∧ ∀ tk, r = Ok tk → ∃ p, p ∈ db_placements (w_db w) ∧ pl_ID p = id ∧ pl_Status p = PExpiring ∧
    xt_FragmentID tk = pl_FragmentID p ∧ xt_NodeID tk = pl_NodeID p.
Proof.
  unfold IssueDeleteTicket, mbind, M_bind, with_store, ExpiringPlacementByID, query_row.
  destruct (head _) as [x|] eqn:Hh; cbn [of_option]; [|by destruct w].
  apply head_Some_elem_of, list_elem_of_filter in Hh as [Hid (p&Hp&Hx)%list_elem_of_omap].
  apply expiring_row_spec in Hx as (Hs&Hi&Hf&Hn). unfold SignTicket, lift.
  destruct (SignTicketFromSigner _ _ _ _ _ _ _ _) as [[wire until]|]; cbn; split; try by destruct w; try done.
  intros tk [= <-]. exists p. split_and!; try done. cbn. congruence.
Qed.

(** Rows are deleted of copies their node has dropped; nothing else changes. *)
Definition reaped (sites : gmap uuid Site) (p p' : Placement) : Prop :=
  p' = p ∨ pl_Status p = PExpiring ∧ p' = upd_pl_Status (λ _, PDeleted) p ∧
           lacks sites (pl_NodeID p) (pl_FragmentID p).
Definition progress (w : World) (s : World * Fleet) : Prop :=
  own_names (fl_sites s.2) ∧
  ∃ rows, s.1 = upd_w_db (upd_db_placements (λ _, rows)) w ∧
    Forall2 (reaped (fl_sites s.2)) (db_placements (w_db w)) rows.

Lemma reaped_ids sites rows rows' : Forall2 (reaped sites) rows rows' → pl_ID <$> rows' = pl_ID <$> rows.
Proof. induction 1 as [|p p' rows rows' [->|(_&->&_)] _ IH]; [done|..]; cbn; by f_equal. Qed.

Lemma reaped_lacks sites sites' rows rows' :
  (∀ n i, lacks sites n i → lacks sites' n i) → Forall2 (reaped sites) rows rows' → Forall2 (reaped sites') rows rows'.
Proof. intros Hl Hr. eapply Forall2_impl; [exact Hr|]. intros p p' [->|(?&?&?)]; [by left|right; auto]. Qed.

(** Confirming a deletion of a row whose copy is gone. *)
Lemma reaped_delete sites rows rows' p :
  NoDup (pl_ID <$> rows) → Forall2 (reaped sites) rows rows' → p ∈ rows' → pl_Status p = PExpiring →
  lacks sites (pl_NodeID p) (pl_FragmentID p) →
  Forall2 (reaped sites) rows (update_where (λ q, bool_decide (pl_ID q = pl_ID p) && bool_decide (pl_Status q = PExpiring))
    (upd_pl_Status (λ _, PDeleted)) rows').
Proof.
  intros Hnd Hr Hp Hs Hl. rewrite <- (reaped_ids _ _ _ Hr) in Hnd.
  assert (∀ q, q ∈ rows' → pl_ID q = pl_ID p → q = p) as Hu by (intros q Hq; by apply (NoDup_key pl_ID rows')).
  clear Hnd Hp. unfold update_where. revert Hu.
  induction Hr as [|q q' rows rows' Hq Hr IH]; intros Hu; cbn; constructor.
  - case_bool_decide as Hid; cbn; [|done]. case_bool_decide as Hx; [|done].
    assert (q' = p) as -> by (apply Hu; [left|done]). destruct Hq as [<-|(_&->&_)]; [by right|done].
  - apply IH. intros x Hx. apply Hu. by right.
Qed.

Lemma reap_progress w x s :
  NoDup (pl_ID <$> db_placements (w_db w)) →
  (∀ p, p ∈ db_placements (w_db w) → int64_range (pl_ID p) ∧ uuid_wf (pl_FragmentID p)) →
  int64_range (xp_ID x) → progress w s → progress w (reap meta fleet x s).2.
Proof.
  intros Hnd Hwf Hx (Hn&rows&Hw&Hr). destruct s as [w0 f]. cbn [fst snd] in *. unfold reap.
  unfold mbind, M_bind at 1, on_left at 1. cbn [fst snd].
  destruct (wm_DeleteTicket meta (xp_ID x) w0) as [r w1] eqn:Ht.
  pose proof (mf_DeleteTicket _ Hx w0 r w1 Ht) as Hsvc. cbn [StoreMeta wm_DeleteTicket] in Hsvc.
  pose proof (DeleteTicket_spec (xp_ID x) w0) as Hspec.
  destruct (IssueDeleteTicket _ _ _ (xp_ID x) w0) as [r' w'] eqn:Hi. destruct Hspec as [-> Htk].
  assert (w1 = w0) as -> by (destruct r; [congruence|]; destruct Hsvc; done).
  destruct r as [tk|e]; [|by split; [|exists rows]].
  destruct (Htk tk) as (p&Hp&Hid&Hs&Hfrag&Hnode); [congruence|]. clear Htk.
  unfold on_right, M_bind. cbn [fst snd fleet WorkerAgents deleteFragment].
  pose proof (delete_run resolve trusted weather override (xt_Endpoint tk) (xt_NodeID tk) (xt_FragmentID tk)
    (xt_Ticket tk) f Hn) as Hd.
  destruct (w_deleteFragment _ _ _ _ _ _ _ _ f) as [r f']. destruct Hd as (Hn'&Hlacks&Hdone).
  apply (reaped_lacks _ _ _ _ Hlacks) in Hr as Hr'.
  destruct r as [[]|e]; [|by split; [|exists rows]]. unfold on_left. cbn [fst snd].
  assert (db_placements (w_db w0) = rows) as Hrows by by rewrite Hw.
  destruct (wm_ConfirmDeleted meta (xp_ID x) w0) as [r2 w2] eqn:Hc.
  pose proof (mf_ConfirmDeleted _ Hx w0 r2 w2 Hc) as Hsvc2. cbn [StoreMeta wm_ConfirmDeleted] in Hsvc2.
  assert (w2 = w0 ∨ w2 = upd_w_db (MarkPlacementDeleted (xp_ID x)) w0) as Hw2.
  { unfold MarkDeleted, modify in Hsvc2. destruct r2; [right; congruence|]. destruct Hsvc2 as [|]; [by left|by right]. }
  destruct Hw2 as [->| ->]; [by split; [|exists rows]|]. split; [done|].
  eexists. split; [by rewrite Hw|]. cbn [fst snd]. rewrite <- Hid.
  apply reaped_delete; [done|done|by rewrite <- Hrows|done|].
  rewrite <- Hnode, <- Hfrag. apply Hdone; [done|]. rewrite Hfrag.
  rewrite Hrows in Hp. apply list_elem_of_lookup in Hp as [i Hlook].
  destruct (Forall2_lookup_r _ _ _ _ _ Hr Hlook) as (q&Hq%list_elem_of_lookup_2&Hrow).
  destruct Hrow as [->|(_&->&_)]; by apply (Hwf q).
Qed.

End reaping.

(** ** Audits of an honest node *)

Section auditing.
Context `{UuidTextLaws, !UuidPlain, Ed25519Laws, Placer, X509} (priv : bytes) (now : Z)
  (entropy : MetaCall → nat → option bytes)
  (meta : WorkerMeta World) {stands : MetaFor meta (StoreMeta priv now entropy)}
  (resolve : chrs * chrs → option uuid) (trusted : list bytes → chrs → Z → bool) (weather : nat → Weather)
  (override : string).

Abbreviation fleet := (WorkerAgents resolve trusted weather override).

(** The next request to [endpoint] gets to [node] and back. *)
Definition in_reach (f : Fleet) (endpoint : string) (node : uuid) (st : Site) : Prop :=
  let we := weather (fl_turn f) in
  ∃ addr, worker_addr override endpoint = Some addr ∧ resolve addr = Some node ∧ fl_sites f !! node = Some st ∧
    trusted (st_chain st) (if bool_decide ((worker_host endpoint).1 = []) then addr.1 else (worker_host endpoint).1)
      (we_now we) = true ∧
    ClientTLS node (st_chain st) = true ∧ we_net we = Delivered ∧ we_db_fails we = false.

Lemma exchange_reached f endpoint node st rq :
  in_reach f endpoint node st →
  exchange resolve trusted weather (worker_addr override endpoint) (worker_host endpoint).1 node rq f =
    let '(r, cs) := fragmentMux (weather (fl_turn f)) st rq (st_store st) in
    (match r with Ok a => Ok a | Err c => Err (Some c) end,
     MkFleet (<[node := upd_st_store (λ _, cs) st]> (fl_sites f)) (S (fl_turn f))).
Proof.
  intros (addr&Ha&Hr&Hst&Ht&Hc&Hnet&_). unfold exchange. rewrite Ha. cbn [mbind option_bind].
  rewrite Hr. cbn [mbind option_bind]. rewrite Hst. cbn [mbind option_bind]. rewrite Ht, Hc, Hnet. cbn [andb negb].
  by destruct (fragmentMux _ _ _ _).
Qed.

(** The ticket metadata mints for a challenge. *)
Definition challenge_minted (frag node : uuid) (wire : bytes) (s : Ticket) : Prop :=
  ∃ sha, wire = tk_Raw s ∧
    Tickets.Sign priv now (entropy (CallTickets (ticket_reqs frag node [OpChallenge])) 0)
      (MkTicket OpChallenge frag node sha (64 * 1024) time_zero [] []) = Ok s.

Lemma tickets_minted frag node w tk more :
  uuid_wf frag → uuid_wf node → wm_Tickets meta frag node [OpChallenge] w = (Ok (tk :: more), w) →
  ∃ s, challenge_minted frag node (ct_Ticket tk) s.
Proof.
  intros Hf Hn Ht. apply (mf_Tickets frag node _ Hf Hn) in Ht. cbn [StoreMeta wm_Tickets] in Ht.
  set (ent := entropy _) in *. unfold issueChallengeTickets in Ht. cbn [ticket_reqs fmap list_fmap for_fold] in Ht.
  apply bind_ok in Ht as (ts&w1&Ht&Hm). injection Hm as -> ->. unfold challenge_ticket in Ht. cbn [cr_FragmentID cr_NodeID] in Ht.
  apply bind_ok in Ht as (frag'&w1&Hx&Ht). injection Hx as <- <-.
  apply bind_ok in Ht as (node'&w1&Hx&Ht). injection Hx as <- <-.
  apply bind_ok in Ht as ([]&w1&Hx&Ht). injection Hx as <-.
  apply bind_ok in Ht as ([fr nd]&w1&Hx&Ht). apply bind_ok in Ht as ([wire until]&w2&Hs&Ht).
  unfold with_store, LoadPlacementFragment, query_row in Hx. destruct (head _) as [x|] eqn:Hh; [|done].
  cbn [of_option] in Hx. injection Hx as -> _. apply head_Some_elem_of, list_elem_of_omap in Hh as (p&_&Hrow).
  destruct (_ && _); [|done]. destruct (fragment_by _ frag) as [fr'|] eqn:Hfr; [|done]. cbn in Hrow.
  destruct (node_by _ node) as [nd'|] eqn:Hnd; [|done]. cbn in Hrow. injection Hrow as -> ->.
  apply find_by_spec in Hfr as [_ Hfid%bool_decide_eq_true], Hnd as [_ Hnid%bool_decide_eq_true].
  unfold SignTicket, lift, SignTicketFromSigner in Hs. rewrite Hfid, Hnid in Hs. cbn [length] in Hs.
  destruct (Tickets.Sign _ _ _ _) as [s|] eqn:Hsign; [|done]. injection Hs as <- _ _. injection Ht as <- _ _.
  exists s, (fr_SHA256 fr). by split.
Qed.

(** A node that holds the fragment of a challenge set, and has not yet seen the
    ticket that was minted. *)
Record honest (f : Fleet) (endpoint : string) (frag node : uuid) (ch : Challenge) (wire : bytes) (st : Site) : Prop := {
  ho_reach : in_reach f endpoint node st;
  ho_self : st_id st = node;
  ho_key : st_tickets st = ed_public priv;
  ho_holds : ∃ data fm n m rnd, has_fragment (st_store st) frag data fm ∧ fm_Size fm = Z.of_nat (length data) ∧
    Z.of_nat (length data) < 2^62 ∧ data ≠ [] ∧ rand_ok rnd ∧ ch ∈ ComputeChallengeSet data frag node n m rnd;
  ho_fresh : ∀ nonce, entropy (CallTickets (ticket_reqs frag node [OpChallenge])) 0 = Some nonce →
    cs_nonces (st_store st) !! nonce = None;
  ho_clock : we_now (weather (fl_turn f)) < unix (now + DefaultTTL) * second }.

Lemma challenge_ranges data frag node n m rnd ch :
  data ≠ [] → rand_ok rnd → Z.of_nat (length data) < 2^62 → ch ∈ ComputeChallengeSet data frag node n m rnd →
  - 2^63 ≤ ch_Offset ch < 2^63 ∧ - 2^63 ≤ ch_Length ch < 2^63.
Proof.
  intros Hd Hr Hs Hch. destruct (ComputeChallengeSet_spec data frag node n m rnd Hd Hr) as [_ Hall].
  rewrite Forall_forall in Hall. apply Hall in Hch as [(_&_&_&Hl&Ho&Hol&_) _]. lia.
Qed.

Lemma honest_answers f endpoint frag node ch wire st s :
  uuid_wf frag → uuid_wf node → int64_range (unix (now + DefaultTTL)) →
  challenge_minted frag node wire s → honest f endpoint frag node ch wire st →
  ∃ f', w_getChallenge resolve trusted weather override endpoint node frag wire (ch_Offset ch) (ch_Length ch) (ch_Nonce ch) f =
    (Ok (ch_Expected ch), f').
Proof.
  intros Hf Hn Hexp (sha&->&Hsign) Hh. destruct (ho_holds _ _ _ _ _ _ _ Hh) as (data&fm&n&m&rnd&[Hfile Hmeta]&Hz&Hsmall&Hd&Hr&Hch).
  destruct (challenge_ranges _ _ _ _ _ _ _ Hd Hr Hsmall Hch) as [Ho Hl].
  destruct (challenge_query_pairs frag (ch_Offset ch) (ch_Length ch) (ch_Nonce ch) Hf) as [Hq Hraw].
  unfold w_getChallenge, answered, ask_worker, send, attempt, mbind, M_bind, lift. rewrite Hraw.
  apply Sign_fields in Hsign as Hinv. destruct Hinv as (Hnonce&Hat&payload&sig&Hrawtk).
  assert (header_value (tk_Raw s) = Some (tk_Raw s)) as -> by (rewrite Hrawtk; apply ticket_visible).
  cbn [of_option]. rewrite (exchange_reached _ _ _ _ _ (ho_reach _ _ _ _ _ _ _ Hh)). unfold fragmentMux. cbn [fq_Method fq_Query].
  destruct (challenge_params (bytes_chars (uuid_String frag)) (Itoa (ch_Offset ch)) (Itoa (ch_Length ch))
    (bytes_chars (hex_encode (ch_Nonce ch)))) as (Q1&Q2&Q3&Q4&Q5).
  rewrite ticketFrom_header by (by rewrite Hq). rewrite Hq, Q1, Q2, Q3, Q4.
  rewrite !chars_bytes_chars, !parse_int_Itoa, uuid_Parse_String, hex_decode_encode by done.
  destruct (ho_reach _ _ _ _ _ _ _ Hh) as (_&_&_&_&_&_&_&Hdb). rewrite Hdb, (ho_self _ _ _ _ _ _ _ Hh), (ho_key _ _ _ _ _ _ _ Hh).
  assert (is_zero time_zero = true) as Hzero by done. cbn [tk_ExpiresAt] in Hat. rewrite Hzero in Hat.
  pose proof (honest_answer node (ed_public priv) (we_now (weather (fl_turn f))) (st_store st) frag data fm (tk_Raw s)
    (MkTicket OpChallenge frag node sha (64 * 1024) (unix (now + DefaultTTL) * second) (tk_Nonce s) (tk_Raw s))
    ch n m rnd Hfile Hmeta Hz Hsmall Hd Hr Hch) as Hans.
  rewrite (Sign_Verify _ _ _ _ _ _ _ _ _ _ Hsign eq_refl Hf Hn) in Hans; rewrite ?Hat in *; [|done..].
  cbn [tk_Op tk_NodeID tk_FragmentID tk_SHA256 tk_MaxBytes] in Hans.
  rewrite (proj2 (Z.ltb_lt _ _) (ho_clock _ _ _ _ _ _ _ Hh)), !bool_decide_eq_true_2 in Hans by done.
  specialize (Hans eq_refl eq_refl (ho_fresh _ _ _ _ _ _ _ Hh _ (Hnonce eq_refl))).
  unfold mbind, M_bind.
  destruct (handleChallenge _ _ _ _ _ _ _ _ _ _) as [[sum|c] cs]; cbn [fst] in Hans; [|done]. injection Hans as ->.
  eexists. cbn. by rewrite hex_decode_encode.
Qed.

End auditing.
