(* ===== verification/System.v ===== *)
(** * The platform end to end: [dsp put], then [dsp get]

    The client of [Command] in front of the gateway, the gateway in front of the
    metadata service (in process, or over HTTP as it is deployed: [Relays]), the
    metadata service over the database.  What a file that was put becomes in the
    database ([Contents]) is what a download plan is made of, so the file comes
    back.  The nodes may do anything: the storage nodes are two functions of a
    state of their own. *)

From S2P Require Import Prelude GoFloat Bytes Sha256 Crypto Pipeline Schema World Files Net Url Listings Uploads Wire Auth.
From S2P Require Import Apierr Accounts Tickets Metadata Contents Service NodeAgent LedgerViews Ratelimit Gateway Transfer Command.
From Stdlib Require Import Ascii.

(** ** Services that stand in for another *)

(** A listing with or without the fields JSON hides. *)
Definition same_rows (fs fs' : list File) : Prop := fs = fs' ∨ fs = fileJSON <$> fs'.

(** What [svc] answers, [store] answers in its place: to a user of its own. *)
Class Relays {S} (svc store : Service S) : Prop := {
  rl_reads :: AuthReads svc;
  rl_PlanUpload user m s p s' : uuid_wf (m_BucketID m) → manifest_ranges m →
    sv_PlanUpload svc user m s = (Ok p, s') → ∃ user', sv_PlanUpload store user' m s = (Ok p, s');
  rl_CommitUpload user id recs s c s' : uuid_wf id →
    sv_CommitUpload svc user id recs s = (Ok c, s') → ∃ user', sv_CommitUpload store user' id recs s = (Ok c, s');
  rl_ListFiles user bucket prefix cursor limit s fs next s' : uuid_wf bucket →
    sv_ListFiles svc user bucket prefix cursor limit s = (Ok (fs, next), s') →
    ∃ user' limit' fs', same_rows fs fs' ∧
      sv_ListFiles store user' bucket prefix cursor limit' s = (Ok (fs', next), s');
  rl_PlanDownload user id s d s' : uuid_wf id →
    sv_PlanDownload svc user id s = (Ok d, s') → ∃ user', sv_PlanDownload store user' id s = (Ok d, s') }.

#[export] Instance relays_self {S} (svc : Service S) : AuthReads svc → Relays svc svc.
Proof. intros Hr. split; [done|eauto..]. intros. eexists _, _, fs. split; [by left|done]. Qed.

Section client.
Context {S : Type} `{UuidTextLaws} (store : Service S).

Lemma do_ok {A} net (h : M S code A) s a s' : Service.do net h s = (Ok a, s') → h s = (Ok a, s').
Proof. unfold Service.do. destruct net, (h s) as [[]]; by intros [= <- <-] || done. Qed.
Lemma answered_ok {A} (m : M S call_error A) s a s' : answer m s = (Ok a, s') → m s = (Ok a, s').
Proof. unfold answer. by destruct (m s) as [[]]; intros [= <- <-]. Qed.
Lemma invalid_ok {A B} (o : option A) (k : A → M S code B) s r :
  (invalid o ≫= k) s = (Ok r.1, r.2) → ∃ a, o = Some a ∧ k a s = (Ok r.1, r.2).
Proof. destruct o as [a|]; [|done]. by exists a. Qed.

(** The metadata service over HTTP, whatever its network loses. *)
#[export] Instance relays_client net : AuthReads store → Relays (Client net store) store.
Proof.
  intros Hr. split; [apply _|..].
  - intros user m s p s' Hb Hm Hc%do_ok. apply (invalid_ok _ _ _ (p, s')) in Hc as (u&_&Hc).
    rewrite decodeManifest_json in Hc by done. exists u. by apply answered_ok in Hc.
  - intros user id recs s c s' Hid Hc%do_ok. apply (invalid_ok _ _ _ (c, s')) in Hc as (u&_&Hc).
    unfold parse_id in Hc. rewrite uuid_Parse_String in Hc by done. exists u. by apply answered_ok in Hc.
  - intros user bucket prefix cursor limit s fs next s' Hid Hc%do_ok.
    apply (invalid_ok _ _ _ ((fs, next), s')) in Hc as (u&_&Hc).
    unfold parse_id in Hc. rewrite uuid_Parse_String in Hc by done.
    apply (invalid_ok _ _ _ ((fs, next), s')) in Hc as (x&[= <-]&Hc).
    apply bind_ok in Hc as ([fs' next']&s1&Hc&Hm). apply answered_ok in Hc. injection Hm as <- <- <-.
    eexists u, _, fs'. split; [by right|exact Hc].
  - intros user id s d s' Hid Hc%do_ok. apply (invalid_ok _ _ _ (d, s')) in Hc as (u&_&Hc).
    unfold parse_id in Hc. rewrite uuid_Parse_String in Hc by done. exists u. by apply answered_ok in Hc.
Qed.
End client.

(** ** What an answer of the gateway tells *)

Section gate.
Context {S N : Type} `{UuidTextLaws} (now : Z) (svc : Service S) {reads : AuthReads svc} (limit : Limiter)
  (ledger : option (LedgerClient S)) (entropy : option bytes) (net : Call → Delivery) (remote : string).

Abbreviation ask := (@Command.do S N _ now svc limit ledger entropy net remote).

Lemma ask_ok c call s b s' :
  ask c false call s = (Ok b, s') →
  ∃ rep g', serve now svc limit ledger entropy (request c false remote) call s.1 = (Ok rep, g') ∧
    rp_Body rep = b ∧ s' = (g', s.2).
Proof.
  unfold Command.do. destruct (serve _ _ _ _ _ _ _ _) as [[rep|e] g']; destruct (net call); try done.
  intros [= <- <-]. by exists rep, g'.
Qed.

(** An answered call with a key ran its handler on the service's state. *)
Lemma ask_handled c call s b s' :
  route call = authKey ∨ route call = authKeyWrite → ask c false call s = (Ok b, s') →
  ∃ id g1 rep g', g_meta g1 = g_meta s.1 ∧ handle svc ledger entropy call id g1 = (Ok rep, g') ∧
    rp_Body rep = b ∧ s' = (g', s.2).
Proof.
  intros Hk (rep&g'&Hs&Hb&->)%ask_ok. unfold serve in Hs.
  destruct (gated_key now svc limit (route call) (request c false remote) call
    (handle svc ledger entropy call) s.1 Hk) as [(e&g2&Hx&_)|(id&g1&_&Hm&Hx)].
  - rewrite Hx in Hs. done.
  - rewrite Hx in Hs. by exists id, g1, rep, g'.
Qed.

Lemma meta_ok {A} (m : M S call_error A) g a g' :
  meta m g = (Ok a, g') → ∃ s', m (g_meta g) = (Ok a, s') ∧ g_meta g' = s'.
Proof. unfold meta. destruct (m (g_meta g)) as [[x|e] s']; intros [= <- <-]. by exists s'. Qed.
End gate.

(** ** The four requests of a transfer *)

Lemma on_world_ok {A} (m : service A) p a p' :
  on_world m p = (Ok a, p') → m (pf_world p) = (Ok a, pf_world p').
Proof.
  unfold on_world. destruct (m (pf_world p)) as [[x|e] w]; [|done]. intros [= <- <-].
  by destruct w.
Qed.

Lemma take_incl {A} n (l : list A) x : x ∈ take n l → x ∈ l.
Proof. intros (i&Hi&_)%elem_of_take. by eapply list_elem_of_lookup_2. Qed.

Lemma on_store_read {A} (m : store A) p a p' :
  (∀ d, (m d).2 = d) → on_store m p = (Ok a, p') → (m (pf_db p)).1 = Ok a ∧ pf_db p' = pf_db p.
Proof.
  intros Hm. unfold on_store, on_registry, on_db, pf_db. specialize (Hm (r_db (pf_reg p))).
  destruct (m (r_db (pf_reg p))) as [x d]. cbn in Hm. subst d.
  destruct x as [x|e]; intros [= <- <-]; done.
Qed.

Section platform.
Context {N : Type} `{UuidTextLaws, Argon2, Ed25519, PlacerLaws} (now : Z) (priv : bytes)
  (random : nat → option bytes) (quota : option (uuid → service unit))
  (IssueNode : option (bytes → uuid → string → option Issued)).

Abbreviation store_service := (StoreService now priv random quota IssueNode).

Context (svc : Service Platform) {relays : Relays svc store_service}
  (limit : Limiter) (ledger : option (LedgerClient Platform)) (entropy : option bytes)
  (net : Call → Delivery) (remote : string).

Abbreviation ask := (@Command.do Platform N _ now svc limit ledger entropy net remote).

(** The database and the world behind a gateway. *)
Definition gw_db (g : Front Platform) : DB := pf_db (g_meta g).
Definition gw_world (g : Front Platform) : World := pf_world (g_meta g).

Lemma upload_asked c jm m s p s' :
  decodeUploadManifest (Some jm) = Some m → ask c false (PostUpload (Some jm)) s = (Ok (BPlan p), s') →
  ∃ user p0, PlanUpload priv now random quota user m (gw_world s.1) = (Ok p0, gw_world s'.1) ∧
    pr_UploadID p = pr_UploadID p0 ∧ pr_FileID p = pr_FileID p0.
Proof.
  intros Hdec (id&g1&rep&g'&Hg1&Hh&Hb&->)%ask_handled; [|apply _|by right].
  cbn [handle] in Hh. unfold handlePlanUpload in Hh. rewrite Hdec in Hh.
  apply bind_ok in Hh as (m'&g2&Hm&Hh). injection Hm as <- <-.
  apply bind_ok in Hh as (p0&g2&Hp&Hh). apply meta_ok in Hp as (s2&Hp&Hg2). injection Hh as <- <-.
  apply decodeUploadManifest_ranges in Hdec as (Hwf&Hr&_).
  apply (rl_PlanUpload (Relays := relays)) in Hp as [user Hp]; [|done..]. apply on_world_ok in Hp.
  cbn in Hb. injection Hb as <-. exists user, p0. unfold gw_world. cbn [fst]. by rewrite <- Hg1, Hg2.
Qed.

Lemma commit_asked c id recs s b s' :
  ask c false (PostCommit (uuid_String id) (Some recs)) s = (Ok b, s') →
  ∃ x user r, uuid_Parse (uuid_String id) = Some x ∧
    Metadata.CommitUpload now user x recs (gw_world s.1) = (Ok r, gw_world s'.1).
Proof.
  intros (who&g1&rep&g'&Hg1&Hh&Hb&->)%ask_handled; [|apply _|by right].
  cbn [handle] in Hh. unfold handleCommitUpload, param_id in Hh.
  destruct (uuid_Parse (uuid_String id)) as [x|] eqn:Hx; [|done].
  apply bind_ok in Hh as (y&g2&Hy&Hh). injection Hy as <- <-.
  apply bind_ok in Hh as (y&g2&Hy&Hh). injection Hy as <- <-.
  apply bind_ok in Hh as (cm&g2&Hp&Hh). apply meta_ok in Hp as (s2&Hp&Hg2). injection Hh as <- <-.
  apply (rl_CommitUpload (Relays := relays)) in Hp as [user Hp]; [|by eapply uuid_Parse_wf].
  cbn [StoreService sv_CommitUpload] in Hp.
  unfold svc_CommitUpload in Hp. apply bind_ok in Hp as ([f v]&s3&Hp&Hr). injection Hr as _ <-.
  apply on_world_ok in Hp. exists x, user, (f, v). unfold gw_world. cbn [fst]. by rewrite <- Hg1, Hg2.
Qed.

Lemma files_asked c bucket prefix cursor lim s fs next s' :
  uuid_wf bucket → ask c false (GetFiles (uuid_String bucket) prefix cursor lim) s = (Ok (BFiles fs next), s') →
  gw_db s'.1 = gw_db s.1 ∧
  ∃ fs', same_rows fs fs' ∧ ∀ f, f ∈ fs' → f ∈ db_files (gw_db s.1) ∧ f_BucketID f = bucket ∧ f_DeletedAt f = None.
Proof.
  intros Hid (who&g1&rep&g'&Hg1&Hh&Hb&->)%ask_handled; [|apply _|by left].
  cbn [handle] in Hh. unfold handleListFiles, param_id in Hh. rewrite uuid_Parse_String in Hh by done.
  apply bind_ok in Hh as (x&g2&Hx&Hh). injection Hx as <- <-.
  apply bind_ok in Hh as ([fs0 next0]&g2&Hp&Hh). apply meta_ok in Hp as (s2&Hp&Hg2). injection Hh as <- <-.
  apply (rl_ListFiles (Relays := relays)) in Hp as (user&lim'&fs'&Hsame&Hp); [|done].
  cbn [StoreService sv_ListFiles] in Hp.
  apply on_store_read in Hp as [Hp Hdb].
  2:{ intros d. unfold ListFiles, mbind, M_bind.
      destruct (BucketByID user bucket d) as [[b|e] d0] eqn:Hb0; unfold BucketByID in Hb0; by injection Hb0 as _ <-. }
  injection Hb as <- _. unfold gw_db. cbn [fst]. rewrite Hg2, Hdb, Hg1. split; [done|].
  exists fs'. split; [done|]. intros f Hf. rewrite Hg1 in Hp.
  destruct (ListFiles user bucket prefix cursor lim' (pf_db (g_meta s.1))) as [r d] eqn:Hl. cbn in Hp. subst r.
  unfold ListFiles in Hl. apply bind_ok in Hl as (b&d0&Hb0&Hl).
  assert (d0 = pf_db (g_meta s.1)) as -> by (unfold BucketByID in Hb0; congruence).
  apply gets_ok in Hl as [Hl _]. set (rows := take _ (order_by _ _)) in Hl.
  assert (f ∈ rows) as Hrow.
  { destruct (_ <? length rows)%nat; injection Hl as -> _; [|done]. by eapply take_incl. }
  unfold rows in Hrow. apply take_incl in Hrow. rewrite elem_of_order_by in Hrow.
  apply list_elem_of_filter in Hrow as [Hrow Hin]. apply andb_true_iff in Hrow as [Hrow _].
  unfold listed in Hrow. apply andb_true_iff in Hrow as [Hrow _].
  apply andb_true_iff in Hrow as [?%bool_decide_eq_true ?%bool_decide_eq_true]. done.
Qed.

Lemma download_asked c id s d s' :
  uuid_wf id → ask c false (GetDownload (uuid_String id)) s = (Ok (BDownload d), s') →
  ∃ user, PlanDownload priv now random user id (gw_world s.1) = (Ok d, gw_world s'.1).
Proof.
  intros Hid (who&g1&rep&g'&Hg1&Hh&Hb&->)%ask_handled; [|apply _|by left].
  cbn [handle] in Hh. unfold handlePlanDownload, param_id in Hh. rewrite uuid_Parse_String in Hh by done.
  apply bind_ok in Hh as (x&g2&Hx&Hh). injection Hx as <- <-.
  apply bind_ok in Hh as (d0&g2&Hp&Hh). apply meta_ok in Hp as (s2&Hp&Hg2). injection Hh as <- <-.
  apply (rl_PlanDownload (Relays := relays)) in Hp as [user Hp]; [|done]. apply on_world_ok in Hp.
  injection Hb as <-. exists user. unfold gw_world. cbn [fst]. by rewrite <- Hg1, Hg2.
Qed.
End platform.

(** ** Putting *)

(** A request to the nodes, which keep a state of their own. *)
Definition on_nodes {G N A} (m : M N cli_error A) : M (G * N) cli_error A := λ s,
  let '(r, n) := m s.2 in (r, (s.1, n)).

Lemma expect_ok {S N A} (f : Body → option A) (m : M (Front S * N) cli_error Body) s a s' :
  expect f m s = (Ok a, s') → ∃ b, m s = (Ok b, s') ∧ f b = Some a.
Proof.
  unfold expect. intros (b&s1&Hm&H)%bind_ok. destruct (f b) as [x|] eqn:Hf; [|done].
  injection H as <- <-. by exists b.
Qed.

Lemma puts_keep_front {G N} (api : Api (G * N)) chunks node_put ps acc s r s' :
  (∀ p b, Transfer.putFragment api p b = on_nodes (node_put p b)) →
  for_fold (put_one api chunks) acc ps s = (r, s') → s'.1 = s.1.
Proof.
  intros Hput. revert acc s. induction ps as [|p ps IH]; intros acc s; cbn [for_fold]; [by intros [= <- <-]|].
  unfold mbind at 1, M_bind at 1. destruct (put_one api chunks acc p s) as [[acc'|e] s1] eqn:Hp.
  - intros ->%IH. unfold put_one, attempt, mbind, M_bind in Hp. rewrite Hput in Hp. unfold on_nodes in Hp.
    destruct (node_put _ _ s.2) as [x n]. destruct acc. by injection Hp as _ <-.
  - intros [= <- <-]. unfold put_one, attempt, mbind, M_bind in Hp.
    destruct (Transfer.putFragment api p _ s) as [x n]. by destruct acc.
Qed.

(** The steps of a put that succeeded. *)
Lemma cmdPut_ok {W} `{UuidText, Aead, Argon2, MetaJson, ReedSolomon} (api : Api W) env put_order
    local remote bucket path bid f b s s' :
  cmdPut api env put_order [local; remote] s = (Ok b, s') →
  splitRemote remote = Ok (bucket, path) → env_parse env bucket = Some bid → env_open env local = Some f →
  ∃ jm chunks upload pls s1 receipts m s2,
    prepare env f (Z.of_nat (length (rd_data f))) bid path = Ok (jm, chunks) ∧
    api_upload api jm s = (Ok (upload, pls), s1) ∧
    for_fold (put_one api chunks) ([], ∅) (put_order pls) s1 = (Ok (receipts, m), s2) ∧
    api_commit api upload receipts s2 = (Ok b, s').
Proof.
  unfold cmdPut. intros Hrun Hr Hbid Hopen. rewrite Hr in Hrun.
  apply bind_ok in Hrun as ([b0 p0]&s0&Hx&Hrun). injection Hx as <- <- <-.
  apply bind_ok in Hrun as ([]&s0&Hx&Hrun). apply guard_ok in Hx as [_ ->].
  unfold resolveBucket in Hrun. rewrite Hbid in Hrun.
  apply bind_ok in Hrun as (x&s0&Hx&Hrun). injection Hx as <- <-. rewrite Hopen in Hrun.
  apply bind_ok in Hrun as (x&s0&Hx&Hrun). injection Hx as <- <-.
  apply bind_ok in Hrun as ([jm chunks]&s0&Hx&Hrun). injection Hx as Hprep <-.
  apply bind_ok in Hrun as ([upload pls]&s1&Hup&Hrun).
  apply bind_ok in Hrun as ([]&s0&Hx&Hrun). apply guard_ok in Hx as [_ ->].
  apply bind_ok in Hrun as ([receipts m]&s2&Hputs&Hrun).
  apply bind_ok in Hrun as ([]&s0&Hx&Hrun). apply guard_ok in Hx as [_ ->].
  exists jm, chunks, upload, pls, s1, receipts, m, s2. by split_and!.
Qed.

(** The sequence numbers of a cut are those of the list. *)
Lemma cut_increasing `{ReedSolomon} c chunks :
  cut c chunks → StronglySorted (λ x y, mc_Seq x < mc_Seq y) (man_entry <$> chunks).
Proof.
  intros Hcut. assert (∀ i ch, chunks !! i = Some ch → ci_Seq (cb_info ch) = Z.of_nat i) as Hseq.
  { intros i ch Hi. destruct (Forall2_lookup_r _ _ _ _ _ Hcut Hi) as (x&Hx&Hinfo&_). rewrite Hinfo.
    unfold numbered in Hx. rewrite list_lookup_imap in Hx. apply fmap_Some in Hx as (b&_&->).
    cbn. lia. }
  clear Hcut. assert (∀ k, (∀ i ch, chunks !! i = Some ch → ci_Seq (cb_info ch) = Z.of_nat (k + i)) →
    StronglySorted (λ x y, mc_Seq x < mc_Seq y) (man_entry <$> chunks)) as Hgen; [|by apply (Hgen O)].
  clear Hseq. induction chunks as [|ch chunks IH]; intros k Hk; [constructor|]. cbn. constructor.
  - apply (IH (S k)). intros i x Hi. rewrite (Hk (S i) x Hi). lia.
  - apply Forall_fmap, Forall_forall. intros x [i Hi]%list_elem_of_lookup. cbn.
    rewrite (Hk O ch), (Hk (S i) x Hi) by done. lia.
Qed.

Lemma decode_content `{UuidText} jm m :
  decodeUploadManifest (Some jm) = Some m → hex_decode (jm_ContentSHA256 jm) = Some (m_ContentSHA256 m).
Proof.
  unfold decodeUploadManifest. cbn [mbind option_bind]. destruct (uuid_Parse _); [|done]. cbn [mbind option_bind].
  destruct (hex_decode _); [|done]. cbn [mbind option_bind]. destruct (mapM _ _); [|done]. by intros [= <-].
Qed.

(** However the path of [dsp get] garbles its query, the bucket arrives. *)
Lemma get_query_bucket `{UuidPlain} bid path q :
  uuid_wf bid → get_query (id_text bid) path = Some q →
  ∃ prefix cursor lim, files_call q = GetFiles (uuid_String bid) prefix cursor lim.
Proof.
  intros Hwf Hq. unfold files_call. eexists _, _, _. f_equal.
  unfold get_query in Hq. change (chars "bucket_id=") with (chars "bucket_id" ++ ["="%char]) in Hq.
  change (chars "&prefix=") with ("&"%char :: chars "prefix=") in Hq. rewrite <- !app_assoc in Hq. cbn [app] in Hq.
  erewrite (raw_query_first (chars "bucket_id")); [|by repeat constructor|by apply uuid_plain|exact Hq].
  rewrite unchars_chars. apply bytes_text_bytes.
Qed.

Section transfers.
Context {N : Type} `{UuidTextLaws, !UuidPlain, AeadLaws, Argon2Laws, MetaJsonLaws, ReedSolomonLaws, Ed25519, PlacerLaws}.

(** What the database holds of the file that was put. *)
Definition put_into (d : DB) (bid file v : uuid) (path : string) (jm : JManifest) (chunks : list chunkBuf) : Prop :=
  ∃ m, decodeUploadManifest (Some jm) = Some m ∧ m_BucketID m = bid ∧ m_Chunks m = man_entry <$> chunks ∧
    jm_ContentSHA256 jm = hex_encode (m_ContentSHA256 m) ∧ jm_EncryptionMeta jm = m_EncryptionMeta m ∧
    holds d file v path m ∧ hosted d ∧ current d file v.

(** A deployment: the clock and secrets of the metadata service, what the
    gateway calls it through, and what the client reaches the gateway by. *)
Record Deployment := MkDeployment {
  dp_now : Z; dp_priv : bytes; dp_random : nat → option bytes; dp_quota : option (uuid → service unit);
  dp_issue : option (bytes → uuid → string → option Issued);
  dp_svc : Service Platform; dp_limit : Limiter; dp_ledger : option (LedgerClient Platform);
  dp_entropy : option bytes; dp_net : Call → Delivery; dp_remote : string; dp_client : client;
  dp_put : PlannedPlacement → bytes → M N cli_error bytes;
  dp_get : JDownloadFragment → M N cli_error (bytes * bytes) }.

Definition dp_store (D : Deployment) : Service Platform :=
  StoreService (dp_now D) (dp_priv D) (dp_random D) (dp_quota D) (dp_issue D).

Definition deployed (D : Deployment) : Api (Front Platform * N) :=
  gateway_api (dp_now D) (dp_svc D) (dp_limit D) (dp_ledger D) (dp_entropy D) (dp_net D) (dp_remote D) (dp_client D)
    (λ p b, on_nodes (dp_put D p b)) (λ fr, on_nodes (dp_get D fr)).

(** The gateway calls the metadata service of the deployment, whose quota check
    only looks. *)
Record sound (D : Deployment) : Prop := {
  so_relays : Relays (dp_svc D) (dp_store D);
  so_quota : quota_reads (dp_quota D) }.

(** A put that succeeds at a free path. *)
Lemma put_uploaded (D : Deployment) env put_order local remote bucket path bid f answer s s' :
  sound D → cmdPut (deployed D) env put_order [local; remote] s = (Ok answer, s') →
  splitRemote remote = Ok (bucket, path) → env_parse env bucket = Some bid → uuid_wf bid →
  env_open env local = Some f → db_ok (gw_db s.1) → NormalizePath path = Ok path →
  existsb (live_file_at bid path) (db_files (gw_db s.1)) = false →
  (db_next_uuid (gw_db s'.1) ≤ 2 ^ 128)%N →
  ∃ jm chunks file v, prepare env f (Z.of_nat (length (rd_data f))) bid path = Ok (jm, chunks) ∧
    put_into (gw_db s'.1) bid file v path jm chunks.
Proof.
  intros [Hrel Hq] Hrun Hr Hbid Hwf Hopen Hok Hpath Hfree Hnext.
  eapply cmdPut_ok in Hrun as (jm&chunks&upload&pls&s1&receipts&mm&s2&Hprep&Hup&Hputs&Hcom); [|done..].
  destruct (put_manifest env f _ bid path jm chunks Hwf Hprep) as (fk&prefix&em&Hrelay&_&_&Hcut&_).
  rewrite relay_lossless in Hrelay. set (m := MkManifest _ _ _ _ _ _ _ _ _) in Hrelay.
  exists jm, chunks. assert (s2.1 = s1.1) as Hfront by (eapply (puts_keep_front (deployed D) chunks (dp_put D)); [done|exact Hputs]).
  cbn [deployed gateway_api api_upload] in Hup. apply expect_ok in Hup as (b&Hup&Hb).
  destruct b; try done. injection Hb as Hu _.
  eapply (upload_asked _ _ _ _ _ _ (relays := Hrel)) in Hup as (user&p0&Hplan&Hpu&Hpf); [|exact Hrelay].
  eapply PlanUpload_new in Hplan as (Hh&Hho&Hpend); [|apply _|exact Hq|exact Hok|exact Hpath|exact Hfree].
  rewrite <- Hpu, Hu in Hh, Hpend. cbn [deployed gateway_api api_commit] in Hcom.
  eapply (commit_asked _ _ _ _ _ _ (relays := Hrel)) in Hcom as (x&user'&r&Hx&Hcom).
  change (w_db (gw_world ?g)) with (gw_db g) in *. rewrite <- Hfront in Hh, Hho, Hpend.
  assert (uuid_wf upload) as Hup.
  { pose proof (CommitUpload_next _ _ _ _ _ _ _ Hcom) as Hn. change (w_db (gw_world ?g)) with (gw_db g) in Hn.
    destruct (hd_below _ _ _ _ _ Hh) as [Hb _]. unfold below in Hb. unfold uuid_wf. lia. }
  rewrite uuid_Parse_String in Hx by done. injection Hx as <-.
  eapply CommitUpload_current in Hcom as (Hh'&Hho'&Hcur); [|exact Hh|exact Hpend|exact Hho].
  exists (pr_FileID p0), upload. split; [done|]. exists m. split_and!; try done.
  apply prepare_uploads in Hprep as (_&fk'&prefix'&em'&_&_&_&_&_&_&Hjm).
  apply (f_equal jm_ContentSHA256) in Hjm. cbn [jm_ContentSHA256] in Hjm.
  apply decode_content in Hrelay. rewrite Hjm, hex_decode_encode in Hrelay. apply (inj Some) in Hrelay as Hsha.
  rewrite Hjm. cbn [m_ContentSHA256 m]. by rewrite Hsha.
Qed.

(** ** Getting *)

(** What may have happened since: everything but to the tables of files, and
    every placement's node is still there. *)
Definition kept (d d' : DB) : Prop :=
  holds_tables d' = holds_tables d ∧ db_placements d' = db_placements d ∧ db_buckets d' = db_buckets d ∧ hosted d'.

Lemma put_into_kept d d' bid file v path jm chunks :
  kept d d' → put_into d bid file v path jm chunks → put_into d' bid file v path jm chunks.
Proof.
  intros (Ht&Hp&_&Hho) (m&?&?&?&?&?&Hh&_&[C1 C2 C3]). exists m. split_and!; try done; [by eapply holds_tables_eq|].
  unfold holds_tables in Ht. injection Ht as Hf Hv Hc Hfr _. split.
  - by rewrite Hf.
  - by rewrite Hv.
  - unfold chunk_rows, fragment_rows in *. rewrite Hc, Hfr. intros c Hin Hne.
    rewrite (stored_copies_ext d d') by done. auto.
Qed.

Lemma find_file_rows path fs fs' : same_rows fs fs' → find_file path fs = find_file path fs'.
Proof.
  intros [->| ->]; [done|]. unfold find_file. induction fs' as [|f fs' IH]; [done|]. cbn.
  by destruct (bool_decide (f_Path f = path) && negb (f_IsFolder f)).
Qed.

Lemma find_file_some path fs id :
  find_file path fs = Some id → ∃ f, f ∈ fs ∧ f_Path f = path ∧ f_ID f = id.
Proof.
  unfold find_file. destruct (List.find _ fs) as [f|] eqn:Hf; [|done]. cbn. case_bool_decide; [done|]. intros [= <-].
  apply find_some in Hf as [Hin [Hp%bool_decide_eq_true _]%andb_true_iff]. exists f. split; [by apply list_elem_of_In|done].
Qed.

Section got.
Context (D : Deployment) (D_sound : sound D).

Lemma ask_err c b call (s : Front Platform * N) e s' :
  Command.do (dp_now D) (dp_svc D) (dp_limit D) (dp_ledger D) (dp_entropy D) (dp_net D) (dp_remote D) c b call s
    = (Err e, s') → e = CliApi.
Proof.
  unfold Command.do. destruct (serve _ _ _ _ _ _ _ _) as [[rep|er] g']; destruct (dp_net D call); by intros [= <- _].
Qed.

Lemma expect_err {A} (f : Body → option A) c b call (s : Front Platform * N) e s' :
  expect f (Command.do (dp_now D) (dp_svc D) (dp_limit D) (dp_ledger D) (dp_entropy D) (dp_net D) (dp_remote D) c b call) s
    = (Err e, s') → e = CliApi.
Proof.
  unfold expect, mbind, M_bind. destruct (Command.do _ _ _ _ _ _ _ _ _ _ s) as [[x|e0] s1] eqn:Hd.
  - destruct (f x); [done|]. by intros [= <- _].
  - intros [= <- _]. by eapply ask_err.
Qed.

Lemma files_err bid path s e s' : api_files (deployed D) bid path s = (Err e, s') → e = CliApi.
Proof.
  cbn [deployed gateway_api api_files]. unfold api_put_files, mbind at 1, M_bind at 1.
  destruct (get_query _ _) as [q|]; [|by intros [= <- _]]. cbn [lift of_option]. apply expect_err.
Qed.
(** A listing that shows a file at the path shows the one that was put. *)
Lemma files_find d bid file v path jm chunks s fs s' id :
  put_into d bid file v path jm chunks → gw_db s.1 = d → uuid_wf bid →
  api_files (deployed D) bid path s = (Ok fs, s') → find_file path fs = Some id →
  id = file ∧ gw_db s'.1 = d.
Proof.
  intros (m&_&Hbm&_&_&_&Hh&_&_) Hd Hwf Hfs Hfind. cbn [deployed gateway_api api_files] in Hfs.
  unfold api_put_files in Hfs. apply bind_ok in Hfs as (q&s1&Hq&Hfs).
  destruct (get_query _ _) as [q'|] eqn:Hgq; [|done]. injection Hq as <- <-.
  apply get_query_bucket in Hgq as (prefix&cursor&lim&Hcall); [|done]. rewrite Hcall in Hfs.
  apply expect_ok in Hfs as (b&Hdo&Hb). destruct b; try done. injection Hb as ->.
  destruct D_sound as [Hrel _].
  eapply (files_asked _ _ _ _ _ _ (relays := Hrel)) in Hdo as (Hsame&fs'&Hrows&Hin); [|done].
  split; [|congruence]. rewrite (find_file_rows _ _ _ Hrows) in Hfind.
  apply find_file_some in Hfind as (f&Hf&Hp&<-). apply Hin in Hf as (Hf&Hfb&Hfd).
  apply (hd_only _ _ _ _ _ Hh f); [by rewrite <- Hd|]. unfold live_file_at. by rewrite !bool_decide_eq_true_2 by congruence.
Qed.

(** The plan for it is a plan for the upload. *)
Lemma download_plan_for d bid file v path jm chunks c s dl s' :
  put_into d bid file v path jm chunks → cut c chunks → gw_db s.1 = d → uuid_wf file →
  api_download (deployed D) file s = (Ok dl, s') → plan_for jm chunks dl.
Proof.
  intros (m&_&_&Hm&Hsha&Hmeta&Hh&Hho&Hcur) Hcut Hd Hwf Hdl. cbn [deployed gateway_api api_download] in Hdl.
  apply expect_ok in Hdl as (b&Hdo&Hb). destruct b; try done. injection Hb as <-.
  destruct D_sound as [Hrel _].
  eapply (download_asked _ _ _ _ _ _ (relays := Hrel)) in Hdo as [user Hplan]; [|done].
  eapply PlanDownload_offers in Hplan as (Hs&He&HF); [|rewrite <- Hd in Hh; exact Hh|rewrite <- Hd in Hho; exact Hho|
    rewrite <- Hd in Hcur; exact Hcur|rewrite Hm; by eapply cut_increasing].
  split_and!; cbn [downloadJSON jd_ContentSHA256 jd_EncryptionMeta jd_Chunks]; [congruence..|].
  rewrite Hm in HF. apply (Forall2_fmap_l man_entry) in HF. apply Forall2_fmap_r. eapply Forall2_impl; [exact HF|].
  intros ch dch (Hcs&Hcz&Hfr). cbn [jdc_SHA256 jdc_SizeBytes jdc_Fragments].
  split_and!; [exact (f_equal hex_encode Hcs)|exact Hcz|].
  intros fr (df&->&Hdf)%list_elem_of_fmap. cbn [jdf_ShardIndex jdf_SHA256].
  apply Hfr in Hdf as (mf&Hmf&->&->). cbn [man_entry mc_Fragments] in Hmf.
  apply list_elem_of_lookup in Hmf as [i Hi]. rewrite list_lookup_imap in Hi.
  apply fmap_Some in Hi as (sh&Hsh&->). cbn [mf_ShardIndex mf_SHA256]. split; [lia|].
  exists sh. by rewrite Nat2Z.id.
Qed.

(** A get fails before it has a plan only for want of an answer or of the path. *)
Lemma get_planned env get_order remote dest bucket path bid s :
  splitRemote remote = Ok (bucket, path) → env_parse env bucket = Some bid → env_pass env ≠ [] →
  let r := (cmdGet (deployed D) env get_order [remote; dest] s).1 in
  r = Err CliApi ∨ r = Err CliNotFound ∨
  ∃ fs file dl s1 s2, api_files (deployed D) bid path s = (Ok fs, s1) ∧ find_file path fs = Some file ∧
    api_download (deployed D) file s1 = (Ok dl, s2).
Proof.
  intros Hr Hb Hne r. unfold r, cmdGet. rewrite Hr, (bind_run (lift _) _ s (bucket, path) s) by done.
  rewrite bool_decide_eq_false_2 by done. unfold guard_err. rewrite ret_bind. unfold resolveBucket.
  rewrite Hb, ret_bind. destruct (api_files (deployed D) bid path s) as [[fs|e] s1] eqn:Hfs.
  2:{ left. rewrite (bind_err _ _ _ _ _ Hfs). by rewrite (files_err _ _ _ _ _ Hfs). }
  rewrite (bind_run _ _ _ _ _ Hfs). destruct (find_file path fs) as [file|] eqn:Hfind; [|by right; left].
  rewrite (bind_run (lift _) _ s1 file s1) by done.
  destruct (api_download (deployed D) file s1) as [[dl|e] s2] eqn:Hdl.
  - right. right. by exists fs, file, dl, s1, s2.
  - left. rewrite (bind_err _ _ _ _ _ Hdl). cbn [deployed gateway_api api_download] in Hdl.
    by rewrite (expect_err _ _ _ _ _ _ _ Hdl).
Qed.
End got.

(** The listing shows the path as [file], whose download plan is [dl]. *)
Definition planned {W} (api : Api W) (bid : uuid) (path : string) (file : uuid) (s : W) (dl : JDownload) (s2 : W) : Prop :=
  ∃ fs s1, api_files api bid path s = (Ok fs, s1) ∧ find_file path fs = Some file ∧
    api_download api file s1 = (Ok dl, s2).

(** C1: A file that was put comes back: when [dsp put] has reported success at a
    free path, then whatever happens afterwards to the nodes and to the tables
    that do not describe files, [dsp get] with the same passphrase and room to
    write either reports that the gateway refused or did not answer, or that the
    listing does not show the path; or it has a download plan, and then, unless
    some node answers other bytes with the hash of a shard of the file, it leaves
    exactly the bytes that were put or reports too few shards and creates
    nothing, and it succeeds when ten different shards of each chunk are
    answered, in whatever order.  The gateway may call the metadata service in
    process or over HTTP, and every network may lose messages. *)
Theorem put_then_get (P G : Deployment) putter getter put_order get_order local dest remote bucket path bid f answer s s1 s2 :
  sound P → sound G →
  cmdPut (deployed P) putter put_order [local; remote] s = (Ok answer, s1) →
  splitRemote remote = Ok (bucket, path) → NormalizePath path = Ok path → uuid_wf bid →
  env_parse putter bucket = Some bid → env_open putter local = Some f →
  db_ok (gw_db s.1) → existsb (live_file_at bid path) (db_files (gw_db s.1)) = false →
  (db_next_uuid (gw_db s1.1) ≤ 2 ^ 128)%N → kept (gw_db s1.1) (gw_db s2.1) →
  env_parse getter bucket = Some bid → env_pass getter = env_pass putter → env_pass getter ≠ [] →
  env_ca getter = true → env_dest getter dest = Some None → (∀ frs, get_order frs ≡ₚ frs) →
  let r := (cmdGet (deployed G) getter get_order [remote; dest] s2).1 in
  r = Err CliApi ∨ r = Err CliNotFound ∨
  ∃ jm chunks file dl s3, prepare putter f (Z.of_nat (length (rd_data f))) bid path = Ok (jm, chunks) ∧
    planned (deployed G) bid path file s2 dl s3 ∧
    let answers := chunk_runs (deployed G) get_order (jd_Chunks dl) s3 in
    Forall2 unforged (cb_shards <$> chunks) answers →
    (r = Err CliShards ∨ r = Ok (Some (rd_data f), Ok tt)) ∧
    (Forall2 reachable (cb_shards <$> chunks) answers → r = Ok (Some (rd_data f), Ok tt)).
Proof.
  intros HP HG Hput Hr Hnorm Hwf Hbp Hopen Hok Hfree Hnext Hkept Hbg Hpass Hne Hca Hdest Hperm r.
  eapply put_uploaded in Hput as (jm&chunks&file&v&Hprep&Hinto); [|done..].
  assert (uuid_wf file) as Hfwf.
  { destruct Hinto as (m&_&_&_&_&_&Hh&_&_). destruct (hd_below _ _ _ _ _ Hh) as [_ Hb].
    unfold below in Hb. unfold uuid_wf. lia. }
  eapply put_into_kept in Hinto; [|exact Hkept].
  destruct (put_manifest putter f _ bid path jm chunks Hwf Hprep) as (fk&prefix&em&_&_&_&Hcut&_).
  destruct (get_planned G getter get_order remote dest bucket path bid s2 Hr Hbg Hne)
    as [?|[?|(fs&id&dl&s3&s4&Hfs&Hfind&Hdl)]]; [by left|by right; left|right; right].
  destruct (files_find G HG _ _ _ _ _ _ _ _ _ _ _ Hinto eq_refl Hwf Hfs Hfind) as [-> Hd].
  exists jm, chunks, file, dl, s4. split_and!; [done|by exists fs, s3|]. intros answers Hun.
  eapply (get_returns_put (deployed G) putter getter get_order f _ bid path jm chunks remote dest bucket);
    try done. by eapply (download_plan_for G HG).
Qed.
End transfers.
