(* ===== verification/Witnesses.v ===== *)
(** * Concrete runs

    For every theorem with hypotheses, an input where they hold, and the
    theorem applied there.  The inputs are small databases over the scene of
    [Metadata] and the toy signature scheme of [Tickets]. *)

From S2P Require Import Prelude GoFloat Bytes Sha256 Schema Nodes World Placements Files Uploads.
From S2P Require Import PlacementLifecycle Scheduler Health Apierr Tickets Receipts Agent.
From S2P Require Import Crypto.
From S2P Require Import Challenges Ledger Accrual LedgerViews Reconciliation Invariants Metadata RepairPlan Workers Auditing Repair.

#[local] Existing Instance ToyEd25519.scheme.
#[local] Existing Instance ToyEd25519.laws.
Import Metadata.Scene.

(** ** The store *)

Definition two_copies : DB := db 1 [copy 1 30 1 PStored; copy 2 31 2 PStored].

Lemma MarkPlacementsLostByNode_witness :
  let '(out, d') := MarkPlacementsLostByNode 5 (Uuid 1) two_copies in
  lp_PlacementID <$> out = [1] ∧ ChunkHealth (Uuid 20) d' = 0.
Proof.
  destruct (MarkPlacementsLostByNode 5 (Uuid 1) two_copies) as [out d'] eqn:H.
  pose proof (MarkPlacementsLostByNode_spec 5 (Uuid 1) two_copies out d' H) as (H1&_&_&_&H5).
  split; [rewrite H1|rewrite H5]; vm_compute; reflexivity.
Defined.

Lemma SoftDeleteFile_witness :
  (SoftDeleteFile 5 user file two_copies).1 = Ok tt ∧
  ∃ f, f ∈ db_files two_copies ∧ f_ID f = file ∧ f_DeletedAt f = None.
Proof.
  assert (H : SoftDeleteFile 5 user file two_copies = (Ok tt, (SoftDeleteFile 5 user file two_copies).2))
    by (vm_compute; reflexivity).
  split; [rewrite H; reflexivity|].
  destruct (SoftDeleteFile_spec 5 user file two_copies _ H) as (f&H1&H2&H3&_).
  exists f. repeat split; assumption.
Defined.

Lemma RenameFile_witness :
  NoDup (f_ID <$> db_files two_copies) ∧
  match RenameFile 5 user file "/g" two_copies with
  | (Err _, d') => d' = two_copies
  | (Ok g, d') => ∃ f p, NormalizePath "/g" = Ok p ∧ f ∈ db_files two_copies ∧ f_ID f = file
  end.
Proof.
  assert (H : NoDup (f_ID <$> db_files two_copies)) by (repeat constructor; apply not_elem_of_nil).
  split; [exact H|]. pose proof (RenameFile_spec 5 user file "/g" two_copies H) as Hr.
  destruct (RenameFile 5 user file "/g" two_copies) as [[g|e] d']; [|exact Hr].
  destruct Hr as (f&p&H1&H2&H3&_). exists f, p. repeat split; assumption.
Defined.

Lemma NormalizePath_witness :
  NormalizePath "/a/b/" = Ok "/a/b"%string ∧ ∃ ws, ws ≠ [] ∧ chars "/a/b" = List.concat ((λ w, slash :: w) <$> ws).
Proof.
  assert (H : NormalizePath "/a/b/" = Ok "/a/b"%string) by (vm_compute; reflexivity).
  split; [exact H|]. destruct (NormalizePath_canonical _ _ H) as (ws&H1&H2&_).
  exists ws. split; assumption.
Defined.

(** A pending version whose only chunk has fourteen stored copies. *)
Definition fourteen : list Placement :=
  (λ i, MkPlacement (Z.of_nat i) (Uuid (100 + N.of_nat i)) (Uuid 1) PPending None None None) <$> seq 0 14.
Definition pending_db : DB :=
  upd_db_chunks (λ _, [MkChunk (Uuid 20) version 0 4 sha])
    (upd_db_fragments (λ _, (λ i, MkFragment (Uuid (100 + N.of_nat i)) (Uuid 20) (Z.of_nat i) 4 sha) <$> seq 0 14)
       (upd_db_versions (λ _, [MkFileVersion version file 1 8 sha [] 4 10 6 VPending 0 None])
          (db 1 fourteen))).

Lemma CommitUpload_witness :
  match Uploads.CommitUpload 5 user version (pl_FragmentID <$> fourteen) pending_db with
  | (Err _, _) => False
  | (Ok (_, v), _) => v_Status v = VCommitted ∧ v_ID v = version
  end.
Proof.
  assert (Hok : is_ok (Uploads.CommitUpload 5 user version (pl_FragmentID <$> fourteen) pending_db).1 = true)
    by (vm_compute; reflexivity).
  destruct (Uploads.CommitUpload 5 user version (pl_FragmentID <$> fourteen) pending_db) as [r d'] eqn:H.
  pose proof (CommitUpload_spec 5 user version _ pending_db r d' H) as Hs.
  destruct r as [[f v]|e]; [|discriminate Hok]. destruct Hs as (H1&H2&_). split; assumption.
Defined.

Definition manifest : UploadManifest :=
  MkManifest bucket "/new" 4 sha [] 4 10 6
    [MkManifestChunk 0 4 sha ((λ i, MkManifestFragment (Z.of_nat i) 4 sha) <$> seq 0 16)].
Definition fresh_db : DB := db 1 [].

Lemma BeginUpload_witness :
  match BeginUpload 5 user manifest fresh_db with
  | (Ok pu, d1) => BeginUpload 6 user manifest d1 =
      (Ok (MkPlannedUpload (pu_File pu) (pu_Version pu) true (pu_Pending pu) (pu_Stored pu)), d1)
  | (Err _, _) => False
  end.
Proof.
  assert (Hok : match (BeginUpload 5 user manifest fresh_db).1 with
                | Ok pu => bool_decide (f_Status (pu_File pu) = FUploading) | Err _ => false end = true)
    by (vm_compute; reflexivity).
  destruct (BeginUpload 5 user manifest fresh_db) as [r d1] eqn:H. destruct r as [pu|e].
  - exact (BeginUpload_resumes 5 6 user manifest _ pu d1 H (proj1 (bool_decide_eq_true _) Hok)).
  - discriminate Hok.
Defined.

Definition reached : DB := (BeginUpload 5 user manifest db_empty).2.
Lemma reached_step : rtc store_step db_empty reached.
Proof. apply rtc_once. exact (ss_begin 5 user manifest db_empty). Qed.


Definition expiring_db : DB := db 1 [copy 1 30 1 PExpiring].
Lemma doomed_copies_witness :
  ∃ q, q ∈ db_placements (MarkPlacementDeleted 1 expiring_db) ∧ pl_ID q = 1 ∧
    (pl_Status q = PExpiring ∨ pl_Status q = PDeleted).
Proof.
  destruct (doomed_copies_stay_doomed expiring_db (MarkPlacementDeleted 1 expiring_db) (copy 1 30 1 PExpiring))
    as (q&H1&H2&_&_&H3&_).
  - apply rtc_once. exact (ss_deleted 1 expiring_db).
  - left.
  - left. reflexivity.
  - exists q. repeat split; assumption.
Defined.

(** ** Placement and the fleet *)

Definition fleet_world : World := MkWorld two_copies (upd_rd_live (λ _, {[Uuid 1 := 100; Uuid 2 := 100]}) redis_empty) (MkBus true []).
Definition needs : list Need := [MkNeed (Uuid 40) (Uuid 22) 4; MkNeed (Uuid 41) (Uuid 22) 4].

Lemma Place_witness :
  match Place 5 0 (λ _, Some 0) needs fleet_world with
  | (Ok out, w') => length out = 2%nat ∧ w_db w' = two_copies
  | (Err _, _) => False
  end.
Proof.
  assert (Hok : match (Place 5 0 (λ _, Some 0) needs fleet_world).1 with Ok out => (length out =? 2)%nat | Err _ => false end = true)
    by (vm_compute; reflexivity).
  destruct (Place 5 0 (λ _, Some 0) needs fleet_world) as [r w'] eqn:H.
  destruct r as [out|e]; [|discriminate Hok].
  destruct (Place_spec 5 0 (λ _, Some 0) needs fleet_world out w' H) as (_&_&_&_&_&_&Hdb&_).
  split; [exact (proj1 (Nat.eqb_eq _ _) Hok)|exact Hdb].
Defined.

Definition seen_at (t : Z) (n : Node) : Node := upd_n_LastSeenAt (λ _, Some t) n.
Definition aging_db : DB := upd_db_nodes (λ ns, seen_at (7 * second) <$> ns) two_copies.

Lemma TransitionStaleNodes_witness :
  (TransitionStaleNodes (10 * second) (2 * second) (60 * second) aging_db).1 =
    [MkTransition (Uuid 1) NOnline NSuspect; MkTransition (Uuid 2) NOnline NSuspect].
Proof.
  assert (Hseen : ∀ n t, n ∈ db_nodes aging_db → n_LastSeenAt n = Some t → t = 7 * second).
  { intros n t Hn Ht. assert (Hn' : n ∈ [seen_at (7 * second) (node 1 Byte.x01); seen_at (7 * second) (node 2 Byte.x02)])
      by exact Hn.
    apply elem_of_cons in Hn' as [->|Hn']; [injection Ht as <-; reflexivity|].
    apply elem_of_cons in Hn' as [->|Hn']; [injection Ht as <-; reflexivity|].
    destruct (not_elem_of_nil _ Hn'). }
  pose proof (TransitionStaleNodes_NextStatus (10 * second) 2 60 aging_db) as H.
  destruct (TransitionStaleNodes (10 * second) (2 * second) (60 * second) aging_db) as [out d'].
  destruct H as [_ Hout].
  - intros n t Hn Ht. rewrite (Hseen n t Hn Ht). unfold second, time_zero. repeat split; lia.
  - cbn [fst]. rewrite Hout. vm_compute. reflexivity.
Defined.

Lemma scan_witness :
  NoDup (n_ID <$> db_nodes aging_db) ∧
  ∃ w', scan (10 * second) (2 * second) (60 * second) (world aging_db) = (Ok tt, w').
Proof.
  assert (H : NoDup (n_ID <$> db_nodes aging_db)).
  { apply (NoDup_cons_2 (Uuid 1) [Uuid 2]).
    - intros Hin. apply list_elem_of_singleton in Hin. discriminate Hin.
    - apply NoDup_singleton. }
  split; [exact H|].
  pose proof (scan_spec (10 * second) (2 * second) (60 * second) (world aging_db) H) as Hs.
  destruct (TransitionStaleNodes _ _ _ _) as [ts d]. destruct Hs as (w'&Hw&_). exists w'. exact Hw.
Defined.

(** ** Tickets and receipts *)

Definition put_ticket : Ticket := MkTicket OpPut (Uuid 30) (Uuid 1) sha 4 (1000 * second) nonce [].
Definition get_ticket : Ticket := MkTicket OpGet (Uuid 30) (Uuid 1) sha 4 (1000 * second) nonce [].
Definition signed (t : Ticket) : Ticket :=
  match Tickets.Sign (key Byte.x09) 0 (Some nonce) t with Ok s => s | Err _ => t end.
Definition metadata_key : bytes := ed_public (key Byte.x09).

Lemma Sign_Verify_witness :
  Tickets.Verify metadata_key 5 (tk_Raw (signed put_ticket)) OpPut (Uuid 1) (Uuid 30) =
    Ok (MkTicket OpPut (Uuid 30) (Uuid 1) sha 4 (1000 * second) nonce (tk_Raw (signed put_ticket))).
Proof.
  assert (Hs : Tickets.Sign (key Byte.x09) 0 (Some nonce) put_ticket = Ok (signed put_ticket)) by (vm_compute; reflexivity).
  rewrite (Sign_Verify (key Byte.x09) 0 (Some nonce) put_ticket (signed put_ticket) metadata_key 5 OpPut
    (Uuid 1) (Uuid 30) Hs eq_refl).
  - vm_compute. reflexivity.
  - vm_compute. reflexivity.
  - vm_compute. reflexivity.
  - split; vm_compute; [intros [=]|reflexivity].
  - split; vm_compute; [intros [=]|reflexivity].
Defined.

Lemma Verify_authentic_witness :
  match Tickets.Verify metadata_key 5 (tk_Raw (signed put_ticket)) OpPut (Uuid 1) (Uuid 30) with
  | Ok t => tk_Op t = OpPut ∧ tk_NodeID t = Uuid 1 ∧ 5 < tk_ExpiresAt t
  | Err _ => False
  end.
Proof.
  assert (Hok : is_ok (Tickets.Verify metadata_key 5 (tk_Raw (signed put_ticket)) OpPut (Uuid 1) (Uuid 30)) = true)
    by (vm_compute; reflexivity).
  destruct (Tickets.Verify metadata_key 5 (tk_Raw (signed put_ticket)) OpPut (Uuid 1) (Uuid 30)) as [t|e] eqn:H;
    [|discriminate Hok].
  destruct (proj1 (Verify_authentic _ _ _ _ _ _ _) H) as (sig&_&_&_&H1&H2&_&H3&_). repeat split; assumption.
Defined.

Lemma sign_Verify_witness :
  match Receipts.sign (key Byte.x01) (Uuid 1) (Uuid 30) sha 4 (7 * second) [] with
  | Ok r => Receipts.Verify (rc_Raw r) (ed_public (key Byte.x01)) (Uuid 1) (Uuid 30) sha 4 =
              Ok (MkReceipt (Uuid 1) (Uuid 30) sha 4 (unix (7 * second) * second) [] (rc_Raw r))
  | Err _ => False
  end.
Proof.
  assert (Hok : is_ok (Receipts.sign (key Byte.x01) (Uuid 1) (Uuid 30) sha 4 (7 * second) []) = true) by (vm_compute; reflexivity).
  destruct (Receipts.sign (key Byte.x01) (Uuid 1) (Uuid 30) sha 4 (7 * second) []) as [r|e] eqn:H;
    [|discriminate Hok].
  apply (sign_Verify (key Byte.x01) (Uuid 1) (Uuid 30) sha 4 (7 * second) [] r H).
  - vm_compute. reflexivity.
  - vm_compute. reflexivity.
  - vm_compute. reflexivity.
  - split; vm_compute; [intros [=]|reflexivity].
  - split; vm_compute; [intros [=]|reflexivity].
  - left. reflexivity.
Defined.

Definition receipt_wire : bytes := match Receipts.sign (key Byte.x01) (Uuid 1) (Uuid 30) sha 4 (7 * second) [] with Ok r => rc_Raw r | Err _ => [] end.

Lemma Verify_receipt_witness :
  match Receipts.Verify receipt_wire (ed_public (key Byte.x01)) (Uuid 1) (Uuid 30) sha 4 with
  | Ok r => rc_NodeID r = Uuid 1 ∧ rc_FragmentID r = Uuid 30 ∧ rc_Size r = 4
  | Err _ => False
  end.
Proof.
  assert (Hok : is_ok (Receipts.Verify receipt_wire (ed_public (key Byte.x01)) (Uuid 1) (Uuid 30) sha 4) = true)
    by (vm_compute; reflexivity).
  destruct (Receipts.Verify receipt_wire (ed_public (key Byte.x01)) (Uuid 1) (Uuid 30) sha 4) as [r|e] eqn:H;
    [|discriminate Hok].
  destruct (proj1 (Verify_receipt_authentic _ _ _ _ _ _ _) H) as (_&_&_&_&H1&H2&_&H3&_). repeat split; assumption.
Defined.

(** ** A node *)

Definition body : bytes := [Byte.x01; Byte.x02; Byte.x03; Byte.x04].

Lemma Put_witness :
  (Put 5 no_put_faults (Uuid 30) body (sha256 body) 4 100 store_empty).1 =
    Ok (MkMeta 4 (sha256 body) 100 5 5) ∧
  Get (Uuid 30) (Put 5 no_put_faults (Uuid 30) body (sha256 body) 4 100 store_empty).2 =
    (Ok (body, MkMeta 4 (sha256 body) 100 5 5),
     (Put 5 no_put_faults (Uuid 30) body (sha256 body) 4 100 store_empty).2).
Proof.
  assert (Hok : (Put 5 no_put_faults (Uuid 30) body (sha256 body) 4 100 store_empty).1 =
    Ok (MkMeta 4 (sha256 body) 100 5 5)) by (vm_compute; reflexivity).
  pose proof (Put_spec 5 no_put_faults (Uuid 30) body (sha256 body) 4 100 store_empty) as H.
  destruct (Put 5 no_put_faults (Uuid 30) body (sha256 body) 4 100 store_empty) as [r s'].
  cbn [fst] in Hok. subst r.
  split; [reflexivity|]. apply H. lia.
Defined.

Definition admitted_run :=
  admit_ticket (Uuid 1) metadata_key 5 false (tk_Raw (signed put_ticket)) OpPut (Uuid 30) store_empty.


Definition corrupt_store : ChunkStore :=
  MkChunkStore {[Uuid 30 := [Byte.x01]]} {[Uuid 30 := MkMeta 4 (sha256 body) 100 5 5]} ∅.

Lemma scrubOnce_witness :
  ∃ s', scrubOnce (λ _, true) corrupt_store = (Ok tt, s') ∧ cs_files s' !! Uuid 30 = None.
Proof.
  destruct (scrubOnce_spec (λ _, true) corrupt_store (λ _, eq_refl)) as (s'&H1&H2&_&H3&_).
  exists s'. split; [exact H1|]. rewrite H2.
  rewrite bool_decide_eq_true_2; [reflexivity|].
  apply (H3 (Uuid 30) (MkMeta 4 (sha256 body) 100 5 5)).
  - assert (He : take scrubBatch (entries corrupt_store) = [(Uuid 30, MkMeta 4 (sha256 body) 100 5 5)])
      by (vm_compute; reflexivity).
    rewrite He. left.
  - vm_compute. reflexivity.
Defined.

(** ** Audits *)

Definition holding : ChunkStore :=
  MkChunkStore {[Uuid 30 := body]} {[Uuid 30 := MkMeta 4 (sha256 body) 100 5 5]} ∅.
Definition draws (i : Z) : Z * Z * bytes := (1, 2, nonce).
Definition asked_range : Challenge := one_challenge body (Uuid 30) (Uuid 1) 4096 draws 0.
Definition challenge_wire : bytes :=
  tk_Raw (signed (MkTicket OpChallenge (Uuid 30) (Uuid 1) sha (64 * 1024) (1000 * second) nonce [])).

Lemma honest_node_witness :
  (handleChallenge (Uuid 1) metadata_key 5 false (Some (Uuid 30)) (Some (ch_Offset asked_range))
     (Some (ch_Length asked_range)) (Some (ch_Nonce asked_range)) challenge_wire holding).1 =
    Ok (ch_Expected asked_range).
Proof.
  apply (honest_node_passes (Uuid 1) metadata_key 5 holding (Uuid 30) body (MkMeta 4 (sha256 body) 100 5 5)
    challenge_wire
    (MkTicket OpChallenge (Uuid 30) (Uuid 1) sha (64 * 1024) (1000 * second) nonce challenge_wire)
    asked_range 1 4096 draws).
  - reflexivity.
  - reflexivity.
  - reflexivity.
  - reflexivity.
  - discriminate.
  - intros i. split; [|split]; [intros [=]..|reflexivity].
  - vm_compute. left.
  - vm_compute. reflexivity.
  - reflexivity.
  - reflexivity.
Defined.

Definition ready : AuditTarget := MkAuditTarget 1 DoublePenalty.frag DoublePenalty.node DoublePenalty.chunk 1
  (zero_bytes 32) "" (F32.const 1 2) 8.


(** ** Accounts *)

Definition no_ref : Reference := MkReference None None None None None None.
Definition two_legs : list Entry :=
  [MkEntry (Uuid 51) 5 "storage" no_ref; MkEntry (Uuid 52) (-5) "storage" no_ref].
Definition two_accounts : DB :=
  upd_db_accounts (λ _, [MkLedgerAccount (Uuid 51) "node" (Some (Uuid 1)) "earning" "CRD";
                         MkLedgerAccount (Uuid 52) "user" (Some user) "usage" "CRD"]) db_empty.

Lemma PostTxn_witness :
  match PostTxn 5 (Uuid 60) two_legs two_accounts with
  | (Ok _, d') => d' = two_accounts ∨ balanced d'
  | (Err _, _) => False
  end.
Proof.
  assert (Hb : balanced two_accounts) by (intros txn; reflexivity).
  assert (Hok : is_ok (PostTxn 5 (Uuid 60) two_legs two_accounts).1 = true) by (vm_compute; reflexivity).
  pose proof (PostTxn_spec 5 (Uuid 60) two_legs two_accounts Hb) as H.
  destruct (PostTxn 5 (Uuid 60) two_legs two_accounts) as [[u|e] d']; [|discriminate Hok].
  destruct H as [_ [H|(_&_&_&_&H&_)]]; [left|right]; exact H.
Defined.

Lemma charges_witness :
  StorageCharge 1000000000 DefaultRates = 4109.
Proof.
  destruct (charges_exact DefaultRates 1000000000 1000000000) as [H _];
    [intros [=]|intros [=]|lia|reflexivity|reflexivity|].
  rewrite H. reflexivity.
Defined.

Lemma earnings_witness :
  StorageEarning 1000000000 DefaultRates (ReliabilityBP F32.one F32.one F32.one) = 2464.
Proof.
  destruct (earnings_bounded DefaultRates 1000000000 F32.one F32.one F32.one) as [H _];
    [intros [=]|intros [=]|lia|reflexivity|reflexivity|].
  rewrite H. reflexivity.
Defined.



(** One node that has held 1 GB and served 1 GB of its hour. *)
Definition earner : Node :=
  MkNode (Uuid 1) (Uuid 201) [] [] "" None "" "" "" "" "" None "http://n" 100 0 NOnline
    F32.one 0 None None None None F32.zero F32.zero F32.zero F32.zero 0.
Definition earning_db : DB :=
  upd_db_nodes (λ _, [earner])
    (upd_db_fragments (λ _, [MkFragment (Uuid 2) (Uuid 3) 0 1000000000 []])
       (upd_db_placements (λ _, [MkPlacement 1 (Uuid 2) (Uuid 1) PStored None None None])
          (upd_db_node_stats (λ _, [MkNodeStats (Uuid 1) (4 * hour) F32.one None None None None 3 0 1000000000 0])
             db_empty))).
Definition hour_txn (kind : string) (_ : uuid) (w : Z) : uuid :=
  Uuid (Z.to_N w + N.of_nat (String.length kind)).


(** ** Planning an upload and repairing a chunk *)

Definition provider (i : N) : Node :=
  MkNode (Uuid i) (Uuid (200 + i)) [] metadata_key "" None "" "" "" "" "" None "http://n" 100 0 NOnline
    F32.one 0 None None None None F32.zero F32.zero F32.zero F32.zero 0.
Definition provider_ids : list N := N.of_nat <$> seq 1 16.
Definition fleet_db : DB := upd_db_nodes (λ _, provider <$> provider_ids) fresh_db.
Definition busy_world : World :=
  MkWorld fleet_db (upd_rd_live (λ _, list_to_map ((λ i, (Uuid i, 1000 * second)) <$> provider_ids)) redis_empty)
    (MkBus true []).
#[local] Instance first_draw : Placer := scheduler_placer 5 0 (λ _, Some 0).
#[local] Instance first_draw_laws : PlacerLaws := scheduler_placer_laws 5 0 (λ _, Some 0).


Definition shard_source (i : Z) : RepairSource :=
  MkSource i (Uuid 30) (sha256 [byte_of_Z i]) 1 (Uuid 1) (String (Ascii.ascii_of_nat (Z.to_nat i)) "") [].
Definition ten_nodes : Agents unit :=
  MkAgents (λ ep _ _ _, match ep with
                        | String c _ => mret [byte_of_Z (Z.of_nat (Ascii.nat_of_ascii c))]
                        | _ => throw NodeErr
                        end)
    (λ _ _ _ _ _ _ _, throw NodeErr) (λ _ _ _ _ _, throw NodeErr) (λ _ _ _ _, throw NodeErr).

Lemma fetchSources_witness :
  match (fetchSources ten_nodes (@rev RepairSource) (shard_source <$> seqZ 0 12) tt).1 with
  | Ok shards => length shards = 16%nat ∧ present shards = 10%nat
  | Err _ => False
  end.
Proof.
  assert (Hok : is_ok (fetchSources ten_nodes (@rev RepairSource) (shard_source <$> seqZ 0 12) tt).1 = true)
    by (vm_compute; reflexivity).
  pose proof (fetchSources_spec ten_nodes (@rev RepairSource) (shard_source <$> seqZ 0 12) tt) as H.
  destruct (source_run _ _ tt) as [answers n1].
  destruct (fetchSources ten_nodes (@rev RepairSource) (shard_source <$> seqZ 0 12) tt) as [[shards|e] n'];
    [|discriminate Hok].
  destruct H as (_&H1&H2&_). split; assumption.
Defined.
