(* ===== verification/WitnessesClient.v ===== *)
(** * Concrete runs of the client, the gateway and the registry

    The counterpart of [Witnesses] for the theorems about the encryption
    pipeline, transfers, accounts, listings and the gateway, over the toy
    instances of [Crypto], [Wire] and [Tickets]. *)

From S2P Require Import Prelude GoFloat Bytes Sha256 Crypto Pipeline Schema Nodes World Files Net Listings Uploads Wire.
From S2P Require Import Auth Apierr Health Accounts Tickets Receipts Metadata Evolution Service LedgerViews Ratelimit Gateway.
From S2P Require Import GatewayGuards RepairPlan Placements Challenges Workers Auditing Repair Transfer.

Import Crypto.Toy.
#[local] Existing Instance ToyEd25519.scheme.
#[local] Existing Instance ToyEd25519.laws.
#[local] Existing Instance ToyText.text.
#[local] Existing Instance ToyText.text_laws.

(** Metadata is kept as the code of the record, in unary. *)
Definition kdf_tuple (k : KDFParams) := (kp_Name k, kp_Memory k, kp_Time k, kp_Threads k, kp_Salt k).
Definition meta_tuple (m : EncryptionMeta) :=
  (em_Algo m, em_Wrap m, em_WrappedFK m, em_WrapNonce m, kdf_tuple (em_KDF m), em_NoncePrefix m).
Definition meta_of t : EncryptionMeta :=
  let '(a, w, f, n, (nm, me, ti, th, sa), p) := t in MkMeta a w f n (MkKDF nm me ti th sa) p.

#[local] Instance meta_json : MetaJson := {|
  marshal m := replicate (encode_nat (meta_tuple m)) Byte.x00;
  unmarshal b := meta_of <$> decode_nat (length b) |}.

#[local] Instance meta_json_laws : MetaJsonLaws.
Proof.
  intros m. unfold marshal, unmarshal, meta_json. rewrite length_replicate, decode_encode_nat.
  by destruct m as [? ? ? ? [] ?].
Qed.

(** ** The pipeline *)

Definition fk : bytes := zero_bytes 32.
Definition prefix : bytes := zero_bytes 4.
Definition hello : bytes := [Byte.x68; Byte.x69].

(** A cipher whose tag is the padded additional data. *)
Definition label (a : bytes) : bytes := take 16 (a ++ zero_bytes 16).

#[local] Instance labelled : Aead | 0 := {|
  seal k n p a := p ++ label a;
  open k n c a :=
    let p := take (length c - 16) c in
    if bool_decide (c = p ++ label a) then Some p else None |}.

Lemma label_length a : length (label a) = 16%nat.
Proof. unfold label. rewrite length_take, length_app. unfold zero_bytes. rewrite length_replicate. lia. Qed.

#[local] Instance labelled_laws : AeadLaws (H:=labelled).
Proof.
  split; intros k n; simpl.
  - intros p a. rewrite length_app, label_length, take_app_n by lia. by rewrite bool_decide_eq_true_2.
  - intros c a p. case_bool_decide as Hc; [|done]. by intros [= <-].
  - intros p a. by rewrite length_app, label_length.
Qed.

Lemma labelled_binds k : binds_aad (H:=labelled) k.
Proof.
  intros n p a a' Hl Ha Hne. simpl. case_bool_decide as Hc; [|done]. exfalso. apply Hne.
  rewrite length_app, label_length, take_app_n in Hc by lia. apply app_inv_head in Hc.
  assert (∀ x : bytes, (length x ≤ 16)%nat → take (length x) (label x) = x) as Ht.
  { intros x Hx. unfold label. rewrite take_take, Nat.min_l by done. by apply take_app_n. }
  rewrite <- (Ht a Ha), <- (Ht a') by lia. by rewrite Hl, Hc.
Qed.


#[local] Remove Hints labelled labelled_laws : typeclass_instances.

Lemma Reconstruct_witness :
  ∃ shards, EncodeChunk hello = Ok shards ∧ ReconstructShards (Some <$> shards) = Ok (Some <$> shards).
Proof.
  destruct (Reconstruct_EncodeChunk hello) as (shards&H1&H2&H3&_). exists shards. split; [exact H1|].
  apply H3.
  - split; [by rewrite length_fmap|]. intros i b Hi. rewrite list_lookup_fmap in Hi.
    destruct (shards !! i); [|done]. simpl in Hi. congruence.
  - vm_compute in H1. injection H1 as <-. vm_compute. lia.
Defined.

(** ** Transfers *)

Definition slots : list PlannedPlacement :=
  (λ i, MkPP 0 i (Uuid 30) (Uuid 1) "http://n" []) <$> seqZ 0 16.
Definition the_file : File := MkFile (Uuid 9) (Uuid 8) "/f" false None FActive 0 0 None.

Definition api (dl : JDownload) : Api unit :=
  MkApi unit (λ _, mret (Uuid 10, slots)) (λ _ _, mret BOk) (λ _ _, mret [the_file]) (λ _, mret dl)
    (λ _ _, mret tt) (mret []) (λ _ sh, mret sh) (λ fr, mret (jdf_Ticket fr, [])).

Definition env : Transfer.Env :=
  MkEnv hello true (λ _, Some (MkReader hello false)) (Some None) (λ _, Some None) (Some []) (Some [])
    (Some []) (Some []) (λ _, Some (Uuid 8)).

Lemma put_some : ∃ jm chunks, prepare env (MkReader hello false) 2 (Uuid 8) "/f" = Ok (jm, chunks).
Proof. by eapply prepare_total. Qed.

Lemma cmdPut_witness :
  ∃ ps : list PlannedPlacement, ps ≡ₚ slots ∧
    (is_ok (cmdPut (api (MkJDownload [] [] [])) env (@rev PlannedPlacement) ["in"; "b:/f"]%string tt).1 = true ∨
     cmdPut (api (MkJDownload [] [] [])) env (@rev PlannedPlacement) ["in"; "b:/f"]%string tt = (Err CliShort, tt)).
Proof.
  destruct put_some as (jm&chunks&Hp).
  destruct (cmdPut_commits (api (MkJDownload [] [] [])) env (@rev PlannedPlacement) "in" "b:/f" "b" "/f" (Uuid 8)
    (MkReader hello false) jm chunks (Uuid 10) slots tt tt) as (ps&rs&[]&H1&_&_&H2).
  - vm_compute. reflexivity.
  - discriminate.
  - reflexivity.
  - reflexivity.
  - reflexivity.
  - intros l. symmetry. apply Permutation_rev.
  - exact Hp.
  - reflexivity.
  - exists ps. split; [exact H1|]. rewrite H2. destruct (forallb _ chunks); [left|right]; reflexivity.
Defined.

(** ** Repair *)

Definition sources : list RepairSource :=
  (λ i, MkSource i (Uuid 30) (sha256 hello) 2 (Uuid 1) "http://n" []) <$> seqZ 0 12.
Definition copies : Agents unit :=
  MkAgents (λ _ _ _ _, mret hello) (λ _ _ _ _ _ _ _, throw NodeErr) (λ _ _ _ _ d, mret d) (λ _ _ _ _, throw NodeErr).
Definition damaged : RepairJob := MkRepairJob DoublePenalty.chunk 1.
Definition plan : RepairPlan := MkRepairPlan DoublePenalty.chunk 2 hello 1 sources (take 2 sources).
Definition planner : WorkerMeta World :=
  MkWorkerMeta _ (λ _, mret plan) (λ _ _, mret tt) (λ _, throw CallErr)
  (λ _ _ _, throw CallErr) (λ _, throw CallErr) (λ _, throw CallErr) (λ _ _ _, throw CallErr).

Lemma sources_index s : s ∈ sources → 0 ≤ rs_ShardIndex s < 12 ∧ rs_SHA256 s = sha256 hello.
Proof. intros (i&->&Hi%elem_of_seqZ)%list_elem_of_fmap. cbn. split; [lia|done]. Qed.

Lemma source_run_copies srcs : source_run copies srcs tt = ((λ s, (s, hello)) <$> srcs, tt).
Proof. induction srcs as [|s srcs IH]; [done|]. simpl. change (source_run _ srcs tt) with (source_run copies srcs tt). by rewrite IH. Qed.

(** Two shards are rebuilt from twelve copies; both targets answer with a receipt. *)
Lemma onJob_repairs_witness :
  (onJob planner copies 0 (@rev RepairSource) damaged (DoublePenalty.w0, tt)).1 = Ok tt ∧
  let '(answers, n1) := source_run copies (rev sources) tt in ten answers →
  onJob planner copies 0 (@rev RepairSource) damaged (DoublePenalty.w0, tt) =
    settled planner DoublePenalty.chunk [hello; hello] (DoublePenalty.w0, tt).
Proof.
  split; [vm_compute; reflexivity|].
  pose proof (onJob_repairs planner copies 0 (@rev RepairSource) hello (replicate 16 hello) damaged plan
    DoublePenalty.w0 DoublePenalty.w0 tt) as H.
  destruct (source_run copies (rev sources) tt) as [answers n1] eqn:Hrun.
  cbn [rp_Sources plan] in H. rewrite Hrun in H. cbn [fst] in H.
  destruct (put_runs copies 0 (replicate 16 hello) (rp_Targets plan) (DoublePenalty.w0, n1)) as [rs s2] eqn:Hp.
  destruct H as [H _].
  - vm_compute. reflexivity.
  - vm_compute. reflexivity.
  - reflexivity.
  - discriminate.
  - intros t Ht%elem_of_take. destruct Ht as (i&Hi&_). apply list_elem_of_lookup_2, sources_index in Hi as [Hi Hs].
    split; [lia|]. exists hello. split; [apply lookup_replicate_2; lia|exact Hs].
  - rewrite source_run_copies in Hrun. apply (f_equal fst) in Hrun. cbn [fst] in Hrun. subst answers.
    intros s d (s'&[= -> ->]&Hs)%list_elem_of_fmap _. apply list_elem_of_In, in_rev, list_elem_of_In, sources_index in Hs.
    apply lookup_replicate_2. lia.
  - intros Ht. rewrite (H Ht). vm_compute in Hp. injection Hp as <- <-. destruct n1. reflexivity.
Defined.

(** ** The registry *)

Definition alice : string := "alice@example.org".
Definition secret_bytes : bytes := ascii_bytes "correct horse".
Definition with_user : Registry := (CreateUser 0 alice secret_bytes (Some []) registry_empty).2.
Definition alice_id : uuid := Uuid 1.
Definition with_code : Registry :=
  (MintRegistrationCode 0 alice_id "http://n" "DE" "eu" (Some 1) (Some hello) with_user).2.
Definition code : bytes :=
  match (MintRegistrationCode 0 alice_id "http://n" "DE" "eu" (Some 1) (Some hello) with_user).1 with
  | Ok (_, s) => s
  | Err _ => []
  end.
Definition ca : option (bytes → uuid → string → option Issued) :=
  Some (λ csr id _, Some (MkIssued "PEM" csr (sha256 (uuid_bytes id)) (1000 * second))).

Lemma steps_wf r : rtc step registry_empty r → registry_wf r.
Proof. intros Hs%steps_prims. eapply prims_wf; [apply registry_empty_wf|exact Hs]. Qed.

Lemma with_code_steps : rtc step registry_empty with_code.
Proof.
  unfold with_code, with_user. eapply rtc_l; [apply step_user|]. eapply rtc_l; [apply step_mint|]. reflexivity.
Qed.

Lemma registry_witness : registry_wf with_code.
Proof. apply (registry_stays_wf registry_empty with_code); [apply registry_empty_wf|apply with_code_steps]. Defined.

Definition join : result acct_error (Node * string) * Registry :=
  RegisterNode 1 ca code hello "" "" "label" 0 with_code.

Lemma RegisterNode_witness :
  match join with (Ok (n, _), _) => n_OwnerID n = alice_id ∧ n_Status n = NPending | (Err _, _) => False end.
Proof.
  pose proof (RegisterNode_spec 1 ca code hello "" "" "label" 0 with_code (steps_wf _ with_code_steps)) as H.
  assert (Hok : is_ok join.1 = true) by (vm_compute; reflexivity).
  assert (Ho : forallb (λ c, bool_decide (rg_OwnerID c = alice_id)) (r_codes with_code) = true) by (vm_compute; reflexivity).
  change (RegisterNode 1 ca code hello "" "" "label" 0 with_code) with join in H.
  destruct join as [[[n pem]|e] r']; [|discriminate Hok].
  destruct H as (c&issue&cert&_&_&_&Hc&_&_&_&_&_&Hown&_&_&_&_&_&_&Hst&_). split; [|exact Hst].
  rewrite Hown. rewrite forallb_forall in Ho. apply list_elem_of_In, Ho, bool_decide_eq_true in Hc. exact Hc.
Defined.

Definition late (csr : bytes) (id : uuid) (_ : string) : option Issued :=
  Some (MkIssued "PEM" csr (sha256 (uuid_bytes id)) (1000 * second)).

Lemma code_single_use_witness :
  RegisterNode 2 (Some late) code hello "" "" "again" 0 join.2 = (Err (EStore EConflict), join.2).
Proof.
  assert (Hok : is_ok join.1 = true) by (vm_compute; reflexivity).
  destruct join as [[[n pem]|e] r1] eqn:Hj; [|discriminate Hok].
  apply (code_single_use 1 ca code hello "" "" "label" 0 with_code n pem r1 r1 2 late hello "" "" "again" 0
    (steps_wf _ with_code_steps) Hj); [reflexivity|discriminate].
Defined.

(** The node's key is its request, so renewing with the same request works. *)
Definition joined : Node := match join.1 with Ok (n, _) => n | Err _ => Scene.node 0 Byte.x00 end.

Lemma joined_steps : rtc step registry_empty join.2.
Proof. eapply rtc_r; [apply with_code_steps|]. apply step_register. Qed.

Lemma RenewCertificate_witness :
  ∃ pem r', RenewCertificate 3 ca (n_ID joined) hello (n_CertFingerprint joined) join.2 = (Ok pem, r') ∧
    r_codes r' = r_codes join.2.
Proof.
  assert (Hok : is_ok (RenewCertificate 3 ca (n_ID joined) hello (n_CertFingerprint joined) join.2).1 = true)
    by (vm_compute; reflexivity).
  pose proof (RenewCertificate_spec 3 ca (n_ID joined) hello (n_CertFingerprint joined) join.2
    (steps_wf _ joined_steps)) as H.
  destruct (RenewCertificate 3 ca (n_ID joined) hello (n_CertFingerprint joined) join.2) as [[pem|e] r'];
    [|discriminate Hok].
  exists pem, r'. split; [reflexivity|]. by destruct H as (n&issue&cert&_&_&_&_&_&_&_&_&_&_&_&_&Hc).
Defined.

Lemma VerifyPassword_witness :
  ∃ encoded, HashPassword secret_bytes (Some []) = Ok encoded ∧ Auth.VerifyPassword encoded secret_bytes = Ok tt.
Proof.
  destruct (HashPassword secret_bytes (Some [])) as [encoded|e] eqn:Hh; [|vm_compute in Hh; discriminate Hh].
  exists encoded. split; [reflexivity|]. exact (proj1 (VerifyPassword_HashPassword secret_bytes (Some []) encoded Hh)).
Defined.

(** ** Listings *)

Definition folder (id : N) (path : string) : File := MkFile (Uuid id) (Uuid 8) path true None FActive 0 0 None.
Definition shelf : DB :=
  upd_db_buckets (λ _, [MkBucket (Uuid 8) (Uuid 7) "b"])
    (upd_db_files (λ _, [folder 12 "/c"; folder 10 "/a"; folder 11 "/b"]) db_empty).


(** ** The gateway *)

Definition secret : bytes := match MintAPIKey (Some hello) with Ok k => mk_Secret k | Err _ => [] end.
Definition with_key : Registry :=
  (CreateAPIKey 0 alice_id (HashAPIKey secret) "laptop" [] None with_user).2.
Definition shelf_registry : Registry :=
  upd_r_db (λ _, upd_db_next_uuid (λ _, db_next_uuid (r_db with_key)) shelf) with_key.
Definition front : Front Platform :=
  MkFront (MkPlatform shelf_registry redis_empty (MkBus true [])) ∅.

#[local] Instance no_placer : Placer := λ _, throw ErrUnavailable.
#[local] Instance no_placer_laws : PlacerLaws.
Proof. split; [done|]. by intros needs w out w'. Qed.
#[local] Instance no_quota : QuotaLaws None.
Proof. by intros check user. Qed.

Definition noon : Setting := MkSetting (5 * second) (Scene.key Byte.x09) (λ _, Some []) None Delivered (Limited true) (Some []).
Definition request : Request := MkRequest secret (Some (alice, hello)) "" "10.0.0.1:4711".

Lemma front_wf : registry_wf shelf_registry.
Proof.
  apply (steps_wf shelf_registry). unfold shelf_registry, with_key, with_user.
  eapply rtc_l; [apply step_user|]. eapply rtc_l; [apply step_key|].
  apply rtc_once, step_other; vm_compute; [reflexivity..|discriminate].
Qed.

Definition serve_noon (c : Call) : result Refusal Reply * Front Platform := gate None None noon request c front.

(** The service whose state is the registry of [front]. *)
Definition service : Service Platform := Client Delivered (backend None noon).



Lemma revoked_key_witness :
  let after := (gate None None noon request (DeleteAPIKey (uuid_String (Uuid 2))) front).2 in
  ∃ e g', gate None None noon request GetBuckets after = (Err e, g') ∧ g_meta g' = g_meta after.
Proof.
  assert (Hok : is_ok (gate None None noon request (DeleteAPIKey (uuid_String (Uuid 2))) front).1 = true)
    by (vm_compute; reflexivity).
  assert (Hh : forallb (λ k, bool_decide (HashAPIKey secret = ak_KeyHash k)) (r_keys shelf_registry) = true)
    by (vm_compute; reflexivity).
  destruct (gate None None noon request (DeleteAPIKey (uuid_String (Uuid 2))) front) as [[x|e] g1] eqn:Hd;
    [|discriminate Hok].
  destruct (revoked_key_shut_out None None noon request (uuid_String (Uuid 2)) front x g1 front_wf Hd)
    as (k&Hk&_&Hout).
  apply Hout; [reflexivity| |left; reflexivity].
  rewrite forallb_forall in Hh. apply list_elem_of_In, Hh, bool_decide_eq_true in Hk. exact Hk.
Defined.

Lemma foreign_file_witness :
  ∃ e g', gate None None noon request (GetAFile (uuid_String (Uuid 10))) front = (Err e, g') ∧
    g_meta g' = g_meta front.
Proof.
  apply (foreign_file_refused None None noon request (GetAFile (uuid_String (Uuid 10))) front (uuid_String (Uuid 10)) (Uuid 10));
    [reflexivity|vm_compute; reflexivity|].
  intros id (_&k&_&Hl&_).
  assert (Hwho : match (sv_LookupAPIKey service (HashAPIKey (rq_APIKey request)) (g_meta front)).1 with
    | Ok (_, u) => us_ID u = alice_id | Err _ => True end) by (vm_compute; reflexivity).
  change (Client (se_net noon) (backend None noon)) with service in Hl. rewrite Hl in Hwho. cbn in Hwho.
  rewrite Hwho. split; vm_compute; reflexivity.
Defined.

