(* ===== verification/WitnessesSystem.v ===== *)
(** * A file put and got back

    A whole deployment that runs: the metadata service with its scheduler over a
    database of sixteen nodes, the gateway in front of it over HTTP, a client
    with a key, and nodes that keep what they are sent.  The witness of
    [System.put_then_get]. *)

From S2P Require Import Prelude GoFloat Bytes Sha256 Crypto Pipeline Schema Nodes World Files Net Url Listings Uploads Wire Auth.
From S2P Require Import Apierr Accounts Tickets Receipts Metadata Contents Service NodeAgent LedgerViews Ratelimit Gateway Transfer Command Workers System.
From Stdlib Require Import Ascii.

Import Crypto.Toy Wire.ToyText.

(** Signatures that are quick to compute: the key and a checksum. *)
Definition checksum (m : bytes) : Z := foldl (λ c b, (c + byte_Z b) `mod` 2 ^ 16) 0 m.
Definition quick_sign (pub m : bytes) : bytes := take 32 (pub ++ zero_bytes 32) ++ be_bytes 32 (checksum m).
#[local] Instance quick : Ed25519 := {|
  ed_public k := take 32 k;
  ed_sign k m := quick_sign (take 32 k) m;
  ed_verify pub m s := bool_decide (s = quick_sign pub m) |}.
#[local] Instance quick_laws : Ed25519Laws.
Proof.
  split; intros k m; cbn [ed_public ed_sign ed_verify quick].
  - unfold quick_sign, zero_bytes. rewrite length_app, be_bytes_length, length_take, length_app, length_replicate. lia.
  - by apply bool_decide_eq_true_2.
Qed.

(** ** Metadata as text *)

Definition kdf_tuple (k : KDFParams) := (kp_Name k, kp_Memory k, kp_Time k, kp_Threads k, kp_Salt k).
Definition meta_tuple (m : EncryptionMeta) :=
  (em_Algo m, em_Wrap m, em_WrappedFK m, em_WrapNonce m, kdf_tuple (em_KDF m), em_NoncePrefix m).
Definition meta_of t : EncryptionMeta :=
  let '(a, w, f, n, (nm, me, ti, th, sa), p) := t in MkMeta a w f n (MkKDF nm me ti th sa) p.

(** The code of a record, bit by bit. *)
Fixpoint pos_bits (p : BinNums.positive) : bytes :=
  match p with
  | xH => []
  | xO p => Byte.x00 :: pos_bits p
  | xI p => Byte.x01 :: pos_bits p
  end.
Fixpoint bits_pos (bs : bytes) : BinNums.positive :=
  match bs with
  | [] => xH
  | b :: bs => (if bool_decide (b = Byte.x00) then xO else xI) (bits_pos bs)
  end.
Lemma bits_pos_bits p : bits_pos (pos_bits p) = p.
Proof. induction p as [p IH|p IH|]; cbn; by rewrite ?IH. Qed.

#[local] Instance meta_json : MetaJson := {|
  marshal m := pos_bits (countable.encode (meta_tuple m));
  unmarshal b := meta_of <$> countable.decode (bits_pos b) |}.
#[local] Instance meta_json_laws : MetaJsonLaws.
Proof.
  intros m. unfold marshal, unmarshal, meta_json. rewrite bits_pos_bits, decode_encode.
  by destruct m as [? ? ? ? [] ?].
Qed.

(** ** The deployment *)

Definition now : Z := 5 * second.
#[local] Instance first_draw : Placer := HttpPlacer (λ _, Delivered) (scheduler_placer now 0 (λ _, Some 0)).
#[local] Instance first_draw_laws : PlacerLaws := http_placer_laws _ _ (scheduler_placer_laws now 0 (λ _, Some 0)).

Definition hello : bytes := [Byte.x68; Byte.x69].
Definition secret : bytes := match MintAPIKey (Some hello) with Ok k => mk_Secret k | Err _ => [] end.
Definition user : uuid := Uuid 1.
Definition node_key (n : uuid) : bytes := Scene.key (byte_of_Z (Z.of_N (uuid_n n))).
Definition provider (i : N) : Node :=
  MkNode (Uuid i) (Uuid (200 + i)) [] (ed_public (node_key (Uuid i))) "" None "" "" "" "" "" None "http://n" 100 0 NOnline
    F32.one 0 None None None None F32.zero F32.zero F32.zero F32.zero 0.
Definition provider_ids : list N := N.of_nat <$> seq 101 16.
Definition docs : uuid := Uuid 90.

Definition registry : Registry :=
  let r := (CreateUser 0 "alice@example.org" (ascii_bytes "correct horse") (Some []) registry_empty).2 in
  let r := (CreateAPIKey 0 user (HashAPIKey secret) "laptop" [] None r).2 in
  upd_r_db (λ d, upd_db_buckets (λ _, [MkBucket docs user "docs"])
    (upd_db_nodes (λ _, provider <$> provider_ids) (upd_db_next_uuid (λ _, 1000%N) d))) r.
Definition redis : Redis :=
  upd_rd_live (λ _, list_to_map ((λ i, (Uuid i, 1000 * second)) <$> provider_ids)) redis_empty.

(** The nodes keep what they are sent, and sign for it. *)
Abbreviation Stores := (gmap uuid bytes).
Definition node_put (p : PlannedPlacement) (b : bytes) : M Stores cli_error bytes := λ n,
  match Receipts.sign (node_key (pp_NodeID p)) (pp_NodeID p) (pp_FragmentID p) (sha256 b) (Z.of_nat (length b)) now [] with
  | Ok rec => (Ok (rc_Raw rec), <[pp_FragmentID p := b]> n)
  | Err _ => (Err CliShards, n)
  end.
Definition node_get (fr : JDownloadFragment) : M Stores cli_error (bytes * bytes) := λ n,
  (match n !! jdf_FragmentID fr with Some b => Ok (b, []) | None => Err CliShards end, n).

Definition deployment : Deployment (N := Stores) :=
  let store := StoreService now (Scene.key Byte.x09) Scene.entropy None None in
  MkDeployment now (Scene.key Byte.x09) Scene.entropy None None (Client Delivered store) (Limited true) None (Some [])
    (λ _, Delivered) "10.0.0.1:4711" (MkClient "http://gateway" (bytes_text secret) "" "") node_put node_get.

Lemma deployment_sound : sound deployment.
Proof. split; [apply _|]. by intros check u w. Qed.

(** The client's machine: the file, the passphrase, and a bucket by its name. *)
Definition laptop : Env :=
  MkEnv hello true (λ _, Some (MkReader hello false)) (Some None) (λ _, Some None) (Some []) (Some []) (Some []) (Some [])
    (λ s, if bool_decide (s = "docs"%string) then Some docs else None).

Definition before : Front Platform * Stores := (MkFront (MkPlatform registry redis (MkBus true [])) ∅, ∅).
Abbreviation State := (Front Platform * Stores)%type.
Definition put_run : result cli_error Body * State :=
  cmdPut (deployed deployment) laptop (@rev PlannedPlacement) ["in"; "docs:/f"]%string before.
Definition get_run (s : State) : result cli_error (option bytes * result cli_error unit) :=
  (cmdGet (deployed deployment) laptop (@rev JDownloadFragment) ["docs:/f"; "out"]%string s).1.

(** The plan a get has, and the shards the nodes answer for it. *)
Definition plan (s : State) : option (JDownload * State) :=
  match api_files (deployed deployment) docs "/f" s with
  | (Ok fs, s1) =>
      file ← find_file "/f" fs;
      match api_download (deployed deployment) file s1 with (Ok dl, s2) => Some (dl, s2) | _ => None end
  | _ => None
  end.
Lemma planned_plan file s dl s2 : planned (deployed deployment) docs "/f" file s dl s2 → plan s = Some (dl, s2).
Proof. intros (fs&s1&Hf&Hfind&Hd). unfold plan. rewrite Hf, Hfind. cbn [mbind option_bind]. by rewrite Hd. Qed.

Definition all_right (shards : list bytes) (run : list (JDownloadFragment * bytes)) : bool :=
  forallb (λ x, bool_decide (shards !! Z.to_nat (jdf_ShardIndex x.1) = Some x.2)) run &&
  bool_decide (NoDup (jdf_ShardIndex <$> run.*1)) && (ECData <=? length run)%nat.
Lemma all_right_spec shards run : all_right shards run = true → unforged shards run ∧ reachable shards run.
Proof.
  intros [[Hall Hnd%bool_decide_eq_true]%andb_true_iff Hl%Nat.leb_le]%andb_true_iff.
  assert (∀ fr d, (fr, d) ∈ run → shards !! Z.to_nat (jdf_ShardIndex fr) = Some d) as Hin.
  { intros fr d Hx%list_elem_of_In. rewrite forallb_forall in Hall. by apply (Hall (fr, d)), bool_decide_eq_true in Hx. }
  split.
  - intros fr d sh Hx Hsh _. apply Hin in Hx. congruence.
  - exists run.*1. split; [exact Hnd|]. split; [by rewrite length_fmap|].
    intros fr ([fr' d]&->&Hx)%list_elem_of_fmap. exists d. split; [by apply Hin|done].
Qed.

Definition chunks_of (r : result cli_error (JManifest * list chunkBuf)) : list chunkBuf :=
  match r with Ok (_, chunks) => chunks | Err _ => [] end.
Definition prepared : result cli_error (JManifest * list chunkBuf) := prepare laptop (MkReader hello false) 2 docs "/f".

(** Everything there is to compute. *)
Definition hosts (d : DB) : bool :=
  forallb (λ p, bool_decide (pl_NodeID p ∈ n_ID <$> db_nodes d)) (db_placements d).
Definition comes_back : bool :=
  let '(r, s) := put_run in
  is_ok r && (db_next_uuid (gw_db s.1) <=? 2 ^ 128)%N && hosts (gw_db s.1) && is_ok (get_run s) &&
  match plan s with
  | Some (dl, s3) =>
      let answers := chunk_runs (deployed deployment) (@rev JDownloadFragment) (jd_Chunks dl) s3 in
      let shards := cb_shards <$> chunks_of prepared in
      (length shards =? length answers)%nat && forallb (λ x, all_right x.1 x.2) (zip shards answers)
  | None => false
  end.
Lemma it_comes_back : comes_back = true.
Proof. vm_compute. reflexivity. Qed.

Lemma hosts_hosted d : hosts d = true → hosted d.
Proof. intros Hall p Hp%list_elem_of_In. unfold hosts in Hall. rewrite forallb_forall in Hall. by apply Hall, bool_decide_eq_true in Hp. Qed.

Lemma before_ok : db_ok (gw_db before.1).
Proof.
  assert (db_files (gw_db before.1) = [] ∧ db_versions (gw_db before.1) = [] ∧ db_chunks (gw_db before.1) = [] ∧
    db_fragments (gw_db before.1) = [] ∧ db_placements (gw_db before.1) = []) as (Hf&Hv&Hc&Hfr&Hp)
    by (vm_compute; repeat split; reflexivity).
  split.
  - intros x. rewrite Hf. by intros ?%not_elem_of_nil.
  - intros x. rewrite Hv. by intros ?%not_elem_of_nil.
  - intros x. rewrite Hc. by intros ?%not_elem_of_nil.
  - intros x. rewrite Hfr. by intros ?%not_elem_of_nil.
  - intros x. rewrite Hp. by intros ?%not_elem_of_nil.
Qed.

Lemma Forall2_zip {A B} (f : A → B → bool) (P : A → B → Prop) l k :
  (∀ x y, f x y = true → P x y) → length l = length k → forallb (λ x, f x.1 x.2) (zip l k) = true → Forall2 P l k.
Proof.
  intros Hf. revert k. induction l as [|x l IH]; intros [|y k]; try done.
  cbn. intros [= Hl] [Hx Hr]%andb_true_iff. constructor; [by apply Hf|by apply IH].
Qed.

Lemma put_then_get_witness : ∃ answer s, put_run = (Ok answer, s) ∧ get_run s = Ok (Some hello, Ok tt).
Proof.
  pose proof it_comes_back as Hall. unfold comes_back in Hall.
  destruct put_run as [r s] eqn:Hput.
  apply andb_true_iff in Hall as [[[[Hr Hnext%N.leb_le]%andb_true_iff Hho%hosts_hosted]%andb_true_iff Hget]%andb_true_iff Hans].
  destruct r as [answer|e]; [|discriminate Hr]. exists answer, s. split; [reflexivity|].
  destruct (put_then_get deployment deployment laptop laptop (@rev PlannedPlacement) (@rev JDownloadFragment)
    "in" "out" "docs:/f" "docs" "/f" docs (MkReader hello false) answer before s s) as [H|[H|H]].
  - exact deployment_sound.
  - exact deployment_sound.
  - exact Hput.
  - reflexivity.
  - vm_compute. reflexivity.
  - vm_compute. reflexivity.
  - reflexivity.
  - reflexivity.
  - exact before_ok.
  - vm_compute. reflexivity.
  - exact Hnext.
  - split; [reflexivity|]. split; [reflexivity|]. split; [reflexivity|exact Hho].
  - reflexivity.
  - reflexivity.
  - discriminate.
  - reflexivity.
  - reflexivity.
  - intros frs. symmetry. apply Permutation_rev.
  - unfold get_run in Hget. rewrite H in Hget. discriminate Hget.
  - unfold get_run in Hget. rewrite H in Hget. discriminate Hget.
  - destruct H as (jm&chunks&file&dl&s3&Hprep&Hplan&Hend). apply planned_plan in Hplan.
    rewrite Hplan in Hans. change (prepare laptop _ _ docs "/f") with prepared in Hprep. rewrite Hprep in Hans.
    cbn [chunks_of] in Hans. apply andb_true_iff in Hans as [Hlen%Nat.eqb_eq Hans].
    destruct Hend as [_ Hend].
    + apply (Forall2_zip all_right); [|exact Hlen|exact Hans]. intros x y Hxy. by apply all_right_spec.
    + apply Hend. apply (Forall2_zip all_right); [|exact Hlen|exact Hans]. intros x y Hxy. by apply all_right_spec.
Defined.
