(* ===== verification/WitnessesNode.v ===== *)
(** * Concrete runs of the authority and of a node's life

    One registration code, one host, the toy X.509 of [CA.ToyX509]: the
    witnesses of the theorems of [CA], [NodeAgent] and [NodeLife], and the runs
    in which a node does not come back. *)

From S2P Require Import Prelude GoFloat Bytes Sha256 Crypto Pipeline Schema Nodes World Placements Files Net Wire Auth Tickets.
From S2P Require Import Agent Apierr Health Accounts Metadata Service CA NodeAgent NodeLife.

Import Crypto.Toy.
#[local] Existing Instance ToyEd25519.scheme.
#[local] Existing Instance ToyEd25519.laws.
#[local] Existing Instance ToyText.text.
#[local] Existing Instance ToyText.text_laws.
#[local] Existing Instance ToyX509.x509.
#[local] Existing Instance ToyX509.laws.
#[local] Instance no_placer : Placer := scheduler_placer 5 0 (λ _, Some 0).

(** ** The authority *)

Definition start : Z := 1000 * second.
Definition ca_key : bytes := [Byte.x01].
Definition node_key : bytes := [Byte.x02].
Definition ca_run : result ca_error CA * FS := EnsureCA start (Some ca_key) (Some 1) (λ _, Written) ∅.
Definition authority : CA :=
  match ca_run.1 with Ok c => c | Err _ => MkCA (MkCertificate [] (ca_template 0 0) None) [] [] end.

(** ** A host with a registration code *)

Definition alice : string := "alice@example.org".
Definition minted : result acct_error (RegistrationCode * bytes) * Registry :=
  MintRegistrationCode 0 (Uuid 1) "node-1:7443" "DE" "eu" (Some 1) (Some [Byte.x07])
    (CreateUser 0 alice (ascii_bytes "correct horse") (Some []) registry_empty).2.
Definition code : bytes := match minted.1 with Ok (_, s) => s | Err _ => [] end.
Definition platform0 : Platform := MkPlatform minted.2 redis_empty (MkBus true []).

Definition settings : Config :=
  MkConfig "/d" 10 1 "node-1:7443" "https://metadata:8444" "https://healthmon:8443"
    "0000000000000000000000000000000000000000000000000000000000000000" (bytes_text code) ":9000" ":7443" "/ca.crt"
    "linux" "m2" "".

Definition host0 : Machine Platform :=
  MkMachine {[ "/ca.crt"%string := pem_encode CERTIFICATE (ca_DER authority) ]} store_empty platform0.

Definition at_time (t : Z) (links : Links) : Moment := MkMoment t links (Some 7) no_faults.
Definition gauges : Gauges := MkGauges 4 2 10 20 F64.zero.
Definition no_reads : nat → option bytes := λ _, None.

(** Registration, a minute after the authority was made. *)
Definition opened : result life_error Agent * Machine Platform :=
  Open (H := plane authority (at_time start delivered)) sound "" no_reads (λ _, start) start (Some node_key) settings host0.

Definition nobody : Agent :=
  MkAgent settings (MkIdentity uuid_nil [] []) [] None ([], []) None "".
Definition agent0 : Agent := agent_of nobody opened.1.
Definition host1 : Machine Platform := opened.2.

Lemma opened_ok : opened = (Ok agent0, host1).
Proof.
  assert (Hok : is_ok opened.1 = true) by (vm_compute; reflexivity).
  unfold agent0, host1. by destruct opened as [[a|e] s].
Qed.

Lemma platform0_wf : registry_wf (pf_reg platform0).
Proof.
  eapply prims_wf; [apply registry_empty_wf|]. apply steps_prims.
  unfold platform0, minted. cbn [pf_reg]. eapply rtc_l; [apply step_user|]. eapply rtc_l; [apply step_mint|]. reflexivity.
Qed.

Lemma ids_left : (next_id (pf_reg platform0) < 2^128)%N.
Proof. by vm_compute. Qed.

(** Five days before the certificate expires. *)
Definition later : Z := start + 25 * 24 * hour.
Definition beat1 : result life_error Agent * Machine Platform :=
  sendHeartbeat (H := plane authority (at_time later delivered)) sound later gauges agent0 host1.


Lemma agent0_in_step : ∃ cert, in_step authority cert agent0 (mc_cp host1).
Proof.
  apply (Open_in_step authority (at_time start delivered) sound "" no_reads (λ _, start) start (Some node_key) settings
    host0 agent0 host1 platform0_wf ids_left); [reflexivity|exact opened_ok].
Qed.

Definition node0 : Node := default (Scene.node 0 Byte.x00) (head (db_nodes (pf_db (mc_cp host1)))).
Definition csr0 : bytes := default [] (CreateCSR node_key).
Definition cert0 : Certificate := default (ca_Cert authority) (presented (ag_tlsCert agent0)).
Definition issued_at (t : Z) : Issued :=
  default (MkIssued "" [] [] 0) (issuer authority (at_time t delivered) csr0 (id_ID (ag_id agent0)) (n_Endpoint node0)).

Lemma cert0_in_step : in_step authority cert0 agent0 (mc_cp host1).
Proof.
  destruct agent0_in_step as [cert Hs]. unfold cert0. by rewrite (in_step_presented _ _ _ _ Hs).
Qed.

Lemma one_node : db_nodes (pf_db (mc_cp host1)) = [node0].
Proof. vm_compute. reflexivity. Qed.

Lemma issues t :
  t = later ∨ t = later + 30 * 24 * hour →
  is_Some (issuer authority (at_time t delivered) csr0 (id_ID (ag_id agent0)) (n_Endpoint node0)).
Proof.
  intros Ht. apply (bool_decide_eq_true_1 _). destruct Ht as [-> | ->]; vm_compute; reflexivity.
Qed.

Lemma agent0_renewable t links :
  t = later ∨ t = later + 30 * 24 * hour →
  renewable authority (at_time t links) cert0 agent0 (mc_cp host1) node0 csr0 (issued_at t).
Proof.
  intros Ht. split.
  - unfold node_ids. rewrite one_node. apply NoDup_singleton.
  - unfold fingerprints. rewrite one_node. apply NoDup_singleton.
  - rewrite one_node. left.
  - vm_compute. reflexivity.
  - vm_compute. reflexivity.
  - vm_compute. reflexivity.
  - vm_compute. reflexivity.
  - vm_compute. discriminate.
  - vm_compute. reflexivity.
  - unfold issued_at. change (issuer authority (at_time t links)) with (issuer authority (at_time t delivered)).
    destruct (issues t Ht) as [i Hi]. by rewrite Hi.
  - intros m Hm Hne. rewrite one_node in Hm. apply list_elem_of_singleton in Hm as ->. destruct (Hne eq_refl).
Qed.

Lemma agent0_takes_part : takes_part agent0.
Proof. split; vm_compute; discriminate. Qed.


Definition deaf : Links := MkLinks Delivered ResponseLost Delivered Delivered.

Lemma lost_renewal_witness :
  ∃ s1, renewCert (H := plane authority (at_time later deaf)) sound agent0 host1 = (Err LNoAnswer, s1) ∧
    mc_fs s1 = mc_fs host1 ∧
    ∀ mo' dk' now' g',
      (∃ e, sendHeartbeat (H := plane authority mo') dk' now' g' agent0 s1 = (Err e, s1)) ∧
      (∃ e, renewCert (H := plane authority mo') dk' agent0 s1 = (Err e, s1)).
Proof.
  apply (lost_renewal_shuts_out authority (at_time later deaf) sound cert0 agent0 host1 node0 csr0
    (issued_at later) cert0_in_step (agent0_renewable later deaf (or_introl eq_refl)) agent0_takes_part eq_refl).
  vm_compute. discriminate.
Defined.

(** Long after the certificate has expired. *)
Definition too_late : Z := later + 30 * 24 * hour.

Lemma expired_node_witness :
  sendHeartbeat (H := plane authority (at_time too_late delivered)) sound too_late gauges agent0 host1 =
    (Err LNoAnswer, host1) ∧
  ∃ a' s', renewCert (H := plane authority (at_time too_late delivered)) sound agent0 host1 = (Ok a', s').
Proof.
  destruct (expired_node_stays_out authority cert0 agent0 host1 cert0_in_step agent0_takes_part) as [Hbeat Hrenew].
  split.
  - apply Hbeat. vm_compute. reflexivity.
  - apply (Hrenew (at_time too_late delivered) sound node0 csr0 (issued_at too_late)).
    + intros p. reflexivity.
    + reflexivity.
    + apply agent0_renewable. right. reflexivity.
Defined.


Lemma IssueNode_witness :
  ∃ pem cert, IssueNode authority start (Some 5) csr0 (Uuid 3) "node-1:7443" 0 = Ok (pem, cert) ∧
    ParseNodeID cert = Some (Uuid 3).
Proof.
  destruct (IssueNode authority start (Some 5) csr0 (Uuid 3) "node-1:7443" 0) as [[pem cert]|e] eqn:Hi;
    [|vm_compute in Hi; discriminate Hi].
  exists pem, cert. split; [reflexivity|].
  destruct (IssueNode_spec authority start (Some 5) csr0 (Uuid 3) "node-1:7443" 0 pem cert) as [H _];
    [vm_compute; reflexivity|exact Hi|exact H].
Defined.

Lemma EnsureCA_once_witness : EnsureCA (2 * start) None None (λ _, NotOpened) ca_run.2 = ca_run.
Proof.
  assert (Hok : is_ok ca_run.1 = true) by (vm_compute; reflexivity).
  destruct ca_run as [[c|e] fs] eqn:Hr; [|discriminate Hok].
  exact (EnsureCA_once start (Some ca_key) (Some 1) (λ _, Written) ∅ c fs Hr (2 * start) None None (λ _, NotOpened)).
Defined.

Definition service_run : result ca_error (bytes * bytes) * FS :=
  EnsureServiceCert authority "gw" start (Some [Byte.x03]) (Some 2) (λ _, Written) ∅.

(** A year later the certificate of thirty days is still the one served. *)
Lemma EnsureServiceCert_witness :
  EnsureServiceCert authority "gw" (start + 365 * 24 * hour) None None (λ _, NotOpened) service_run.2 = service_run.
Proof.
  assert (Hok : is_ok service_run.1 = true) by (vm_compute; reflexivity).
  destruct service_run as [[pair|e] fs] eqn:Hr; [|discriminate Hok].
  exact (proj1 (EnsureServiceCert_kept authority "gw" start (Some [Byte.x03]) (Some 2) (λ _, Written) ∅ pair fs Hr)
    (start + 365 * 24 * hour) None None (λ _, NotOpened)).
Defined.

(** ** Nodes and authorities that do not come back *)
Module NodeScene.
Definition failed {A} (r : result life_error A) : option life_error := match r with Ok _ => None | Err e => Some e end.
Definition open_at (dk : Disk) (cfg : Config) (key : bytes) (s : Machine Platform) : result life_error Agent * Machine Platform :=
  Open (H := plane authority (at_time start delivered)) dk "" no_reads (λ _, start) start (Some key) cfg s.
Definition failing (path : string) : Disk :=
  MkDisk false (λ _, false) (λ p, if bool_decide (p = path) then NotOpened else Written) false.

(** A disk that was full when the authority's key was written leaves an empty
    key: every later start loads it and fails. *)
Definition torn_run : result ca_error CA * FS :=
  EnsureCA start (Some ca_key) (Some 1) (λ p, if bool_decide (p = "ca.key"%string) then Torn 0 else Written) ∅.
Example torn_key :
  is_ok torn_run.1 = false ∧ ∀ now key serial out, (EnsureCA now key serial out torn_run.2).1 = Err ECA.
Proof. split; [by vm_compute|]. intros. vm_compute. reflexivity. Qed.

(** The certificate is written before the id: a node that stops in between is
    registered, has used up its code, and does not start again. *)
Definition half : result life_error Agent * Machine Platform := open_at (failing (id_path "/d")) settings node_key host0.
Example half_written_identity :
  failed half.1 = Some LFile ∧ length (db_nodes (pf_db (mc_cp half.2))) = 1%nat ∧
  failed (open_at sound settings node_key half.2).1 = Some LFile.
Proof. by vm_compute. Qed.

(** A key file that cannot be read for a moment is replaced by a new key: the
    certificate on disk does not fit it, then or later. *)
Definition blinked : result life_error Agent * Machine Platform :=
  open_at (MkDisk false (λ p, bool_decide (p = key_path "/d")) (λ _, Written) false) settings [Byte.x09] host1.
Example unread_key_replaced :
  failed blinked.1 = Some LTLS ∧ failed (open_at sound settings node_key blinked.2).1 = Some LTLS.
Proof. by vm_compute. Qed.

(** A lost answer to the registration: the code is used, the node has nothing. *)
Definition unheard : result life_error Agent * Machine Platform :=
  Open (H := plane authority (at_time start (MkLinks ResponseLost Delivered Delivered Delivered))) sound "" no_reads
    (λ _, start) start (Some node_key) settings host0.
Example lost_registration :
  failed unheard.1 = Some LNoAnswer ∧ failed (open_at sound settings node_key unheard.2).1 = Some (LStatus 409).
Proof. by vm_compute. Qed.

(** An answer without a certificate: the agent keeps the one it has and has
    already overwritten it on disk. *)
Definition careless : ControlPlane Platform := {|
  cp_register := plane_register authority (at_time start delivered);
  cp_renew _ _ p := (Some (MkReply 200 (Some ([], []))), p);
  cp_heartbeat := plane_heartbeat authority (at_time start delivered);
  cp_scrub := plane_scrub authority (at_time start delivered) |}.
Definition unusable : result life_error Agent * Machine Platform := renewCert (H := careless) sound agent0 host1.
Example unusable_certificate_kept :
  failed unusable.1 = Some LTLS ∧ failed (open_at sound settings node_key unusable.2).1 = Some LTLS.
Proof. by vm_compute. Qed.

(** A registered node whose code comes in a file does not start once the file is
    gone, although it needs no code. *)
Definition by_file : Config :=
  MkConfig "/d" 10 1 "node-1:7443" "https://metadata:8444" "https://healthmon:8443" (cfg_TicketPublicKey settings) ""
    ":9000" ":7443" "/ca.crt" "linux" "m2" "".
Example code_file_gone :
  failed (Open (H := plane authority (at_time start delivered)) sound "/code" no_reads
    (λ i, start + Z.of_nat i * poll_pause) start None by_file host1).1 = Some LConfig ∧
  failed (open_at sound by_file node_key host1).1 = None.
Proof. by vm_compute. Qed.

(** The listener goes on with the certificate it was started with. *)
Definition turned : Serving * Machine Platform :=
  heartbeat_turn (cp := plane authority (at_time later delivered)) sound later gauges (ServeFragments agent0) host1.
Example listener_not_renewed :
  bool_decide (ag_tlsCert (sv_agent turned.1) = ag_tlsCert agent0) = false ∧
  bool_decide ((sv_listener turned.1).1 = ag_tlsCert agent0) = true.
Proof. by vm_compute. Qed.

(** Settings of 2^33 gigabytes and more overflow: the node reports no room. *)
Definition huge (v : string) : result life_error Config :=
  LoadConfig (λ _ c, Some c) "linux"
    (λ x, if bool_decide (x = "MAX_STORAGE_GB"%string) then v
          else if bool_decide (x ∈ ["ENDPOINT"; "REGISTER_URL"; "TICKET_PUBLIC_KEY"]%string) then "x" else ""%string)
    sound ∅ "".
Example capacity_overflows :
  (capacityBytes <$> match huge "8589934592" with Ok c => Some c | Err _ => None end) = Some (- 2^63) ∧
  (capacityBytes <$> match huge "99999999999999999999" with Ok c => Some c | Err _ => None end) = Some (- 2^30) ∧
  (cfg_MaxStorageGB <$> match huge "1e3" with Ok c => Some c | Err _ => None end) = Some 10.
Proof. by vm_compute. Qed.
End NodeScene.
