(* ===== verification/WitnessesFleet.v ===== *)
(** * Concrete runs over the network of nodes

    One node, with a certificate of the toy authority of [CA.ToyX509], and the
    database of [Metadata.Scene]: the witnesses of the theorems of [Fleet] and
    [Rounds]. *)

From S2P Require Import Prelude GoFloat Bytes Sha256 Crypto Schema Nodes World Placements Files Net Url Uploads Wire Scheduler.
From S2P Require Import Health Tickets Receipts Agent Challenges Metadata Service CA NodeAgent RepairPlan.
From S2P Require Import Transfer Command Workers Auditing Repair Fleet Rounds.

#[local] Existing Instance ToyEd25519.scheme.
#[local] Existing Instance ToyEd25519.laws.
#[local] Existing Instance ToyText.text.
#[local] Existing Instance ToyText.text_laws.
#[local] Existing Instance ToyX509.x509.
Import Metadata.Scene.
#[local] Instance nowhere : Placer := λ _, throw (StoreErr EConflict).

(** ** A node on the network *)

Definition id1 : uuid := Uuid 1.
Definition frag30 : uuid := Uuid 30.
Definition signer : bytes := key Byte.x09.
Definition endpoint1 : string := "node-1:7443".
Definition leaf : bytes :=
  default [] (CreateCertificate (node_template 0 1 (uuid_String id1) [chars "node-1"] [] NodeTTL)
    (ca_template 0 1) (ed_public (key Byte.x01)) (key Byte.x08)).
Definition site (cs : ChunkStore) : Site := MkSite id1 (key Byte.x01) (ed_public signer) [leaf] cs.
Definition fleet_of (cs : ChunkStore) : Fleet := MkFleet {[ id1 := site cs ]} 0.

Definition dns (addr : chrs * chrs) : option uuid :=
  if bool_decide (addr = (chars "node-1", chars "7443")) then Some id1 else None.
Definition trust (chain : list bytes) (name : chrs) (_ : Z) : bool :=
  bool_decide (chain = [leaf]) && bool_decide (name = chars "node-1").
Definition calm (_ : nat) : Weather := MkWeather Delivered (5 * second) false no_put_faults false.

Lemma leaf_names node : ClientTLS node [leaf] = true → node = id1.
Proof.
  assert (Hp : ParseNodeID <$> ParseCertificate leaf = Some (Some id1)) by (vm_compute; reflexivity).
  unfold ClientTLS. cbn [head hd_error]. destruct (ParseCertificate leaf) as [c|]; [|done].
  assert (ParseNodeID c = Some id1) as -> by (by injection Hp). intros Hn%bool_decide_eq_true. by injection Hn.
Qed.

Lemma fleet_names cs : own_names (fl_sites (fleet_of cs)).
Proof.
  intros i st Hst. cbn [fleet_of fl_sites] in Hst. apply lookup_singleton_Some in Hst as [<- <-]. split; [done|]. intros node. apply leaf_names.
Qed.

(** ** Storing *)

Definition four : bytes := [Byte.x01; Byte.x02; Byte.x03; Byte.x04].
Definition nonce16 : bytes := repeat Byte.x07 16.
Definition wire_of (op : bytes) (max : Z) : bytes :=
  match Tickets.Sign signer 0 (Some nonce16) (MkTicket op frag30 id1 (sha256 four) max time_zero [] []) with
  | Ok t => tk_Raw t
  | Err _ => []
  end.
Definition put_run1 := w_putFragment dns trust calm "" endpoint1 id1 frag30 (wire_of OpPut 4) four (fleet_of store_empty).

Lemma wire_bounded : bounded (wire_of OpPut 4).
Proof.
  intros wire pub now op node frag tk Hh Hv.
  assert (Hw : header_value (wire_of OpPut 4) = Some (wire_of OpPut 4)) by (vm_compute; reflexivity).
  rewrite Hw in Hh. injection Hh as <-. apply Verify_inv in Hv as (sig&Hd&_&Hwf&_).
  assert (Hd' : fst <$> decodeWire (wire_of OpPut 4) =
    Some (Tickets.encode (MkTicket OpPut frag30 id1 (sha256 four) 4 (900 * second) nonce16 []))) by (vm_compute; reflexivity).
  rewrite Hd in Hd'. apply (f_equal (λ o, Tickets.decode (default [] o))) in Hd' as Henc.
  cbn [default from_option fmap option_fmap option_map fst] in Henc. unfold Datatypes.id in Henc. rewrite ticket_decode_encode in Henc by done.
  apply (f_equal (λ r, match r with Ok t => tk_MaxBytes t | Err _ => 0 end)) in Henc. cbn [tk_MaxBytes] in Henc.
  rewrite Henc. vm_compute. reflexivity.
Qed.

Lemma receipt_means_stored_witness :
  match put_run1 with
  | (Ok rec, f') => holds (fl_sites f') id1 frag30 four ∧
      is_ok (Receipts.Verify rec (ed_public (key Byte.x01)) id1 frag30 (sha256 four) (wrap_u64 4)) = true
  | _ => False
  end.
Proof.
  assert (Hok : is_ok put_run1.1 = true) by (vm_compute; reflexivity).
  destruct put_run1 as [[rec|e] f'] eqn:Hp; [|discriminate Hok].
  apply (receipt_means_stored dns trust calm id1 frag30 four (wire_of OpPut 4) (fleet_of store_empty) rec f' (site store_empty)).
  - apply fleet_names.
  - reflexivity.
  - reflexivity.
  - apply wire_bounded.
  - apply lookup_singleton_eq.
  - reflexivity.
  - split; vm_compute; [discriminate|reflexivity].
  - left. exists ""%string, endpoint1. exact Hp.
Defined.

(** ** The reaper *)

Definition node_1 : Node :=
  MkNode id1 (Uuid 11) [] (ed_public (key Byte.x01)) "" None "" "" "" "" "" None endpoint1 100 0 NOnline
    F32.one 0 None None None None F32.zero F32.zero F32.zero F32.zero 0.
Definition doomed : World := world (upd_db_nodes (λ _, [node_1]) (db 1 [copy 1 30 1 PExpiring; copy 2 31 1 PStored])).
Definition drawn (_ : MetaCall) (_ : nat) : option bytes := Some nonce16.
Definition metadata : WorkerMeta World := StoreMeta signer 0 drawn.
Definition holding_four : ChunkStore :=
  MkChunkStore {[frag30 := four]} {[frag30 := MkMeta 4 (sha256 four) 100 5 5]} ∅.

Lemma doomed_rows : db_placements (w_db doomed) = [copy 1 30 1 PExpiring; copy 2 31 1 PStored].
Proof. reflexivity. Qed.
Lemma pass_deletes :
  pl_Status <$> db_placements (w_db (reap_once metadata (WorkerAgents dns trust calm "") (doomed, fleet_of holding_four)).2.1) =
    [PDeleted; PStored].
Proof. vm_compute. reflexivity. Qed.


(** ** An audit *)

Definition stocked : World :=
  let set := ComputeChallengeSet four frag30 id1 8 4096 (λ _, (1, 2, nonce16)) in
  world (upd_db_challenges (λ _, set) (upd_db_nodes (λ _, [node_1]) (db 1 [copy 1 30 1 PStored]))).
Definition target : AuditTarget := MkAuditTarget 1 frag30 id1 (Uuid 20) 4 sha endpoint1 F32.one 8.
Definition asked_first : Challenge := one_challenge four frag30 id1 4096 (λ _, (1, 2, nonce16)) 0.
Definition minted_ticket : ChallengeTicket :=
  match (wm_Tickets metadata frag30 id1 [OpChallenge] stocked).1 with
  | Ok (tk :: _) => tk
  | _ => MkChallengeTicket frag30 id1 [] [] [] 0 ""
  end.

